(* ===== verification/_CoqProject ===== *)
-Q . S2P
Prelude.v
PyBytes.v
PyText.v
PyPath.v
PyDate.v
Regex.v
RegexSem.v
Errors.v
Redaction.v
IusbFrame.v
IusbCache.v
IusbCacheRace.v
IusbDevice.v
Transport.v
IusbSession.v
Ivtp.v
DaemonRuntime.v
DaemonSpawn.v
MediaSession.v
Models.v
PyValue.v
Webvar.v
Asp.v
AspLock.v
Ansible.v
MediaStart.v
Secrecy.v
Ipmi.v
IpmiModules.v
AsmbNtp.v
AsmbReports.v
AsmbSel.v
AsmbSessions.v
AsmbSensors.v
AsmbInventory.v
AsmbPostcode.v
AsmbRedirection.v
AsmbInfo.v
AsmbConsole.v
AsmbMedia.v
MediaAttach.v
Url.v
BootstrapImage.v
HttpRange.v
HttpPath.v
HttpOrigin.v
HttpThreads.v
AsmbHttpOrigin.v
OriginStart.v
AsmbReadOnly.v
AsmbAnswers.v
