(* ===== verification/Prelude.v ===== *)
(** * A verification of the asmb8_ikvm Ansible collection

    The collection drives the remote-management controller of ASMB8 server
    boards.  Its core is a set of Python modules under
    src/plugins/module_utils: a client of the controller's web pages, an
    iUSB client that plays an ISO image to the server as a virtual CD-ROM, an
    IVTP client that captures the console, a confined HTTP file server for
    installers, and two background daemons that keep the image and the file
    server available after an Ansible task has ended.  Above them stand the
    modules that a playbook calls, under src/plugins/modules.  This library
    translates that code into Rocq functions and proves what makes it
    correct.

    ** The program and the files of the library

    - errors.py: the failure classes, the redaction of secrets and the base
      exception.  [Errors], over the backtracking regular-expression matcher
      of [Regex] (the patterns of the source, with groups, look-ahead and
      back-references).  [RegexSem] is what a match means, as a relation, and
      [Redaction] what redaction guarantees.
    - iusb.py, frames: [Header], [Packet], [build_auth], [interpret_ack],
      request and response frames.  [IusbFrame].
    - iusb.py, the image: [FileReader] and the read-ahead [Cache] with its
      least-recently-used windows and write-through.  [IusbCache]; several
      threads inside one cache, step by step, in [IusbCacheRace].
    - iusb.py, the device: [CDROMDevice.handle] with every SCSI command it
      answers, [process_frame].  [IusbDevice].
    - iusb.py and ivtp.py, transports: sockets that deliver bytes in chunks,
      with time-outs and resets between them.  [Transport].
    - iusb.py, sessions: connecting, the authentication handshake,
      [serve_forever].  [IusbSession].
    - ivtp.py: packets, handshake, status tables, frame reassembly, capture.
      [Ivtp].
    - daemon_runtime.py: state files, signals, bounded waits.
      [DaemonRuntime]; its Module [StateRace] has the two writers of a state
      file as a step relation on system calls.  [DaemonSpawn] has the double
      fork of both [spawn_session] functions as three interleaved processes
      and, in its Module [Fds], the redirection of the standard streams.
    - media_session.py: the record, idle bookkeeping, the read trace,
      reclamation of a controller's single media slot, and the daemon from
      its first write to its last.  [MediaSession], which calls [IusbSession]
      and [IusbDevice] and takes the allocation of a token as a parameter;
      [MediaStart] puts the client of [Asp] there.
    - models.py: coercions, the JNLP session, operation receipts.  [Models].
    - webvar.py: the response parser and its bracket scanner.  [Webvar].
    - asp.py: transport gate, trust policy, the JNLP scan and [AspClient]
      with its bounded retries, login, reads, writes and the allocation of a
      media session.  [Asp], which calls [Webvar] and [Models]; [AspLock]
      has threads that share one client, interleaved at its lock.
    - [Secrecy] has no code of its own: it follows the secrets through the
      errors of the client and the record of the media daemon.
    - plugins/modules/asmb8_media.py: attach, detach, main.  [AsmbMedia],
      which calls [MediaSession] and the transport gate of [Asp].
      [MediaAttach] runs it together with the daemon of [MediaStart].
    - http_origin.py: percent-encoding and UTF-8 in [Url], the Range header
      in [HttpRange], directory tree, symbolic links and path confinement in
      [HttpPath], handler, self-test and daemon in [HttpOrigin]; the threads
      that write its one state file, interleaved at their system calls, in
      [HttpThreads].
    - plugins/modules/asmb8_http_origin.py: start, stop, main.
      [AsmbHttpOrigin], which calls [HttpOrigin] and [DaemonRuntime];
      [OriginStart] runs it together with the server it starts.
    - bootstrap_image.py and asmb8_bootstrap_image.py: host aliases, the iPXE
      script, the size budget, the external builder.  [BootstrapImage], over
      the path functions of [PyPath].
    - ipmi.py: the classification of the IPMI library's errors and
      [IpmiClient].  [Ipmi].  Its modules power, boot, identify and reset, in
      [IpmiModules]: how each plans, acts and reads back.
    - What every module shares, the argument specification, check mode, the
      three ways to leave a module: [Ansible], over the dynamically typed
      Python values of [PyValue].
    - asmb8_ntp.py: [AsmbNtp].  The reports users, network, alerts and
      auditlog: [AsmbReports].  The event log: [AsmbSel], with the calendar
      of [PyDate].  Sessions and services, sensors, inventory, POST codes,
      redirection, facts and console: [AsmbSessions], [AsmbSensors],
      [AsmbInventory], [AsmbPostcode], [AsmbRedirection], [AsmbInfo] and
      [AsmbConsole], each with a Module of that name.
    - [AsmbReadOnly] and [AsmbAnswers] have no code of their own: they state,
      over the modules above, that the reports never write, that the argument
      specifications are well formed, and that a run comes to an answer.

    [Prelude], [PyBytes], [PyText], [PyPath], [PyDate] and [PyValue] hold what
    the components share: results, the computation monad, automation,
    Python's byte strings, integers, texts, paths, dates and values.

    ** Conventions

    Integers are Python's unbounded integers ([Z]); every narrowing to 8, 16
    or 32 bits is written out, and [int.to_bytes] fails where Python raises
    [OverflowError].  A byte string is a list of integers, a text the list of
    its code points.  Pure code that may raise returns a [result]; code that
    talks to the world is a function in the monad [io], whose outcomes are a
    value, an exception (with the state reached so far) and [Blocked], a wait
    that never ends.  An exception is a value of [Errors.exn], classified
    errors and the bare Python exceptions alike, so that a theorem can say
    which ones escape.  A dictionary whose order matters is an association
    list.  What the code reads from outside (what the peer sends, what the
    other processes do during a sleep, what a fork or a bind gives, the
    clock) is an argument of the model.

    ** What is proved

    - The disc.  [IusbDevice] has an abstract disc (an image as a list of
      bytes, every answer and its envelope written out byte by byte, apart
      from the code); the class [IusbCache.ReaderOk] says
      that a reader returns the bytes of a medium.  The device refines the
      disc over every such reader; the direct reader and the cache are
      instances, so a cached and an uncached device are indistinguishable.
      The cache is shown transparent, bounded, and coherent after writes;
      threads that share it get their bytes in every interleaving, over a
      backing whose reads are indivisible.
    - The wire.  Codecs round trip.  [serve_forever] refines a specification
      on whole requests and idle polls: how the stream was cut into chunks
      makes no difference, the loop ends when the peer ends, and only
      classified errors leave it.  The IVTP handshake and the frame capture
      are characterised: the class of every refusal by the number on the
      wire, every packet that is sent, every frame that is put together.
    - The media daemon.  End to end, from the playbook's task over the login
      and the token of the launch document to the eject, the module reports
      the daemon it forked, the replies are those of the disc, the trace and
      the counters those of the requests; what stops the daemon before it
      serves is what the module fails with, redacted.  Every run whose peer
      hangs up in the end and whose writes succeed ends with a published
      terminal record, and with its connection closed; only the socket of a
      refused handshake is left open, as a theorem shows.  Starting it comes
      back with its pid in every interleaving of the three processes.  Readers
      of the state file never see a torn or stale report in any interleaving
      with the parent.  Attach reports success only for an attached session;
      detach and reclamation return and touch no other session, as long as
      the processes may be signalled and the files be read.
    - The HTTP origin.  A request that is not refused resolves below the
      root and reaches the node at that very path, when no loop of links is
      met; with one the confinement fails, as a theorem shows.  A response is
      exactly the range asked for, by a specification of well-formed Range
      headers that does not use the parser; every request is counted and
      logged; the daemon reports that it serves only after the request of
      that very run had come back with the probe file, at whatever point its
      startup is cut off; a healthy one passes that test, and it ends at its
      deadline, with a server that stops or without; the module that started
      it reports its pid, port and URL, in one theorem from the task to the
      stop.  Handler threads lose no request and tear no record in any
      interleaving; the main thread's last report, written without their
      lock, can be lost to one of them, as a run shows.
    - Secrets.  A secret that was passed to [redact], if it has no bracket,
      slash or greater-than sign and is no part of the marker, is not to be
      found in its result, across every pattern and every seam; so no error of the web
      client (but those of the response parser) shows the password or a
      session secret, and no record of the media daemon its password or
      token.
    - The web client.  Retries are bounded and only follow a request that
      was taken and not answered; a login is believed only on a genuine
      cookie, a write only on status zero in a complete answer; the bracket
      scanner is exact, and a response is never half parsed; the JNLP scan
      reads back every document of plain values; the trust a client applies
      (pin, CA path, verification) is exactly the one it was given; receipts are redacted at every depth.
      Threads that share a client take turns on the wire, and each gets what
      it would get alone.
    - The modules.  Every report issues reads only, on every branch, errors
      included.  The writing modules act exactly as their plan says: nothing
      in check mode, nothing when the state asked for is there, and what they
      announce in check mode is what they would do; the calls of the IPMI
      modules are given exactly, from the replies, and the result of a power
      run on every branch.  The console and the
      sampling of POST codes end whenever the peer does, and the console
      always gives back the session it opened: the stop packet last, then
      the close.
      What a report shows is what was read: time stamps, packed decimals and
      entries are decoded without loss, secrets are reduced to whether they
      are set, and a page that fails leaves the others as they were.  The
      web modules come to an answer whatever the controller sends, but for the
      decoders whose exceptions three of them do not catch.
    - The image.  A builder that returns gives an image within its budget.

    Some theorems exhibit defects; they say so in their comments.

    ** Fuel

    Loops that are not structural take fuel, and running out of it is
    [Blocked] (or [OutOfFuel]), so a theorem that a call returns also shows
    the fuel sufficient.  The bounds: the serve and capture loops one step
    per event left on the connection plus one; waits and the control loop
    their time-out divided by the poll interval plus two; the copy loop one
    step per byte plus one; [realpath] one nesting level per symbolic link
    plus one ([HttpPath.realpath_terminates]); the regular-expression matcher
    bounds a star by the characters left; the sampling of POST codes takes its
    duration divided by the interval plus one.  The probe search of the self-test
    goes one level deeper than the deepest path of the tree, where a
    directory has no entries.

    ** What is not modelled

    The TLS handshake, socket options, address resolution and the routing
    table are calls of the system with no logic of the program in them; the
    clock and the random session identifier are inputs. The HTTP library
    under the web client is the sequence of outcomes its attempts have, and
    [ast.literal_eval] an arbitrary function. [AnsibleModule] is a
    parameter: what it hands to a module is an argument, what a module hands
    back a value; pyghmi, the IPMI library, is the outcome of each of its
    calls, and the external image builder a function of its command. A float
    is kept as the text that Python prints for it. The documentation strings
    of the modules and the document fragments are data for a reader (more
    than half of the lines under src/plugins); lists of exported names,
    operation codes nothing uses and the abstract transport classes carry no
    behaviour.  Every module has its own copy of [build_asp_client] and of
    [build_ipmi_client]; the copies are the same and modelled once, in
    [Ansible] and [IpmiModules] (the copies of [_connection_argument_spec] are
    written out module by module). In
    [HttpOrigin] the threads of the server appear in the order in which
    requests finish; a login while another thread of the same client sends
    is left out. Letter case is exact for ASCII only, and [int] of a text
    has no limit on its digits. Path resolution is that of CPython 3.11 and
    3.12; a directory has one permission bit; the served root is given as an
    absolute path.

    ** Limits of the composition

    Where a module and its daemon are run together ([MediaAttach],
    [OriginStart]) each has its own copy of the runtime directory, and what
    passes between them is the state file: the record the module finds at
    its polls is one the daemon publishes.  That such a record is never torn
    or stale is the business of [DaemonRuntime.StateRace], that the fork
    comes back with the daemon's pid that of [DaemonSpawn].  A value that was
    not passed to [redact] as a secret is removed by the labelled patterns
    only, and of those no completeness is claimed. *)
From Stdlib Require Import ZArith Lia Ascii String.
From stdpp Require Import prelude.

Declare Scope ikvm_scope.
Delimit Scope ikvm_scope with ikvm.
Open Scope ikvm_scope.

#[global] Open Scope Z_scope.

(** ** Results of pure fallible code: a value or a raised exception. *)

Inductive result (E A : Type) : Type :=
  | Ok (a : A)
  | Err (e : E).
Arguments Ok {E A} a.
Arguments Err {E A} e.

Definition rbind {E A B} (c : result E A) (k : A -> result E B) : result E B :=
  match c with
  | Ok a => k a
  | Err e => Err e
  end.

Lemma Ok_inj {E A} (a b : A) : @Ok E A a = Ok b -> a = b.
Proof. congruence. Qed.

Notation "'let*' x ':=' c 'in' k" := (rbind c (fun x => k))
  (at level 10, x pattern, c at level 100, k at level 200)
  : ikvm_scope.

(** ** Interactive code

    A step that reads the outside world may return, raise, or wait for ever
    for an event that does not come ([Blocked]): an exception handler
    intercepts the second, nothing intercepts the third. *)

Inductive outcome (E A : Type) : Type :=
  | Ret (a : A)
  | Raise (e : E)
  | Blocked.
Arguments Ret {E A} a.
Arguments Raise {E A} e.
Arguments Blocked {E A}.

(** Computations over a state [S]; the state survives a raised exception. *)
Definition io (S E A : Type) : Type := S -> outcome E A * S.

Definition io_ret {S E A} (a : A) : io S E A := fun s => (Ret a, s).
Definition io_raise {S E A} (e : E) : io S E A := fun s => (Raise e, s).
Definition io_bind {S E A B} (c : io S E A) (k : A -> io S E B) : io S E B :=
  fun s =>
    match c s with
    | (Ret a, s') => k a s'
    | (Raise e, s') => (Raise e, s')
    | (Blocked, s') => (Blocked, s')
    end.
Definition io_get {S E} : io S E S := fun s => (Ret s, s).
Definition io_put {S E} (s : S) : io S E unit := fun _ => (Ret tt, s).
Definition io_modify {S E} (f : S -> S) : io S E unit := fun s => (Ret tt, f s).
Definition io_lift {S E A} (c : result E A) : io S E A :=
  match c with
  | Ok a => io_ret a
  | Err e => io_raise e
  end.
(** [try: c except e: h e] *)
Definition io_try {S E A} (c : io S E A) (h : E -> io S E A) : io S E A :=
  fun s =>
    match c s with
    | (Raise e, s') => h e s'
    | r => r
    end.

Notation "'do' x '<-' c ';' k" := (io_bind c (fun x => k))
  (at level 10, x pattern, c at level 100, k at level 200)
  : ikvm_scope.
Notation "'run' c ';' k" := (io_bind c (fun _ => k))
  (at level 10, c at level 100, k at level 200)
  : ikvm_scope.

(** ** Automation *)

Create HintDb ikvm.

(** Split every match and every test of the goal. *)
Ltac split_ifs :=
  repeat match goal with
    | |- context [if ?b then _ else _] => destruct b eqn:?
    | |- context [match ?x with _ => _ end] => destruct x eqn:?
    end.

(** Turn boolean comparisons of the context into propositions. *)
Ltac bool_to_prop :=
  repeat match goal with
    | H : andb _ _ = true |- _ => apply andb_prop in H as [? ?]
    | H : orb _ _ = false |- _ => apply orb_false_elim in H as [? ?]
    | H : negb _ = true |- _ => apply negb_true_iff in H
    | H : negb _ = false |- _ => apply negb_false_iff in H
    | H : (_ <? _)%Z = true |- _ => apply Z.ltb_lt in H
    | H : (_ <? _)%Z = false |- _ => apply Z.ltb_ge in H
    | H : (_ <=? _)%Z = true |- _ => apply Z.leb_le in H
    | H : (_ <=? _)%Z = false |- _ => apply Z.leb_gt in H
    | H : (_ =? _)%Z = true |- _ => apply Z.eqb_eq in H
    | H : (_ =? _)%Z = false |- _ => apply Z.eqb_neq in H
    | H : (_ <? _)%nat = true |- _ => apply Nat.ltb_lt in H
    | H : (_ <? _)%nat = false |- _ => apply Nat.ltb_ge in H
    | H : (_ <=? _)%nat = true |- _ => apply Nat.leb_le in H
    | H : (_ <=? _)%nat = false |- _ => apply Nat.leb_gt in H
    | H : (_ =? _)%nat = true |- _ => apply Nat.eqb_eq in H
    | H : (_ =? _)%nat = false |- _ => apply Nat.eqb_neq in H
    end.

Ltac blia := bool_to_prop; lia.

(** Solve a goal closed by computation. *)
Ltac by_compute := vm_compute; try reflexivity; try discriminate.

(** ** Generic lemmas on lists *)

(** One summand replaced by another. *)
Lemma sum_with_insert {A} (f : A -> nat) (l : list A) i x y :
  l !! i = Some x -> (sum_list_with f (<[i := y]> l) + f x = sum_list_with f l + f y)%nat.
Proof.
  revert i. induction l as [|z l IH]; intros [|i] Hi; try done.
  - injection Hi as ->. simpl. lia.
  - specialize (IH i Hi). simpl. lia.
Qed.

Section Lists.
Context {A : Type}.
Implicit Types l k : list A.

Lemma take_drop_slice l (i j : nat) :
  take j (drop i l) = drop i (take (i + j) l).
Proof. by rewrite skipn_firstn_comm, Nat.add_comm, Nat.add_sub. Qed.

(** A slice splits at any inner point. *)
Lemma slice_split l (i a b : nat) :
  take (a + b) (drop i l) = take a (drop i l) ++ take b (drop (i + a) l).
Proof.
  rewrite <- (drop_drop l a i).
  by rewrite take_take_drop.
Qed.

Lemma Forall_take_drop (P : A -> Prop) l i j :
  Forall P l -> Forall P (take j (drop i l)).
Proof. intros H. by apply Forall_take, Forall_drop. Qed.

Lemma NoDup_snoc l x : NoDup (l ++ [x]) <-> NoDup l /\ x ∉ l.
Proof.
  rewrite list.NoDup_app. split.
  - intros (H1 & H2 & _). split; [done|]. intros Hin. apply (H2 x Hin). set_solver.
  - intros [H1 H2]. split_and!; [done| |apply NoDup_singleton].
    intros y Hy ->%list_elem_of_singleton. done.
Qed.
End Lists.

(** Association lists keyed by a decidable type, as an insertion ordered
    Python dictionary: [assoc_set] replaces in place or appends. *)
Section Assoc.
Context {K V : Type} `{EqDecision K}.

Fixpoint assoc_get (d : list (K * V)) (k : K) : option V :=
  match d with
  | [] => None
  | (k', v) :: d => if decide (k = k') then Some v else assoc_get d k
  end.

Fixpoint assoc_set (d : list (K * V)) (k : K) (v : V) : list (K * V) :=
  match d with
  | [] => [(k, v)]
  | (k', v') :: d => if decide (k = k') then (k, v) :: d else (k', v') :: assoc_set d k v
  end.

Definition assoc_del (d : list (K * V)) (k : K) : list (K * V) :=
  List.filter (fun p => negb (bool_decide (k = fst p))) d.

Lemma assoc_get_set_eq d k v : assoc_get (assoc_set d k v) k = Some v.
Proof. induction d as [|[k' v'] d IH]; simpl; repeat (case_decide; simpl); congruence. Qed.

Lemma assoc_get_set_ne d k k' v :
  k <> k' -> assoc_get (assoc_set d k v) k' = assoc_get d k'.
Proof. intros Hne. induction d as [|[a b] d IH]; simpl; repeat (case_decide; simpl); congruence. Qed.

Lemma assoc_get_del_eq d k : assoc_get (assoc_del d k) k = None.
Proof.
  induction d as [|[a b] d IH]; simpl; [done|]. unfold assoc_del in *. simpl.
  case_bool_decide; simpl; [done|]. by rewrite decide_False.
Qed.

Lemma assoc_get_del_ne d k k' :
  k <> k' -> assoc_get (assoc_del d k) k' = assoc_get d k'.
Proof.
  intros Hne. induction d as [|[a b] d IH]; simpl; [done|]. unfold assoc_del in *. simpl.
  case_bool_decide; simpl; repeat case_decide; congruence.
Qed.

Lemma assoc_get_in d k v : assoc_get d k = Some v -> (k, v) ∈ d.
Proof.
  induction d as [|[a b] d IH]; simpl; [done|].
  case_decide as Hk; intros Hget; simplify_eq; [by left|]. right. by apply IH.
Qed.

Lemma assoc_get_none d k : assoc_get d k = None <-> k ∉ d.*1.
Proof.
  induction d as [|[a b] d IH]; simpl.
  - split; [intros _; apply not_elem_of_nil|done].
  - rewrite not_elem_of_cons. case_decide as Hk.
    + split; [done|intros [? _]; done].
    + rewrite IH. split; [done|intros [_ ?]; done].
Qed.
End Assoc.

(** ** Reasoning about computations

    What a computation may raise, whether it may block, and relations on
    states it cannot distinguish.  The rules are resolved by [eauto] from the
    database [ikvm]. *)
Section IoLogic.
Context {S E : Type}.

Definition raises_only {A} (P : E -> Prop) (c : io S E A) : Prop :=
  forall s e, (c s).1 = Raise e -> P e.

Definition never_blocks {A} (c : io S E A) : Prop := forall s, (c s).1 <> Blocked.

Definition respects {A} (R : S -> S -> Prop) (c : io S E A) : Prop :=
  forall s s', R s s' -> (c s).1 = (c s').1 /\ R (c s).2 (c s').2.

Lemma raises_ret {A} P (a : A) : raises_only P (io_ret a).
Proof. by intros s e. Qed.
Lemma raises_modify P f : raises_only P (io_modify f).
Proof. by intros s e. Qed.
Lemma raises_raise {A} (P : E -> Prop) e : P e -> raises_only P (io_raise (A := A) e).
Proof. by intros H s e' [= <-]. Qed.
Lemma raises_bind {A B} P (c : io S E A) (k : A -> io S E B) :
  raises_only P c -> (forall a, raises_only P (k a)) -> raises_only P (io_bind c k).
Proof.
  intros Hc Hk s e. unfold io_bind. pose proof (Hc s) as Hs.
  destruct (c s) as [[a|e'|] s']; [apply Hk| |done]. cbn. intros [= <-]. by apply Hs.
Qed.
Lemma raises_try {A} (P Q : E -> Prop) (c : io S E A) h :
  raises_only Q c -> (forall e, Q e -> raises_only P (h e)) -> raises_only P (io_try c h).
Proof.
  intros Hc Hh s e. unfold io_try. pose proof (Hc s) as Hs.
  destruct (c s) as [[a|e'|] s']; [done| |done]. apply Hh. by apply Hs.
Qed.
Lemma raises_weaken {A} (P Q : E -> Prop) (c : io S E A) :
  raises_only P c -> (forall e, P e -> Q e) -> raises_only Q c.
Proof. intros Hc HPQ s e He. apply HPQ. by eapply Hc. Qed.

Lemma nb_ret {A} (a : A) : never_blocks (io_ret a).
Proof. by intros s. Qed.
Lemma nb_raise {A} e : never_blocks (io_raise (A := A) e).
Proof. by intros s. Qed.
Lemma nb_modify f : never_blocks (io_modify f).
Proof. by intros s. Qed.
Lemma nb_get : never_blocks io_get.
Proof. by intros s. Qed.
Lemma nb_lift {A} (c : result E A) : never_blocks (io_lift c).
Proof. by destruct c; intros s. Qed.
Lemma nb_bind {A B} (c : io S E A) (k : A -> io S E B) :
  never_blocks c -> (forall a, never_blocks (k a)) -> never_blocks (io_bind c k).
Proof.
  intros Hc Hk s. unfold io_bind. pose proof (Hc s) as Hs.
  destruct (c s) as [[a|e|] s']; [apply Hk|done|done].
Qed.

Lemma respects_ret {A} R (a : A) : respects R (io_ret a).
Proof. by intros s s'. Qed.
Lemma respects_raise {A} R (e : E) : respects R (io_raise (A := A) e).
Proof. by intros s s'. Qed.
Lemma respects_lift {A} R (c : result E A) : respects R (io_lift c).
Proof. by destruct c; intros s s'. Qed.
Lemma respects_modify (R : S -> S -> Prop) f :
  (forall s s', R s s' -> R (f s) (f s')) -> respects R (io_modify f).
Proof. intros H s s' HR. split; [done|]. by apply H. Qed.
Lemma respects_bind {A B} R (c : io S E A) (k : A -> io S E B) :
  respects R c -> (forall a, respects R (k a)) -> respects R (io_bind c k).
Proof.
  intros Hc Hk s s' HR. unfold io_bind. destruct (Hc s s' HR) as [H1 H2].
  destruct (c s) as [o t], (c s') as [o' t']. cbn in H1, H2. subst o'.
  destruct o; [by apply Hk|done..].
Qed.
Lemma respects_try {A} R (c : io S E A) h :
  respects R c -> (forall e, respects R (h e)) -> respects R (io_try c h).
Proof.
  intros Hc Hh s s' HR. unfold io_try. destruct (Hc s s' HR) as [H1 H2].
  destruct (c s) as [o t], (c s') as [o' t']. cbn in H1, H2. subst o'.
  destruct o; [done|by apply Hh|done].
Qed.
End IoLogic.

(** A sequence that returned did so step by step. *)
Lemma io_bind_inv {S E A B} (c : io S E A) (k : A -> io S E B) s b s' :
  io_bind c k s = (Ret b, s') -> exists a s1, c s = (Ret a, s1) /\ k a s1 = (Ret b, s').
Proof. unfold io_bind. destruct (c s) as [[a|e|] s1]; [|done|done]. intros H. by exists a, s1. Qed.

(** *** Triples

    [triple P c Q R]: started in [P], [c] returns a value in [Q], raises in
    [R], or never ends. *)
Section Triples.
Context {S E : Type}.

Definition triple {A} (P : S -> Prop) (c : io S E A) (Q : A -> S -> Prop) (R : E -> S -> Prop) : Prop :=
  forall s, P s ->
    match c s with
    | (Ret a, s') => Q a s'
    | (Raise e, s') => R e s'
    | (Blocked, _) => True
    end.

Lemma triple_ret {A} (a : A) P (Q : A -> S -> Prop) R : (forall s, P s -> Q a s) -> triple P (io_ret a) Q R.
Proof. intros H s Hs. by apply H. Qed.
Lemma triple_raise {A} e P (Q : A -> S -> Prop) (R : E -> S -> Prop) :
  (forall s, P s -> R e s) -> triple P (io_raise e) Q R.
Proof. intros H s Hs. by apply H. Qed.
Lemma triple_modify f P (Q : unit -> S -> Prop) R : (forall s, P s -> Q tt (f s)) -> triple P (io_modify f) Q R.
Proof. intros H s Hs. by apply H. Qed.
Lemma triple_lift {A} (c : result E A) P (Q : A -> S -> Prop) (R : E -> S -> Prop) :
  (forall a s, c = Ok a -> P s -> Q a s) -> (forall e s, c = Err e -> P s -> R e s) -> triple P (io_lift c) Q R.
Proof. intros H1 H2 s Hs. destruct c as [a|e]; [by apply H1|by apply H2]. Qed.
Lemma triple_bind {A B} P (c : io S E A) (k : A -> io S E B) Q Q' R :
  triple P c Q R -> (forall a, triple (Q a) (k a) Q' R) -> triple P (io_bind c k) Q' R.
Proof.
  intros Hc Hk s Hs. specialize (Hc s Hs). unfold io_bind.
  destruct (c s) as [[a|e|] s']; [by apply Hk|done..].
Qed.
Lemma triple_try {A} P (c : io S E A) h Q R R' :
  triple P c Q R -> (forall e, triple (R e) (h e) Q R') -> triple P (io_try c h) Q R'.
Proof.
  intros Hc Hh s Hs. specialize (Hc s Hs). unfold io_try.
  destruct (c s) as [[a|e|] s']; [done|by apply Hh|done].
Qed.
Lemma triple_conseq {A} (P P' : S -> Prop) (c : io S E A) (Q Q' : A -> S -> Prop) (R R' : E -> S -> Prop) :
  triple P c Q R -> (forall s, P' s -> P s) -> (forall a s, Q a s -> Q' a s) -> (forall e s, R e s -> R' e s) ->
  triple P' c Q' R'.
Proof.
  intros Hc H1 H2 H3 s Hs. specialize (Hc s (H1 s Hs)).
  destruct (c s) as [[a|e|] s']; [by apply H2|by apply H3|done].
Qed.
End Triples.

#[export] Hint Resolve raises_ret raises_modify raises_raise raises_bind
  nb_ret nb_raise nb_modify nb_get nb_lift nb_bind
  respects_ret respects_raise respects_lift respects_bind respects_try : ikvm.
