(* ===== verification/PyBytes.v ===== *)
(** * Python [bytes] and fixed-width integer codecs

    A byte string is a list of integers in [0, 256).  The operations are the
    ones the sources use: slicing, item and slice assignment on a
    [bytearray], [int.to_bytes]/[int.from_bytes], and the ["<I"], ["<H"]
    formats of [struct].  Integers are unbounded, as in Python; every
    narrowing the code performs is written out. *)
From Stdlib Require Import ZArith Lia.
From stdpp Require Import prelude.
From S2P Require Import Prelude.

Abbreviation bytes := (list Z).

Definition is_byte (b : Z) : Prop := 0 <= b < 256.
Definition byteb (b : Z) : bool := (0 <=? b) && (b <? 256).
Definition wf_bytes (bs : bytes) : Prop := Forall is_byte bs.

(** [x & 0xFF], [x & 0xFFFF], [x & 0xFFFFFFFF] *)
Definition u8 (z : Z) : Z := Z.land z 255.
Definition u16 (z : Z) : Z := Z.land z 65535.
Definition u32 (z : Z) : Z := Z.land z 4294967295.

(** [len(b)] as a Python integer. *)
Definition blen {A} (b : list A) : Z := Z.of_nat (length b).

(** [bytes(n)] *)
Definition zeros (n : nat) : bytes := replicate n 0.

(** [b[i:j]] for [0 <= i <= j] *)
Definition slice {A} (i j : nat) (b : list A) : list A := take (j - i) (drop i b).

(** [b[i] = v] and [b[i:i+len(d)] = d] inside the bounds of [b]. *)
Definition setb (b : bytes) (i : nat) (v : Z) : bytes := <[i := v]> b.
Definition splice (b : bytes) (i : nat) (d : bytes) : bytes :=
  take i b ++ d ++ drop (i + length d) b.

(** Little-endian digits: what [struct.pack] writes. *)
Fixpoint le_bytes (n : nat) (z : Z) : bytes :=
  match n with
  | O => []
  | S n => z mod 256 :: le_bytes n (z / 256)
  end.
Definition be_bytes (n : nat) (z : Z) : bytes := rev (le_bytes n z).

(** [int.from_bytes(b, "little")], [int.from_bytes(b, "big")] *)
Fixpoint from_le (bs : bytes) : Z :=
  match bs with
  | [] => 0
  | b :: bs => b + 256 * from_le bs
  end.
Definition from_be (bs : bytes) : Z := from_le (rev bs).

(** [int.to_bytes(n, ...)] raises [OverflowError] outside the range: [None]. *)
Definition fits (n : nat) (z : Z) : bool := (0 <=? z) && (z <? 256 ^ Z.of_nat n).

Lemma is_byte_mod z : is_byte (z mod 256).
Proof. apply Z.mod_pos_bound. lia. Qed.

Lemma u8_mod z : u8 z = z mod 256.
Proof. unfold u8. change 255 with (Z.ones 8). by rewrite Z.land_ones by lia. Qed.
Lemma u16_mod z : u16 z = z mod 65536.
Proof. unfold u16. change 65535 with (Z.ones 16). by rewrite Z.land_ones by lia. Qed.
Lemma u32_mod z : u32 z = z mod 4294967296.
Proof. unfold u32. change 4294967295 with (Z.ones 32). by rewrite Z.land_ones by lia. Qed.

Lemma u8_is_byte z : is_byte (u8 z).
Proof. rewrite u8_mod. apply is_byte_mod. Qed.

Lemma u8_id z : is_byte z -> u8 z = z.
Proof. rewrite u8_mod. unfold is_byte. intros. apply Z.mod_small. lia. Qed.

Lemma u32_id z : 0 <= z < 2 ^ 32 -> u32 z = z.
Proof. intros. rewrite u32_mod. apply Z.mod_small. lia. Qed.

Lemma length_le_bytes n z : length (le_bytes n z) = n.
Proof. revert z. induction n; intros; simpl; congruence. Qed.

Lemma length_be_bytes n z : length (be_bytes n z) = n.
Proof. unfold be_bytes. by rewrite length_rev, length_le_bytes. Qed.

Lemma le_bytes_wf n z : wf_bytes (le_bytes n z).
Proof.
  revert z. induction n as [|n IH]; intros z; simpl; constructor; [apply is_byte_mod|apply IH].
Qed.

Lemma be_bytes_wf n z : wf_bytes (be_bytes n z).
Proof. apply Forall_rev, le_bytes_wf. Qed.

Lemma from_le_le_bytes n z : from_le (le_bytes n z) = z mod 256 ^ Z.of_nat n.
Proof.
  revert z. induction n as [|n IH]; intros z.
  - simpl. by rewrite Z.mod_1_r.
  - cbn [le_bytes from_le]. rewrite IH, Nat2Z.inj_succ, Z.pow_succ_r by lia.
    symmetry. apply Z.rem_mul_r; lia.
Qed.

Lemma from_be_be_bytes n z : from_be (be_bytes n z) = z mod 256 ^ Z.of_nat n.
Proof. unfold from_be, be_bytes. rewrite rev_involutive. apply from_le_le_bytes. Qed.

Lemma from_le_bound bs : wf_bytes bs -> 0 <= from_le bs < 256 ^ blen bs.
Proof.
  induction 1 as [|b bs Hb _ IH]; [by vm_compute|].
  unfold blen in *. cbn [from_le length]. rewrite Nat2Z.inj_succ, Z.pow_succ_r by lia.
  unfold is_byte in Hb. nia.
Qed.

Lemma le_bytes_from_le bs : wf_bytes bs -> le_bytes (length bs) (from_le bs) = bs.
Proof.
  induction 1 as [|b bs Hb _ IH]; [done|].
  cbn [length le_bytes from_le]. unfold is_byte in Hb.
  rewrite Z.mul_comm, Z.mod_add, Z.div_add by lia.
  rewrite Z.mod_small, Z.div_small, Z.add_0_l by lia. by rewrite IH.
Qed.

Lemma from_be_bound bs : wf_bytes bs -> 0 <= from_be bs < 256 ^ blen bs.
Proof.
  intros H. unfold from_be, blen. rewrite <- (length_rev bs). apply from_le_bound.
  by apply Forall_rev.
Qed.

Lemma length_splice b i d :
  (i + length d <= length b)%nat -> length (splice b i d) = length b.
Proof. intros. unfold splice. rewrite !length_app, length_take, length_drop. lia. Qed.

Lemma slice_splice_same b i d :
  (i + length d <= length b)%nat -> slice i (i + length d) (splice b i d) = d.
Proof.
  intros. unfold slice, splice.
  rewrite drop_app_length' by (rewrite length_take; lia).
  rewrite take_app_length' by lia. done.
Qed.

Lemma wf_splice b i d : wf_bytes b -> wf_bytes d -> wf_bytes (splice b i d).
Proof. intros. apply Forall_app; split; [by apply Forall_take|]. apply Forall_app; split; [done|by apply Forall_drop]. Qed.

Lemma wf_zeros n : wf_bytes (zeros n).
Proof. apply Forall_replicate. by vm_compute. Qed.

Lemma wf_slice i j bs : wf_bytes bs -> wf_bytes (slice i j bs).
Proof. intros. by apply Forall_take_drop. Qed.

Lemma length_zeros n : length (zeros n) = n.
Proof. apply length_replicate. Qed.

Lemma wf_bytesb (bs : bytes) : forallb byteb bs = true -> wf_bytes bs.
Proof.
  intros H. apply Forall_forall. intros x Hx.
  rewrite forallb_forall in H. specialize (H x (proj1 (list_elem_of_In _ _) Hx)).
  unfold byteb in H. unfold is_byte. blia.
Qed.

Lemma blen_app {A} (a b : list A) : blen (a ++ b) = blen a + blen b.
Proof. unfold blen. rewrite length_app. lia. Qed.
Lemma blen_nonneg {A} (a : list A) : 0 <= blen a.
Proof. unfold blen. lia. Qed.

#[export] Hint Resolve u8_is_byte is_byte_mod le_bytes_wf be_bytes_wf wf_zeros wf_splice wf_slice : ikvm.
