(* ===== verification/PyText.v ===== *)
(** * Python [str]

    A text is the list of its code points.  The operations are the string
    methods and formatting codes the sources use.  Letter case is exact for
    ASCII letters; white space is the full set [str.isspace] recognises; a
    code point above 127 is neither a letter nor a digit here. *)
From Stdlib Require Import ZArith Lia Ascii String.
From stdpp Require Import prelude.
From S2P Require Import Prelude PyBytes.

Abbreviation text := (list Z).

(** String literals of the source. *)
Fixpoint str (s : string) : text :=
  match s with
  | EmptyString => []
  | String a s => Z.of_nat (nat_of_ascii a) :: str s
  end.

Notation "$ s" := (str s%string) (at level 0, s at level 0) : ikvm_scope.

(** A character constant. *)
Definition ch (s : string) : Z :=
  match str s with
  | c :: _ => c
  | [] => 0
  end.

#[global] Instance text_eq_dec : EqDecision text := _.

Definition text_eqb (a b : text) : bool := bool_decide (a = b).

(** [s.startswith(p)] *)
Fixpoint startswith (p s : text) : bool :=
  match p, s with
  | [], _ => true
  | c :: p, d :: s => (c =? d) && startswith p s
  | _ :: _, [] => false
  end.

(** [p in s] *)
Fixpoint contains (p s : text) : bool :=
  startswith p s ||
  match s with
  | [] => false
  | _ :: s => contains p s
  end.

(** [s.find(c)] for one character, as a position. *)
Fixpoint find_char (c : Z) (s : text) : option nat :=
  match s with
  | [] => None
  | d :: s => if d =? c then Some O else S <$> find_char c s
  end.

(** [s.replace(old, new)] for a non-empty [old]: the leftmost occurrences,
    not overlapping.  [skip] counts the characters of the occurrence that is
    being dropped. *)
Fixpoint replace_go (old new : text) (skip : nat) (s : text) : text :=
  match s with
  | [] => []
  | c :: s' =>
      match skip with
      | S skip => replace_go old new skip s'
      | O => if startswith old (c :: s')
             then new ++ replace_go old new (length old - 1) s'
             else c :: replace_go old new O s'
      end
  end.
Definition replace (old new s : text) : text := replace_go old new O s.

(** [str.isspace] on one character. *)
Definition is_space (c : Z) : bool :=
  ((9 <=? c) && (c <=? 13)) || ((28 <=? c) && (c <=? 32)) || (c =? 133) || (c =? 160)
  || (c =? 5760) || ((8192 <=? c) && (c <=? 8202)) || (c =? 8232) || (c =? 8233)
  || (c =? 8239) || (c =? 8287) || (c =? 12288).

Fixpoint lstrip (s : text) : text :=
  match s with
  | [] => []
  | c :: s' => if is_space c then lstrip s' else s
  end.
Definition rstrip (s : text) : text := rev (lstrip (rev s)).
(** [s.strip()] *)
Definition strip (s : text) : text := rstrip (lstrip s).

Definition is_upper (c : Z) : bool := (65 <=? c) && (c <=? 90).
Definition is_lower (c : Z) : bool := (97 <=? c) && (c <=? 122).
Definition is_digit (c : Z) : bool := (48 <=? c) && (c <=? 57).
Definition is_word (c : Z) : bool := is_upper c || is_lower c || is_digit c || (c =? 95).
Definition lower_char (c : Z) : Z := if is_upper c then c + 32 else c.
(** [s.lower()] *)
Definition lower (s : text) : text := map lower_char s.

(** [s.split(c)] on a one-character separator: always at least one piece. *)
Fixpoint split_char (c : Z) (s : text) : list text :=
  match s with
  | [] => [[]]
  | d :: s =>
      if d =? c then [] :: split_char c s
      else match split_char c s with
           | p :: ps => (d :: p) :: ps
           | [] => [[d]]
           end
  end.
(** [s.split(c, 1)[0]] *)
Fixpoint before_char (c : Z) (s : text) : text :=
  match s with
  | [] => []
  | d :: s => if d =? c then [] else d :: before_char c s
  end.
(** [s.partition(c)]: the two sides of the first [c]. *)
Fixpoint partition_char (c : Z) (s : text) : text * text :=
  match s with
  | [] => ([], [])
  | d :: s => if d =? c then ([], s) else let '(a, b) := partition_char c s in (d :: a, b)
  end.

(** [sorted] on names. *)
Fixpoint text_leb (a b : text) : bool :=
  match a, b with
  | [], _ => true
  | _ :: _, [] => false
  | x :: a, y :: b => if x =? y then text_leb a b else x <? y
  end.
Fixpoint insert_name (x : text) (l : list text) : list text :=
  match l with
  | [] => [x]
  | y :: l => if text_leb x y then x :: y :: l else y :: insert_name x l
  end.
Definition sorted_names (l : list text) : list text := fold_right insert_name [] l.

(** ** Numbers *)

Definition digit_char (upper : bool) (d : Z) : Z :=
  if d <? 10 then 48 + d else (if upper then 55 else 87) + d.

(** The digits of a non-negative number, most significant first; [fuel]
    bounds their count. *)
Fixpoint digits_go (base : Z) (upper : bool) (fuel : nat) (z : Z) (acc : text) : text :=
  match fuel with
  | O => acc
  | S fuel =>
      let acc := digit_char upper (z mod base) :: acc in
      if z / base =? 0 then acc else digits_go base upper fuel (z / base) acc
  end.
Definition digits (base : Z) (upper : bool) (z : Z) : text :=
  digits_go base upper (S (Z.to_nat (Z.log2 z))) z [].

(** [str(z)] *)
Definition dec (z : Z) : text :=
  if z <? 0 then ch "-" :: digits 10 false (- z) else digits 10 false z.

(** [f"{z:02x}"], [f"{z:02X}"] for [0 <= z] *)
Definition hex02 (upper : bool) (z : Z) : text :=
  let d := digits 16 upper z in
  if (length d <? 2)%nat then ch "0" :: d else d.

(** [bytes.hex()] *)
Definition hex_of_bytes (bs : bytes) : text := List.concat (map (hex02 false) bs).

(** [int(s)] on a decimal text: surrounding white space, one sign, digits
    with single underscores between them. *)
Fixpoint int_digits (acc : Z) (s : text) : option Z :=
  match s with
  | [] => Some acc
  | c :: s =>
      if is_digit c then int_digits (10 * acc + (c - 48)) s
      else if c =? ch "_" then
        match s with
        | d :: s' => if is_digit d then int_digits (10 * acc + (d - 48)) s' else None
        | [] => None
        end
      else None
  end.
Definition int_unsigned (s : text) : option Z :=
  match s with
  | c :: s => if is_digit c then int_digits (c - 48) s else None
  | [] => None
  end.
Definition py_int (s : text) : option Z :=
  match strip s with
  | c :: r =>
      if c =? ch "-" then Z.opp <$> int_unsigned r
      else if c =? ch "+" then int_unsigned r
      else int_unsigned (c :: r)
  | [] => None
  end.

(** ** [repr] *)

Definition escape_char (quote : Z) (is_bytes : bool) (c : Z) : text :=
  if (c =? quote) || (c =? ch "\") then [ch "\"; c]
  else if c =? 9 then $"\t" else if c =? 10 then $"\n" else if c =? 13 then $"\r"
  else if (c <? 32) || (c =? 127) || (if is_bytes then 127 <? c else (127 <? c) && (c <? 161)) || (c =? 173)
  then $"\x" ++ hex02 false c
  else [c].
Definition quote_of (s : text) : Z :=
  if bool_decide (39 ∈ s) && negb (bool_decide (34 ∈ s)) then 34 else 39.
Definition repr_with (is_bytes : bool) (s : text) : text :=
  let q := quote_of s in
  q :: List.concat (map (escape_char q is_bytes) s) ++ [q].
(** [repr(s)] and [repr(b)] *)
Definition repr (s : text) : text := repr_with false s.
Definition repr_bytes (b : bytes) : text := ch "b" :: repr_with true b.

(** ** Codecs *)

(** [s.encode("ascii")]: [None] is [UnicodeEncodeError]. *)
Definition encode_ascii (s : text) : option bytes :=
  if forallb (fun c => (0 <=? c) && (c <? 128)) s then Some s else None.
(** [str(exc)] of the [UnicodeEncodeError] raised there: the first run of
    characters the codec cannot encode. *)
Definition hex_pad (n : nat) (z : Z) : text :=
  let d := digits 16 false z in replicate (n - length d) (ch "0") ++ d.
Fixpoint non_ascii_run (s : text) : nat :=
  match s with
  | c :: s => if 127 <? c then S (non_ascii_run s) else O
  | [] => O
  end.
Fixpoint ascii_error_at (pos : Z) (s : text) : text :=
  match s with
  | [] => []
  | c :: r =>
      if 127 <? c then
        let n := Z.of_nat (non_ascii_run s) in
        $"'ascii' codec can't encode character"
        ++ (if n =? 1 then
              $" '" ++ (if c <? 256 then $"\x" ++ hex_pad 2 c
                        else if c <? 65536 then $"\u" ++ hex_pad 4 c
                        else $"\U" ++ hex_pad 8 c) ++ $"' in position " ++ dec pos
            else $"s in position " ++ dec pos ++ $"-" ++ dec (pos + n - 1))
        ++ $": ordinal not in range(128)"
      else ascii_error_at (pos + 1) r
  end.
Definition ascii_error (s : text) : text := ascii_error_at 0 s.
(** [b.decode("ascii", errors="replace")] *)
Definition decode_ascii_replace (b : bytes) : text :=
  map (fun c => if c <? 128 then c else 65533) b.

(** ** Lemmas *)

Lemma text_eqb_eq a b : text_eqb a b = true <-> a = b.
Proof. apply bool_decide_eq_true. Qed.

Lemma startswith_app p s : startswith p (p ++ s) = true.
Proof. induction p as [|c p IH]; simpl; [done|]. by rewrite Z.eqb_refl. Qed.

Lemma startswith_spec p s : startswith p s = true <-> exists r, s = p ++ r.
Proof.
  split.
  - revert s. induction p as [|c p IH]; intros s H; [by exists s|].
    destruct s as [|d s]; [done|]. simpl in H. bool_to_prop. subst.
    destruct (IH s) as [r ->]; [done|]. by exists r.
  - intros [r ->]. apply startswith_app.
Qed.

Lemma contains_spec p s : contains p s = true <-> exists a b, s = a ++ p ++ b.
Proof.
  split.
  - induction s as [|c s IH]; cbn [contains]; intros [H|H]%orb_true_iff; try done.
    + apply startswith_spec in H as [r ->]. by exists [], r.
    + apply startswith_spec in H as [r ->]. by exists [], r.
    + destruct (IH H) as (a & b & ->). by exists (c :: a), b.
  - intros (a & b & ->). induction a as [|c a IH].
    + simpl. destruct (p ++ b) eqn:E; cbn [contains]; rewrite <- E, startswith_app; done.
    + cbn [app contains]. rewrite IH. apply orb_true_r.
Qed.

Lemma encode_ascii_some s b : encode_ascii s = Some b -> b = s.
Proof. unfold encode_ascii. destruct (forallb _ s); congruence. Qed.

Lemma encode_ascii_wf s b : encode_ascii s = Some b -> wf_bytes b.
Proof.
  unfold encode_ascii. destruct (forallb _ s) eqn:E; [|done]. intros [= <-].
  apply wf_bytesb. rewrite forallb_forall in *. intros x Hx. specialize (E x Hx).
  unfold byteb. bool_to_prop. apply andb_true_iff. split; [apply Z.leb_le|apply Z.ltb_lt]; lia.
Qed.

Arguments str : simpl never.
Arguments dec : simpl never.
Arguments replace : simpl never.

(** *** [int(str(z)) == z] *)

Lemma digit_char_digit d : 0 <= d < 10 -> is_digit (digit_char false d) = true /\ digit_char false d - 48 = d.
Proof.
  intros Hd. unfold digit_char. replace (d <? 10) with true by (symmetry; apply Z.ltb_lt; lia).
  unfold is_digit. split; [|lia]. apply andb_true_iff. split; apply Z.leb_le; lia.
Qed.

Lemma digits_go_value fuel z acc :
  0 <= z < 2 ^ Z.of_nat fuel -> (0 < fuel)%nat ->
  int_digits 0 (digits_go 10 false fuel z acc) = int_digits z acc.
Proof.
  revert z acc. induction fuel as [|fuel IH]; intros z acc Hz Hf; [lia|].
  pose proof (Z.mod_pos_bound z 10 ltac:(lia)) as Hm. pose proof (Z.div_mod z 10 ltac:(lia)) as Hdm.
  destruct (digit_char_digit (z mod 10) Hm) as [H1 H2]. cbn [digits_go].
  rewrite Nat2Z.inj_succ, Z.pow_succ_r in Hz by lia.
  destruct (z / 10 =? 0) eqn:E; bool_to_prop.
  - cbn [int_digits]. rewrite H1, H2. f_equal. lia.
  - assert (0 <= z / 10) by (apply Z.div_pos; lia).
    destruct fuel as [|fuel]; [cbn in Hz; lia|].
    rewrite IH; [|split; [lia|]|lia].
    + cbn [int_digits]. rewrite H1, H2. f_equal. lia.
    + apply Z.div_lt_upper_bound; lia.
Qed.

Lemma digits_go_digits fuel z acc :
  0 <= z -> Forall (fun c => is_digit c = true) acc ->
  Forall (fun c => is_digit c = true) (digits_go 10 false fuel z acc).
Proof.
  revert z acc. induction fuel as [|fuel IH]; intros z acc Hz Ha; [done|]. cbn [digits_go].
  pose proof (Z.mod_pos_bound z 10 ltac:(lia)) as Hm. destruct (digit_char_digit (z mod 10) Hm) as [H1 _].
  destruct (z / 10 =? 0); [by constructor|]. apply IH; [apply Z.div_pos; lia|by constructor].
Qed.

Lemma digits_go_nonempty base upper fuel z acc : (0 < fuel)%nat -> digits_go base upper fuel z acc <> [].
Proof.
  intros Hf. destruct fuel as [|fuel]; [lia|]. clear Hf. revert z acc.
  induction fuel as [|fuel IH]; intros z acc; cbn [digits_go].
  - by destruct (_ =? _).
  - destruct (_ =? _); [done|]. apply IH.
Qed.

Lemma dec_digits z : 0 <= z -> Forall (fun c => is_digit c = true) (dec z) /\ dec z <> [].
Proof.
  intros Hz. unfold dec, digits. replace (z <? 0) with false by (symmetry; apply Z.ltb_ge; lia).
  split; [by apply digits_go_digits|apply digits_go_nonempty; lia].
Qed.

Lemma digit_not_space c : is_digit c = true -> is_space c = false.
Proof.
  intros [H1 H2]%andb_true_iff. bool_to_prop.
  apply not_true_iff_false. intros H. unfold is_space in H.
  repeat match type of H with (_ || _) = true => apply orb_true_iff in H as [H|H] end;
    bool_to_prop; lia.
Qed.

Lemma strip_clean s : Forall (fun c => is_space c = false) s -> strip s = s.
Proof.
  assert (forall s, Forall (fun c => is_space c = false) s -> lstrip s = s) as Hl.
  { intros t Ht. destruct Ht as [|c t Hc Ht]; [done|]. cbn. by rewrite Hc. }
  intros Hs. unfold strip, rstrip. rewrite (Hl s) by done. rewrite (Hl (rev s)) by (by apply List.Forall_rev). apply rev_involutive.
Qed.

Lemma int_digits_dec z : 0 <= z -> int_digits 0 (dec z) = Some z.
Proof.
  intros Hz. unfold dec, digits. replace (z <? 0) with false by (symmetry; apply Z.ltb_ge; lia).
  rewrite digits_go_value; [done| |lia]. split; [done|].
  rewrite Nat2Z.inj_succ, Z2Nat.id by apply Z.log2_nonneg.
  destruct (Z.eq_dec z 0) as [->|Hnz]; [done|]. apply Z.log2_spec. lia.
Qed.

Lemma int_dec z : 0 <= z -> py_int (dec z) = Some z.
Proof.
  intros Hz. destruct (dec_digits z Hz) as [Hd Hne]. unfold py_int.
  rewrite strip_clean by (eapply Forall_impl; [exact Hd|apply digit_not_space]).
  pose proof (int_digits_dec z Hz) as Hv.
  destruct (dec z) as [|c r]; [done|]. apply Forall_cons in Hd as [Hc Hd].
  assert (48 <= c <= 57) as Hr by (unfold is_digit in Hc; bool_to_prop; lia).
  replace (c =? ch "-") with false by (symmetry; apply Z.eqb_neq; vm_compute (ch "-"); lia).
  replace (c =? ch "+") with false by (symmetry; apply Z.eqb_neq; vm_compute (ch "+"); lia).
  cbn [int_unsigned]. rewrite Hc. cbn [int_digits] in Hv. rewrite Hc in Hv. done.
Qed.

(** A number below [10 ^ w] has at most [w] digits. *)
Lemma digits_go_length fuel w z acc :
  0 <= z < 10 ^ Z.of_nat w -> (0 < w)%nat -> (length (digits_go 10 false fuel z acc) <= w + length acc)%nat.
Proof.
  revert w z acc. induction fuel as [|fuel IH]; intros w z acc Hz Hw; cbn [digits_go]; [lia|].
  destruct (z / 10 =? 0) eqn:E; [cbn; lia|]. apply Z.eqb_neq in E.
  destruct w as [|[|w]]; [lia| |].
  - exfalso. apply E. apply Z.div_small. cbn in Hz. lia.
  - rewrite Nat2Z.inj_succ, Z.pow_succ_r in Hz by lia.
    etrans; [apply (IH (S w)); [|lia]|cbn; lia]. split; [apply Z.div_pos; lia|]. apply Z.div_lt_upper_bound; lia.
Qed.
Lemma dec_length w z : 0 <= z < 10 ^ Z.of_nat w -> (0 < w)%nat -> (length (dec z) <= w)%nat.
Proof.
  intros Hz Hw. unfold dec, digits. replace (z <? 0) with false by (symmetry; apply Z.ltb_ge; lia).
  etrans; [by apply (digits_go_length _ w)|cbn; lia].
Qed.

(** A separator that is absent on the left is the one that splits. *)
Lemma partition_char_app c a b : c ∉ a -> partition_char c (a ++ c :: b) = (a, b).
Proof.
  induction a as [|d a IH]; intros Hn; cbn.
  - by rewrite Z.eqb_refl.
  - apply not_elem_of_cons in Hn as [Hd Hn]. replace (d =? c) with false by (symmetry; apply Z.eqb_neq; congruence).
    by rewrite IH.
Qed.
