(* ===== verification/PyPath.v ===== *)
(** * Paths of Python's [pathlib]

    The lexical part of [PurePosixPath]: components, text and parent. *)
From Stdlib Require Import ZArith Lia Ascii String.
From stdpp Require Import prelude.
From S2P Require Import Prelude PyBytes PyText.

(** [sep.join(lines)] *)
Fixpoint join (sep : text) (lines : list text) : text :=
  match lines with
  | [] => []
  | [l] => l
  | l :: lines => l ++ sep ++ join sep lines
  end.

(** The components of a path: empty ones and [.] are dropped. *)
Definition path_parts (p : text) : list text :=
  List.filter (fun c => negb (text_eqb c [] || text_eqb c ($"."))) (split_char (ch "/") p).

(** The root: exactly two leading slashes are kept as two. *)
Definition path_root (p : text) : text :=
  if startswith ($"//") p && negb (startswith ($"///") p) then $"//" else if startswith ($"/") p then $"/" else [].

Definition path_of (root : text) (parts : list text) : text :=
  match root ++ join ($"/") parts with
  | [] => $"."
  | t => t
  end.

(** [str(Path(p))] and [str(Path(p).parent)] *)
Definition path_text (p : text) : text := path_of (path_root p) (path_parts p).
Definition path_parent (p : text) : text := path_of (path_root p) (removelast (path_parts p)).
