(* ===== verification/PyDate.v ===== *)
(** * Dates of Python's [datetime]

    The proleptic Gregorian calendar as the standard library computes it
    ([_ord2ymd], [_ymd2ord]), UTC time stamps, and their ISO form. *)
From Stdlib Require Import ZArith Lia Ascii String.
From stdpp Require Import prelude.
From S2P Require Import Prelude PyBytes PyText.

Definition is_leap (y : Z) : bool := (y mod 4 =? 0) && (negb (y mod 100 =? 0) || (y mod 400 =? 0)).

(** [_DAYS_BEFORE_MONTH] *)
Definition days_before_month (leap : bool) (m : Z) : Z :=
  nth (Z.to_nat m) [0; 0; 31; 59; 90; 120; 151; 181; 212; 243; 273; 304; 334; 365] 0
  + (if (2 <? m) && leap then 1 else 0).
Definition days_in_month (leap : bool) (m : Z) : Z :=
  days_before_month leap (m + 1) - days_before_month leap m.

Definition days_before_year (y : Z) : Z := let y := y - 1 in y * 365 + y / 4 - y / 100 + y / 400.

Record date : Type := mkDate { d_year : Z; d_month : Z; d_day : Z }.

(** [_ymd2ord]: the first of January of year 1 is day 1 *)
Definition ymd2ord (x : date) : Z :=
  days_before_year (d_year x) + days_before_month (is_leap (d_year x)) (d_month x) + d_day x.

(** [_ord2ymd] *)
Definition ord2ymd (ordinal : Z) : date :=
  let n := ordinal - 1 in
  let '(n400, n) := (n / 146097, n mod 146097) in
  let year := n400 * 400 + 1 in
  let '(n100, n) := (n / 36524, n mod 36524) in
  let '(n4, n) := (n / 1461, n mod 1461) in
  let '(n1, n) := (n / 365, n mod 365) in
  let year := year + n100 * 100 + n4 * 4 + n1 in
  if (n1 =? 4) || (n100 =? 4) then mkDate (year - 1) 12 31
  else
    let leapyear := (n1 =? 3) && (negb (n4 =? 24) || (n100 =? 3)) in
    let month := (n + 50) / 32 in
    let preceding := days_before_month leapyear month in
    if n <? preceding then
      let month := month - 1 in
      mkDate year month (n - (preceding - days_in_month leapyear month) + 1)
    else mkDate year month (n - preceding + 1).

(** The days from 0001-01-01 to 1970-01-01, plus one. *)
Definition EPOCH_ORDINAL : Z := 719163.
Definition MIN_EPOCH : Z := -62135596800.
Definition MAX_EPOCH : Z := 253402300799.

(** [f"{n:02d}"] and [f"{n:04d}"] *)
Definition zpad (width : nat) (n : Z) : text := let d := dec n in replicate (width - length d) (ch "0") ++ d.

(** [datetime.fromtimestamp(epoch, tz=timezone.utc).isoformat()], [None]
    where it raises [ValueError] or [OverflowError] *)
Definition iso_of_epoch (epoch : Z) : option text :=
  if (epoch <? MIN_EPOCH) || (MAX_EPOCH <? epoch) then None
  else
    let x := ord2ymd (EPOCH_ORDINAL + epoch / 86400) in
    let s := epoch mod 86400 in
    Some (zpad 4 (d_year x) ++ $"-" ++ zpad 2 (d_month x) ++ $"-" ++ zpad 2 (d_day x) ++ $"T"
          ++ zpad 2 (s / 3600) ++ $":" ++ zpad 2 ((s / 60) mod 60) ++ $":" ++ zpad 2 (s mod 60) ++ $"+00:00").

(** ** Correctness of the calendar *)

(** Linear arithmetic with constant divisors. *)
Ltac dlia := Z.div_mod_to_equations; lia.

Definition valid_date (x : date) : Prop :=
  1 <= d_month x <= 12 /\ 1 <= d_day x <= days_in_month (is_leap (d_year x)) (d_month x).

(** The month of a day of the year, with its day. *)
Definition month_of (leap : bool) (n : Z) : Z * Z :=
  let month := (n + 50) / 32 in
  let preceding := days_before_month leap month in
  if n <? preceding then (month - 1, n - (preceding - days_in_month leap (month - 1)) + 1)
  else (month, n - preceding + 1).

Definition month_ok (leap : bool) (n : Z) : bool :=
  let '(m, d) := month_of leap n in
  (1 <=? m) && (m <=? 12) && (1 <=? d) && (d <=? days_in_month leap m) && (days_before_month leap m + d =? n + 1).

Lemma month_of_ok (leap : bool) n : 0 <= n < 365 + (if leap then 1 else 0) -> month_ok leap n = true.
Proof.
  intros Hn.
  assert (forallb (fun k => month_ok true (Z.of_nat k)) (seq 0 366) && forallb (fun k => month_ok false (Z.of_nat k)) (seq 0 365) = true)
    as H by reflexivity.
  apply andb_true_iff in H as [H1 H2]. rewrite forallb_forall in H1, H2.
  rewrite <- (Z2Nat.id n) by lia. destruct leap; [apply H1|apply H2]; apply in_seq; lia.
Qed.

(** A year of the 400-year cycle: which day it begins on, and whether it is
    a leap year. *)
Lemma year_in_cycle a b c e :
  0 <= b <= 3 -> 0 <= c <= 24 -> 0 <= e <= 3 ->
  let y := 400 * a + 100 * b + 4 * c + e + 1 in
  days_before_year y = 146097 * a + 36524 * b + 1461 * c + 365 * e /\
  is_leap y = (e =? 3) && (negb (c =? 24) || (b =? 3)).
Proof.
  intros Hb Hc He y. unfold days_before_year, is_leap, y. split.
  - replace (400 * a + 100 * b + 4 * c + e + 1 - 1) with (400 * a + 100 * b + 4 * c + e) by lia.
    assert ((400 * a + 100 * b + 4 * c + e) / 4 = 100 * a + 25 * b + c) as -> by dlia.
    assert ((400 * a + 100 * b + 4 * c + e) / 100 = 4 * a + b) as -> by dlia.
    assert ((400 * a + 100 * b + 4 * c + e) / 400 = a) as -> by dlia. lia.
  - set (x := 400 * a + 100 * b + 4 * c + e + 1).
    destruct (x mod 4 =? 0) eqn:E4, (x mod 100 =? 0) eqn:E100, (x mod 400 =? 0) eqn:E400, (e =? 3) eqn:Ee, (c =? 24) eqn:Ec,
      (b =? 3) eqn:Eb; try reflexivity; exfalso; bool_to_prop; unfold x in *; dlia.
Qed.

(** [_ord2ymd] inverts [_ymd2ord], on every day, and yields a date of the
    calendar. *)
Lemma ord2ymd_correct n : valid_date (ord2ymd n) /\ ymd2ord (ord2ymd n) = n.
Proof.
  unfold ord2ymd. set (a := (n - 1) / 146097). set (r1 := (n - 1) mod 146097). set (b := r1 / 36524). set (r2 := r1 mod 36524).
  set (c := r2 / 1461). set (r3 := r2 mod 1461). set (e := r3 / 365). set (r4 := r3 mod 365).
  assert (n - 1 = 146097 * a + 36524 * b + 1461 * c + 365 * e + r4 /\ 0 <= r1 < 146097 /\ 0 <= r2 < 36524 /\ 0 <= r3 < 1461 /\
          0 <= r4 < 365 /\ 0 <= b <= 4 /\ 0 <= c <= 24 /\ 0 <= e <= 4 /\ (b = 4 -> r2 = 0) /\ (e = 4 -> r4 = 0) /\
          (c = 24 -> b < 4 -> 1461 * 24 + 365 * e + r4 < 36524) /\ r2 = 1461 * c + 365 * e + r4)
    as (Hn & H1 & H2 & H3 & H4 & Hb & Hc & He & Hb4 & He4 & Hc24 & Hr2).
  { unfold a, b, c, e, r4, r3, r2, r1. dlia. }
  destruct ((e =? 4) || (b =? 4)) eqn:Elast.
  - assert (exists b' c' , 0 <= b' <= 3 /\ 0 <= c' <= 24 /\ (c' <> 24 \/ b' = 3) /\
      a * 400 + 1 + b * 100 + c * 4 + e - 1 = 400 * a + 100 * b' + 4 * c' + 3 + 1 /\
      n = 146097 * a + 36524 * b' + 1461 * c' + 365 * 3 + 366) as (b' & c' & Hb' & Hc' & Hl & Hy & Hn').
    { apply orb_true_iff in Elast as [E|E]; apply Z.eqb_eq in E.
      - destruct (Z.eq_dec b 4); [lia|]. exists b, c. split_and!; lia.
      - exists 3, 24. assert (r2 = 0) by auto. split_and!; lia. }
    destruct (year_in_cycle a b' c' 3) as [Hd Hleap]; [lia..|]. cbn zeta in Hd, Hleap.
    assert (is_leap (400 * a + 100 * b' + 4 * c' + 3 + 1) = true) as Hlt.
    { rewrite Hleap. cbn. apply orb_true_iff. destruct Hl as [Hl|Hl]; [left; apply negb_true_iff, Z.eqb_neq; lia|right; apply Z.eqb_eq; lia]. }
    unfold valid_date, ymd2ord. cbn [d_year d_month d_day]. rewrite Hy, Hlt, Hd. change (days_in_month true 12) with 31. change (days_before_month true 12) with 335. split; lia.
  - apply orb_false_iff in Elast as [Ee Eb]. apply Z.eqb_neq in Ee, Eb.
    destruct (year_in_cycle a b c e) as [Hd Hleap]; [lia..|]. cbn zeta in Hd, Hleap. rewrite <- Hleap.
    set (leap := is_leap (400 * a + 100 * b + 4 * c + e + 1)) in *.
    pose proof (month_of_ok leap r4) as Hm. unfold month_ok in Hm.
    replace (a * 400 + 1 + b * 100 + c * 4 + e) with (400 * a + 100 * b + 4 * c + e + 1) by lia.
    match goal with |- valid_date ?x /\ _ => assert (x = mkDate (400 * a + 100 * b + 4 * c + e + 1) (month_of leap r4).1 (month_of leap r4).2) as Hx end.
    { unfold month_of. cbv zeta. by destruct (r4 <? days_before_month leap ((r4 + 50) / 32)). }
    rewrite Hx. destruct (month_of leap r4) as [m d].
    assert (0 <= r4 < 365 + (if leap then 1 else 0)) as Hr by (destruct leap; lia). specialize (Hm Hr). bool_to_prop.
    unfold valid_date, ymd2ord. cbn [d_year d_month d_day fst snd]. fold leap. split; lia.
Qed.

(** ** The ISO form reads back *)

(** The time a text in this form names: digits at fixed places. *)
Definition num_at (t : text) (i n : nat) : option Z := int_digits 0 (take n (drop i t)).
Definition epoch_of_iso (t : text) : option Z :=
  match num_at t 0 4, num_at t 5 2, num_at t 8 2, num_at t 11 2, num_at t 14 2, num_at t 17 2 with
  | Some y, Some m, Some d, Some hh, Some mm, Some ss =>
      Some ((ymd2ord (mkDate y m d) - EPOCH_ORDINAL) * 86400 + hh * 3600 + mm * 60 + ss)
  | _, _, _, _, _, _ => None
  end.

Lemma zpad_reads w n : 0 <= n < 10 ^ Z.of_nat w -> (0 < w)%nat -> length (zpad w n) = w /\ int_digits 0 (zpad w n) = Some n.
Proof.
  intros Hn Hw. pose proof (dec_length w n Hn Hw) as Hl. unfold zpad. split; [rewrite length_app, length_replicate; lia|].
  rewrite <- (int_digits_dec n) by lia. generalize (w - length (dec n))%nat. intros k. by induction k as [|k IH].
Qed.

Lemma year_bounds n : 1 <= n <= 3652059 -> 1 <= d_year (ord2ymd n) <= 9999.
Proof.
  intros Hn. unfold ord2ymd.
  match goal with |- context [if ?b then mkDate ?x _ _ else _] => destruct b eqn:E end.
  - cbn [d_year]. apply orb_true_iff in E. destruct E as [E|E]; apply Z.eqb_eq in E; dlia.
  - cbv zeta. match goal with |- context [if ?b then _ else _] => destruct b end; cbn [d_year]; dlia.
Qed.

(** The parts of a text by their lengths. *)
Lemma num_skip (a b : text) i n k : length a = k -> (k <= i)%nat -> num_at (a ++ b) i n = num_at b (i - k) n.
Proof. intros <- Hi. unfold num_at. by rewrite drop_app_ge. Qed.
Lemma num_here (a b : text) n v : length a = n -> int_digits 0 a = v -> num_at (a ++ b) 0 n = v.
Proof. intros <- <-. unfold num_at. by rewrite drop_0, take_app_length. Qed.
Lemma num_sep c (b : text) i n : num_at (c :: b) (S i) n = num_at b i n.
Proof. done. Qed.
Ltac sep := rewrite num_sep.
Ltac skip L := rewrite (num_skip _ _ _ _ _ L) by lia; cbn [Nat.sub].

Lemma day_bound leap m : 1 <= m <= 12 -> days_in_month leap m <= 31.
Proof.
  intros Hm. assert (m = 1 \/ m = 2 \/ m = 3 \/ m = 4 \/ m = 5 \/ m = 6 \/ m = 7 \/ m = 8 \/ m = 9 \/ m = 10 \/ m = 11 \/ m = 12) as H by lia.
  destruct leap; repeat (destruct H as [->|H]; [by vm_compute|]); rewrite H; by vm_compute.
Qed.

Lemma iso_roundtrip e t : iso_of_epoch e = Some t -> epoch_of_iso t = Some e.
Proof.
  unfold iso_of_epoch. destruct ((e <? MIN_EPOCH) || (MAX_EPOCH <? e)) eqn:Er; [done|]. apply orb_false_iff in Er as [E1 E2].
  apply Z.ltb_ge in E1, E2. unfold MIN_EPOCH in E1. unfold MAX_EPOCH in E2.
  set (n := EPOCH_ORDINAL + e / 86400). set (s := e mod 86400).
  assert (1 <= n <= 3652059) as Hn by (unfold n, EPOCH_ORDINAL; dlia).
  pose proof (year_bounds n Hn) as Hy. destruct (ord2ymd_correct n) as [[Hm Hd] Ho].
  destruct (ord2ymd n) as [y m d]. cbn [d_year d_month d_day] in *.
  pose proof (day_bound (is_leap y) m Hm) as Hd2.
  assert (0 <= s / 3600 < 100 /\ 0 <= (s / 60) mod 60 < 100 /\ 0 <= s mod 60 < 100) as (Hh & Hmi & Hse) by (unfold s; dlia).
  destruct (zpad_reads 4 y) as [L1 V1]; [cbn; lia|lia|]. destruct (zpad_reads 2 m) as [L2 V2]; [cbn; lia|lia|].
  destruct (zpad_reads 2 d) as [L3 V3]; [cbn; lia|lia|]. destruct (zpad_reads 2 (s / 3600)) as [L4 V4]; [cbn; lia|lia|].
  destruct (zpad_reads 2 ((s / 60) mod 60)) as [L5 V5]; [cbn; lia|lia|]. destruct (zpad_reads 2 (s mod 60)) as [L6 V6]; [cbn; lia|lia|].
  intros [= <-]. unfold epoch_of_iso.
  generalize dependent (zpad 4 y). intros Y L1 V1. generalize dependent (zpad 2 m). intros M L2 V2.
  generalize dependent (zpad 2 d). intros D L3 V3. generalize dependent (zpad 2 (s / 3600)). intros H L4 V4.
  generalize dependent (zpad 2 ((s / 60) mod 60)). intros MI L5 V5. generalize dependent (zpad 2 (s mod 60)). intros SE L6 V6.
  set (t := Y ++ _).
  assert (num_at t 0 4 = Some y) as -> by exact (num_here Y _ 4 _ L1 V1).
  assert (num_at t 5 2 = Some m) as -> by (unfold t; skip L1; sep; exact (num_here M _ 2 _ L2 V2)).
  assert (num_at t 8 2 = Some d) as -> by (unfold t; skip L1; sep; skip L2; sep; exact (num_here D _ 2 _ L3 V3)).
  assert (num_at t 11 2 = Some (s / 3600)) as ->
    by (unfold t; skip L1; sep; skip L2; sep; skip L3; sep; exact (num_here H _ 2 _ L4 V4)).
  assert (num_at t 14 2 = Some ((s / 60) mod 60)) as ->
    by (unfold t; skip L1; sep; skip L2; sep; skip L3; sep; skip L4; sep; exact (num_here MI _ 2 _ L5 V5)).
  assert (num_at t 17 2 = Some (s mod 60)) as ->
    by (unfold t; skip L1; sep; skip L2; sep; skip L3; sep; skip L4; sep; skip L5; sep; exact (num_here SE _ 2 _ L6 V6)).
  rewrite Ho. f_equal. unfold n, s. dlia.
Qed.
