(* ===== verification/Regex.v ===== *)
(** * The part of Python's [re] the sources use

    A backtracking matcher over code points: greedy and lazy repetition,
    capture groups, back-references, negative look-ahead, [\b], multi-line
    [^] and [$].  Matching is defined by recursion on the pattern with a
    continuation, so a pattern is tried in exactly the order the Python
    engine tries it; the repetition loop is bounded by the remaining text,
    which is enough because every iteration must consume a character (no
    pattern of the sources repeats an empty match). *)
From Stdlib Require Import ZArith Lia Ascii String.
From stdpp Require Import prelude.
From S2P Require Import Prelude PyBytes PyText.

Inductive re : Type :=
  | REps
  | RChar (p : Z -> bool)
  | RSeq (a b : re)
  | RAlt (a b : re)
  | RStar (greedy : bool) (a : re)
  | RGroup (n : nat) (a : re)
  | RBackref (ci : bool) (n : nat)
  | RNotAhead (a : re)
  | RWordB
  | RBol
  | REol.

(** Where the matcher stands: what was consumed (last character first), what
    remains, and the groups captured so far (latest first). *)
Record mstate : Type := MState {
  consumed : text;
  rest : text;
  groups : list (nat * text);
}.

Definition group_of (s : mstate) (n : nat) : option text := assoc_get (groups s) n.

Definition advance (k : nat) (s : mstate) : mstate :=
  {| consumed := rev (take k (rest s)) ++ consumed s;
     rest := drop k (rest s);
     groups := groups s |}.

Definition at_word_boundary (s : mstate) : bool :=
  let before := match consumed s with c :: _ => is_word c | [] => false end in
  let after := match rest s with c :: _ => is_word c | [] => false end in
  xorb before after.

(** Simple lower-casing, as back-references under [(?i)] compare. *)
Definition lower_simple (c : Z) : Z :=
  if is_upper c then c + 32 else if c =? 304 then 105 else if c =? 8490 then 107 else c.

Definition backref_here (ci : bool) (g s : text) : bool :=
  if ci then startswith (map lower_simple g) (map lower_simple s) else startswith g s.

(** [match_re r k s]: match [r] at [s], then continue with [k]. *)
Fixpoint match_re (r : re) (k : mstate -> option mstate) (s : mstate) {struct r} : option mstate :=
  match r with
  | REps => k s
  | RChar p =>
      match rest s with
      | c :: _ => if p c then k (advance 1 s) else None
      | [] => None
      end
  | RSeq a b => match_re a (match_re b k) s
  | RAlt a b =>
      match match_re a k s with
      | Some s' => Some s'
      | None => match_re b k s
      end
  | RStar greedy a =>
      (fix loop (n : nat) (s : mstate) : option mstate :=
         let more :=
           match n with
           | O => None
           | S n => match_re a (fun s' => if (length (rest s') <? length (rest s))%nat
                                          then loop n s' else None) s
           end in
         if greedy
         then match more with Some s' => Some s' | None => k s end
         else match k s with Some s' => Some s' | None => more end)
        (length (rest s)) s
  | RGroup n a =>
      match_re a (fun s' =>
        k {| consumed := consumed s';
             rest := rest s';
             groups := (n, take (length (rest s) - length (rest s')) (rest s)) :: groups s' |}) s
  | RBackref ci n =>
      match group_of s n with
      | Some g => if backref_here ci g (rest s) then k (advance (length g) s) else None
      | None => None
      end
  | RNotAhead a =>
      match match_re a Some s with
      | Some _ => None
      | None => k s
      end
  | RWordB => if at_word_boundary s then k s else None
  | RBol =>
      match consumed s with
      | [] => k s
      | c :: _ => if c =? 10 then k s else None
      end
  | REol =>
      match rest s with
      | [] => k s
      | [c] => if c =? 10 then k s else None
      | _ => None
      end
  end.

Definition start_at (before s : text) : mstate :=
  {| consumed := before; rest := s; groups := [] |}.

(** [pattern.match(s)] *)
Definition re_match (r : re) (s : text) : option mstate := match_re r Some (start_at [] s).

(** [pattern.search(s)]: the leftmost match, with the state it started in. *)
Fixpoint re_search_from (r : re) (before s : text) : option (mstate * mstate) :=
  match match_re r Some (start_at before s) with
  | Some m => Some (start_at before s, m)
  | None =>
      match s with
      | [] => None
      | c :: s => re_search_from r (c :: before) s
      end
  end.
Definition re_search (r : re) (s : text) : option mstate := snd <$> re_search_from r [] s.

(** Replacement templates: literal text and group references. *)
Inductive tpiece : Type :=
  | TLit (t : text)
  | TGrp (n : nat).

Definition expand (tpl : list tpiece) (m : mstate) : text :=
  List.concat (map (fun p => match p with
                             | TLit t => t
                             | TGrp n => default [] (group_of m n)
                             end) tpl).

(** [pattern.sub(tpl, s)].  [skip] counts the characters of the last match
    still to be passed over. *)
Fixpoint re_sub_go (r : re) (tpl : list tpiece) (skip : nat) (before s : text) : text :=
  match s with
  | [] => []
  | c :: s' =>
      match skip with
      | S skip => re_sub_go r tpl skip (c :: before) s'
      | O =>
          match match_re r Some (start_at before s) with
          | Some m =>
              expand tpl m ++ re_sub_go r tpl (length s - length (rest m) - 1) (c :: before) s'
          | None => c :: re_sub_go r tpl O (c :: before) s'
          end
      end
  end.
Definition re_sub (r : re) (tpl : list tpiece) (s : text) : text := re_sub_go r tpl O [] s.

(** [pattern.finditer(s)], keeping group [n] of every match. *)
Fixpoint re_findall_go (r : re) (n : nat) (skip : nat) (before s : text) : list text :=
  match s with
  | [] => []
  | c :: s' =>
      match skip with
      | S skip => re_findall_go r n skip (c :: before) s'
      | O =>
          match match_re r Some (start_at before s) with
          | Some m =>
              default [] (group_of m n)
              :: re_findall_go r n (length s - length (rest m) - 1) (c :: before) s'
          | None => re_findall_go r n O (c :: before) s'
          end
      end
  end.
Definition re_findall (r : re) (n : nat) (s : text) : list text := re_findall_go r n O [] s.

(** ** Building patterns *)

(** Letter case under [(?i)]: ASCII letters, and the four code points whose
    folding is an ASCII letter. *)
Definition fold_char (c : Z) : Z :=
  if is_upper c then c + 32
  else if (c =? 304) || (c =? 305) then 105
  else if c =? 383 then 115
  else if c =? 8490 then 107
  else c.

Definition one (s : string) : Z -> bool := fun c => bool_decide (c ∈ str s).
Definition none_of (s : string) : Z -> bool := fun c => negb (bool_decide (c ∈ str s)).
Definition any_but_newline : Z -> bool := fun c => negb (c =? 10).

(** A literal word, case-sensitive or under [(?i)]. *)
Fixpoint lit_text (ci : bool) (t : text) : re :=
  match t with
  | [] => REps
  | c :: t => RSeq (RChar (fun d => if ci then fold_char d =? fold_char c else d =? c)) (lit_text ci t)
  end.
Definition lit (s : string) : re := lit_text false (str s).
Definition iword (s : string) : re := lit_text true (str s).

Definition ralt (l : list re) : re :=
  match rev l with
  | [] => RChar (fun _ => false)
  | r :: l => fold_left (fun acc a => RAlt a acc) l r
  end.
Definition rseq (l : list re) : re := fold_right RSeq REps l.
Definition ropt (a : re) : re := RAlt a REps.
Definition rmany (p : Z -> bool) : re := RStar true (RChar p).
Definition rplus (p : Z -> bool) : re := RSeq (RChar p) (rmany p).
(** [p{0,n}] *)
Fixpoint rupto (n : nat) (p : Z -> bool) : re :=
  match n with
  | O => REps
  | S n => ropt (RSeq (RChar p) (rupto n p))
  end.
Definition spaces : re := rmany is_space.

(** ** The text under the matcher *)

(** The text a state stands in. *)
Definition whole (s : mstate) : text := rev (consumed s) ++ rest s.

Lemma whole_advance n s : whole (advance n s) = whole s.
Proof. unfold whole. cbn. rewrite rev_app_distr, rev_involutive, <- app_assoc. by rewrite take_drop. Qed.

(** A match stays in its text. *)
Lemma match_re_whole r k s s' :
  (forall a b, k a = Some b -> whole b = whole a) -> match_re r k s = Some s' -> whole s' = whole s.
Proof.
  revert k s s'. induction r as [|p|a IHa b IHb|a IHa b IHb|g a IHa|n a IHa|ci n|a IHa| | |];
    intros k s s' Hk; cbn [match_re].
  - apply Hk.
  - destruct (rest s); [done|]. destruct (p z); [|done]. intros H%Hk. by rewrite H, whole_advance.
  - apply IHa. intros x y. by apply IHb.
  - destruct (match_re a k s) eqn:E; [intros [= <-]; by eapply IHa|by apply IHb].
  - match goal with |- ?F _ s = _ -> _ => set (loop := F) end.
    assert (forall n s s', loop n s = Some s' -> whole s' = whole s) as Hloop; [|apply Hloop].
    clear s s'. induction n as [|n IHn]; intros s s' H.
    + cbn in H. destruct g; [by apply Hk|]. destruct (k s) eqn:E; [|done]. injection H as <-. by apply Hk.
    + cbn in H. fold loop in H.
      assert (forall t, match_re a (fun x => if (length (rest x) <? length (rest s))%nat then loop n x else None) s
                = Some t -> whole t = whole s) as Hmore.
      { intros t. apply IHa. intros x y. destruct (_ <? _)%nat; [apply IHn|done]. }
      destruct g.
      * destruct (match_re a _ s) eqn:E; [injection H as <-; by apply Hmore|by apply Hk].
      * destruct (k s) eqn:E; [injection H as <-; by apply Hk|by apply Hmore].
  - intros H. eapply IHa in H; [exact H|]. intros x y Hy%Hk. by rewrite Hy.
  - destruct (group_of s n); [|done]. destruct (backref_here _ _ _); [|done]. intros H%Hk. by rewrite H, whole_advance.
  - destruct (match_re a Some s); [done|apply Hk].
  - destruct (at_word_boundary s); [apply Hk|done].
  - destruct (consumed s) as [|c l]; [apply Hk|]. destruct (c =? 10); [apply Hk|done].
  - destruct (rest s) as [|c [|]]; [apply Hk| |done]. destruct (c =? 10); [apply Hk|done].
Qed.

Lemma re_search_whole r before s a m : re_search_from r before s = Some (a, m) -> whole m = rev before ++ s.
Proof.
  revert before. induction s as [|c s IH]; intros before; cbn [re_search_from];
    destruct (match_re r Some (start_at before _)) eqn:E; try done.
  - intros [= <- <-]. eapply match_re_whole in E; [exact E|]. by intros x y [= ->].
  - intros [= <- <-]. eapply match_re_whole in E; [exact E|]. by intros x y [= ->].
  - intros H%IH. rewrite H. cbn. by rewrite <- app_assoc.
Qed.

(** ** Matching step by step *)

Lemma advance_rest k s a b : rest s = a ++ b -> length a = k -> rest (advance k s) = b.
Proof. intros H <-. cbn. by rewrite H, drop_app_length. Qed.

Lemma advance_advance i j s : advance j (advance i s) = advance (i + j) s.
Proof.
  unfold advance. cbn. f_equal; [|by rewrite drop_drop].
  rewrite app_assoc, <- rev_app_distr. f_equal. f_equal. by rewrite take_take_drop.
Qed.

Lemma advance_0 s : advance 0 s = s.
Proof. by destruct s. Qed.

(** A literal that is there is consumed; its first character decides when
    it is not. *)
Lemma match_lit t k s b : rest s = t ++ b -> match_re (lit_text false t) k s = k (advance (length t) s).
Proof.
  revert s k. induction t as [|c t IH]; intros s k Hr; cbn [lit_text match_re length]; [by rewrite advance_0|].
  rewrite Hr. cbn [app]. rewrite Z.eqb_refl. rewrite IH by (by apply (advance_rest 1 s [c] (t ++ b))).
  by rewrite advance_advance.
Qed.

Lemma match_lit_fails c t k s :
  match rest s with x :: _ => x <> c | [] => True end -> match_re (lit_text false (c :: t)) k s = None.
Proof.
  intros H. cbn [lit_text match_re]. destruct (rest s) as [|x r]; [done|].
  replace (x =? c) with false by (symmetry; by apply Z.eqb_neq). done.
Qed.

(** Repetition of one character, greedy and lazy, unrolled once. *)
Lemma match_many p k s :
  match_re (rmany p) k s =
  match rest s with
  | c :: _ => if p c then match match_re (rmany p) k (advance 1 s) with Some x => Some x | None => k s end else k s
  | [] => k s
  end.
Proof.
  unfold rmany. cbn [match_re]. destruct (rest s) as [|c r] eqn:E; [done|]. cbn [length].
  rewrite E. destruct (p c); [|done]. cbn [advance rest]. rewrite E. cbn [drop]. rewrite drop_0.
  replace (length r <? length (c :: r))%nat with true by (symmetry; apply Nat.ltb_lt; cbn; lia). done.
Qed.

Lemma match_lazy p k s :
  match_re (RStar false (RChar p)) k s =
  match k s with
  | Some x => Some x
  | None => match rest s with
            | c :: _ => if p c then match_re (RStar false (RChar p)) k (advance 1 s) else None
            | [] => None
            end
  end.
Proof.
  cbn [match_re]. destruct (rest s) as [|c r] eqn:E; [cbn; by destruct (k s)|]. cbn [length].
  rewrite E. destruct (k s); [done|]. destruct (p c); [|done]. cbn [advance rest]. rewrite E. cbn [drop]. rewrite drop_0.
  replace (length r <? length (c :: r))%nat with true by (symmetry; apply Nat.ltb_lt; cbn; lia). done.
Qed.

Lemma match_seq a b k s : match_re (RSeq a b) k s = match_re a (match_re b k) s.
Proof. done. Qed.

(** The state after group [n], started in [s], has ended in [s']. *)
Definition capture (n : nat) (s s' : mstate) : mstate :=
  {| consumed := consumed s'; rest := rest s';
     groups := (n, take (length (rest s) - length (rest s')) (rest s)) :: groups s' |}.

Lemma match_group n a k s : match_re (RGroup n a) k s = match_re a (fun s' => k (capture n s s')) s.
Proof. done. Qed.
