(* ===== verification/RegexSem.v ===== *)
(** * What a match means

    The matcher of [Regex] tries alternatives in order and backtracks; here
    is the reading it is checked against: [sem r s s'] says that [r] can lead
    from [s] to [s'].  Every match the matcher finds is one of these, so a
    fact about what a pattern captures is proved by inversion of [sem]. *)
From Stdlib Require Import ZArith Lia Ascii String.
From stdpp Require Import prelude.
From S2P Require Import Prelude PyBytes PyText Regex.

Inductive sem : re -> mstate -> mstate -> Prop :=
  | sem_eps s : sem REps s s
  | sem_char p c r s : rest s = c :: r -> p c = true -> sem (RChar p) s (advance 1 s)
  | sem_seq a b s s1 s2 : sem a s s1 -> sem b s1 s2 -> sem (RSeq a b) s s2
  | sem_left a b s s' : sem a s s' -> sem (RAlt a b) s s'
  | sem_right a b s s' : sem b s s' -> sem (RAlt a b) s s'
  | sem_stop g a s : sem (RStar g a) s s
  | sem_more g a s s1 s2 : sem a s s1 -> sem (RStar g a) s1 s2 -> sem (RStar g a) s s2
  | sem_group n a s s' : sem a s s' -> sem (RGroup n a) s (capture n s s')
  | sem_backref ci n g s : group_of s n = Some g -> backref_here ci g (rest s) = true -> sem (RBackref ci n) s (advance (length g) s)
  | sem_not_ahead a s : match_re a Some s = None -> sem (RNotAhead a) s s
  | sem_word_b s : at_word_boundary s = true -> sem RWordB s s
  | sem_bol s : match consumed s with [] => True | c :: _ => c = 10 end -> sem RBol s s
  | sem_eol s : match rest s with [] => True | [c] => c = 10 | _ => False end -> sem REol s s.

(** The matcher is sound: it goes on from a state the pattern leads to. *)
Lemma match_re_sound r k s m : match_re r k s = Some m -> exists s', sem r s s' /\ k s' = Some m.
Proof.
  revert k s m. induction r as [|p|a IHa b IHb|a IHa b IHb|g a IHa|n a IHa|ci n|a IHa| | |]; intros k s m; cbn [match_re].
  - intros H. exists s. split; [constructor|done].
  - destruct (rest s) as [|c r] eqn:E; [done|]. destruct (p c) eqn:Ep; [|done]. intros H. exists (advance 1 s). split; [by econstructor|done].
  - intros (s1 & H1 & (s2 & H2 & H)%IHb)%IHa. exists s2. split; [by econstructor|done].
  - destruct (match_re a k s) eqn:E.
    + intros [= ->]. apply IHa in E as (s' & H1 & H2). exists s'. split; [by apply sem_left|done].
    + intros (s' & H1 & H2)%IHb. exists s'. split; [by apply sem_right|done].
  - match goal with |- ?F _ s = _ -> _ => set (loop := F) end.
    assert (forall n s, loop n s = Some m -> exists s', sem (RStar g a) s s' /\ k s' = Some m) as Hloop; [|apply Hloop].
    clear s. induction n as [|n IHn]; intros s H; cbn in H.
    + assert (k s = Some m) as Hk by (destruct g; [done|]; by destruct (k s)). exists s. split; [constructor|done].
    + fold loop in H.
      assert (forall t, match_re a (fun x => if (length (rest x) <? length (rest s))%nat then loop n x else None) s = Some t ->
                t = m -> exists s', sem (RStar g a) s s' /\ k s' = Some m) as Hmore.
      { intros t Ht ->. apply IHa in Ht as (s1 & H1 & H2). destruct (_ <? _)%nat; [|done].
        apply IHn in H2 as (s2 & H2 & H3). exists s2. split; [by econstructor|done]. }
      destruct g.
      * destruct (match_re a _ s) eqn:E; [injection H as ->; by eapply Hmore|]. exists s. split; [constructor|done].
      * destruct (k s) eqn:E; [injection H as ->; exists s; split; [constructor|done]|]. by eapply Hmore.
  - intros (s1 & H1 & H2)%IHa. eexists. split; [by constructor|exact H2].
  - destruct (group_of s n) as [g|] eqn:Eg; [|done]. destruct (backref_here ci g (rest s)) eqn:E; [|done]. intros H.
    eexists. split; [by econstructor|exact H].
  - destruct (match_re a Some s) eqn:E; [done|]. intros H. exists s. split; [by constructor|done].
  - destruct (at_word_boundary s) eqn:E; [|done]. intros H. exists s. split; [by constructor|done].
  - intros H. exists s. destruct (consumed s) as [|c l] eqn:E; [by split; [constructor; rewrite E|]|].
    destruct (c =? 10) eqn:Ec; [|done]. bool_to_prop. split; [constructor; by rewrite E|done].
  - intros H. exists s. destruct (rest s) as [|c [|]] eqn:E; [by split; [constructor; rewrite E|]| |done].
    destruct (c =? 10) eqn:Ec; [|done]. bool_to_prop. split; [constructor; by rewrite E|done].
Qed.

(** ** What was consumed *)

(** [s'] is [s] after the text [w]. *)
Definition eats (w : text) (s s' : mstate) : Prop := rest s = w ++ rest s'.

Lemma advance_eats k s : eats (take k (rest s)) s (advance k s).
Proof. unfold eats. cbn. by rewrite take_drop. Qed.

Lemma sem_eats r s s' : sem r s s' -> exists w, eats w s s'.
Proof.
  induction 1 as [s|p c r s Hr Hp|a b s s1 s2 H1 [w1 IH1] H2 [w2 IH2]|a b s s' H IH|a b s s' H IH|g a s|g a s s1 s2 H1 [w1 IH1] H2 [w2 IH2]
    |n a s s' H [w IH]|ci n g s Hg Hb|a s H|s H|s H|s H]; try (by exists []).
  - eexists. apply advance_eats.
  - exists (w1 ++ w2). unfold eats in *. by rewrite IH1, IH2, <- app_assoc.
  - done.
  - done.
  - exists (w1 ++ w2). unfold eats in *. by rewrite IH1, IH2, <- app_assoc.
  - by exists w.
  - eexists. apply advance_eats.
Qed.

(** A group holds what its pattern ate. *)
Lemma capture_eats n w s s' : eats w s s' -> capture n s s' = MState (consumed s') (rest s') ((n, w) :: groups s').
Proof.
  unfold eats, capture. intros H. f_equal. f_equal. f_equal. rewrite H, length_app.
  replace (length w + length (rest s') - length (rest s'))%nat with (length w) by lia. apply take_app_length.
Qed.

(** Patterns without groups leave the groups alone. *)
Fixpoint groupless (r : re) : bool :=
  match r with
  | RSeq a b | RAlt a b => groupless a && groupless b
  | RStar _ a => groupless a
  | RGroup _ _ => false
  | _ => true
  end.

Lemma sem_groupless r s s' : sem r s s' -> groupless r = true -> groups s' = groups s.
Proof.
  induction 1 as [s|p c r s Hr Hp|a b s s1 s2 H1 IH1 H2 IH2|a b s s' H IH|a b s s' H IH|g a s|g a s s1 s2 H1 IH1 H2 IH2
    |n a s s' H IH|ci n g s Hg Hb|a s H|s H|s H|s H]; cbn [groupless]; intros Hg'; try done.
  - apply andb_true_iff in Hg' as [Ha Hb]. by rewrite IH2, IH1.
  - apply andb_true_iff in Hg' as [Ha Hb]. by apply IH.
  - apply andb_true_iff in Hg' as [Ha Hb]. by apply IH.
  - by rewrite IH2, IH1.
Qed.

(** Both at once: a groupless step. *)
Lemma sem_plain r s s' : sem r s s' -> groupless r = true -> exists w, eats w s s' /\ groups s' = groups s.
Proof. intros H Hg. destruct (sem_eats r s s' H) as [w Hw]. exists w. split; [done|]. by eapply sem_groupless. Qed.

Lemma sem_seq_inv a b s s2 : sem (RSeq a b) s s2 -> exists s1, sem a s s1 /\ sem b s1 s2.
Proof. inversion 1; subst. by eexists. Qed.
Lemma sem_eps_inv s s' : sem REps s s' -> s' = s.
Proof. by inversion 1. Qed.
(** A group around a groupless pattern. *)
Lemma sem_group_inv n a s s' : sem (RGroup n a) s s' -> groupless a = true ->
  exists w s1, sem a s s1 /\ eats w s s' /\ rest s' = rest s1 /\ groups s' = (n, w) :: groups s.
Proof.
  inversion 1; subst. intros Hg. destruct (sem_plain a s s'0) as (w & Hw & Hs); [done|done|]. exists w, s'0.
  rewrite (capture_eats n w) by done. cbn. by rewrite Hs.
Qed.
Lemma sem_char_inv p s s' : sem (RChar p) s s' -> exists c, p c = true /\ eats [c] s s' /\ groups s' = groups s.
Proof. inversion 1; subst. exists c. split_and!; [done| |done]. unfold eats. cbn. by rewrite H1. Qed.
(** A back-reference eats a case variant of its group. *)
Lemma sem_backref_inv ci n s s' : sem (RBackref ci n) s s' ->
  exists g w, group_of s n = Some g /\ eats w s s' /\ groups s' = groups s /\
    (if ci then map lower_simple w = map lower_simple g else w = g).
Proof.
  inversion 1; subst. exists g, (take (length g) (rest s)). split_and!; [done|apply advance_eats|done|].
  unfold backref_here in *. destruct ci.
  - match goal with H : startswith _ _ = true |- _ => apply startswith_spec in H as [r Hr] end.
    apply (f_equal (take (length g))) in Hr. rewrite <- firstn_map, Hr, take_app_le by (by rewrite length_map).
    apply take_ge. by rewrite length_map.
  - match goal with H : startswith _ _ = true |- _ => apply startswith_spec in H as [r ->] end. by rewrite take_app_length.
Qed.
Lemma sem_lit_inv t s s' : sem (lit_text false t) s s' -> eats t s s' /\ groups s' = groups s.
Proof.
  revert s. induction t as [|c t IH]; intros s; cbn [lit_text].
  - intros ->%sem_eps_inv. by split.
  - intros (s1 & (d & Hd & H1 & Hg1)%sem_char_inv & (H2 & Hg2)%IH)%sem_seq_inv. apply Z.eqb_eq in Hd as ->.
    split; [|congruence]. unfold eats in *. rewrite H1, H2. done.
Qed.
