(* ===== verification/Errors.v ===== *)
(** * errors.py: failure classes, redaction and the base exception *)
From Stdlib Require Import ZArith Lia Ascii String.
From stdpp Require Import prelude.
From S2P Require Import Prelude PyBytes PyText Regex.

(** [class ErrorClass]: the ten stable classes. *)
Inductive ErrorClass : Type :=
  | CONNECTION | TLS_VALIDATION | AUTHENTICATION | UNSUPPORTED_CAPABILITY
  | INVALID_STATE | TIMEOUT | PROTOCOL | REMOTE_OPERATION | IDENTITY_MISMATCH | BMC_BUSY.

#[global] Instance ErrorClass_eq_dec : EqDecision ErrorClass.
Proof. solve_decision. Defined.

Definition error_class_str (c : ErrorClass) : text :=
  match c with
  | CONNECTION => $"connection"
  | TLS_VALIDATION => $"tls_validation"
  | AUTHENTICATION => $"authentication"
  | UNSUPPORTED_CAPABILITY => $"unsupported_capability"
  | INVALID_STATE => $"invalid_state"
  | TIMEOUT => $"timeout"
  | PROTOCOL => $"protocol"
  | REMOTE_OPERATION => $"remote_operation"
  | IDENTITY_MISMATCH => $"identity_mismatch"
  | BMC_BUSY => $"bmc_busy"
  end.

(** ** Redaction *)

Definition MAX_DIAGNOSTIC_BYTES : nat := 2048.
Definition REDACTED : text := $"[REDACTED]".

Definition AMI_SECRET_NAMES : list string :=
  ["SESSION_COOKIE"; "SessionCookie"; "STOKEN"; "kvmtoken"; "webcookie";
   "WEBVAR_PASSWORD"; "CSRFTOKEN"]%string.

Definition quote_opt (n : nat) : re := RGroup n (ropt (RChar (fun c => (c =? 39) || (c =? 34)))).
Definition header_names : re :=
  ralt [iword "authorization"; iword "proxy-authorization"; iword "set-cookie"; iword "cookie"].
Definition colon_or_eq : Z -> bool := one ":=".
Definition not_word (c : Z) : bool := negb (is_word c).
Definition not_crlf (c : Z) : bool := negb ((c =? 13) || (c =? 10)).
(** [[^\s,;&}'"<]] and [[^\s,;&}'"]] *)
Definition value_char_ami (c : Z) : bool :=
  negb (is_space c || one ",;&}'<" c || (c =? 34)).
Definition value_char (c : Z) : bool := negb (is_space c || one ",;&}'" c || (c =? 34)).
(** [[a-z0-9_:.-]] under [(?i)] *)
Definition xml_name_char (c : Z) : bool :=
  is_lower (fold_char c) || is_digit c || one "_:.-" c.
Definition scheme_first (c : Z) : bool := is_lower (fold_char c).
Definition scheme_char (c : Z) : bool := is_lower (fold_char c) || is_digit c || one "+.-" c.

Definition pat_header_quoted : re :=
  rseq [RWordB; RGroup 1 header_names;
        RGroup 2 (rseq [rupto 3 not_word; spaces; RChar colon_or_eq; spaces]);
        RGroup 3 (RChar (fun c => (c =? 39) || (c =? 34)));
        RStar true (RSeq (RNotAhead (RBackref true 3)) (RChar any_but_newline)); RBackref true 3].
Definition pat_header_line : re :=
  rseq [RBol; RGroup 1 spaces; RGroup 2 header_names;
        RGroup 3 (rseq [spaces; RChar (one ":"); spaces]); rplus not_crlf].
Definition pat_header_inline : re :=
  rseq [RWordB; RGroup 1 header_names;
        RGroup 2 (rseq [spaces; RChar (one ":"); spaces]); rplus not_crlf].
Definition pat_ami : re :=
  rseq [quote_opt 1; RGroup 2 (ralt (map iword AMI_SECRET_NAMES)); RBackref true 1;
        RGroup 3 (rseq [spaces; RChar colon_or_eq; spaces]); quote_opt 4;
        rmany value_char_ami; RBackref true 4].
Definition pat_generic : re :=
  rseq [RWordB;
        RGroup 1 (ralt [iword "password"; iword "passwd"; iword "pwd"; iword "secret"; iword "passphrase";
                        rseq [iword "api"; ropt (RChar (one "_-")); iword "key"];
                        iword "token"; iword "apikey"]);
        RGroup 2 (rseq [ropt (RChar (fun c => (c =? 39) || (c =? 34))); spaces; RChar colon_or_eq; spaces]);
        quote_opt 3; rmany value_char; RBackref true 3].
Definition pat_xml : re :=
  rseq [lit "<";
        RGroup 1 (rseq [rmany xml_name_char;
                        ralt [iword "password"; iword "secret"; iword "passphrase"; iword "token"; iword "key"];
                        rmany xml_name_char]);
        lit ">"; RStar false (RChar (fun _ => true)); lit "</"; RBackref true 1; lit ">"].
Definition pat_url : re :=
  rseq [RWordB; RGroup 1 (rseq [RChar scheme_first; rmany scheme_char; lit "://"]);
        RGroup 2 (rplus (fun c => negb (is_space c || one "/:@" c)));
        lit ":"; RGroup 3 (rplus (fun c => negb (is_space c || one "/@" c))); lit "@"].

Definition REDACTION_PATTERNS : list (re * list tpiece) :=
  [ (pat_header_quoted, [TGrp 1; TGrp 2; TGrp 3; TLit REDACTED; TGrp 3]);
    (pat_header_line, [TGrp 1; TGrp 2; TGrp 3; TLit REDACTED]);
    (pat_header_inline, [TGrp 1; TGrp 2; TLit REDACTED]);
    (pat_ami, [TGrp 1; TGrp 2; TGrp 1; TGrp 3; TGrp 4; TLit REDACTED; TGrp 4]);
    (pat_generic, [TGrp 1; TGrp 2; TGrp 3; TLit REDACTED; TGrp 3]);
    (pat_xml, [TLit ($"<"); TGrp 1; TLit ($">"); TLit REDACTED; TLit ($"</"); TGrp 1; TLit ($">")]);
    (pat_url, [TGrp 1; TGrp 2; TLit ($":"); TLit REDACTED; TLit ($"@")]) ].

(** [{s for s in secrets if s}]: the distinct non-empty items. *)
Fixpoint distinct_nonempty (l : list text) : list text :=
  match l with
  | [] => []
  | s :: l =>
      let l' := distinct_nonempty l in
      if bool_decide (s = []) || bool_decide (s ∈ l') then l' else s :: l'
  end.

(** [sorted(..., key=len, reverse=True)] *)
Fixpoint insert_longest (s : text) (l : list text) : list text :=
  match l with
  | [] => [s]
  | x :: l => if (length x <=? length s)%nat then s :: x :: l else x :: insert_longest s l
  end.
Definition longest_first (l : list text) : list text := fold_right insert_longest [] l.

(** The literal pass: every known secret, longest first. *)
Definition redact_literals (secrets : list (option text)) (t : text) : text :=
  fold_left (fun acc s => replace s REDACTED acc)
    (longest_first (distinct_nonempty (omap id secrets))) t.

(** The pattern pass, in order. *)
Definition redact_patterns (t : text) : text :=
  fold_left (fun acc p => re_sub (fst p) (snd p) acc) REDACTION_PATTERNS t.

Definition truncate_diagnostic (t : text) : text :=
  if (MAX_DIAGNOSTIC_BYTES <? length t)%nat
  then take MAX_DIAGNOSTIC_BYTES t ++ $"... [truncated, "
       ++ dec (Z.of_nat (length t - MAX_DIAGNOSTIC_BYTES)) ++ $" more characters]"
  else t.

(** [redact(text, extra_secrets)] for a text or [None], with an iterable of
    texts and [None]s (an absent [extra_secrets] is the empty iterable). *)
Definition redact (t : option text) (extra_secrets : list (option text)) : text :=
  match t with
  | None => []
  | Some t => truncate_diagnostic (redact_patterns (redact_literals extra_secrets t))
  end.

(** ** [class IkvmError] *)

Record IkvmError : Type := {
  error_class : ErrorClass;
  endpoint : option text;
  operation : option text;
  indeterminate : bool;
  return_value : option Z;
  message : text;
  diagnostic : option text;
}.

(** [IkvmError.__init__] of the subclass with class [c]. *)
Definition IkvmError_init (c : ErrorClass) (msg : text) (ep op : option text)
    (diag : option text) (secrets : list (option text)) (indet : bool) (rv : option Z) : IkvmError :=
  {| error_class := c;
     endpoint := ep;
     operation := op;
     indeterminate := indet;
     return_value := rv;
     message := redact (Some msg) secrets;
     diagnostic := match diag with Some d => Some (redact (Some d) secrets) | None => None end |}.

(** The value of one key of a result dictionary. *)
Inductive result_value : Type :=
  | VText (t : text)
  | VInt (z : Z)
  | VBool (b : bool).

(** [IkvmError.to_result], in insertion order. *)
Definition to_result (e : IkvmError) : list (text * result_value) :=
  [($"msg", VText (message e)); ($"error_class", VText (error_class_str (error_class e)))]
  ++ match endpoint e with Some x => [($"endpoint", VText x)] | None => [] end
  ++ match operation e with Some x => [($"operation", VText x)] | None => [] end
  ++ match diagnostic e with
     | Some (c :: d) => [($"diagnostic", VText (c :: d))]
     | _ => []
     end
  ++ match return_value e with Some x => [($"return_value", VInt x)] | None => [] end
  ++ (if indeterminate e then [($"indeterminate", VBool true)] else []).

(** The exception classes, one per error class; the call shape with an
    operation and no diagnostic is the common one. *)
Definition fail_with (c : ErrorClass) (msg : text) (ep : option text) (op : text) : IkvmError :=
  IkvmError_init c msg ep (Some op) None [] false None.
Definition ConnectionError_ := fail_with CONNECTION.
Definition TlsValidationError := fail_with TLS_VALIDATION.
Definition AuthenticationError := fail_with AUTHENTICATION.
Definition UnsupportedCapabilityError := fail_with UNSUPPORTED_CAPABILITY.
Definition InvalidStateError := fail_with INVALID_STATE.
Definition ProtocolError := fail_with PROTOCOL.
Definition RemoteOperationError := fail_with REMOTE_OPERATION.
Definition BmcBusyError := fail_with BMC_BUSY.
Definition TimeoutError_ (msg : text) (ep : option text) (op : text) (indet : bool) : IkvmError :=
  IkvmError_init TIMEOUT msg ep (Some op) None [] indet None.

(** [ERROR_CLASS_TO_EXCEPTION] is total and injective on the class strings:
    the class is recovered from its string. *)
Definition ALL : list ErrorClass :=
  [CONNECTION; TLS_VALIDATION; AUTHENTICATION; UNSUPPORTED_CAPABILITY; INVALID_STATE;
   TIMEOUT; PROTOCOL; REMOTE_OPERATION; IDENTITY_MISMATCH; BMC_BUSY].
Definition error_class_of_str (t : text) : option ErrorClass :=
  List.find (fun c => text_eqb (error_class_str c) t) ALL.

(** ** Every exception the modelled code can raise *)

Inductive exn : Type :=
  | Ikvm (e : IkvmError)
  | IdleTimeout                         (* iusb.IdleTimeout *)
  | EOFError (msg : text)
  | OSError (msg : text)
  | IsADirectoryError (msg : text)      (* a subclass of OSError *)
  | FileNotFoundError (msg : text)      (* a subclass of OSError *)
  | PermissionError (msg : text)        (* a subclass of OSError *)
  | UnicodeDecodeError (msg : text)
  | ValueError (msg : text)
  | RuntimeError (msg : text)
  | OverflowError (msg : text)
  | KeyError (msg : text)
  | IndexError (msg : text)
  | TypeError (msg : text)
  | AssertionError (msg : text)
  | ZeroDivisionError (msg : text)
  | UnicodeEncodeError (msg : text)
  | CacheReadOnlyError (msg : text).

(** [str(exc)] *)
Definition exn_str (e : exn) : text :=
  match e with
  | Ikvm e => message e
  | IdleTimeout => []
  | EOFError m | OSError m | IsADirectoryError m | FileNotFoundError m | PermissionError m
  | UnicodeDecodeError m | ValueError m | RuntimeError m
  | OverflowError m | KeyError m | IndexError m | TypeError m | AssertionError m | ZeroDivisionError m | UnicodeEncodeError m
  | CacheReadOnlyError m => m
  end.

(** [except OSError] *)
Definition is_os_error (e : exn) : bool :=
  match e with
  | OSError _ | IsADirectoryError _ | FileNotFoundError _ | PermissionError _ => true
  | _ => false
  end.

Definition raise_ikvm {A} (e : IkvmError) : result exn A := Err (Ikvm e).

(** [s.encode("ascii")] as the code calls it. *)
Definition encode_ascii_exn (s : text) : result exn bytes :=
  match encode_ascii s with
  | Some b => Ok b
  | None => Err (UnicodeEncodeError (ascii_error s))
  end.
