(* ===== verification/IusbFrame.v ===== *)
(** * iusb.py: header codec, packets, authentication and framing

    The pure half of the IUSB protocol: the 32-byte header, the SCSI envelope
    accessors of a packet, the authentication packet and its acknowledgement,
    and the request/response frame functions. *)
From Stdlib Require Import ZArith Lia Ascii String.
From stdpp Require Import prelude.
From S2P Require Import Prelude PyBytes PyText Regex Errors.

Definition HEADER_LEN : nat := 32.
Definition SIGNATURE : bytes := $"IUSB    ".
Definition IUSB_MAJOR : Z := 1.
Definition IUSB_MINOR : Z := 0.
Definition DEVICE_CDROM : Z := 5.

Definition OP_AUTH : Z := 0xF2.
Definition OP_REDIRECT_ACK : Z := 0xF1.
Definition OP_KILL_REDIR : Z := 0xF6.
Definition OP_START_STOP_UNIT : Z := 0x1B.

Definition ENV_OFF_DATA_LEN : nat := 0.
Definition ENV_OFF_RESP_LEN : nat := 25.
Definition OPCODE_OFFSET : nat := 9.
Definition EJECT_BYTE_OFFSET : nat := 13.
Definition CONN_STATUS_OFFSET : nat := 30.
Definition AUTH_TOKEN_OFFSET : nat := 31.
Definition AUTH_PAYLOAD_LEN : nat := 128.
Definition SSI_AUTH_PAYLOAD_LEN : nat := 240.
Definition CONN_OK : Z := 1.

Definition CD_BLOCK_SIZE : Z := 2048.
Definition SCSI_TEST_UNIT_READY : Z := 0x00.
Definition SCSI_START_STOP_UNIT : Z := 0x1B.
Definition SCSI_READ_CAPACITY10 : Z := 0x25.
Definition SCSI_READ10 : Z := 0x28.
Definition SCSI_READ_TOC : Z := 0x43.
Definition SCSI_READ12 : Z := 0xA8.
Definition AMI_CONTROL_OPCODE_MIN : Z := 0xF0.
Definition MAX_PACKET_PAYLOAD : Z := 0x20000 + 4096.

(** ** [class Header] *)

Module Header.
Record t : Type := mk {
  major : Z;
  minor : Z;
  data_packet_len : Z;
  server_caps : Z;
  device_type : Z;
  protocol : Z;
  direction : Z;
  device_number : Z;
  interface_number : Z;
  client_data : Z;
  instance : Z;
  sequence_number : Z;
}.

(** The dataclass defaults. *)
Definition default : t :=
  {| major := IUSB_MAJOR; minor := IUSB_MINOR; data_packet_len := 0; server_caps := 0;
     device_type := 0; protocol := 1; direction := 0; device_number := 0;
     interface_number := 0; client_data := 0; instance := 0; sequence_number := 0 |}.

(** The header with a zero checksum byte. *)
Definition unsummed (h : t) : bytes :=
  let b := zeros HEADER_LEN in
  let b := splice b 0 SIGNATURE in
  let b := setb b 8 (u8 (major h)) in
  let b := setb b 9 (u8 (minor h)) in
  let b := setb b 10 (Z.of_nat HEADER_LEN) in
  let b := splice b 12 (le_bytes 4 (u32 (data_packet_len h))) in
  let b := setb b 16 (u8 (server_caps h)) in
  let b := setb b 17 (u8 (device_type h)) in
  let b := setb b 18 (u8 (protocol h)) in
  let b := setb b 19 (u8 (direction h)) in
  let b := setb b 20 (u8 (device_number h)) in
  let b := setb b 21 (u8 (interface_number h)) in
  let b := setb b 22 (u8 (client_data h)) in
  let b := setb b 23 (u8 (instance h)) in
  splice b 24 (le_bytes 4 (u32 (sequence_number h))).

Definition sum (b : bytes) : Z := fold_right Z.add 0 b.

Definition marshal (h : t) : bytes :=
  let b := unsummed h in
  setb b 11 (u8 (- sum b)).

(** [b[i]] on a string known to be long enough. *)
Definition at_ (b : bytes) (i : nat) : Z := nth i b 0.

Definition parse (b : bytes) : result exn t :=
  if (length b <? HEADER_LEN)%nat then
    raise_ikvm (ProtocolError ($"iusb: short header: " ++ dec (blen b) ++ $" bytes") None ($"iusb.parse_header"))
  else if negb (bool_decide (slice 0 8 b = SIGNATURE)) then
    raise_ikvm (ProtocolError ($"iusb: bad signature " ++ repr_bytes (slice 0 8 b)) None ($"iusb.parse_header"))
  else
    Ok {| major := at_ b 8; minor := at_ b 9;
          data_packet_len := from_le (slice 12 16 b);
          server_caps := at_ b 16; device_type := at_ b 17; protocol := at_ b 18;
          direction := at_ b 19; device_number := at_ b 20; interface_number := at_ b 21;
          client_data := at_ b 22; instance := at_ b 23;
          sequence_number := from_le (slice 24 28 b) |}.

(** A header whose fields fit their wire width. *)
Definition wf (h : t) : Prop :=
  is_byte (major h) /\ is_byte (minor h) /\ 0 <= data_packet_len h < 2 ^ 32 /\
  is_byte (server_caps h) /\ is_byte (device_type h) /\ is_byte (protocol h) /\
  is_byte (direction h) /\ is_byte (device_number h) /\ is_byte (interface_number h) /\
  is_byte (client_data h) /\ is_byte (instance h) /\ 0 <= sequence_number h < 2 ^ 32.

(** What the wire keeps of a header. *)
Definition truncate (h : t) : t :=
  {| major := u8 (major h); minor := u8 (minor h);
     data_packet_len := u32 (data_packet_len h); server_caps := u8 (server_caps h);
     device_type := u8 (device_type h); protocol := u8 (protocol h);
     direction := u8 (direction h); device_number := u8 (device_number h);
     interface_number := u8 (interface_number h); client_data := u8 (client_data h);
     instance := u8 (instance h); sequence_number := u32 (sequence_number h) |}.

#[global] Instance eq_dec : EqDecision t.
Proof. solve_decision. Defined.
End Header.

(** ** [class Packet] *)

Module Packet.
Record t : Type := mk {
  header : Header.t;
  payload : bytes;
}.

Definition opcode (p : t) : Z :=
  if (length (payload p) <=? OPCODE_OFFSET)%nat then 0
  else nth OPCODE_OFFSET (payload p) 0.

Definition cdb (p : t) : bytes :=
  if (length (payload p) <=? OPCODE_OFFSET)%nat then []
  else drop OPCODE_OFFSET (payload p).

Definition is_eject (p : t) : bool :=
  (opcode p =? OP_START_STOP_UNIT) && (EJECT_BYTE_OFFSET <? length (payload p))%nat
  && (nth EJECT_BYTE_OFFSET (payload p) 0 =? 2).

Definition is_kill (p : t) : bool := opcode p =? OP_KILL_REDIR.
End Packet.

(** ** Authentication *)

Definition build_auth (device_type instance : Z) (token : text) (ssi : bool) : result exn bytes :=
  let payload_len := if ssi then SSI_AUTH_PAYLOAD_LEN else AUTH_PAYLOAD_LEN in
  let header :=
    {| Header.major := IUSB_MAJOR; Header.minor := IUSB_MINOR;
       Header.data_packet_len := Z.of_nat payload_len; Header.server_caps := 0;
       Header.device_type := device_type; Header.protocol := 1; Header.direction := 128;
       Header.device_number := 0; Header.interface_number := 0; Header.client_data := 0;
       Header.instance := instance; Header.sequence_number := 0 |} in
  let header_bytes := Header.marshal header in
  let payload := zeros payload_len in
  let payload := setb payload OPCODE_OFFSET OP_AUTH in
  let payload := setb payload CONN_STATUS_OFFSET 0 in
  let* token_bytes := encode_ascii_exn token in
  let end_ := (AUTH_TOKEN_OFFSET + length token_bytes)%nat in
  if (payload_len <? end_)%nat then
    raise_ikvm (ProtocolError
      ($"iusb: token (" ++ dec (blen token_bytes) ++ $" bytes) does not fit in the "
       ++ dec (Z.of_nat payload_len) ++ $"-byte auth payload starting at offset "
       ++ dec (Z.of_nat AUTH_TOKEN_OFFSET)) None ($"iusb.build_auth"))
  else Ok (header_bytes ++ splice payload AUTH_TOKEN_OFFSET token_bytes).

Definition other_ip (payload : bytes) : text :=
  if (length payload <=? AUTH_TOKEN_OFFSET)%nat then []
  else
    let raw := drop AUTH_TOKEN_OFFSET payload in
    let raw := match find_char 0 raw with Some nul => take nul raw | None => raw end in
    strip (decode_ascii_replace raw).

Definition busy_advice : text :=
  $" This BMC allows exactly one active iUSB/media session and has no server-side timeout to reclaim an abandoned one, so this is very often a stale session left over from a previous attach, not a protocol failure. If a previous session_id for this endpoint is known, detach it first (state=detached); this module also always attempts to reclaim any session it can find recorded for this endpoint before every attach. If no software reclamation clears it, a BMC cold reset (`ipmitool mc reset cold`, or the pyghmi equivalent) is the operator's escape hatch -- it does not affect host power.".

Definition interpret_ack (p : Packet.t) (endpoint : option text) : result exn unit :=
  if negb (Packet.opcode p =? OP_REDIRECT_ACK) then
    raise_ikvm (ProtocolError
      ($"iusb: expected redirection ACK (0x" ++ hex02 true OP_REDIRECT_ACK ++ $"), got opcode 0x"
       ++ hex02 true (Packet.opcode p)) endpoint ($"iusb.authenticate"))
  else if (length (Packet.payload p) <=? CONN_STATUS_OFFSET)%nat then
    raise_ikvm (ProtocolError
      ($"iusb: ACK payload too short (" ++ dec (blen (Packet.payload p)) ++ $" bytes)")
      endpoint ($"iusb.authenticate"))
  else
    let status := nth CONN_STATUS_OFFSET (Packet.payload p) 0 in
    if status =? CONN_OK then Ok tt
    else
      let owner_ip := other_ip (Packet.payload p) in
      let detail := if bool_decide (owner_ip = []) then []
                    else $" It reports being held by " ++ owner_ip ++ $"." in
      raise_ikvm (BmcBusyError
        ($"BMC rejected the media session (connectionStatus=" ++ dec status ++ $")." ++ detail ++ busy_advice)
        endpoint ($"iusb.authenticate")).

(** ** Frames *)

Definition parse_request_frame (frame : bytes) : result exn Packet.t :=
  if (length frame <? HEADER_LEN)%nat then
    raise_ikvm (ProtocolError
      ($"iusb: frame shorter than the " ++ dec (Z.of_nat HEADER_LEN) ++ $"-byte header")
      None ($"iusb.parse_request_frame"))
  else
    let* header := Header.parse (take HEADER_LEN frame) in
    let payload := drop HEADER_LEN frame in
    if negb (blen payload =? Header.data_packet_len header) then
      raise_ikvm (ProtocolError
        ($"iusb: frame payload is " ++ dec (blen payload) ++ $" bytes, header says "
         ++ dec (Header.data_packet_len header)) None ($"iusb.parse_request_frame"))
    else Ok {| Packet.header := header; Packet.payload := payload |}.

Definition response_header (req_header : Header.t) (payload : bytes) (device_type : Z) : Header.t :=
  {| Header.major := IUSB_MAJOR; Header.minor := IUSB_MINOR;
     Header.data_packet_len := blen payload; Header.server_caps := 0;
     Header.device_type := device_type; Header.protocol := 1; Header.direction := 128;
     Header.device_number := 0; Header.interface_number := 0; Header.client_data := 0;
     Header.instance := Header.instance req_header;
     Header.sequence_number := Header.sequence_number req_header |}.

Definition build_response_frame (req_header : Header.t) (payload : bytes) (device_type : Z) : bytes :=
  Header.marshal (response_header req_header payload device_type) ++ payload.

(** ** Lemmas *)

Module HeaderFacts.
Import Header.

(** The layout, field by field. *)
Lemma unsummed_layout h :
  unsummed h =
    SIGNATURE ++ [u8 (major h); u8 (minor h); 32; 0] ++ le_bytes 4 (u32 (data_packet_len h))
    ++ [u8 (server_caps h); u8 (device_type h); u8 (protocol h); u8 (direction h);
        u8 (device_number h); u8 (interface_number h); u8 (client_data h); u8 (instance h)]
    ++ le_bytes 4 (u32 (sequence_number h)) ++ [0; 0; 0; 0].
Proof. reflexivity. Qed.

Lemma marshal_layout h :
  marshal h =
    SIGNATURE ++ [u8 (major h); u8 (minor h); 32; u8 (- sum (unsummed h))]
    ++ le_bytes 4 (u32 (data_packet_len h))
    ++ [u8 (server_caps h); u8 (device_type h); u8 (protocol h); u8 (direction h);
        u8 (device_number h); u8 (interface_number h); u8 (client_data h); u8 (instance h)]
    ++ le_bytes 4 (u32 (sequence_number h)) ++ [0; 0; 0; 0].
Proof. reflexivity. Qed.

Lemma length_marshal h : length (marshal h) = HEADER_LEN.
Proof. reflexivity. Qed.

Lemma wf_signature : wf_bytes SIGNATURE.
Proof. apply wf_bytesb. reflexivity. Qed.

Lemma marshal_wf h : wf_bytes (marshal h).
Proof.
  assert (is_byte 0 /\ is_byte 32) as [H0 H32] by (unfold is_byte; lia).
  rewrite marshal_layout. unfold wf_bytes.
  repeat first [done | apply wf_signature | apply le_bytes_wf | apply u8_is_byte
               | apply Forall_app; split | apply List.Forall_nil | apply List.Forall_cons].
Qed.

Lemma sum_app a b : sum (a ++ b) = sum a + sum b.
Proof. induction a as [|x a IH]; simpl; [done|]. unfold sum in *. lia. Qed.

(** Filling in byte 11 adds the checksum to the sum. *)
Lemma sum_marshal h : sum (marshal h) = u8 (- sum (unsummed h)) + sum (unsummed h).
Proof.
  rewrite marshal_layout. generalize (u8 (- sum (unsummed h))) as c. intros c.
  rewrite unsummed_layout, !sum_app. unfold sum. cbn [fold_right]. lia.
Qed.

Lemma from_le_u32 z : from_le (le_bytes 4 (u32 z)) = u32 z.
Proof.
  rewrite from_le_le_bytes, u32_mod. change (256 ^ Z.of_nat 4) with 4294967296.
  apply Z.mod_mod. lia.
Qed.

Lemma word_bound w0 w1 w2 w3 :
  is_byte w0 -> is_byte w1 -> is_byte w2 -> is_byte w3 -> 0 <= from_le [w0; w1; w2; w3] < 2 ^ 32.
Proof. unfold is_byte. cbn [from_le]. lia. Qed.

Lemma word_roundtrip w0 w1 w2 w3 :
  is_byte w0 -> is_byte w1 -> is_byte w2 -> is_byte w3 ->
  le_bytes 4 (u32 (from_le [w0; w1; w2; w3])) = [w0; w1; w2; w3].
Proof.
  intros. rewrite u32_id by (by apply word_bound).
  apply (le_bytes_from_le [w0; w1; w2; w3]).
  do 4 (apply List.Forall_cons; [done|]). apply List.Forall_nil.
Qed.

Lemma parse_marshal_app h rest : parse (marshal h ++ rest) = Ok (truncate h).
Proof.
  unfold parse. rewrite length_app, length_marshal.
  replace (HEADER_LEN + length rest <? HEADER_LEN)%nat with false
    by (symmetry; apply Nat.ltb_ge; lia).
  rewrite marshal_layout. rewrite bool_decide_eq_true_2 by reflexivity. cbn [negb].
  unfold truncate. f_equal. f_equal.
  - exact (from_le_u32 (data_packet_len h)).
  - exact (from_le_u32 (sequence_number h)).
Qed.

Lemma truncate_wf h : wf h -> truncate h = h.
Proof.
  destruct h. unfold wf, truncate. cbn. intros H. destruct_and! H.
  rewrite !u8_id, !u32_id by done. done.
Qed.
End HeaderFacts.

Module FrameFacts.
Import Header HeaderFacts.

(** The authentication payload: a fixed 31-byte prefix, the token, zeros. *)
Definition auth_prefix : bytes := zeros 9 ++ [OP_AUTH] ++ zeros 21.

Lemma drop_prefix_zeros (p : bytes) n k :
  drop (length p + k) (p ++ zeros n) = zeros (n - k).
Proof.
  rewrite <- drop_drop. rewrite drop_app_length. unfold zeros. apply drop_replicate.
Qed.

Lemma auth_payload_layout (ssi : bool) tb :
  let n := if ssi then SSI_AUTH_PAYLOAD_LEN else AUTH_PAYLOAD_LEN in
  splice (setb (setb (zeros n) OPCODE_OFFSET OP_AUTH) CONN_STATUS_OFFSET 0) AUTH_TOKEN_OFFSET tb
  = auth_prefix ++ tb ++ zeros (n - AUTH_TOKEN_OFFSET - length tb).
Proof.
  intros n. unfold splice.
  assert (setb (setb (zeros n) OPCODE_OFFSET OP_AUTH) CONN_STATUS_OFFSET 0
          = auth_prefix ++ zeros (n - AUTH_TOKEN_OFFSET)) as -> by (destruct ssi; reflexivity).
  change AUTH_TOKEN_OFFSET with (length auth_prefix) at 1 3.
  rewrite take_app_length, drop_prefix_zeros. done.
Qed.

Definition auth_header (device_type instance : Z) (ssi : bool) : Header.t :=
  {| major := IUSB_MAJOR; minor := IUSB_MINOR;
     data_packet_len := Z.of_nat (if ssi then SSI_AUTH_PAYLOAD_LEN else AUTH_PAYLOAD_LEN);
     server_caps := 0; Header.device_type := device_type; protocol := 1; direction := 128;
     device_number := 0; interface_number := 0; client_data := 0;
     Header.instance := instance; sequence_number := 0 |}.

Lemma build_auth_ok dt inst token ssi frame :
  build_auth dt inst token ssi = Ok frame ->
  let n := if ssi then SSI_AUTH_PAYLOAD_LEN else AUTH_PAYLOAD_LEN in
  (AUTH_TOKEN_OFFSET + length token <= n)%nat /\
  frame = marshal (auth_header dt inst ssi)
          ++ auth_prefix ++ token ++ zeros (n - AUTH_TOKEN_OFFSET - length token).
Proof.
  intros H n. unfold build_auth, encode_ascii_exn in H.
  destruct (encode_ascii token) as [tb|] eqn:E; [|done]. cbn [rbind] in H.
  apply encode_ascii_some in E as ->. fold n in H.
  destruct (n <? _)%nat eqn:Hfit in H; [done|]. bool_to_prop.
  injection H as <-. split; [done|].
  unfold n. rewrite <- auth_payload_layout. done.
Qed.

(** A marshalled header followed by exactly the announced payload parses. *)
Lemma parse_frame_app h payload :
  u32 (data_packet_len h) = blen payload ->
  parse_request_frame (marshal h ++ payload)
  = Ok {| Packet.header := truncate h; Packet.payload := payload |}.
Proof.
  intros Hlen. unfold parse_request_frame.
  rewrite length_app, length_marshal.
  replace (HEADER_LEN + length payload <? HEADER_LEN)%nat with false
    by (symmetry; apply Nat.ltb_ge; lia).
  rewrite <- (length_marshal h), take_app_length, drop_app_length.
  rewrite <- (app_nil_r (marshal h)), parse_marshal_app.
  cbn [rbind truncate data_packet_len]. rewrite Hlen, Z.eqb_refl. done.
Qed.

Lemma response_header_wf req payload dt :
  Header.wf req -> is_byte dt -> blen payload < 2 ^ 32 ->
  Header.wf (response_header req payload dt).
Proof.
  intros Hw Hd Hl. destruct_and! Hw. unfold Header.wf, response_header, blen in *. cbn.
  unfold is_byte in *. unfold IUSB_MAJOR, IUSB_MINOR. lia.
Qed.
End FrameFacts.

(** ** Properties *)

Section FrameProperties.
Import Header HeaderFacts FrameFacts.

(** A serialized IUSB header is 32 bytes long, every one of them a byte
    value, its bytes sum to zero modulo 256, and parsing it back (whatever
    follows it) yields the header with each field reduced to its wire width. *)
Theorem header_marshal_correct (h : Header.t) :
  length (marshal h) = HEADER_LEN /\ wf_bytes (marshal h) /\
  Header.sum (marshal h) mod 256 = 0 /\
  forall rest, parse (marshal h ++ rest) = Ok (truncate h).
Proof.
  split_and!; [apply length_marshal|apply marshal_wf| |apply parse_marshal_app].
  rewrite sum_marshal, u8_mod, Zplus_mod_idemp_l, Z.add_opp_diag_l. done.
Qed.

(** Whatever the header parser accepts is a well-formed header that
    serializes back to the same bytes, except for the four kinds of byte it
    ignores: the header length (10), the checksum (11) and the reserved
    tail (28 to 31). *)
Theorem header_parse_sound (b : bytes) (h : Header.t) :
  wf_bytes b -> parse b = Ok h ->
  Header.wf h /\ take 10 (marshal h) = take 10 b /\ slice 12 28 (marshal h) = slice 12 28 b.
Proof.
  intros Hb Hp. unfold parse in Hp.
  destruct (length b <? HEADER_LEN)%nat eqn:Hlen; [done|].
  destruct (negb _) eqn:Hsig; [done|]. bool_to_prop.
  apply bool_decide_eq_true in Hsig.
  do 32 (destruct b as [|? b]; [simpl in Hlen; unfold HEADER_LEN in Hlen; lia|]).
  clear Hlen. unfold wf_bytes in Hb. rewrite !Forall_cons_iff in Hb. destruct_and! Hb.
  apply Ok_inj in Hp as <-. unfold Header.at_, slice in *. cbn [nth take drop Nat.sub] in *.
  rewrite marshal_layout. unfold Header.wf. cbn [major minor data_packet_len server_caps
    device_type protocol direction device_number interface_number client_data instance sequence_number].
  split; [split_and!; try done; by apply word_bound|].
  repeat match goal with H : is_byte ?x |- context [u8 ?x] => rewrite (u8_id x H) end.
  split.
  - rewrite <- Hsig. done.
  - rewrite !word_roundtrip by done. done.
Qed.

(** A response frame echoes its request: it parses back, with the whole
    payload, to a header that carries the request's sequence number and
    instance, direction 128 and the payload length. *)
Theorem response_frame_echo (req : Header.t) (payload : bytes) (dt : Z) :
  Header.wf req -> is_byte dt -> blen payload < 2 ^ 32 ->
  exists p, parse_request_frame (build_response_frame req payload dt) = Ok p /\
    Packet.payload p = payload /\
    sequence_number (Packet.header p) = sequence_number req /\
    instance (Packet.header p) = instance req /\
    direction (Packet.header p) = 128 /\ device_type (Packet.header p) = dt /\
    data_packet_len (Packet.header p) = blen payload.
Proof.
  intros Hw Hd Hl. pose proof (response_header_wf req payload dt Hw Hd Hl) as Hr.
  eexists. split.
  - unfold build_response_frame. apply parse_frame_app.
    cbn [data_packet_len response_header]. apply u32_id. unfold blen in *. lia.
  - cbn [Packet.header Packet.payload]. rewrite truncate_wf by done. done.
Qed.

Definition sample_header : Header.t :=
  {| major := 1; minor := 0; data_packet_len := 41; server_caps := 0; device_type := 5;
     protocol := 1; direction := 0; device_number := 0; interface_number := 0;
     client_data := 0; instance := 3; sequence_number := 0xDEADBEEF |}.

Lemma sample_header_wf : Header.wf sample_header.
Proof. unfold Header.wf, is_byte. cbn. lia. Qed.

Lemma header_parse_sound_witness :
  Header.wf sample_header /\
  take 10 (marshal sample_header) = take 10 (marshal sample_header) /\
  slice 12 28 (marshal sample_header) = slice 12 28 (marshal sample_header).
Proof.
  apply (header_parse_sound (marshal sample_header) sample_header);
    [apply wf_bytesb; vm_compute; reflexivity | vm_compute; reflexivity].
Defined.

Lemma response_frame_echo_witness :
  exists p, parse_request_frame (build_response_frame sample_header [1; 2; 3] 5) = Ok p /\
    Packet.payload p = [1; 2; 3] /\
    sequence_number (Packet.header p) = sequence_number sample_header /\
    instance (Packet.header p) = instance sample_header /\
    direction (Packet.header p) = 128 /\ device_type (Packet.header p) = 5 /\
    data_packet_len (Packet.header p) = blen [1; 2; 3].
Proof.
  apply (response_frame_echo sample_header [1; 2; 3] 5);
    [apply sample_header_wf | unfold is_byte; lia | vm_compute; reflexivity].
Defined.

(** An authentication packet is built exactly when the token is ASCII and
    fits after offset 31; it then parses as one frame whose opcode is the
    authentication opcode and whose payload carries the token followed by
    zeros only. *)
Theorem build_auth_carries_token (dt inst : Z) (token : text) (ssi : bool) :
  let n := if ssi then SSI_AUTH_PAYLOAD_LEN else AUTH_PAYLOAD_LEN in
  (forall frame, build_auth dt inst token ssi = Ok frame ->
     exists p, parse_request_frame frame = Ok p /\ length (Packet.payload p) = n /\
       Packet.opcode p = OP_AUTH /\
       drop AUTH_TOKEN_OFFSET (Packet.payload p) = token ++ zeros (n - AUTH_TOKEN_OFFSET - length token)) /\
  ((exists frame, build_auth dt inst token ssi = Ok frame) <->
     encode_ascii token = Some token /\ (AUTH_TOKEN_OFFSET + length token <= n)%nat).
Proof.
  intros n. split.
  - intros frame H. apply build_auth_ok in H as [Hfit ->]. fold n in Hfit |- *.
    rewrite parse_frame_app.
    + eexists. split; [done|]. cbn [Packet.payload]. split_and!; [|done|done].
      rewrite !length_app, length_zeros. change (length auth_prefix) with AUTH_TOKEN_OFFSET. lia.
    + rewrite u32_id by (destruct ssi; vm_compute; done). unfold blen. cbn [auth_header data_packet_len].
      fold n. f_equal. rewrite !length_app, length_zeros.
      change (length auth_prefix) with AUTH_TOKEN_OFFSET. lia.
  - split.
    + intros [frame H]. pose proof (build_auth_ok _ _ _ _ _ H) as [Hfit _]. split; [|done].
      unfold build_auth, encode_ascii_exn in H. destruct (encode_ascii token) eqn:E; [|done].
      by rewrite (encode_ascii_some _ _ E).
    + intros [Ha Hfit]. unfold build_auth, encode_ascii_exn. rewrite Ha. cbn [rbind]. fold n.
      destruct (n <? _)%nat eqn:Hlt; [blia|]. by eexists.
Qed.

(** The token-type byte of an SSI authentication packet is 0, the code of
    a web session token, exactly as in the packet for a web session. *)
Theorem ssi_auth_keeps_web_token_type (dt inst : Z) (token : text) (frame : bytes) :
  build_auth dt inst token true = Ok frame ->
  exists p, parse_request_frame frame = Ok p /\ nth CONN_STATUS_OFFSET (Packet.payload p) 0 = 0.
Proof.
  intros H. apply build_auth_ok in H as [Hfit ->].
  rewrite parse_frame_app.
  - eexists. split; [done|]. reflexivity.
  - rewrite u32_id by (vm_compute; done). unfold blen. cbn [auth_header data_packet_len].
    f_equal. rewrite !length_app, length_zeros.
    change (length auth_prefix) with AUTH_TOKEN_OFFSET. unfold AUTH_TOKEN_OFFSET in *. lia.
Qed.

Lemma ssi_auth_keeps_web_token_type_witness :
  exists p, parse_request_frame (match build_auth 5 0 ($"tok") true with Ok f => f | Err _ => [] end) = Ok p
    /\ nth CONN_STATUS_OFFSET (Packet.payload p) 0 = 0.
Proof.
  apply (ssi_auth_keeps_web_token_type 5 0 ($"tok")). vm_compute. reflexivity.
Defined.

(** A redirection acknowledgement is accepted exactly when its opcode is
    0xF1 and its status byte is 1; a rejected status is reported as the
    "BMC busy" class and a wrong opcode or a short payload as a protocol
    error, never the other way round. *)
Theorem interpret_ack_classifies (p : Packet.t) (ep : option text) :
  match interpret_ack p ep with
  | Ok _ => Packet.opcode p = OP_REDIRECT_ACK /\ nth_error (Packet.payload p) CONN_STATUS_OFFSET = Some CONN_OK
  | Err (Ikvm e) =>
      endpoint e = ep /\ operation e = Some ($"iusb.authenticate") /\
      (error_class e = BMC_BUSY <->
         Packet.opcode p = OP_REDIRECT_ACK /\
         exists s, nth_error (Packet.payload p) CONN_STATUS_OFFSET = Some s /\ s <> CONN_OK) /\
      (error_class e = PROTOCOL <->
         Packet.opcode p <> OP_REDIRECT_ACK \/ nth_error (Packet.payload p) CONN_STATUS_OFFSET = None)
  | Err _ => False
  end.
Proof.
  unfold interpret_ack.
  destruct (Packet.opcode p =? OP_REDIRECT_ACK) eqn:Hop; cbn [negb].
  2:{ bool_to_prop. cbn. split_and!; [done|done| |]; split; try done; [intros [? _]; done|by left]. }
  bool_to_prop.
  destruct (length _ <=? _)%nat eqn:Hlen; bool_to_prop.
  - pose proof (proj2 (nth_error_None (Packet.payload p) CONN_STATUS_OFFSET) Hlen) as Hn.
    cbn -[nth_error]. rewrite Hn. split_and!; [done|done| |]; split; try done; [|by right].
    intros (_ & s & ? & _). done.
  - pose proof (nth_error_nth' (Packet.payload p) 0 Hlen) as Hn.
    destruct (nth _ _ 0 =? CONN_OK) eqn:Hs; bool_to_prop.
    + split; [done|]. by rewrite Hn, Hs.
    + cbn -[nth_error nth]. rewrite Hn. split_and!; [done|done| |]; split; try done.
      * intros _. split; [done|]. by eexists.
      * intros [?|?]; done.
Qed.
End FrameProperties.
