(* ===== verification/IusbCache.v ===== *)
(** * iusb.py: backing store - the [Reader] interface, [FileReader], [Cache]

    [Reader] is the structural protocol of the source: random access to the
    bytes of a fixed-size medium.  [ReaderOk] states what a reader promises
    its clients: every in-range read returns the bytes of the medium and
    leaves the reader serving the same medium.  [FileReader] meets the
    promise directly; [Cache] meets it whenever its backing does, which is
    the refinement theorem of this file. *)
From Stdlib Require Import ZArith Lia Ascii String.
From stdpp Require Import prelude.
From S2P Require Import Prelude PyBytes PyText Regex Errors.

(** ** [class Reader(Protocol)] *)

Class Reader (R : Type) : Type := {
  read_at : Z -> Z -> io R exn bytes;   (* n, offset *)
  size : R -> Z;
}.

(** Up to [n] bytes of a medium from [offset]. *)
Definition medium_slice (m : bytes) (n offset : Z) : bytes :=
  take (Z.to_nat n) (drop (Z.to_nat offset) m).

(** What a reader promises: [serves r m] says [r] gives access to the medium
    [m], and it is kept by reading. *)
Class ReaderOk (R : Type) `{Reader R} (serves : R -> bytes -> Prop) : Prop := {
  size_ok r m : serves r m -> size r = blen m;
  read_ok r m n offset : serves r m -> 0 <= offset ->
    exists r', read_at n offset r = (Ret (medium_slice m n offset), r') /\ serves r' m;
}.

(** ** [class FileReader] *)

(** What a path names on the controller. *)
Inductive fs_node : Type :=
  | Directory
  | RegularFile (content : bytes)
  | Unreadable (error : text).

Record FileReader : Type := {
  f_content : bytes;     (* the bytes of the open file *)
  f_size : Z;            (* st_size when it was opened *)
  f_pos : Z;             (* the file offset *)
  f_closed : bool;
}.

Definition FileReader_open (fs : text -> fs_node) (path : text) : result exn FileReader :=
  match fs path with
  | Directory => Err (IsADirectoryError ($"iusb: " ++ path ++ $" is a directory, not an image"))
  | Unreadable e => Err (OSError e)
  | RegularFile c => Ok {| f_content := c; f_size := blen c; f_pos := 0; f_closed := false |}
  end.

(** [f.seek(offset)] and [f.read(n)] *)
Definition file_seek (offset : Z) : io FileReader exn unit := fun f =>
  if f_closed f then (Raise (ValueError ($"seek of closed file")), f)
  else (Ret tt, {| f_content := f_content f; f_size := f_size f; f_pos := offset; f_closed := false |}).
Definition file_read (n : Z) : io FileReader exn bytes := fun f =>
  if f_closed f then (Raise (ValueError ($"read of closed file")), f)
  else
    let d := medium_slice (f_content f) n (f_pos f) in
    (Ret d, {| f_content := f_content f; f_size := f_size f; f_pos := f_pos f + blen d; f_closed := false |}).

Definition FileReader_read_at (n offset : Z) : io FileReader exn bytes :=
  if (n <=? 0) || (offset <? 0) then io_ret []
  else run file_seek offset; file_read n.

Definition FileReader_close (f : FileReader) : FileReader :=
  {| f_content := f_content f; f_size := f_size f; f_pos := f_pos f; f_closed := true |}.

#[export] Instance FileReader_Reader : Reader FileReader := {
  read_at := FileReader_read_at;
  size := f_size;
}.

(** ** [class Cache] *)

(** [OrderedDict] operations; the most recently used entry is last. *)
Definition move_to_end (d : list (Z * bytes)) (k : Z) (v : bytes) : list (Z * bytes) :=
  assoc_del d k ++ [(k, v)].

Fixpoint evict (max_windows : Z) (d : list (Z * bytes)) : option (list (Z * bytes)) :=
  if blen d <=? max_windows then Some d
  else match d with
       | [] => None                            (* popitem: dictionary is empty *)
       | _ :: d => evict max_windows d
       end.

Section Cache.
Context {R : Type} `{Reader R}.

Record Cache : Type := {
  c_r : R;
  c_w : option (bytes -> Z -> io R exn Z);   (* the writer's [write_at] *)
  c_window_size : Z;
  c_max_windows : Z;
  c_size : Z;
  c_windows : list (Z * bytes);
  c_hits : Z;
  c_misses : Z;
  c_fetched : Z;
}.

Definition WINDOW_SIZE : Z := 512 * 1024.
Definition DEFAULT_MAX_WINDOWS : Z := 64.

(** [Cache.__init__] *)
Definition Cache_init (r : R) (w : option (bytes -> Z -> io R exn Z)) (window_size max_windows : Z) : Cache :=
  {| c_r := r; c_w := w; c_window_size := window_size; c_max_windows := max_windows;
     c_size := size r; c_windows := []; c_hits := 0; c_misses := 0; c_fetched := 0 |}.

Definition set_windows (c : Cache) (d : list (Z * bytes)) : Cache :=
  {| c_r := c_r c; c_w := c_w c; c_window_size := c_window_size c; c_max_windows := c_max_windows c;
     c_size := c_size c; c_windows := d; c_hits := c_hits c; c_misses := c_misses c;
     c_fetched := c_fetched c |}.
Definition set_backing (c : Cache) (r : R) : Cache :=
  {| c_r := r; c_w := c_w c; c_window_size := c_window_size c; c_max_windows := c_max_windows c;
     c_size := c_size c; c_windows := c_windows c; c_hits := c_hits c; c_misses := c_misses c;
     c_fetched := c_fetched c |}.
Definition count (c : Cache) (hit miss fetched : Z) : Cache :=
  {| c_r := c_r c; c_w := c_w c; c_window_size := c_window_size c; c_max_windows := c_max_windows c;
     c_size := c_size c; c_windows := c_windows c; c_hits := c_hits c + hit;
     c_misses := c_misses c + miss; c_fetched := c_fetched c + fetched |}.

(** Run a backing operation inside the cache. *)
Definition on_backing {A} (f : io R exn A) : io Cache exn A := fun c =>
  let '(o, r) := f (c_r c) in (o, set_backing c r).

(** First critical section of [_window]. *)
Definition window_lookup (start : Z) (c : Cache) : option bytes * Cache :=
  match assoc_get (c_windows c) start with
  | Some win => (Some win, count (set_windows c (move_to_end (c_windows c) start win)) 1 0 0)
  | None => (None, count c 0 1 0)
  end.

(** How much to fetch for the window at [start]. *)
Definition want (c : Cache) (start : Z) : Z :=
  if c_size c <? start + c_window_size c then c_size c - start else c_window_size c.

(** Second critical section of [_window]. *)
Definition window_insert (start : Z) (data : bytes) : io Cache exn bytes := fun c =>
  let c := count c 0 0 (blen data) in
  match assoc_get (c_windows c) start with
  | Some win => (Ret win, set_windows c (move_to_end (c_windows c) start win))
  | None =>
      match evict (c_max_windows c) (c_windows c ++ [(start, data)]) with
      | Some d => (Ret data, set_windows c d)
      | None => (Raise (KeyError ($"'dictionary is empty'")), set_windows c [])
      end
  end.

(** [Cache._window] *)
Definition window (start : Z) : io Cache exn bytes := fun c =>
  match window_lookup start c with
  | (Some win, c) => (Ret win, c)
  | (None, c) => (do data <- on_backing (read_at (want c start) start); window_insert start data) c
  end.

(** The loop of [Cache.read_at]; [fuel] bounds the number of chunks. *)
Fixpoint read_loop (fuel : nat) (pos end_ : Z) (out : bytes) : io Cache exn bytes := fun c =>
  if negb (pos <? end_) then (Ret out, c)
  else if c_window_size c =? 0 then (Raise (ZeroDivisionError ($"integer modulo by zero")), c)
  else
    match fuel with
    | O => (Blocked, c)
    | S fuel =>
        (let win_start := pos - pos mod c_window_size c in
         do win <- window win_start;
         let in_win := pos - win_start in
         if blen win <=? in_win then io_ret out
         else
           let chunk_len := Z.min (blen win - in_win) (end_ - pos) in
           if chunk_len =? 0 then io_ret out
           else read_loop fuel (pos + chunk_len) end_
                  (out ++ slice (Z.to_nat in_win) (Z.to_nat (in_win + chunk_len)) win)) c
    end.

(** [Cache.read_at] *)
Definition Cache_read_at (n offset : Z) : io Cache exn bytes := fun c =>
  if offset <? 0 then (Raise (ValueError ($"iusb: negative read offset")), c)
  else if c_size c <=? offset then (Ret [], c)
  else
    let end_ := Z.min (offset + n) (c_size c) in
    read_loop (Z.to_nat (end_ - offset)) offset end_ [] c.

(** [Cache._invalidate]: drop every window that starts in [[w, end)]. *)
Fixpoint invalidate_loop (fuel : nat) (w end_ ws : Z) (d : list (Z * bytes)) : list (Z * bytes) :=
  match fuel with
  | O => d
  | S fuel => if w <? end_ then invalidate_loop fuel (w + ws) end_ ws (assoc_del d w) else d
  end.
Definition invalidate (offset len : Z) (c : Cache) : Cache :=
  if len <=? 0 then c
  else
    let ws := c_window_size c in
    let end_ := offset + len in
    let w := offset - offset mod ws in
    set_windows c (invalidate_loop (Z.to_nat (end_ - w)) w end_ ws (c_windows c)).

(** [Cache.write_at] *)
Definition Cache_write_at (data : bytes) (offset : Z) : io Cache exn Z := fun c =>
  match c_w c with
  | None => (Raise (CacheReadOnlyError ($"iusb: cache backing is read-only")), c)
  | Some write_at =>
      (do n <- on_backing (write_at data offset);
       run io_modify (invalidate offset (blen data)); io_ret n) c
  end.

Definition stats (c : Cache) : Z * Z * Z := (c_hits c, c_misses c, c_fetched c).
Definition cached_window_count (c : Cache) : Z := blen (c_windows c).

#[global] Instance Cache_Reader : Reader Cache := {
  read_at := Cache_read_at;
  size := c_size;
}.
End Cache.
Arguments Cache R : clear implicits.

(** ** Lemmas *)

Lemma length_medium_slice m n off :
  0 <= off <= blen m -> 0 <= n -> blen (medium_slice m n off) = Z.min n (blen m - off).
Proof. intros. unfold medium_slice, blen in *. rewrite length_take, length_drop. lia. Qed.

Lemma medium_slice_nil m n off : n <= 0 \/ blen m <= off -> medium_slice m n off = [].
Proof.
  unfold medium_slice, blen. intros [Hn|Hn].
  - by replace (Z.to_nat n) with O by lia.
  - rewrite drop_ge by lia. by rewrite take_nil.
Qed.

(** Reading past the end clips. *)
Lemma medium_slice_clip m n off :
  0 <= off <= blen m -> medium_slice m (Z.min n (blen m - off)) off = medium_slice m n off.
Proof.
  intros. unfold medium_slice, blen in *.
  destruct (Z.le_ge_cases n (Z.of_nat (length m) - off)); [by rewrite Z.min_l by lia|].
  rewrite Z.min_r by lia. rewrite !take_ge; [done| |]; rewrite length_drop; lia.
Qed.

Lemma medium_slice_app m a b off :
  0 <= off -> 0 <= a -> 0 <= b ->
  medium_slice m (a + b) off = medium_slice m a off ++ medium_slice m b (off + a).
Proof.
  intros. unfold medium_slice. rewrite !Z2Nat.inj_add by lia. apply slice_split.
Qed.

(** A slice of a slice. *)
Lemma slice_medium_slice m n off i k :
  0 <= off -> 0 <= i -> 0 <= k -> i + k <= n ->
  slice (Z.to_nat i) (Z.to_nat (i + k)) (medium_slice m n off) = medium_slice m k (off + i).
Proof.
  intros. unfold slice, medium_slice.
  rewrite skipn_firstn_comm, drop_drop, take_take. f_equal; [lia|]. f_equal. lia.
Qed.

Lemma aligned_gap ws a b :
  0 < ws -> a mod ws = 0 -> b mod ws = 0 -> a < b -> a <= b - ws.
Proof.
  intros Hws [x ->]%Z.mod_divide [y ->]%Z.mod_divide Hlt; [|lia..].
  apply Z.mul_lt_mono_pos_r in Hlt; [|done]. nia.
Qed.

(** The opened file serves its content. *)
Definition file_serves (f : FileReader) (m : bytes) : Prop :=
  f_content f = m /\ f_size f = blen m /\ f_closed f = false.

#[export] Instance FileReader_Ok : ReaderOk FileReader file_serves.
Proof.
  split.
  - by intros r m (_ & Hs & _).
  - intros r m n off (<- & Hs & Hc) Ho. cbn [read_at FileReader_Reader]. unfold FileReader_read_at.
    destruct ((n <=? 0) || (off <? 0)) eqn:E.
    + exists r. apply orb_true_iff in E as [E|E]; bool_to_prop; [|lia].
      rewrite medium_slice_nil by (by left). by split.
    + unfold io_bind, file_seek, file_read. rewrite Hc. cbn. by eexists.
Qed.

Section CacheProofs.
Context {R : Type} `{Reader R} {serves : R -> bytes -> Prop} `{!ReaderOk R serves}.
Implicit Types (c : Cache R) (m : bytes).

(** A resident window holds the bytes of the medium it stands for. *)
Definition window_ok (m : bytes) (ws : Z) (p : Z * bytes) : Prop :=
  0 <= fst p < blen m /\ fst p mod ws = 0 /\ snd p = medium_slice m ws (fst p).

(** The cache invariant. *)
Record cache_serves (c : Cache R) (m : bytes) : Prop := {
  cs_window_size : 0 < c_window_size c;
  cs_max : 0 <= c_max_windows c;
  cs_size : c_size c = blen m;
  cs_backing : serves (c_r c) m;
  cs_windows : Forall (window_ok m (c_window_size c)) (c_windows c);
  cs_nodup : NoDup (c_windows c).*1;
  cs_bound : blen (c_windows c) <= c_max_windows c;
}.

(** The cache's configuration never changes. *)
Definition same_config (c c' : Cache R) : Prop :=
  c_window_size c' = c_window_size c /\ c_max_windows c' = c_max_windows c /\ c_size c' = c_size c.

Lemma same_config_trans c1 c2 c3 : same_config c1 c2 -> same_config c2 c3 -> same_config c1 c3.
Proof. unfold same_config. intros (?&?&?) (?&?&?). split_and!; congruence. Qed.

Lemma Cache_init_serves r m w ws mx :
  serves r m -> 0 < ws -> 0 <= mx -> cache_serves (Cache_init r w ws mx) m.
Proof.
  intros Hr Hws Hmx. split; cbn; try done; first [by apply size_ok|constructor].
Qed.

Lemma assoc_del_in (d : list (Z * bytes)) k p : p ∈ assoc_del d k -> p ∈ d /\ fst p <> k.
Proof.
  unfold assoc_del. rewrite list_elem_of_In, filter_In, <- list_elem_of_In.
  intros [Hin Hne]. bool_to_prop. apply bool_decide_eq_false in Hne. split; [done|congruence].
Qed.

Lemma assoc_del_nodup (d : list (Z * bytes)) k :
  NoDup d.*1 -> NoDup (assoc_del d k).*1 /\ k ∉ (assoc_del d k).*1.
Proof.
  induction d as [|[a b] d IH]; cbn; [intros _; split; [constructor|apply not_elem_of_nil]|].
  intros [Ha Hd]%NoDup_cons. destruct (IH Hd) as [IH1 IH2].
  unfold assoc_del in *. cbn. case_bool_decide as Hk; cbn; [done|]. split.
  - apply NoDup_cons. split; [|done]. intros (p & -> & Hp)%list_elem_of_fmap. apply Ha.
    apply (assoc_del_in d k p) in Hp as [Hp _]. by apply list_elem_of_fmap_2.
  - rewrite not_elem_of_cons. done.
Qed.

Lemma length_assoc_del (d : list (Z * bytes)) k :
  (length (assoc_del d k) <= length d)%nat /\ (is_Some (assoc_get d k) -> (length (assoc_del d k) < length d)%nat).
Proof.
  unfold assoc_del. induction d as [|[a b] d [IH1 IH2]]; cbn; [split; [done|by intros [? ?]]|].
  case_decide as Hk; case_bool_decide; try done; cbn.
  - split; [lia|]. intros _. lia.
  - split; [lia|]. intros Hs. specialize (IH2 Hs). lia.
Qed.

Lemma move_to_end_ok m ws d k v :
  Forall (window_ok m ws) d -> NoDup d.*1 -> assoc_get d k = Some v ->
  Forall (window_ok m ws) (move_to_end d k v) /\ NoDup (move_to_end d k v).*1 /\
  blen (move_to_end d k v) <= blen d /\ v = medium_slice m ws k.
Proof.
  intros Hf Hn Hg. pose proof (assoc_get_in _ _ _ Hg) as Hin.
  rewrite Forall_forall in Hf. pose proof (Hf (k, v) Hin) as Hk.
  destruct (assoc_del_nodup d k Hn) as [Hn1 Hn2].
  destruct (length_assoc_del d k) as [_ Hl]. specialize (Hl (mk_is_Some _ _ Hg)).
  unfold move_to_end. split_and!.
  - apply Forall_app. split; [|by apply Forall_singleton].
    apply Forall_forall. intros p [Hp _]%assoc_del_in. by apply Hf.
  - rewrite fmap_app. cbn. by apply NoDup_snoc.
  - unfold blen. rewrite length_app. cbn. lia.
  - apply Hk.
Qed.

Lemma evict_spec (mx : Z) (d : list (Z * bytes)) :
  0 <= mx -> evict mx d = Some (drop (length d - Z.to_nat mx) d).
Proof.
  intros Hmx. induction d as [|p d IH].
  - cbn. by rewrite (proj2 (Z.leb_le _ _)).
  - cbn [evict]. destruct (blen (p :: d) <=? mx) eqn:E; bool_to_prop; unfold blen in E; cbn [length] in *.
    + by replace (S (length d) - Z.to_nat mx)%nat with O by lia.
    + rewrite IH. by replace (S (length d) - Z.to_nat mx)%nat with (S (length d - Z.to_nat mx)) by lia.
Qed.

Lemma window_insert_ok c m start :
  cache_serves c m -> 0 <= start < blen m -> start mod c_window_size c = 0 ->
  exists c', window_insert start (medium_slice m (c_window_size c) start) c
             = (Ret (medium_slice m (c_window_size c) start), c')
    /\ cache_serves c' m /\ same_config c c' /\ c_r c' = c_r c.
Proof.
  intros [H1 H2 H3 H4 H5 H6 H7] Hs Hm. unfold window_insert. cbn [count c_windows].
  destruct (assoc_get (c_windows c) start) as [win|] eqn:E.
  - destruct (move_to_end_ok _ _ _ _ _ H5 H6 E) as (Hf & Hn & Hl & Hw). subst win.
    eexists. split; [done|]. split; [|done]. split; cbn; try done. unfold blen in *. lia.
  - cbn [count c_max_windows]. rewrite evict_spec by done. eexists. split; [done|]. split; [|done].
    split; cbn; try done.
    + apply Forall_drop, Forall_app. split; [done|]. apply Forall_singleton. split; [exact Hs|]. by split.
    + rewrite fmap_drop, fmap_app. eapply sublist_NoDup; [|apply sublist_drop].
      apply NoDup_snoc. split; [done|]. by apply assoc_get_none.
    + unfold blen. rewrite length_drop. lia.
Qed.

Lemma want_slice c m start :
  cache_serves c m -> 0 <= start < blen m ->
  medium_slice m (want c start) start = medium_slice m (c_window_size c) start.
Proof.
  intros Hc Hs. pose proof (cs_size _ _ Hc). pose proof (cs_window_size _ _ Hc).
  rewrite <- (medium_slice_clip m (c_window_size c)) by lia. unfold want.
  destruct (c_size c <? _) eqn:E; bool_to_prop; f_equal; lia.
Qed.

(** [_window] returns the aligned window of the medium, from memory or not. *)
Lemma window_ok_spec c m start :
  cache_serves c m -> 0 <= start < blen m -> start mod c_window_size c = 0 ->
  exists c', window start c = (Ret (medium_slice m (c_window_size c) start), c')
    /\ cache_serves c' m /\ same_config c c'
    /\ (is_Some (assoc_get (c_windows c) start) -> c_r c' = c_r c).
Proof.
  intros Hc Hs Hm. unfold window, window_lookup.
  destruct (assoc_get (c_windows c) start) as [win|] eqn:E.
  - destruct Hc as [H1 H2 H3 H4 H5 H6 H7].
    destruct (move_to_end_ok _ _ _ _ _ H5 H6 E) as (Hf & Hn & Hl & ->).
    eexists. split; [done|]. split; [|done]. split; cbn; try done. unfold blen in *. lia.
  - destruct (read_ok (c_r c) m (want c start) start (cs_backing _ _ Hc) ltac:(lia)) as (r' & Hr & Hsv).
    unfold io_bind, on_backing. cbn [count c_r]. change (want (count c 0 1 0) start) with (want c start).
    rewrite Hr. rewrite want_slice by done.
    destruct (window_insert_ok (set_backing (count c 0 1 0) r') m start) as (c' & Hi & Hc' & Hcfg & _);
      [destruct Hc; by split|done|done|].
    cbn [set_backing count c_window_size] in Hi. rewrite Hi. eexists. split; [done|].
    split; [done|]. split; [done|]. by intros [? ?].
Qed.

Lemma read_loop_ok m end_ fuel : forall pos out c,
  cache_serves c m -> 0 <= pos -> end_ <= blen m -> (Z.to_nat (end_ - pos) <= fuel)%nat ->
  exists c', read_loop fuel pos end_ out c = (Ret (out ++ medium_slice m (end_ - pos) pos), c')
    /\ cache_serves c' m /\ same_config c c'.
Proof.
  induction fuel as [|fuel IH]; intros pos out c Hc Hp He Hf; cbn [read_loop].
  - destruct (pos <? end_) eqn:E; bool_to_prop; [lia|]. cbn [negb].
    rewrite medium_slice_nil, app_nil_r by lia. by exists c.
  - destruct (pos <? end_) eqn:E; bool_to_prop; cbn [negb].
    2:{ rewrite medium_slice_nil, app_nil_r by lia. by exists c. }
    pose proof (cs_window_size _ _ Hc) as Hws.
    destruct (c_window_size c =? 0) eqn:E0; bool_to_prop; [lia|].
    set (ws := c_window_size c) in *.
    pose proof (Z.mod_pos_bound pos ws Hws) as Hmod.
    pose proof (Z.mod_le pos ws Hp Hws) as Hle.
    set (st := pos - pos mod ws) in *.
    assert (st mod ws = 0) as Hst.
    { unfold st. rewrite Zminus_mod_idemp_r, Z.sub_diag. by apply Z.mod_0_l; lia. }
    destruct (window_ok_spec c m st Hc ltac:(lia) Hst) as (c1 & Hw & Hc1 & Hcfg & _).
    unfold io_bind. rewrite Hw. fold ws.
    rewrite length_medium_slice by lia.
    replace (pos - st) with (pos mod ws) by (unfold st; lia).
    destruct (Z.min ws (blen m - st) <=? pos mod ws) eqn:E1; bool_to_prop; [lia|].
    set (k := Z.min (Z.min ws (blen m - st) - pos mod ws) (end_ - pos)).
    destruct (k =? 0) eqn:E2; bool_to_prop; [lia|].
    rewrite slice_medium_slice by lia.
    replace (st + pos mod ws) with pos by (unfold st; lia).
    destruct (IH (pos + k) (out ++ medium_slice m k pos) c1 Hc1) as (c2 & Hr & Hc2 & Hcfg2); [lia|lia|lia|].
    exists c2. rewrite Hr. split_and!; [|done|by eapply same_config_trans].
    rewrite <- app_assoc. f_equal. f_equal. f_equal.
    rewrite <- medium_slice_app by lia. f_equal. lia.
Qed.

Lemma Cache_read_at_ok c m n off :
  cache_serves c m -> 0 <= off ->
  exists c', Cache_read_at n off c = (Ret (medium_slice m n off), c')
    /\ cache_serves c' m /\ same_config c c'.
Proof.
  intros Hc Ho. unfold Cache_read_at. pose proof (cs_size _ _ Hc) as Hsz.
  destruct (off <? 0) eqn:E; bool_to_prop; [lia|].
  destruct (c_size c <=? off) eqn:E1; bool_to_prop.
  { rewrite medium_slice_nil by lia. by exists c. }
  destruct (read_loop_ok m (Z.min (off + n) (c_size c)) (Z.to_nat (Z.min (off + n) (c_size c) - off))
    off [] c) as (c' & Hr & Hc' & Hcfg); [done|done|lia|lia|].
  exists c'. rewrite Hr. split_and!; [|done|done]. cbn. f_equal. f_equal.
  rewrite <- (medium_slice_clip m n off) by lia. f_equal. lia.
Qed.

#[global] Instance Cache_Ok : ReaderOk (Cache R) cache_serves.
Proof.
  split.
  - intros c m Hc. apply (cs_size _ _ Hc).
  - intros c m n off Hc Ho. destruct (Cache_read_at_ok c m n off Hc Ho) as (c' & ? & ? & _).
    by exists c'.
Qed.

(** *** Recency order *)

(** Reference least-recently-used policy on keys: touch [k], keep the last
    [mx]. *)
Definition lru_touch (mx : nat) (ks : list Z) (k : Z) : list Z :=
  let ks' := List.filter (fun x => negb (bool_decide (k = x))) ks ++ [k] in
  drop (length ks' - mx) ks'.

Lemma assoc_del_keys (d : list (Z * bytes)) k :
  (assoc_del d k).*1 = List.filter (fun x => negb (bool_decide (k = x))) d.*1.
Proof.
  unfold assoc_del. induction d as [|[a b] d IH]; cbn; [done|].
  case_bool_decide; cbn; [done|]. by f_equal.
Qed.

Lemma filter_notin (ks : list Z) k :
  k ∉ ks -> List.filter (fun x => negb (bool_decide (k = x))) ks = ks.
Proof.
  induction ks as [|a ks IH]; cbn; [done|]. rewrite not_elem_of_cons. intros [Ha Hk].
  rewrite bool_decide_eq_false_2 by done. cbn. f_equal. by apply IH.
Qed.

Lemma keys_touch_hit c m k v :
  cache_serves c m -> assoc_get (c_windows c) k = Some v ->
  (move_to_end (c_windows c) k v).*1 = lru_touch (Z.to_nat (c_max_windows c)) (c_windows c).*1 k.
Proof.
  intros Hc Hg. unfold move_to_end, lru_touch. rewrite fmap_app, assoc_del_keys. cbn.
  replace (length _ - _)%nat with O; [done|].
  pose proof (cs_bound _ _ Hc) as Hb. unfold blen in Hb.
  destruct (length_assoc_del (c_windows c) k) as [_ Hl]. specialize (Hl (mk_is_Some _ _ Hg)).
  rewrite length_app, <- assoc_del_keys, length_fmap. cbn. lia.
Qed.

Lemma keys_touch_miss c m k v :
  cache_serves c m -> assoc_get (c_windows c) k = None ->
  evict (c_max_windows c) (c_windows c ++ [(k, v)])
  = Some (drop (length (c_windows c ++ [(k, v)]) - Z.to_nat (c_max_windows c)) (c_windows c ++ [(k, v)])) /\
  (drop (length (c_windows c ++ [(k, v)]) - Z.to_nat (c_max_windows c)) (c_windows c ++ [(k, v)])).*1
  = lru_touch (Z.to_nat (c_max_windows c)) (c_windows c).*1 k.
Proof.
  intros Hc Hg. split; [apply evict_spec, (cs_max _ _ Hc)|].
  unfold lru_touch. rewrite filter_notin by (by apply assoc_get_none).
  rewrite fmap_drop, fmap_app. cbn. by rewrite !length_app, length_fmap.
Qed.

(** *** Coherence under writes *)

Lemma invalidate_loop_in ws end_ fuel : forall w (d : list (Z * bytes)) p,
  0 < ws -> (Z.to_nat (end_ - w) <= fuel)%nat ->
  p ∈ invalidate_loop fuel w end_ ws d ->
  p ∈ d /\ (w mod ws = 0 -> fst p mod ws = 0 -> fst p < w \/ end_ <= fst p).
Proof.
  induction fuel as [|fuel IH]; intros w d p Hws Hf Hin; cbn [invalidate_loop] in Hin.
  - split; [done|]. lia.
  - destruct (w <? end_) eqn:E; bool_to_prop; [|split; [done|lia]].
    apply IH in Hin as [Hin Hw]; [|done|lia].
    apply assoc_del_in in Hin as [Hin Hne]. split; [done|]. intros Hwm Hpm.
    destruct (Z_lt_le_dec (fst p) w) as [?|Hge]; [by left|].
    rewrite Z.add_mod, Z.mod_same, Z.add_0_r, Z.mod_mod in Hw by lia.
    specialize (Hw Hwm Hpm). destruct Hw as [Hw|Hw]; [|by right]. exfalso.
    assert ((fst p - w) mod ws = 0) as H0 by (rewrite Zminus_mod, Hpm, Hwm, Z.sub_diag; apply Z.mod_0_l; lia).
    rewrite Z.mod_small in H0 by lia. lia.
Qed.

Lemma invalidate_loop_sublist ws end_ fuel : forall w (d : list (Z * bytes)),
  invalidate_loop fuel w end_ ws d `sublist_of` d.
Proof.
  induction fuel as [|fuel IH]; intros w d; cbn; [done|].
  destruct (w <? end_); [|done]. etrans; [apply IH|].
  unfold assoc_del. clear. induction d as [|p d IH]; cbn; [done|].
  case_bool_decide; cbn; [by apply sublist_cons|by apply sublist_skip].
Qed.

Lemma sublist_keys (d d' : list (Z * bytes)) : d `sublist_of` d' -> d.*1 `sublist_of` d'.*1.
Proof. induction 1; cbn; by constructor. Qed.

(** Bytes of the medium outside the written range are unchanged. *)
Lemma medium_slice_splice m data off n k :
  0 <= off -> off + blen data <= blen m -> 0 <= n -> 0 <= k ->
  k + n <= off \/ off + blen data <= k ->
  medium_slice (splice m (Z.to_nat off) data) n k = medium_slice m n k.
Proof.
  intros Ho Hl Hn Hk Hd. unfold medium_slice, splice, blen in *. destruct Hd as [Hd|Hd].
  - rewrite !take_drop_commute. f_equal.
    rewrite take_app_le by (rewrite length_take; lia). rewrite take_take. f_equal. lia.
  - rewrite app_assoc, drop_app_ge by (rewrite length_app, length_take; lia).
    rewrite drop_drop. f_equal. f_equal. rewrite length_app, length_take. lia.
Qed.
End CacheProofs.

(** ** Properties *)

Section CacheProperties.
Context {R : Type} `{Reader R} {serves : R -> bytes -> Prop} `{!ReaderOk R serves}.

(** A client's sequence of reads through the cache. *)
Fixpoint read_all (reqs : list (Z * Z)) : io (Cache R) exn (list bytes) :=
  match reqs with
  | [] => io_ret []
  | (n, off) :: reqs =>
      do d <- Cache_read_at n off;
      do ds <- read_all reqs;
      io_ret (d :: ds)
  end.

(** the cache is transparent and bounded.  Over any backing that serves a
    medium, every sequence of reads at non-negative offsets returns exactly
    the bytes of the medium (clipped at its end), without an exception,
    while never more than [max_windows] windows of at most [window_size]
    bytes each are resident. *)
Theorem cache_transparent (r : R) (m : bytes) w (ws mx : Z) (reqs : list (Z * Z)) :
  serves r m -> 0 < ws -> 0 <= mx -> Forall (fun q => 0 <= snd q) reqs ->
  exists c', read_all reqs (Cache_init r w ws mx)
             = (Ret (map (fun q => medium_slice m (fst q) (snd q)) reqs), c')
    /\ cached_window_count c' <= mx
    /\ Forall (fun p => blen (snd p) <= ws) (c_windows c').
Proof.
  intros Hr Hws Hmx Hq.
  pose proof (Cache_init_serves r m w ws mx Hr Hws Hmx) as Hc.
  assert (c_window_size (Cache_init r w ws mx) = ws /\ c_max_windows (Cache_init r w ws mx) = mx)
    as [Hcw Hcm] by done.
  revert Hc Hcw Hcm. generalize (Cache_init r w ws mx) as c.
  induction Hq as [|[n off] reqs Ho _ IH]; intros c Hc Hcw Hcm; cbn [read_all].
  - exists c. split; [done|]. split; [rewrite <- Hcm; apply (cs_bound _ _ Hc)|].
    eapply Forall_impl; [apply (cs_windows _ _ Hc)|]. intros [k d] (Hk & _ & Hd). cbn in *.
    rewrite Hd, Hcw, length_medium_slice by lia. lia.
  - destruct (Cache_read_at_ok c m n off Hc Ho) as (c1 & H1 & Hc1 & Hw1 & Hm1 & _).
    unfold io_bind at 1. rewrite H1.
    destruct (IH c1 Hc1 ltac:(congruence) ltac:(congruence)) as (c2 & H2 & Hb).
    unfold io_bind. rewrite H2. by exists c2.
Qed.

(** Looking a window up follows the reference least-recently-used policy:
    the window comes back as the aligned slice of the medium, the resident
    keys become exactly those of the reference policy (in recency order), a
    resident window costs no backing read, and the hit, miss and
    fetched-byte counters advance accordingly. *)
Theorem window_refines_lru (c : Cache R) (m : bytes) (start : Z) :
  cache_serves (serves := serves) c m -> 0 <= start < blen m -> start mod c_window_size c = 0 ->
  exists c', window start c = (Ret (medium_slice m (c_window_size c) start), c') /\
    (c_windows c').*1 = lru_touch (Z.to_nat (c_max_windows c)) (c_windows c).*1 start /\
    (if bool_decide (start ∈ (c_windows c).*1)
     then c_r c' = c_r c /\ stats c' = (c_hits c + 1, c_misses c, c_fetched c)
     else stats c' = (c_hits c, c_misses c + 1,
                      c_fetched c + blen (medium_slice m (c_window_size c) start))).
Proof.
  intros Hc Hs Hm. unfold window, window_lookup.
  destruct (assoc_get (c_windows c) start) as [win|] eqn:E.
  - rewrite bool_decide_eq_true_2.
    2:{ destruct (decide (start ∈ (c_windows c).*1)) as [|Hn]; [done|].
        apply assoc_get_none in Hn. congruence. }
    destruct (move_to_end_ok _ _ _ _ _ (cs_windows _ _ Hc) (cs_nodup _ _ Hc) E) as (_ & _ & _ & ->).
    eexists. split; [done|]. split; [by eapply keys_touch_hit|]. split; [done|].
    unfold stats. cbn. f_equal; [f_equal|]; lia.
  - rewrite bool_decide_eq_false_2 by (by apply assoc_get_none).
    destruct (read_ok (c_r c) m (want c start) start (cs_backing _ _ Hc) ltac:(lia)) as (r' & Hr & Hsv).
    unfold io_bind, on_backing. cbn [count c_r]. change (want (count c 0 1 0) start) with (want c start).
    rewrite Hr, (want_slice (serves := serves)) by done.
    unfold window_insert. cbn [count set_backing c_windows c_max_windows]. rewrite E.
    destruct (keys_touch_miss (serves := serves) c m start
      (medium_slice m (c_window_size c) start) Hc E) as [He Hk].
    rewrite He. eexists. split; [done|]. split; [exact Hk|].
    unfold stats. cbn. f_equal; [f_equal|]; lia.
Qed.

Lemma write_coherent (c : Cache R) (m data : bytes) (offset n : Z) write_at (r' : R) :
  cache_serves (serves := serves) c m -> c_w c = Some write_at ->
  0 <= offset -> offset + blen data <= blen m ->
  write_at data offset (c_r c) = (Ret n, r') -> serves r' (splice m (Z.to_nat offset) data) ->
  exists c', Cache_write_at data offset c = (Ret n, c')
    /\ cache_serves (serves := serves) c' (splice m (Z.to_nat offset) data).
Proof.
  intros Hc Hw Ho Hl Hwr Hsv. unfold Cache_write_at. rewrite Hw.
  unfold io_bind, on_backing, io_modify, io_ret. rewrite Hwr. eexists. split; [done|].
  assert (blen (splice m (Z.to_nat offset) data) = blen m) as Hlen
    by (unfold blen in *; rewrite length_splice; lia).
  destruct Hc as [H1 H2 H3 H4 H5 H6 H7]. unfold invalidate. cbn [set_backing c_window_size c_windows].
  destruct (blen data <=? 0) eqn:E; bool_to_prop.
  { assert (data = []) as -> by (destruct data; [done|unfold blen in E; cbn in E; lia]).
    assert (splice m (Z.to_nat offset) [] = m) as Hid
      by (unfold splice; cbn; rewrite Nat.add_0_r; apply take_drop).
    rewrite Hid in *. by split. }
  set (ws := c_window_size c) in *. set (w := offset - offset mod ws).
  pose proof (Z.mod_pos_bound offset ws H1) as Hmod.
  assert (w mod ws = 0) as Hwm.
  { unfold w. rewrite Zminus_mod_idemp_r, Z.sub_diag. by apply Z.mod_0_l; lia. }
  pose proof (invalidate_loop_sublist ws (offset + blen data) (Z.to_nat (offset + blen data - w)) w (c_windows c)) as Hsub.
  split; cbn; try done.
  - by rewrite Hlen.
  - apply Forall_forall. intros p Hp.
    apply invalidate_loop_in in Hp as [Hp Hout]; [|done|done].
    rewrite Forall_forall in H5. destruct (H5 p Hp) as (Hk & Hkm & Hd).
    split; [by rewrite Hlen|]. split; [done|]. rewrite Hd. symmetry. apply medium_slice_splice; try lia.
    destruct (Hout Hwm Hkm) as [Hlt|Hge]; [left|by right]. fold ws.
    pose proof (aligned_gap ws (fst p) w H1 Hkm Hwm Hlt). lia.
  - eapply sublist_NoDup; [exact H6|]. by apply sublist_keys.
  - apply sublist_length in Hsub. unfold blen in *. lia.
Qed.

(** writing through the cache keeps it coherent.  If the writer stores
    [data] at [offset] inside the medium, the cache afterwards serves the
    updated medium: no resident window is left that overlaps the write. *)
Theorem cache_write_coherent (c : Cache R) (m data : bytes) (offset n : Z) write_at (r' : R) :
  cache_serves (serves := serves) c m -> c_w c = Some write_at ->
  0 <= offset -> offset + blen data <= blen m ->
  write_at data offset (c_r c) = (Ret n, r') -> serves r' (splice m (Z.to_nat offset) data) ->
  exists c', Cache_write_at data offset c = (Ret n, c')
    /\ cache_serves (serves := serves) c' (splice m (Z.to_nat offset) data).
Proof. apply write_coherent. Qed.
End CacheProperties.

(** *** No cache operation waits *)

Lemma FileReader_nb n off : never_blocks (FileReader_read_at n off).
Proof.
  unfold FileReader_read_at. destruct (_ || _); [auto with ikvm|].
  intros f. unfold io_bind, file_seek, file_read. by destruct (f_closed f).
Qed.

Lemma window_nb start : never_blocks (window (R := FileReader) start).
Proof.
  intros c. unfold window. destruct (window_lookup start c) as [[w|] c1]; [done|].
  unfold io_bind, on_backing. pose proof (FileReader_nb (want c1 start) start (c_r c1)) as Hr.
  cbn [read_at FileReader_Reader]. destruct (FileReader_read_at _ _ (c_r c1)) as [[d|e|] r]; [|done|done].
  unfold window_insert. destruct (assoc_get _ _); [done|]. by destruct (evict _ _).
Qed.

(** Every chunk advances the read, whatever the state of the cache. *)
Lemma read_loop_nb fuel pos end_ out (c : Cache FileReader) :
  end_ - pos <= Z.of_nat fuel -> (read_loop fuel pos end_ out c).1 <> Blocked.
Proof.
  revert pos out c. induction fuel as [|fuel IH]; intros pos out c Hf; cbn [read_loop].
  { destruct (pos <? end_) eqn:E; bool_to_prop; [lia|done]. }
  destruct (pos <? end_) eqn:E; bool_to_prop; [|done]. cbn [negb].
  destruct (c_window_size c =? 0); [done|]. unfold io_bind.
  set (start := pos - pos mod c_window_size c).
  pose proof (window_nb start c) as Hw. destruct (window start c) as [[win|e|] c1]; [|done|done].
  destruct (blen win <=? pos - start) eqn:E2; bool_to_prop; [done|].
  destruct (Z.min (blen win - (pos - start)) (end_ - pos) =? 0); [done|]. apply IH. lia.
Qed.

Lemma Cache_nb n off : never_blocks (Cache_read_at (R := FileReader) n off).
Proof.
  intros c. unfold Cache_read_at. destruct (off <? 0); [done|]. destruct (c_size c <=? off) eqn:E; [done|].
  apply read_loop_nb. bool_to_prop. lia.
Qed.

(** *** Witnesses: a small file behind a cache of two windows of four bytes *)

Definition sample_medium : bytes := [10; 11; 12; 13; 14; 15; 16; 17; 18; 19].
Definition sample_file : FileReader :=
  {| f_content := sample_medium; f_size := 10; f_pos := 0; f_closed := false |}.
Definition sample_write (data : bytes) (offset : Z) : io FileReader exn Z := fun f =>
  (Ret (blen data), {| f_content := splice (f_content f) (Z.to_nat offset) data;
                       f_size := f_size f; f_pos := f_pos f; f_closed := f_closed f |}).
Definition sample_cache : Cache FileReader := Cache_init sample_file (Some sample_write) 4 2.

Lemma sample_file_serves : file_serves sample_file sample_medium.
Proof. by vm_compute. Qed.

Lemma sample_cache_serves : cache_serves (serves := file_serves) sample_cache sample_medium.
Proof. apply Cache_init_serves; [apply sample_file_serves|lia|lia]. Qed.

Lemma cache_transparent_witness :
  exists c', read_all [(3, 2); (6, 5); (100, 8)] sample_cache = (Ret [[12; 13; 14]; [15; 16; 17; 18; 19]; [18; 19]], c')
    /\ cached_window_count c' <= 2 /\ Forall (fun p => blen (snd p) <= 4) (c_windows c').
Proof.
  apply (cache_transparent (serves := file_serves) sample_file sample_medium (Some sample_write) 4 2
           [(3, 2); (6, 5); (100, 8)] sample_file_serves ltac:(lia) ltac:(lia)).
  repeat constructor; cbn; lia.
Defined.

Lemma window_refines_lru_witness :
  exists c', window 4 sample_cache = (Ret [14; 15; 16; 17], c') /\
    (c_windows c').*1 = [4] /\ stats c' = (0, 1, 4).
Proof.
  destruct (window_refines_lru (serves := file_serves) sample_cache sample_medium 4
              sample_cache_serves ltac:(by vm_compute) eq_refl) as (c' & H1 & H2 & H3).
  exists c'. split; [exact H1|]. split; [exact H2|exact H3].
Defined.

Lemma cache_write_coherent_witness :
  exists c', Cache_write_at [99; 98] 3 sample_cache = (Ret 2, c')
    /\ cache_serves (serves := file_serves) c' (splice sample_medium 3 [99; 98]).
Proof.
  apply (cache_write_coherent (serves := file_serves) sample_cache sample_medium [99; 98] 3 2 sample_write
    (snd (sample_write [99; 98] 3 sample_file)));
    [apply sample_cache_serves|reflexivity|lia|by vm_compute|reflexivity|by vm_compute].
Defined.
