(* ===== verification/IusbCacheRace.v ===== *)
(** * iusb.py: readers that share one [Cache]

    [Cache._window] holds the lock twice, for the lookup and for the
    insertion, and reads the backing in between without it.  Here several
    threads are inside [read_at] of the same cache: a thread is where it
    stands in the source ([pc]), a step of it is one critical section or one
    call of the backing, and a schedule is the list of the threads that move.

    For a backing whose [read_at] is one indivisible call, every schedule
    gives every thread the bytes of the medium.  [FileReader.read_at] is two
    calls on a shared file position; [file_readers_race] shows what becomes
    of the cache then.  [fetch_outlives_write] does so for a write that
    falls between a fetch and its insertion. *)
From Stdlib Require Import ZArith Lia Ascii String.
From stdpp Require Import prelude.
From S2P Require Import Prelude PyBytes PyText Regex Errors IusbCache.

Module CacheThreads.
Section Threads.
Context {R : Type} `{Reader R}.

Inductive pc : Type :=
  | AtLoop (pos end_ : Z) (out : bytes)                        (* the loop's head *)
  | Missed (start pos end_ : Z) (out : bytes)                  (* the first lock released *)
  | Fetched (start : Z) (data : bytes) (pos end_ : Z) (out : bytes)   (* before the second *)
  | Returned (o : outcome exn bytes).

(** [Cache.read_at] up to its loop *)
Definition enter (n offset : Z) (c : Cache R) : pc :=
  if offset <? 0 then Returned (Raise (ValueError ($"iusb: negative read offset")))
  else if c_size c <=? offset then Returned (Ret [])
  else AtLoop offset (Z.min (offset + n) (c_size c)) [].

(** The loop's body, once [_window] has returned *)
Definition take_chunk (start pos end_ : Z) (out win : bytes) : pc :=
  let in_win := pos - start in
  if blen win <=? in_win then Returned (Ret out)
  else
    let chunk_len := Z.min (blen win - in_win) (end_ - pos) in
    if chunk_len =? 0 then Returned (Ret out)
    else AtLoop (pos + chunk_len) end_ (out ++ slice (Z.to_nat in_win) (Z.to_nat (in_win + chunk_len)) win).

Definition thread_step (t : pc) (c : Cache R) : pc * Cache R :=
  match t with
  | AtLoop pos end_ out =>
      if negb (pos <? end_) then (Returned (Ret out), c)
      else if c_window_size c =? 0 then (Returned (Raise (ZeroDivisionError ($"integer modulo by zero"))), c)
      else
        let start := pos - pos mod c_window_size c in
        match window_lookup start c with
        | (Some win, c) => (take_chunk start pos end_ out win, c)
        | (None, c) => (Missed start pos end_ out, c)
        end
  | Missed start pos end_ out =>
      match on_backing (read_at (want c start) start) c with
      | (Ret data, c) => (Fetched start data pos end_ out, c)
      | (o, c) => (Returned o, c)
      end
  | Fetched start data pos end_ out =>
      match window_insert start data c with
      | (Ret win, c) => (take_chunk start pos end_ out win, c)
      | (o, c) => (Returned o, c)
      end
  | Returned _ => (t, c)
  end.

(** The shared cache and the threads. *)
Record system : Type := mkSystem { shared : Cache R; threads : list pc }.

Definition start_system (c : Cache R) (reqs : list (Z * Z)) : system :=
  mkSystem c (map (fun q => enter (fst q) (snd q) c) reqs).
Definition move (s : system) (i : nat) : system :=
  match threads s !! i with
  | Some t => let '(t', c') := thread_step t (shared s) in mkSystem c' (<[i := t']> (threads s))
  | None => s
  end.
Definition run_schedule (sched : list nat) (s : system) : system := foldl move s sched.

(** One thread on its own. *)
Fixpoint alone (k : nat) (t : pc) (c : Cache R) : pc * Cache R :=
  match k with
  | O => (t, c)
  | S k => let '(t', c') := thread_step t c in alone k t' c'
  end.
End Threads.
Arguments system R : clear implicits.

(** [FileReader.read_at] step by step: the position, then the bytes. *)
Inductive file_pc : Type :=
  | Coarse (t : pc)
  | Sought (start n pos end_ : Z) (out : bytes).

Definition file_step (t : file_pc) (c : Cache FileReader) : file_pc * Cache FileReader :=
  match t with
  | Coarse (Missed start pos end_ out) =>
      let n := want c start in
      if (n <=? 0) || (start <? 0) then (Coarse (Fetched start [] pos end_ out), c)
      else
        match on_backing (file_seek start) c with
        | (Ret _, c) => (Sought start n pos end_ out, c)
        | (Raise e, c) => (Coarse (Returned (Raise e)), c)
        | (Blocked, c) => (Coarse (Returned Blocked), c)
        end
  | Coarse t => let '(t', c') := thread_step t c in (Coarse t', c')
  | Sought start n pos end_ out =>
      match on_backing (file_read n) c with
      | (Ret data, c) => (Coarse (Fetched start data pos end_ out), c)
      | (o, c) => (Coarse (Returned o), c)
      end
  end.

(** Two readers of one file. *)
Definition file_move (s : Cache FileReader * (file_pc * file_pc)) (first : bool) : Cache FileReader * (file_pc * file_pc) :=
  let '(c, (a, b)) := s in
  if first then let '(a', c') := file_step a c in (c', (a', b))
  else let '(b', c') := file_step b c in (c', (a, b')).
End CacheThreads.
Import CacheThreads.

(** ** Lemmas *)

Section ThreadProofs.
Context {R : Type} `{Reader R} {serves : R -> bytes -> Prop} `{!ReaderOk R serves}.
Implicit Types (c : Cache R) (m : bytes).

(** What a thread has read so far, and what it still has to read. *)
Definition on_course (m : bytes) (q : Z * Z) (pos end_ : Z) (out : bytes) : Prop :=
  0 <= pos /\ end_ <= blen m /\ out ++ medium_slice m (end_ - pos) pos = medium_slice m (fst q) (snd q).
Definition thread_ok (m : bytes) (ws : Z) (q : Z * Z) (t : pc) : Prop :=
  match t with
  | AtLoop pos end_ out => on_course m q pos end_ out
  | Missed start pos end_ out => on_course m q pos end_ out /\ pos < end_ /\ start = pos - pos mod ws
  | Fetched start data pos end_ out =>
      on_course m q pos end_ out /\ pos < end_ /\ start = pos - pos mod ws /\ data = medium_slice m ws start
  | Returned o => o = Ret (medium_slice m (fst q) (snd q))
  end.

(** The steps a thread needs at most. *)
Definition work (t : pc) : nat :=
  match t with
  | AtLoop pos end_ _ => 3 * Z.to_nat (end_ - pos) + 3
  | Missed _ pos end_ _ => 3 * Z.to_nat (end_ - pos) + 2
  | Fetched _ _ pos end_ _ => 3 * Z.to_nat (end_ - pos) + 1
  | Returned _ => 0
  end%nat.

Lemma enter_ok c m q : cache_serves (serves := serves) c m -> 0 <= snd q ->
  thread_ok m (c_window_size c) q (enter (fst q) (snd q) c) /\ (work (enter (fst q) (snd q) c) <= 3 * Z.to_nat (fst q) + 3)%nat.
Proof.
  intros Hc Hq. destruct q as [n off]. cbn [fst snd] in *. pose proof (cs_size _ _ Hc) as Hs. unfold enter.
  destruct (off <? 0) eqn:E; bool_to_prop; [lia|]. destruct (c_size c <=? off) eqn:E1; bool_to_prop.
  - cbn. rewrite medium_slice_nil by lia. split; [done|lia].
  - cbn. split; [|lia]. split_and!; [lia|lia|]. cbn [fst snd app]. rewrite <- (medium_slice_clip m n off) by lia. f_equal. lia.
Qed.

Lemma aligned_start ws pos : 0 < ws -> 0 <= pos -> 0 <= pos - pos mod ws <= pos /\ (pos - pos mod ws) mod ws = 0 /\ pos < pos - pos mod ws + ws.
Proof.
  intros Hws Hp. pose proof (Z.mod_pos_bound pos ws Hws). pose proof (Z.mod_le pos ws Hp Hws). split_and!; [lia|lia| |lia].
  rewrite Zminus_mod_idemp_r, Z.sub_diag. by apply Z.mod_0_l; lia.
Qed.

(** A window of the medium takes a thread on. *)
Lemma take_chunk_ok m ws q pos end_ out :
  0 < ws -> on_course m q pos end_ out -> pos < end_ ->
  let start := pos - pos mod ws in
  let t := take_chunk start pos end_ out (medium_slice m ws start) in
  thread_ok m ws q t /\ (work t <= 3 * Z.to_nat (end_ - pos))%nat.
Proof.
  intros Hws (Hp & He & Ho) Hlt start t. destruct (aligned_start ws pos Hws Hp) as (Hs & _ & Hw). fold start in Hs, Hw.
  subst t. unfold take_chunk. rewrite length_medium_slice by lia.
  destruct (Z.min ws (blen m - start) <=? pos - start) eqn:E1; bool_to_prop; [lia|].
  set (k := Z.min (Z.min ws (blen m - start) - (pos - start)) (end_ - pos)).
  destruct (k =? 0) eqn:E2; bool_to_prop; [lia|]. rewrite slice_medium_slice by lia.
  replace (start + (pos - start)) with pos by lia. cbn [thread_ok work]. split; [|lia].
  split_and!; [lia|lia|]. rewrite <- app_assoc, <- medium_slice_app by lia. rewrite <- Ho. f_equal. f_equal. lia.
Qed.

(** Every step keeps the cache and the threads on course, and brings its
    thread nearer to its end. *)
Lemma thread_step_ok c m q t :
  cache_serves (serves := serves) c m -> thread_ok m (c_window_size c) q t ->
  let '(t', c') := thread_step t c in
  cache_serves (serves := serves) c' m /\ same_config c c' /\ thread_ok m (c_window_size c) q t' /\
  (work t' <= work t - 1)%nat.
Proof.
  intros Hc Ht. pose proof (cs_window_size _ _ Hc) as Hws. destruct t as [pos end_ out|start pos end_ out|start data pos end_ out|o]; cbn [thread_step].
  - destruct (pos <? end_) eqn:E; bool_to_prop; cbn [negb].
    2: { destruct Ht as (Hp & He & Ho). rewrite medium_slice_nil, app_nil_r in Ho by lia. cbn. split_and!; [done..|by rewrite Ho|lia]. }
    destruct (c_window_size c =? 0) eqn:E0; bool_to_prop; [lia|]. set (start := pos - pos mod c_window_size c).
    unfold window_lookup. destruct (assoc_get (c_windows c) start) as [win|] eqn:Ew.
    + pose proof Hc as [H1 H2 H3 H4 H5 H6 H7]. destruct (move_to_end_ok _ _ _ _ _ H5 H6 Ew) as (Hf & Hn & Hl & ->).
      destruct (take_chunk_ok m (c_window_size c) q pos end_ out Hws Ht E) as [Hk Hw]. split_and!; [|done|exact Hk|].
      * split; cbn; try done. unfold blen in *. lia.
      * cbn [work]. fold start in Hw. lia.
    + split_and!; [destruct Hc; by split|done|exact (conj Ht (conj E eq_refl))|cbn; lia].
  - destruct Ht as (Ho & Hlt & Hst). destruct (aligned_start (c_window_size c) pos Hws (proj1 Ho)) as (Hs & _ & _). rewrite <- Hst in Hs.
    destruct Ho as (Hp & He & Ho). destruct (read_ok (c_r c) m (want c start) start (cs_backing _ _ Hc) ltac:(lia)) as (r' & Hr & Hsv).
    unfold on_backing. rewrite Hr, (want_slice (serves := serves)) by (done || lia).
    split_and!; [destruct Hc; by split|done|exact (conj (conj Hp (conj He Ho)) (conj Hlt (conj Hst eq_refl)))|cbn; lia].
  - destruct Ht as (Ho & Hlt & -> & ->). destruct (aligned_start (c_window_size c) pos Hws (proj1 Ho)) as (Hs & Hm & _).
    destruct (window_insert_ok c m (pos - pos mod c_window_size c) Hc) as (c' & Hi & Hc' & Hcfg & _); [destruct Ho; lia|done|].
    rewrite Hi. destruct (take_chunk_ok m (c_window_size c) q pos end_ out Hws Ho Hlt) as [Hk Hw].
    split; [done|]. split; [done|]. split; [exact Hk|]. cbn [work]. lia.
  - split_and!; [done..|cbn; lia].
Qed.

(** All threads of a system, each with the request it serves. *)
Definition system_ok (m : bytes) (reqs : list (Z * Z)) (s : system R) : Prop :=
  cache_serves (serves := serves) (shared s) m /\ Forall2 (thread_ok m (c_window_size (shared s))) reqs (threads s).
Definition work_of (s : system R) (i : nat) : nat := default 0%nat (work <$> threads s !! i).

Lemma move_ok m reqs s i : system_ok m reqs s ->
  system_ok m reqs (move s i) /\ c_max_windows (shared (move s i)) = c_max_windows (shared s) /\
  forall j, (work_of (move s i) j <= work_of s j - if decide (i = j) then 1 else 0)%nat.
Proof.
  intros [Hc Hf]. unfold move. destruct (threads s !! i) as [t|] eqn:Et.
  - destruct (Forall2_lookup_r _ _ _ _ _ Hf Et) as (q & Hq & Ht). pose proof (thread_step_ok _ m q t Hc Ht) as Hs.
    destruct (thread_step t (shared s)) as [t' c']. destruct Hs as (Hc' & (Hw & Hm & _) & Ht' & Hk). split_and!; [split; [done|]|done|].
    + cbn. rewrite Hw. rewrite <- (list_insert_id reqs i q Hq). by apply Forall2_insert.
    + intros j. unfold work_of. cbn. destruct (decide (i = j)) as [<-|Hne].
      * rewrite list_lookup_insert_eq by (by eapply lookup_lt_Some). rewrite Et. exact Hk.
      * rewrite list_lookup_insert_ne by done. lia.
  - split_and!; [done|done|]. intros j. destruct (decide (i = j)) as [<-|Hne]; [|lia]. unfold work_of. rewrite Et. cbn. lia.
Qed.

Lemma run_schedule_ok m reqs sched s : system_ok m reqs s ->
  system_ok m reqs (run_schedule sched s) /\ c_max_windows (shared (run_schedule sched s)) = c_max_windows (shared s) /\
  forall j, (work_of (run_schedule sched s) j <= work_of s j - count_occ Nat.eq_dec sched j)%nat.
Proof.
  revert s. induction sched as [|i sched IH]; intros s Hs; [split_and!; [done|done|intros j; cbn; lia]|].
  cbn [run_schedule foldl]. destruct (move_ok m reqs s i Hs) as (H1 & H2 & H3).
  destruct (IH (move s i) H1) as (H4 & H5 & H6). split_and!; [exact H4|by rewrite <- H2|].
  intros j. specialize (H3 j). specialize (H6 j). cbn [count_occ]. unfold run_schedule in H6.
  destruct (Nat.eq_dec i j), (decide (i = j)); try done; lia.
Qed.

Lemma lookup_map {A B} (f : A -> B) l i : map f l !! i = f <$> l !! i.
Proof. apply list_lookup_fmap. Qed.

Lemma assoc_get_snoc (d : list (Z * bytes)) k v : assoc_get d k = None -> assoc_get (d ++ [(k, v)]) k = Some v.
Proof. induction d as [|[a b] d IH]; cbn; [by rewrite decide_True by done|]. by case_decide. Qed.

Lemma no_work_returned m ws q t : thread_ok m ws q t -> work t = 0%nat -> t = Returned (Ret (medium_slice m (fst q) (snd q))).
Proof. destruct t; cbn; intros Ht Hw; try lia. by rewrite Ht. Qed.

End ThreadProofs.

(** A thread on its own does what [Cache_read_at] does. *)
Section Alone.
Context {R : Type} `{Reader R}.

Lemma alone_app k l t (c : Cache R) : alone (k + l) t c = let '(t', c') := alone k t c in alone l t' c'.
Proof. revert t c. induction k as [|k IH]; intros t c; [done|]. cbn. destruct (thread_step t c) as [t' c']. apply IH. Qed.

Lemma alone_window pos end_ out (c : Cache R) :
  pos < end_ -> c_window_size c <> 0 ->
  let start := pos - pos mod c_window_size c in
  exists k, alone k (AtLoop pos end_ out) c
    = match window start c with
      | (Ret win, c') => (take_chunk start pos end_ out win, c')
      | (o, c') => (Returned o, c')
      end.
Proof.
  intros Hlt Hws start. unfold window. assert (thread_step (AtLoop pos end_ out) c = match window_lookup start c with
    | (Some win, c) => (take_chunk start pos end_ out win, c) | (None, c) => (Missed start pos end_ out, c) end) as Hs.
  { cbn. destruct (pos <? end_) eqn:E; bool_to_prop; [|lia]. cbn. destruct (c_window_size c =? 0) eqn:E0; bool_to_prop; done. }
  destruct (window_lookup start c) as [[win|] c1] eqn:El.
  - exists 1%nat. cbn [alone]. by rewrite Hs.
  - unfold io_bind. destruct (on_backing (read_at (want c1 start) start) c1) as [[data|e|] c2] eqn:Eb.
    + exists 3%nat. cbn [alone]. rewrite Hs. cbn [thread_step]. rewrite Eb. cbn [thread_step].
      by destruct (window_insert start data c2) as [[win|e|] c3].
    + exists 2%nat. cbn [alone]. rewrite Hs. cbn [thread_step]. by rewrite Eb.
    + exists 2%nat. cbn [alone]. rewrite Hs. cbn [thread_step]. by rewrite Eb.
Qed.

Lemma alone_loop fuel pos end_ out (c : Cache R) : (Z.to_nat (end_ - pos) <= fuel)%nat ->
  exists k, alone k (AtLoop pos end_ out) c
            = let '(o, c') := read_loop fuel pos end_ out c in (Returned o, c').
Proof.
  revert pos out c. induction fuel as [|fuel IH]; intros pos out c Hf; cbn [read_loop].
  all: destruct (pos <? end_) eqn:E; cbn [negb]; [|exists 1%nat; cbn; by rewrite E].
  { bool_to_prop. lia. }
  destruct (c_window_size c =? 0) eqn:E0; [exists 1%nat; cbn; by rewrite E, E0|]. bool_to_prop.
  destruct (alone_window pos end_ out c E E0) as [k Hk]. unfold io_bind.
  destruct (window (pos - pos mod c_window_size c) c) as [[win|e|] c1]; [|by exists k..].
  unfold take_chunk in Hk. set (start := pos - pos mod c_window_size c) in *.
  destruct (blen win <=? pos - start) eqn:E1; [by exists k|]. destruct (_ =? 0) eqn:E2; [by exists k|]. bool_to_prop.
  match goal with |- context [read_loop fuel ?p end_ ?o c1] => destruct (IH p o c1) as [l Hl]; [lia|] end.
  exists (k + l)%nat. by rewrite alone_app, Hk.
Qed.
End Alone.

(** ** Properties *)

Section ThreadProperties.
Context {R : Type} `{Reader R} {serves : R -> bytes -> Prop} `{!ReaderOk R serves}.

(** C13: Readers may share the cache.  Over a backing that serves a medium
    with indivisible reads, any number of threads read through one cache, in
    any interleaving of their critical sections and fetches.  At every
    moment the cache serves the medium and holds at most [max_windows]
    windows; a thread that has returned has exactly the bytes it asked for;
    and a thread returns once it was scheduled three times per byte and
    three times more, whatever the others do. *)
Theorem concurrent_reads_exact (r : R) (m : bytes) w (ws mx : Z) (reqs : list (Z * Z)) (sched : list nat) :
  serves r m -> 0 < ws -> 0 <= mx -> Forall (fun q => 0 <= snd q) reqs ->
  let s := run_schedule sched (start_system (Cache_init r w ws mx) reqs) in
  cache_serves (serves := serves) (shared s) m /\ cached_window_count (shared s) <= mx /\
  forall i q, reqs !! i = Some q ->
    (forall o, threads s !! i = Some (Returned o) -> o = Ret (medium_slice m (fst q) (snd q))) /\
    ((3 * Z.to_nat (fst q) + 3 <= count_occ Nat.eq_dec sched i)%nat ->
     threads s !! i = Some (Returned (Ret (medium_slice m (fst q) (snd q))))).
Proof.
  intros Hr Hws Hmx Hq. set (c := Cache_init r w ws mx). pose proof (Cache_init_serves r m w ws mx Hr Hws Hmx) as Hc. fold c in Hc.
  assert (system_ok (serves := serves) m reqs (start_system c reqs)) as H0.
  { split; [done|]. cbn. apply Forall2_same_length_lookup_2; [by rewrite length_map|].
    intros i q t H1 H2. rewrite lookup_map, H1 in H2. injection H2 as <-. apply (enter_ok c m q Hc). rewrite Forall_forall in Hq.
    apply Hq. by eapply list_elem_of_lookup_2. }
  intros s. destruct (run_schedule_ok m reqs sched _ H0) as ([Hc' Hf] & Hm & Hw). fold s in Hc', Hf, Hm, Hw.
  split_and!; [done|unfold cached_window_count; pose proof (cs_bound _ _ Hc') as Hb; by rewrite Hm in Hb|].
  intros i q Hi. destruct (Forall2_lookup_l _ _ _ _ _ Hf Hi) as (t & Ht & Hok). split.
  - intros o Ho. rewrite Ho in Ht. by injection Ht as <-.
  - intros Hn. rewrite Ht. f_equal. eapply no_work_returned; [exact Hok|]. specialize (Hw i). unfold work_of in Hw. rewrite Ht in Hw.
    cbn in Hw. rewrite lookup_map, Hi in Hw. cbn in Hw. rewrite Forall_forall in Hq.
    destruct (enter_ok c m q Hc) as [_ He]; [apply Hq; by eapply list_elem_of_lookup_2|]. lia.
Qed.

(** A thread that has the cache for itself does what [Cache.read_at] does,
    on every branch and with the same cache after it. *)
Theorem alone_is_read_at n offset (c : Cache R) :
  exists k, alone k (enter n offset c) c = let '(o, c') := Cache_read_at n offset c in (Returned o, c').
Proof.
  unfold enter, Cache_read_at. destruct (offset <? 0); [by exists 0%nat|]. destruct (c_size c <=? offset); [by exists 0%nat|].
  by apply alone_loop.
Qed.

(** A write that falls between a thread's fetch and its insertion is lost
    to the cache: the window that comes to be resident holds the bytes from
    before the write, although [write_at] had invalidated it; so the cache
    no longer serves what the backing holds. *)
Theorem fetch_outlives_write (c c1 : Cache R) (m data : bytes) (offset n start pos end_ : Z) (out : bytes) write_at (r' : R) :
  cache_serves (serves := serves) c m -> c_w c = Some write_at -> 1 <= c_max_windows c ->
  0 <= offset -> offset + blen data <= blen m ->
  write_at data offset (c_r c) = (Ret n, r') -> serves r' (splice m (Z.to_nat offset) data) ->
  let m' := splice m (Z.to_nat offset) data in
  let ws := c_window_size c in
  0 <= start < blen m -> start mod ws = 0 -> assoc_get (c_windows c) start = None ->
  medium_slice m ws start <> medium_slice m' ws start ->
  Cache_write_at data offset c = (Ret n, c1) ->
  let c2 := (thread_step (Fetched start (medium_slice m ws start) pos end_ out) c1).2 in
  cache_serves (serves := serves) c1 m' /\
  assoc_get (c_windows c2) start = Some (medium_slice m ws start) /\ ~ cache_serves (serves := serves) c2 m'.
Proof.
  intros Hc Hw Hmx Ho Hl Hwr Hsv m' ws Hs Hm Hg Hne Hwa c2.
  destruct (write_coherent c m data offset n write_at r' Hc Hw Ho Hl Hwr Hsv) as (c1' & H1 & Hc1). rewrite Hwa in H1.
  injection H1 as <-. fold m' in Hc1. split; [done|].
  assert (c_windows c1 `sublist_of` c_windows c /\ same_config c c1) as [Hsub (Hcw & Hcm & Hcs)].
  { unfold Cache_write_at in Hwa. rewrite Hw in Hwa. unfold io_bind, on_backing, io_modify, io_ret in Hwa. rewrite Hwr in Hwa.
    injection Hwa as <-. unfold invalidate. destruct (_ <=? 0); [done|]. split; [|done]. apply invalidate_loop_sublist. }
  assert (assoc_get (c_windows c1) start = None) as Hg1.
  { apply assoc_get_none. apply assoc_get_none in Hg. intros Hin. apply Hg. by eapply elem_of_sublist, sublist_keys. }
  assert (assoc_get (c_windows c2) start = Some (medium_slice m ws start)) as Hres.
  { unfold c2. cbn [thread_step]. unfold window_insert. cbn [count c_windows c_max_windows]. rewrite Hg1.
    rewrite evict_spec by lia. cbn. rewrite drop_app_le by (rewrite length_app; cbn; lia).
    apply assoc_get_snoc. apply assoc_get_none. apply assoc_get_none in Hg1. intros Hin. apply Hg1.
    rewrite fmap_drop in Hin. eapply elem_of_sublist; [exact Hin|apply sublist_drop]. }
  split; [exact Hres|]. intros Hbad. pose proof (cs_windows _ _ Hbad) as Hf. rewrite Forall_forall in Hf.
  apply assoc_get_in in Hres. destruct (Hf _ Hres) as (_ & _ & Heq). cbn in Heq. apply Hne. rewrite Heq. f_equal.
  subst ws c2. cbn [thread_step]. unfold window_insert. cbn [count c_windows c_max_windows]. rewrite Hg1.
  destruct (evict _ _); cbn; exact Hcw.
Qed.
End ThreadProperties.

(** The steps of a reader of a file that is open. *)
Section FileSteps.
Context (c : Cache FileReader) (ws start end_ : Z).
Hypothesis window_size : c_window_size c = ws.
Hypothesis window_positive : 0 < ws.
Hypothesis aligned : start mod ws = 0.
Hypothesis in_range : 0 <= start < end_.

Lemma file_misses : assoc_get (c_windows c) start = None ->
  file_step (Coarse (AtLoop start end_ [])) c = (Coarse (Missed start start end_ []), count c 0 1 0).
Proof using Type*.
  intros Hg. cbn. replace (start <? end_) with true by (symmetry; apply Z.ltb_lt; lia).
  destruct (c_window_size c =? 0) eqn:E; bool_to_prop; [lia|]. cbn. rewrite window_size, aligned, Z.sub_0_r.
  unfold window_lookup. by rewrite Hg.
Qed.

Lemma file_seeks : start + ws <= c_size c -> f_closed (c_r c) = false ->
  exists f, file_step (Coarse (Missed start start end_ [])) c = (Sought start ws start end_ [], set_backing c f) /\
    f_pos f = start /\ f_content f = f_content (c_r c) /\ f_closed f = false.
Proof using Type*.
  intros Hs Hc. cbn. unfold want. rewrite window_size. replace (c_size c <? start + ws) with false by (symmetry; apply Z.ltb_ge; lia).
  destruct ((ws <=? 0) || (start <? 0)) eqn:E; [apply orb_true_iff in E as [E|E]; bool_to_prop; lia|].
  unfold on_backing, file_seek. rewrite Hc. by eexists.
Qed.

(** The bytes that are read are those at the position, whoever set it. *)
Lemma file_reads : f_closed (c_r c) = false ->
  exists f, file_step (Sought start ws start end_ []) c
    = (Coarse (Fetched start (medium_slice (f_content (c_r c)) ws (f_pos (c_r c))) start end_ []), set_backing c f).
Proof. intros Hc. cbn. unfold on_backing, file_read. rewrite Hc. by eexists. Qed.

Lemma file_inserts data : assoc_get (c_windows c) start = None -> 1 <= c_max_windows c -> blen data = ws -> end_ = start + ws ->
  exists d, file_step (Coarse (Fetched start data start end_ [])) c
    = (Coarse (AtLoop end_ end_ data), set_windows (count c 0 0 (blen data)) d) /\ assoc_get d start = Some data.
Proof using Type*.
  intros Hg Hmx Hl He. cbn. unfold window_insert. cbn [count c_windows c_max_windows]. rewrite Hg, evict_spec by lia.
  unfold take_chunk. rewrite Z.sub_diag, Hl. destruct (ws <=? 0) eqn:E; bool_to_prop; [lia|].
  replace (Z.min (ws - 0) (end_ - start)) with ws by lia. destruct (ws =? 0) eqn:E0; bool_to_prop; [lia|].
  eexists. split.
  - rewrite He. unfold slice. cbn. rewrite drop_0. rewrite take_ge by (unfold blen in Hl; lia). reflexivity.
  - rewrite drop_app_le by (rewrite length_app; cbn; lia). apply assoc_get_snoc, assoc_get_none. intros Hin.
    apply assoc_get_none in Hg. apply Hg. rewrite fmap_drop in Hin. eapply elem_of_sublist; [exact Hin|apply sublist_drop].
Qed.
End FileSteps.

(** A resident window is what a read of it returns. *)
Lemma resident_read (c : Cache FileReader) ws data :
  c_window_size c = ws -> 0 < ws <= c_size c -> assoc_get (c_windows c) 0 = Some data -> blen data = ws ->
  exists c', Cache_read_at ws 0 c = (Ret data, c').
Proof.
  intros Hw Hs Hg Hl. unfold Cache_read_at. cbn [Z.ltb Z.compare].
  destruct (c_size c <=? 0) eqn:E; bool_to_prop; [lia|]. replace (Z.min (0 + ws) (c_size c)) with ws by lia.
  destruct (Z.to_nat (ws - 0)) as [|fuel] eqn:Ef; [lia|]. cbn [read_loop].
  replace (0 <? ws) with true by (symmetry; apply Z.ltb_lt; lia). cbn [negb].
  destruct (c_window_size c =? 0) eqn:E0; bool_to_prop; [lia|]. rewrite Hw, Z.mod_0_l by lia. change (0 - 0) with 0.
  unfold io_bind, window, window_lookup. rewrite Hg, Hl, !Z.sub_0_r, Z.min_id, !Z.add_0_l.
  destruct (ws <=? 0) eqn:E1; bool_to_prop; [lia|]. destruct (ws =? 0) eqn:E2; bool_to_prop; [lia|].
  assert (slice (Z.to_nat 0) (Z.to_nat ws) data = data) as ->.
  { unfold slice. cbn. rewrite drop_0, take_ge by (unfold blen in Hl; lia). done. }
  destruct fuel; cbn [read_loop]; rewrite Z.ltb_irrefl; cbn; by eexists.
Qed.

(** Two readers over one [FileReader] can fetch each other's bytes.  The
    first seeks, the second seeks, the first reads: it takes the second
    window for the first, returns it, and leaves it in the cache, where
    every later read of the first window finds it. *)
Theorem file_readers_race (m : bytes) w (ws mx : Z) :
  0 < ws -> 2 * ws <= blen m -> 1 <= mx ->
  let c := Cache_init {| f_content := m; f_size := blen m; f_pos := 0; f_closed := false |} w ws mx in
  exists sched c' b,
    foldl file_move (c, (Coarse (enter ws 0 c), Coarse (enter ws ws c))) sched
    = (c', (Coarse (Returned (Ret (medium_slice m ws ws))), b)) /\
    exists c'', Cache_read_at ws 0 c' = (Ret (medium_slice m ws ws), c'').
Proof.
  intros Hws Hm Hmx c. assert (0 mod ws = 0) as Hz by (apply Z.mod_0_l; lia). assert (ws mod ws = 0) as Hy by (apply Z.mod_same; lia).
  assert (enter ws 0 c = AtLoop 0 ws [] /\ enter ws ws c = AtLoop ws (2 * ws) []) as [-> ->].
  { unfold enter. cbn [c c_size Cache_init size FileReader_Reader f_size].
    destruct (blen m <=? 0) eqn:E1, (blen m <=? ws) eqn:E2, (ws <? 0) eqn:E3; bool_to_prop; try lia. split; f_equal; lia. }
  assert (blen (medium_slice m ws ws) = ws) as Hl by (rewrite length_medium_slice; lia).
  set (c2 := count (count c 0 1 0) 0 1 0).
  destruct (file_seeks c2 ws 0 ws eq_refl Hws Hz ltac:(lia)) as (f1 & Hs1 & _ & Hf1 & Hc1); [cbn; lia|done|].
  destruct (file_seeks (set_backing c2 f1) ws ws (2 * ws) eq_refl Hws Hy ltac:(lia)) as (f2 & Hs2 & Hp2 & Hf2 & Hc2); [cbn; lia|done|].
  set (c4 := set_backing (set_backing c2 f1) f2). destruct (file_reads c4 ws 0 ws Hc2) as (f3 & Hr).
  change (c_r c4) with f2 in Hr. change (c_r (set_backing c2 f1)) with f1 in Hf2. change (f_content (c_r c2)) with m in Hf1.
  rewrite Hp2, Hf2, Hf1 in Hr. set (c5 := set_backing c4 f3) in Hr.
  destruct (file_inserts c5 ws 0 ws eq_refl Hws Hz ltac:(lia) (medium_slice m ws ws)) as (d & Hi & Hd); [done|done|done|lia|].
  exists [true; false; true; false; true; true; true]. cbn [foldl]. unfold file_move at 7.
  rewrite (file_misses c ws 0 ws) by (done || lia). unfold file_move at 6.
  rewrite (file_misses (count c 0 1 0) ws ws (2 * ws)) by (done || lia). unfold file_move at 5. fold c2. rewrite Hs1.
  unfold file_move at 4. rewrite Hs2. unfold file_move at 3. fold c4. rewrite Hr.
  unfold file_move at 2. rewrite Hi. unfold file_move. cbn [file_step thread_step].
  rewrite Z.ltb_irrefl. cbn [negb]. eexists _, _. split; [reflexivity|].
  apply resident_read; [done|cbn; lia|exact Hd|done].
Qed.

(** *** Witnesses *)

(** Two readers of neighbouring windows, both past their lookups before
    either fetches. *)
Definition sample_schedule : list nat := ([0; 1; 1; 0; 1; 0] ++ replicate 12 0 ++ replicate 12 1)%nat.

Lemma concurrent_reads_exact_witness :
  threads (run_schedule sample_schedule (start_system sample_cache [(3, 2); (4, 0)])) !! 1%nat
  = Some (Returned (Ret [10; 11; 12; 13])).
Proof.
  apply (proj2 (proj2 (proj2 (concurrent_reads_exact (serves := file_serves) sample_file sample_medium (Some sample_write) 4 2 [(3, 2); (4, 0)]
                                sample_schedule sample_file_serves ltac:(lia) ltac:(lia) ltac:(repeat constructor; cbn; lia)))
                1%nat (4, 0) eq_refl)).
  apply Nat.leb_le. by vm_compute.
Defined.

Lemma file_readers_race_witness :
  exists sched c' b,
    foldl file_move (sample_cache, (Coarse (enter 4 0 sample_cache), Coarse (enter 4 4 sample_cache))) sched
    = (c', (Coarse (Returned (Ret [14; 15; 16; 17])), b)).
Proof.
  destruct (file_readers_race sample_medium (Some sample_write) 4 2 ltac:(lia) ltac:(by vm_compute) ltac:(lia)) as (sched & c' & b & H & _).
  by exists sched, c', b.
Defined.
