(* ===== verification/IusbDevice.v ===== *)
(** * iusb.py: the virtual CD-ROM ([CDROMDevice]) and [process_frame]

    The device is generic in its backing [Reader]; its theorems are proved
    against the [ReaderOk] interface and so hold for a bare [FileReader], for
    a [Cache] in front of one, and for any other reader that keeps the
    promise.  Logging is not modelled. *)
From Stdlib Require Import ZArith Lia Ascii String.
From stdpp Require Import prelude.
From S2P Require Import Prelude PyBytes PyText Regex Errors IusbFrame IusbCache.

(** [z.to_bytes(n, order)] *)
Definition to_bytes_le (n : nat) (z : Z) : result exn bytes :=
  if fits n z then Ok (le_bytes n z)
  else Err (OverflowError (if z <? 0 then $"can't convert negative int to unsigned" else $"int too big to convert")).
Definition to_bytes_be (n : nat) (z : Z) : result exn bytes :=
  let* b := to_bytes_le n z in Ok (rev b).

Section CDROMDevice.
Context {R : Type} `{Reader R}.

Record CDROMDevice : Type := {
  d_r : R;
  last_lba : Z;
  n_bytes : Z;
  n_blocks : Z;
}.

(** [CDROMDevice.__init__] *)
Definition CDROMDevice_init (reader : R) : CDROMDevice :=
  let n := size reader / CD_BLOCK_SIZE in
  {| d_r := reader; last_lba := if 0 <? n then n - 1 else 0; n_bytes := 0; n_blocks := 0 |}.

Definition bytes_served (d : CDROMDevice) : Z := n_bytes d.
Definition blocks_served (d : CDROMDevice) : Z := n_blocks d.

Definition on_reader {A} (f : io R exn A) : io CDROMDevice exn A := fun d =>
  let '(o, r) := f (d_r d) in
  (o, {| d_r := r; last_lba := last_lba d; n_bytes := n_bytes d; n_blocks := n_blocks d |}).

(** [_build_response] *)
Definition set_len (off : nat) (n : Z) (out : bytes) : result exn bytes :=
  if (off + 4 <=? length out)%nat
  then let* b := to_bytes_le 4 n in Ok (splice out off b)
  else Ok out.
Definition build_response (req : Packet.t) (data : bytes) : result exn bytes :=
  let out := Packet.payload req ++ data in
  let n := blen data in
  let* out := set_len ENV_OFF_DATA_LEN n out in
  set_len ENV_OFF_RESP_LEN n out.

(** [_read] *)
Definition device_read (lba blocks : Z) : io CDROMDevice exn bytes :=
  let n := blocks * CD_BLOCK_SIZE in
  let off := lba * CD_BLOCK_SIZE in
  do data <- on_reader (read_at n off);
  let buf := data ++ drop (length data) (zeros (Z.to_nat n)) in
  run io_modify (fun d =>
    {| d_r := d_r d; last_lba := last_lba d;
       n_bytes := n_bytes d + blen data; n_blocks := n_blocks d + blocks |});
  io_ret buf.

(** [_read_capacity] *)
Definition read_capacity (lba : Z) : result exn bytes :=
  let* a := to_bytes_be 4 lba in
  let* b := to_bytes_be 4 CD_BLOCK_SIZE in
  Ok (a ++ b).

(** [_read_toc] and its local [track] *)
Definition toc_track (no lba : Z) : result exn bytes :=
  let d := setb (setb (zeros 8) 1 0x14) 2 no in
  let* b := to_bytes_be 4 lba in
  Ok (splice d 4 b).
Definition read_toc (lba : Z) (cdb : bytes) : result exn bytes :=
  let* t1 := toc_track 1 0 in
  let* t2 := toc_track 0xAA (lba + 1) in
  let body := t1 ++ t2 in
  let out := zeros (4 + length body) in
  let* l := to_bytes_be 2 (blen body + 2) in
  let out := splice out 0 l in
  let out := setb out 2 1 in
  let out := setb out 3 1 in
  let out := splice out 4 body in
  let alloc := if (9 <=? length cdb)%nat then from_be (slice 7 9 cdb) else 0 in
  if negb (alloc =? 0) && (alloc <? blen out) then Ok (take (Z.to_nat alloc) out) else Ok out.

(** [CDROMDevice.handle]: [None] sends no reply. *)
Definition handle (req : Packet.t) : io CDROMDevice exn (option bytes) := fun d =>
  let reply (data : bytes) : io CDROMDevice exn (option bytes) :=
    io_lift (let* b := build_response req data in Ok (Some b)) in
  let cdb := Packet.cdb req in
  match cdb with
  | [] => (Ret None, d)
  | op :: _ =>
      if op =? SCSI_TEST_UNIT_READY then reply [] d
      else if op =? SCSI_START_STOP_UNIT then reply [] d
      else if op =? SCSI_READ_CAPACITY10 then (do x <- io_lift (read_capacity (last_lba d)); reply x) d
      else if op =? SCSI_READ10 then
        (let lba := from_be (slice 2 6 cdb) in
         let blocks := from_be (slice 7 9 cdb) in
         do x <- device_read lba blocks; reply x) d
      else if op =? SCSI_READ12 then
        (let lba := from_be (slice 2 6 cdb) in
         let blocks := from_be (slice 6 10 cdb) in
         do x <- device_read lba blocks; reply x) d
      else if op =? SCSI_READ_TOC then (do x <- io_lift (read_toc (last_lba d) cdb); reply x) d
      else if AMI_CONTROL_OPCODE_MIN <=? op then reply [] d
      else reply [] d
  end.

(** [process_frame(handler, frame, device_type)] *)
Definition process_frame (frame : bytes) (device_type : Z) : io CDROMDevice exn (option bytes) :=
  do req <- io_lift (parse_request_frame frame);
  if Packet.is_kill req then io_ret None
  else
    do payload <- handle req;
    match payload with
    | None => io_ret None
    | Some payload => io_ret (Some (build_response_frame (Packet.header req) payload device_type))
    end.
End CDROMDevice.
Arguments CDROMDevice R : clear implicits.

(** A device fed one frame after another; each answer is a reply, silence or
    the exception the frame raises. *)
Fixpoint process_all {R} `{Reader R} (frames : list bytes) (device_type : Z) (d : CDROMDevice R) :
    list (outcome exn (option bytes)) * CDROMDevice R :=
  match frames with
  | [] => ([], d)
  | f :: frames =>
      let '(o, d) := process_frame f device_type d in
      let '(os, d) := process_all frames device_type d in
      (o :: os, d)
  end.

(** ** What a disc answers: the specification, byte by byte

    Nothing here calls the device: the answers are written out from the medium
    and the command block, so that the device can be compared with them. *)

(** The four bytes of a 32-bit field, most or least significant first. *)
Definition be32 (z : Z) : bytes := map (fun k => z / 256 ^ k mod 256) [3; 2; 1; 0].
Definition le32 (z : Z) : bytes := map (fun k => z / 256 ^ k mod 256) [0; 1; 2; 3].

(** A value no 32-bit field holds is an unclassified exception. *)
Definition within32 {A} (z : Z) (a : A) : result exn A :=
  if z <? 2 ^ 32 then Ok a else Err (OverflowError ($"int too big to convert")).

(** Block reads see the medium padded with zeros past its end; what counts as
    read is the part of the request that lies on the medium. *)
Definition disc_read (m : bytes) (lba blocks : Z) : bytes :=
  map (fun i => nth (Z.to_nat (lba * 2048) + i) m 0) (seq 0 (Z.to_nat (blocks * 2048))).
Definition disc_counts (m : bytes) (lba blocks : Z) : Z * Z :=
  (Z.max 0 (Z.min (blocks * 2048) (blen m - lba * 2048)), blocks).

(** The address of the last whole block; 0 when there is none. *)
Definition disc_last_lba (m : bytes) : Z := Z.max 0 (blen m / 2048 - 1).

(** READ CAPACITY(10): the last address, then the block size 2048. *)
Definition disc_capacity (m : bytes) : result exn bytes :=
  within32 (disc_last_lba m) (be32 (disc_last_lba m) ++ [0; 0; 8; 0]).

(** READ TOC: 18 more bytes follow, first and last track are 1; the data
    track at block 0 and the lead-out after the last block.  A non-zero
    allocation length (bytes 7 and 8 of a command block that has them) cuts
    the answer, not its length field. *)
Definition full_toc (lba : Z) : bytes :=
  [0; 18; 1; 1] ++ [0; 0x14; 1; 0; 0; 0; 0; 0] ++ [0; 0x14; 0xAA; 0] ++ be32 (lba + 1).
Definition allocation_length (cdb : bytes) : Z :=
  match drop 7 cdb with hi :: lo :: _ => 256 * hi + lo | _ => 0 end.
Definition disc_toc (m : bytes) (cdb : bytes) : result exn bytes :=
  let toc := full_toc (disc_last_lba m) in
  within32 (disc_last_lba m + 1)
    (if allocation_length cdb =? 0 then toc else take (Z.to_nat (allocation_length cdb)) toc).

(** The data-in bytes of a request, with the bytes and blocks it accounts for. *)
Definition disc_data (m : bytes) (cdb : bytes) : result exn bytes * (Z * Z) :=
  match cdb with
  | [] => (Ok [], (0, 0))
  | op :: _ =>
      let lba := from_be (slice 2 6 cdb) in
      let read (blocks : Z) := (Ok (disc_read m lba blocks), disc_counts m lba blocks) in
      if op =? 0x25 then (disc_capacity m, (0, 0))
      else if op =? 0x28 then read (from_be (slice 7 9 cdb))
      else if op =? 0xA8 then read (from_be (slice 6 10 cdb))
      else if op =? 0x43 then (disc_toc m cdb, (0, 0))
      else (Ok [], (0, 0))
  end.

(** A reply repeats the request, then carries the data; the data length is at
    bytes 0 to 3 of a reply of at least 4 bytes and at bytes 25 to 28 of one
    of at least 29 bytes. *)
Definition reply_byte (p data : bytes) (i : nat) : Z :=
  let len := (length p + length data)%nat in
  if ((29 <=? len) && (25 <=? i) && (i <? 29))%nat then nth (i - 25) (le32 (blen data)) 0
  else if ((4 <=? len) && (i <? 4))%nat then nth i (le32 (blen data)) 0
  else nth i (p ++ data) 0.
Definition disc_envelope (p data : bytes) : result exn bytes :=
  within32 (blen data) (map (reply_byte p data) (seq 0 (length p + length data))).

(** A command block of no byte gets no reply. *)
Definition disc_reply (m : bytes) (req : Packet.t) : result exn (option bytes) * (Z * Z) :=
  match Packet.cdb req with
  | [] => (Ok None, (0, 0))
  | cdb =>
      let '(data, counts) := disc_data m cdb in
      (let* data := data in let* b := disc_envelope (Packet.payload req) data in Ok (Some b), counts)
  end.

(** A frame on the wire: the signature, version 1.0, header length 32, the
    checksum that makes the header sum to zero, the payload length, device
    type, protocol 1, direction 128 (to the host), the instance and sequence
    number of the request. *)
Definition reply_header (inst seq len device_type checksum : Z) : bytes :=
  [73; 85; 83; 66; 32; 32; 32; 32] ++ [1; 0; 32; checksum] ++ le32 len
  ++ [0; device_type mod 256; 1; 128; 0; 0; 0; inst mod 256] ++ le32 seq ++ [0; 0; 0; 0].
Definition reply_frame (h : Header.t) (payload : bytes) (device_type : Z) : bytes :=
  let header := reply_header (Header.instance h) (Header.sequence_number h) (blen payload) device_type in
  header (- fold_right Z.add 0 (header 0) mod 256) ++ payload.

(** The same for a whole frame. *)
Definition disc_frame (m : bytes) (device_type : Z) (frame : bytes) : result exn (option bytes) :=
  let* req := parse_request_frame frame in
  if Packet.is_kill req then Ok None
  else
    let* payload := fst (disc_reply m req) in
    Ok (option_map (fun p => reply_frame (Packet.header req) p device_type) payload).

Definition outcome_of {A} (r : result exn A) : outcome exn A :=
  match r with
  | Ok a => Ret a
  | Err e => Raise e
  end.

(** ** Lemmas *)

Lemma length_disc_read m lba blocks :
  length (disc_read m lba blocks) = Z.to_nat (blocks * CD_BLOCK_SIZE).
Proof. unfold disc_read. by rewrite length_map, length_seq. Qed.

Lemma disc_read_lookup m lba blocks i :
  (i < Z.to_nat (blocks * CD_BLOCK_SIZE))%nat ->
  disc_read m lba blocks !! i = Some (nth (Z.to_nat (lba * CD_BLOCK_SIZE) + i) m 0).
Proof.
  intros Hi. unfold disc_read.
  rewrite (list_lookup_fmap (fun i => nth (Z.to_nat (lba * CD_BLOCK_SIZE) + i) m 0)).
  by rewrite lookup_seq_lt.
Qed.

Lemma disc_read_pad m lba blocks :
  let d := medium_slice m (blocks * CD_BLOCK_SIZE) (lba * CD_BLOCK_SIZE) in
  d ++ drop (length d) (zeros (Z.to_nat (blocks * CD_BLOCK_SIZE))) = disc_read m lba blocks.
Proof.
  intros d. set (n := Z.to_nat (blocks * CD_BLOCK_SIZE)).
  assert (length d = min n (length m - Z.to_nat (lba * CD_BLOCK_SIZE))) as Hd
    by (unfold d, medium_slice; by rewrite length_take, length_drop).
  unfold zeros. rewrite drop_replicate.
  apply list_eq_same_length with (n := n); [apply length_disc_read|rewrite length_app, length_replicate; lia|].
  intros i x y Hi Hx Hy. rewrite disc_read_lookup in Hy by done. injection Hy as <-.
  rewrite nth_lookup.
  destruct (Nat.lt_ge_cases i (length d)) as [Hlt|Hge].
  - rewrite lookup_app_l in Hx by done. unfold d, medium_slice in Hx.
    rewrite lookup_take_lt, lookup_drop in Hx by done. by rewrite Hx.
  - rewrite lookup_app_r, lookup_replicate_2 in Hx by lia. injection Hx as <-.
    rewrite lookup_ge_None_2 by lia. done.
Qed.

Lemma to_bytes_le_ok n z : fits n z = true -> to_bytes_le n z = Ok (le_bytes n z).
Proof. unfold to_bytes_le. by intros ->. Qed.

Lemma set_len_ok off n out :
  fits 4 n = true ->
  set_len off n out = Ok (if (off + 4 <=? length out)%nat then splice out off (le_bytes 4 n) else out).
Proof. intros Hf. unfold set_len. rewrite to_bytes_le_ok by done. by destruct (_ <=? _)%nat. Qed.

Lemma fits_spec n z : fits n z = true <-> 0 <= z < 256 ^ Z.of_nat n.
Proof. unfold fits. rewrite andb_true_iff, Z.leb_le, Z.ltb_lt. done. Qed.

Lemma lookup_splice_out b i d j :
  (i + length d <= length b)%nat -> (j < i \/ i + length d <= j)%nat -> splice b i d !! j = b !! j.
Proof.
  intros Hl Hj. unfold splice. destruct Hj as [Hj|Hj].
  - rewrite lookup_app_l by (rewrite length_take; lia). by apply lookup_take_lt.
  - assert (length (take i b) = i) as Hi by (rewrite length_take; lia).
    rewrite lookup_app_r, Hi by lia. rewrite lookup_app_r by lia. rewrite lookup_drop. f_equal. lia.
Qed.

Lemma drop_splice_after b i d k :
  (i + length d <= k)%nat -> (k <= length b)%nat -> drop k (splice b i d) = drop k b.
Proof.
  intros H1 H2. apply list_eq. intros j. rewrite !lookup_drop. apply lookup_splice_out; lia.
Qed.

Lemma slice_ext {A} (a b : list A) i j :
  (forall k, (i <= k < j)%nat -> a !! k = b !! k) -> slice i j a = slice i j b.
Proof.
  intros H. unfold slice. apply list_eq. intros k.
  destruct (Nat.lt_ge_cases k (j - i)) as [Hk|Hk].
  - rewrite !lookup_take_lt, !lookup_drop by done. apply H. lia.
  - rewrite !lookup_take_ge by done. done.
Qed.

Lemma le32_bytes z : le32 z = le_bytes 4 z.
Proof.
  unfold le32. cbn [map le_bytes]. rewrite !Z.div_div by lia. by rewrite Z.div_1_r.
Qed.

Lemma be32_bytes z : be32 z = be_bytes 4 z.
Proof. unfold be_bytes. by rewrite <- le32_bytes. Qed.

Lemma length_le32 z : length (le32 z) = 4%nat.
Proof. done. Qed.

Lemma to_bytes_le_32 z : 0 <= z -> to_bytes_le 4 z = within32 z (le32 z).
Proof.
  intros Hz. rewrite le32_bytes. unfold to_bytes_le, within32, fits. change (256 ^ Z.of_nat 4) with (2 ^ 32).
  replace (0 <=? z) with true by (symmetry; apply Z.leb_le; lia).
  replace (z <? 0) with false by (symmetry; apply Z.ltb_ge; lia). by destruct (z <? 2 ^ 32).
Qed.

Lemma to_bytes_be_32 z : 0 <= z -> to_bytes_be 4 z = within32 z (be32 z).
Proof.
  intros Hz. unfold to_bytes_be. rewrite to_bytes_le_32 by done. unfold within32. by destruct (z <? 2 ^ 32).
Qed.

Lemma lookup_splice_in b i d j :
  (i + length d <= length b)%nat -> (i <= j < i + length d)%nat -> splice b i d !! j = d !! (j - i)%nat.
Proof.
  intros Hl Hj. unfold splice. assert (length (take i b) = i) as Hi by (rewrite length_take; lia).
  rewrite lookup_app_r, Hi by lia. by rewrite lookup_app_l by lia.
Qed.

Lemma disc_last_lba_nonneg m : 0 <= disc_last_lba m.
Proof. unfold disc_last_lba. lia. Qed.

Lemma disc_capacity_ok m : read_capacity (disc_last_lba m) = disc_capacity m.
Proof.
  unfold read_capacity, disc_capacity. rewrite to_bytes_be_32 by apply disc_last_lba_nonneg.
  unfold within32. by destruct (_ <? _).
Qed.

Lemma allocation_length_ok cdb :
  (if (9 <=? length cdb)%nat then from_be (slice 7 9 cdb) else 0) = allocation_length cdb.
Proof.
  unfold allocation_length, slice. pose proof (length_drop cdb 7) as Hl.
  destruct (drop 7 cdb) as [|hi [|lo r]]; cbn [length] in Hl.
  1,2: by replace (9 <=? length cdb)%nat with false by (symmetry; apply Nat.leb_gt; lia).
  replace (9 <=? length cdb)%nat with true by (symmetry; apply Nat.leb_le; lia).
  unfold from_be. change (take (9 - 7) (hi :: lo :: r)) with [hi; lo]. cbn [rev app from_le]. lia.
Qed.

Lemma disc_toc_ok m cdb : wf_bytes cdb -> read_toc (disc_last_lba m) cdb = disc_toc m cdb.
Proof.
  intros Hwf. pose proof (disc_last_lba_nonneg m) as Hl. unfold read_toc, disc_toc, toc_track.
  rewrite !to_bytes_be_32 by lia. rewrite allocation_length_ok. unfold within32, full_toc.
  destruct (disc_last_lba m + 1 <? 2 ^ 32); [|done].
  assert (0 <= allocation_length cdb) as Ha.
  { rewrite <- allocation_length_ok. destruct (9 <=? length cdb)%nat; [|lia].
    apply from_be_bound. by apply wf_slice. }
  generalize dependent (allocation_length cdb). intros n Hn.
  pose proof (eq_refl (length (be32 (disc_last_lba m + 1)))) as Hlen. change (length (be32 _)) with 4%nat in Hlen at 1.
  destruct (be32 (disc_last_lba m + 1)) as [|b0 [|b1 [|b2 [|b3 [|? ?]]]]]; try discriminate Hlen.
  transitivity (if negb (n =? 0) && (n <? 20)
    then Ok (E := exn) (take (Z.to_nat n) [0; 18; 1; 1; 0; 20; 1; 0; 0; 0; 0; 0; 0; 20; 170; 0; b0; b1; b2; b3])
    else Ok [0; 18; 1; 1; 0; 20; 1; 0; 0; 0; 0; 0; 0; 20; 170; 0; b0; b1; b2; b3]); [vm_compute; reflexivity|].
  destruct (n =? 0) eqn:E0; [done|]. destruct (n <? 20) eqn:E; [done|].
  cbn [negb andb]. f_equal. symmetry. apply take_ge. cbn. lia.
Qed.

(** Writing a field twice over, in the order of the code. *)
Lemma nth_splice b i d j x :
  (i + length d <= length b)%nat ->
  nth j (splice b i d) x = if ((i <=? j) && (j <? i + length d))%nat then nth (j - i) d x else nth j b x.
Proof.
  intros Hl. rewrite !nth_lookup. destruct ((i <=? j) && (j <? i + length d))%nat eqn:E.
  - rewrite lookup_splice_in; [done..|]. apply andb_true_iff in E as [E1 E2].
    apply Nat.leb_le in E1. apply Nat.ltb_lt in E2. lia.
  - rewrite lookup_splice_out; [done..|]. apply andb_false_iff in E as [E|E];
      [apply Nat.leb_gt in E|apply Nat.ltb_ge in E]; lia.
Qed.

Lemma bytes_eq_nth (a b : bytes) :
  length a = length b -> (forall i, (i < length b)%nat -> nth i a 0 = nth i b 0) -> a = b.
Proof.
  intros Hl Hn. apply list_eq_same_length with (n := length b); [done..|].
  intros i x y Hi Hx Hy. specialize (Hn i Hi). rewrite !nth_lookup, Hx, Hy in Hn. done.
Qed.

Lemma nth_reply_bytes p data i :
  (i < length p + length data)%nat ->
  nth i (map (reply_byte p data) (seq 0 (length p + length data))) 0 = reply_byte p data i.
Proof.
  intros Hi. rewrite nth_lookup, (list_lookup_fmap (reply_byte p data)), lookup_seq_lt by done. done.
Qed.

Lemma build_response_ok req data : build_response req data = disc_envelope (Packet.payload req) data.
Proof.
  unfold build_response, set_len, disc_envelope. set (p := Packet.payload req).
  rewrite (to_bytes_le_32 (blen data)) by (unfold blen; lia).
  unfold within32, ENV_OFF_DATA_LEN, ENV_OFF_RESP_LEN. rewrite length_app. set (n := (length p + length data)%nat).
  assert (length (p ++ data) = n) as Hpd by apply length_app.
  destruct (blen data <? 2 ^ 32) eqn:Hb.
  2:{ replace (0 + 4 <=? n)%nat with true; [done|]. symmetry. apply Nat.leb_le. unfold blen in Hb. bool_to_prop. lia. }
  transitivity (Ok (E := exn) (let out := if (4 <=? n)%nat then splice (p ++ data) 0 (le32 (blen data)) else p ++ data in
                     if (29 <=? n)%nat then splice out 25 (le32 (blen data)) else out)).
  { change (0 + 4)%nat with 4%nat. change (25 + 4)%nat with 29%nat. destruct (4 <=? n)%nat eqn:E4; cbn [rbind].
    - apply Nat.leb_le in E4. rewrite length_splice by (rewrite length_le32; lia). rewrite Hpd.
      by destruct (29 <=? n)%nat.
    - rewrite Hpd. by destruct (29 <=? n)%nat. }
  f_equal. cbv zeta. set (out := if (4 <=? n)%nat then _ else _).
  assert (length out = n) as Ho.
  { unfold out. destruct (4 <=? n)%nat eqn:E4; [|done]. apply Nat.leb_le in E4.
    rewrite length_splice by (rewrite length_le32; lia). done. }
  assert (forall i, nth i out 0 = if ((4 <=? n) && (i <? 4))%nat then nth i (le32 (blen data)) 0
                                  else nth i (p ++ data) 0) as Hn.
  { intros i. unfold out. destruct (4 <=? n)%nat eqn:E4; [|done]. apply Nat.leb_le in E4.
    rewrite nth_splice by (rewrite length_le32; lia). by rewrite Nat.sub_0_r. }
  apply bytes_eq_nth.
  - rewrite length_map, length_seq. destruct (29 <=? n)%nat eqn:E; [|done]. apply Nat.leb_le in E.
    by rewrite length_splice by (rewrite length_le32; lia).
  - rewrite length_map, length_seq. intros i Hi. rewrite nth_reply_bytes by done. unfold reply_byte. fold n.
    destruct (29 <=? n)%nat eqn:E; [|by rewrite Hn]. apply Nat.leb_le in E.
    rewrite nth_splice by (rewrite length_le32; lia). change (25 + length (le32 (blen data)))%nat with 29%nat.
    cbn [andb]. by destruct ((25 <=? i) && (i <? 29))%nat.
Qed.

Lemma build_response_frame_ok h payload dt : build_response_frame h payload dt = reply_frame h payload dt.
Proof.
  assert (forall z, le_bytes 4 (u32 z) = le32 z) as Hle.
  { intros z. rewrite u32_mod, le32_bytes.
    rewrite <- (le_bytes_from_le (le_bytes 4 z)) by apply le_bytes_wf.
    by rewrite from_le_le_bytes, length_le_bytes. }
  assert (forall c, reply_header (Header.instance h) (Header.sequence_number h) (blen payload) dt c
    = SIGNATURE ++ [1; 0; 32; c] ++ le_bytes 4 (u32 (blen payload))
      ++ [0; u8 dt; 1; 128; 0; 0; 0; u8 (Header.instance h)]
      ++ le_bytes 4 (u32 (Header.sequence_number h)) ++ [0; 0; 0; 0]) as Hh.
  { intros c. rewrite !Hle, !u8_mod. done. }
  unfold build_response_frame, reply_frame. f_equal.
  rewrite HeaderFacts.marshal_layout, HeaderFacts.unsummed_layout, !Hh, !u8_mod. reflexivity.
Qed.

Lemma wf_cdb req : wf_bytes (Packet.payload req) -> wf_bytes (Packet.cdb req).
Proof. intros H. unfold Packet.cdb. destruct (_ <=? _)%nat; [constructor|by apply Forall_drop]. Qed.

Lemma blen_on_medium m lba blocks :
  0 <= lba -> blen (medium_slice m (blocks * CD_BLOCK_SIZE) (lba * CD_BLOCK_SIZE)) = fst (disc_counts m lba blocks).
Proof.
  intros Hl. unfold disc_counts, medium_slice, blen, CD_BLOCK_SIZE. cbn [fst].
  rewrite length_take, length_drop. lia.
Qed.

Section DeviceProofs.
Context {R : Type} `{Reader R} {serves : R -> bytes -> Prop} `{!ReaderOk R serves}.
Implicit Types (d : CDROMDevice R) (m : bytes).

(** A device that plays the medium [m]. *)
Definition plays (d : CDROMDevice R) (m : bytes) : Prop :=
  serves (d_r d) m /\ last_lba d = disc_last_lba m.

Lemma CDROMDevice_init_plays r m : serves r m -> plays (CDROMDevice_init r) m.
Proof.
  intros Hr. split; [done|]. unfold CDROMDevice_init, disc_last_lba. cbn.
  rewrite (size_ok r m Hr). unfold CD_BLOCK_SIZE. destruct (0 <? blen m / 2048) eqn:E; bool_to_prop; lia.
Qed.

Lemma device_read_ok d m lba blocks :
  plays d m -> 0 <= lba ->
  exists d', device_read lba blocks d = (Ret (disc_read m lba blocks), d') /\ plays d' m /\
    n_bytes d' = n_bytes d + fst (disc_counts m lba blocks) /\
    n_blocks d' = n_blocks d + snd (disc_counts m lba blocks).
Proof.
  intros [Hs Hl] Hlba.
  destruct (read_ok (d_r d) m (blocks * CD_BLOCK_SIZE) (lba * CD_BLOCK_SIZE) Hs
              ltac:(unfold CD_BLOCK_SIZE; lia)) as (r' & Hr & Hs').
  unfold device_read, io_bind, on_reader, io_modify, io_ret. rewrite Hr.
  rewrite disc_read_pad. eexists. split; [done|]. rewrite <- blen_on_medium by done. by split.
Qed.

(** The device implements the specification: same reply or same exception,
    and the counters move by the specified amounts. *)
Lemma handle_ok d m req :
  plays d m -> wf_bytes (Packet.payload req) ->
  exists d', handle req d = (outcome_of (fst (disc_reply m req)), d') /\ plays d' m /\
    n_bytes d' = n_bytes d + fst (snd (disc_reply m req)) /\
    n_blocks d' = n_blocks d + snd (snd (disc_reply m req)).
Proof.
  intros Hp Hwf. unfold handle, disc_reply, disc_data.
  destruct (Packet.cdb req) as [|op cdb] eqn:Hcdb.
  { exists d. cbn. rewrite !Z.add_0_r. done. }
  set (c := op :: cdb) in *.
  assert (wf_bytes c) as Hc by (rewrite <- Hcdb; by apply wf_cdb).
  assert (0 <= from_be (slice 2 6 c)) as Hlba by (apply from_be_bound; by apply wf_slice).
  pose proof (proj2 Hp) as Hll. rewrite Hll, disc_capacity_ok, disc_toc_ok by done.
  assert (forall data : result exn bytes,
    (do x <- io_lift data; io_lift (let* b := build_response req x in Ok (Some b))) d
    = (outcome_of (let* x := data in let* b := disc_envelope (Packet.payload req) x in Ok (Some b)), d)) as Hpure.
  { intros [x|e]; [|done]. cbn. rewrite build_response_ok. by destruct (disc_envelope _ x). }
  pose proof (Hpure (Ok [])) as Hempty. cbn [rbind io_lift io_bind] in Hempty.
  assert (forall blocks,
    exists d', (do x <- device_read (from_be (slice 2 6 c)) blocks;
                io_lift (let* b := build_response req x in Ok (Some b))) d
               = (outcome_of (let* b := disc_envelope (Packet.payload req) (disc_read m (from_be (slice 2 6 c)) blocks) in
                              Ok (Some b)), d')
      /\ plays d' m /\
      n_bytes d' = n_bytes d + fst (disc_counts m (from_be (slice 2 6 c)) blocks)
      /\ n_blocks d' = n_blocks d + snd (disc_counts m (from_be (slice 2 6 c)) blocks)) as Hread.
  { intros blocks. destruct (device_read_ok d m _ blocks Hp Hlba) as (d' & Hr & Hrest).
    exists d'. unfold io_bind. rewrite Hr. split; [|done].
    rewrite build_response_ok. by destruct (disc_envelope _ (disc_read m _ blocks)). }
  unfold SCSI_TEST_UNIT_READY, SCSI_START_STOP_UNIT, SCSI_READ_CAPACITY10, SCSI_READ10, SCSI_READ12, SCSI_READ_TOC.
  repeat match goal with
    | |- context [if (op =? ?k) then _ else _] => destruct (op =? k) eqn:?; bool_to_prop; subst
    | |- context [if (_ <=? op) then _ else _] => destruct (_ <=? op) eqn:?
    end;
    try discriminate;
    first [ (exists d; cbn [fst snd rbind]; rewrite ?Hempty, ?Hpure, !Z.add_0_r; done)
          | (cbn [fst snd rbind]; apply Hread) ].
Qed.

Lemma parse_request_frame_wf frame req :
  wf_bytes frame -> parse_request_frame frame = Ok req -> wf_bytes (Packet.payload req).
Proof.
  intros Hwf. unfold parse_request_frame, raise_ikvm.
  destruct (_ <? _)%nat; [done|].
  destruct (Header.parse _) as [h|e]; cbn [rbind]; [|done].
  destruct (negb _); [done|]. intros [= <-]. by apply Forall_drop.
Qed.

Lemma process_frame_ok d m dt frame :
  plays d m -> wf_bytes frame ->
  exists d', process_frame frame dt d = (outcome_of (disc_frame m dt frame), d') /\ plays d' m.
Proof.
  intros Hp Hwf. unfold process_frame, disc_frame.
  destruct (parse_request_frame frame) as [req|e] eqn:Hreq; [|by exists d].
  apply parse_request_frame_wf in Hreq; [|done]. cbn [io_lift rbind].
  unfold io_bind, io_ret. destruct (Packet.is_kill req); [by exists d|].
  destruct (handle_ok d m req Hp Hreq) as (d' & Hh & Hp' & _). rewrite Hh. exists d'.
  split; [|done]. destruct (fst (disc_reply m req)) as [[p|]|e]; [|done..].
  cbn [outcome_of rbind option_map]. by rewrite build_response_frame_ok.
Qed.

Lemma process_all_ok frames dt m d :
  plays d m -> Forall wf_bytes frames ->
  exists d', process_all frames dt d = (map (fun f => outcome_of (disc_frame m dt f)) frames, d')
    /\ plays d' m.
Proof.
  intros Hp Hf. revert d Hp. induction Hf as [|f frames Hf _ IH]; intros d Hp; [by exists d|].
  destruct (process_frame_ok d m dt f Hp Hf) as (d1 & H1 & Hp1).
  destruct (IH d1 Hp1) as (d2 & H2 & Hp2).
  exists d2. cbn. by rewrite H1, H2.
Qed.
End DeviceProofs.

(** The response when the envelope is at least [ENV_OFF_RESP_LEN + 4] long:
    both length fields are written inside it. *)
Lemma build_response_long req data :
  (ENV_OFF_RESP_LEN + 4 <= length (Packet.payload req))%nat -> blen data < 2 ^ 32 ->
  build_response req data
  = Ok (splice (splice (Packet.payload req ++ data) ENV_OFF_DATA_LEN (le_bytes 4 (blen data)))
          ENV_OFF_RESP_LEN (le_bytes 4 (blen data))).
Proof.
  intros Hl Hd. unfold build_response, ENV_OFF_DATA_LEN, ENV_OFF_RESP_LEN in *.
  assert (fits 4 (blen data) = true) as Hf by (apply fits_spec; unfold blen in *; lia).
  rewrite set_len_ok by done. cbn [rbind].
  replace (0 + 4 <=? length (Packet.payload req ++ data))%nat with true
    by (symmetry; apply Nat.leb_le; rewrite length_app; lia).
  rewrite set_len_ok by done.
  rewrite length_splice by (rewrite length_le_bytes, length_app; lia).
  replace (25 + 4 <=? length (Packet.payload req ++ data))%nat with true
    by (symmetry; apply Nat.leb_le; rewrite length_app; lia).
  done.
Qed.

(** Without data to announce more than 32 bits can hold, a response exists. *)
Lemma build_response_total req data :
  blen data < 2 ^ 32 -> exists out, build_response req data = Ok out.
Proof.
  intros Hd. assert (fits 4 (blen data) = true) as Hf by (apply fits_spec; unfold blen in *; lia).
  unfold build_response. rewrite set_len_ok by done. cbn [rbind]. rewrite set_len_ok by done. by eexists.
Qed.

Lemma build_response_overflow req data :
  2 ^ 32 <= blen data ->
  build_response req data = Err (OverflowError ($"int too big to convert")).
Proof.
  intros Hd. unfold build_response, set_len, to_bytes_le, ENV_OFF_DATA_LEN.
  replace (0 + 4 <=? length (Packet.payload req ++ data))%nat with true
    by (symmetry; apply Nat.leb_le; rewrite length_app; unfold blen in Hd; lia).
  destruct (fits 4 (blen data)) eqn:Hf; [apply fits_spec in Hf; lia|].
  replace (blen data <? 0) with false by (symmetry; apply Z.ltb_ge; lia). done.
Qed.

(** Where the bytes of a response are, for a request long enough to hold both
    length fields. *)
Lemma build_response_layout req data :
  (ENV_OFF_RESP_LEN + 4 <= length (Packet.payload req))%nat -> blen data < 2 ^ 32 ->
  exists out, build_response req data = Ok out /\
    length out = (length (Packet.payload req) + length data)%nat /\
    from_le (slice 0 4 out) = blen data /\ from_le (slice 25 29 out) = blen data /\
    drop (length (Packet.payload req)) out = data /\
    (forall j, (j < length (Packet.payload req))%nat -> (4 <= j < 25 \/ 29 <= j)%nat ->
       out !! j = Packet.payload req !! j).
Proof.
  intros Hl Hd. pose proof (build_response_long req data Hl Hd) as Hb.
  set (p := Packet.payload req) in *. set (L := le_bytes 4 (blen data)) in *.
  assert (length L = 4)%nat as HL by apply length_le_bytes.
  assert (from_le L = blen data) as HfL.
  { unfold L. rewrite from_le_le_bytes. apply Z.mod_small. unfold blen in *. lia. }
  unfold ENV_OFF_RESP_LEN, ENV_OFF_DATA_LEN in *.
  assert (length (p ++ data) = length p + length data)%nat as Hpd by apply length_app.
  assert (length (splice (p ++ data) 0 L) = length p + length data)%nat as H0
    by (rewrite length_splice; lia).
  eexists. split; [exact Hb|]. split_and!.
  - rewrite length_splice; lia.
  - rewrite (slice_ext _ (splice (p ++ data) 0 L)).
    + pose proof (slice_splice_same (p ++ data) 0 L) as Hs. rewrite HL in Hs.
      change (0 + 4)%nat with 4%nat in Hs. rewrite Hs by lia. done.
    + intros k Hk. apply lookup_splice_out; lia.
  - pose proof (slice_splice_same (splice (p ++ data) 0 L) 25 L) as Hs. rewrite HL in Hs.
    change (25 + 4)%nat with 29%nat in Hs. rewrite Hs by lia. done.
  - rewrite !drop_splice_after by lia. apply drop_app_length.
  - intros j Hj Hr. rewrite !lookup_splice_out by lia. by apply lookup_app_l.
Qed.

(** The number of blocks a READ request asks for, if it is one. *)
Definition read_blocks (cdb : bytes) : option Z :=
  match cdb with
  | op :: _ =>
      if op =? SCSI_READ10 then Some (from_be (slice 7 9 cdb))
      else if op =? SCSI_READ12 then Some (from_be (slice 6 10 cdb)) else None
  | [] => None
  end.

Lemma disc_reply_read m req blocks :
  read_blocks (Packet.cdb req) = Some blocks ->
  fst (disc_reply m req)
  = let* b := build_response req (disc_read m (from_be (slice 2 6 (Packet.cdb req))) blocks) in Ok (Some b).
Proof.
  rewrite build_response_ok. unfold read_blocks, disc_reply, disc_data.
  destruct (Packet.cdb req) as [|op cdb]; [done|].
  destruct (op =? SCSI_READ10) eqn:E1.
  { intros [= <-]. apply Z.eqb_eq in E1 as ->. done. }
  destruct (op =? SCSI_READ12) eqn:E2; [|done].
  intros [= <-]. apply Z.eqb_eq in E2 as ->. done.
Qed.

Lemma read_blocks_nonneg cdb blocks : wf_bytes cdb -> read_blocks cdb = Some blocks -> 0 <= blocks.
Proof.
  intros Hwf. unfold read_blocks. destruct cdb as [|op c]; [done|].
  destruct (op =? SCSI_READ10); [|destruct (op =? SCSI_READ12); [|done]];
    intros [= <-]; apply from_be_bound; by apply wf_slice.
Qed.

Lemma blen_disc_read m lba blocks : 0 <= blocks -> blen (disc_read m lba blocks) = blocks * CD_BLOCK_SIZE.
Proof. intros. unfold blen. rewrite length_disc_read. unfold CD_BLOCK_SIZE. lia. Qed.

(** A device over the cached file never waits. *)
Lemma handle_nb_cached req : never_blocks (handle (R := Cache FileReader) req).
Proof.
  assert (forall lba blocks, never_blocks (device_read (R := Cache FileReader) lba blocks)) as Hr.
  { intros lba blocks. apply nb_bind; [|intros d; apply nb_bind; auto with ikvm].
    intros d. unfold on_reader. pose proof (Cache_nb (blocks * CD_BLOCK_SIZE) (lba * CD_BLOCK_SIZE) (d_r d)) as Hc.
    cbn [read_at Cache_Reader]. by destruct (Cache_read_at _ _ (d_r d)). }
  intros d. unfold handle. destruct (Packet.cdb req) as [|op cdb]; [done|].
  repeat match goal with |- context [if ?b then _ else _] => destruct b end;
    first [apply nb_lift | (apply nb_bind; [first [apply nb_lift | apply Hr]|intros ?; apply nb_lift])].
Qed.

(** ** Properties *)

Section DeviceProperties.
Context {R : Type} `{Reader R} {serves : R -> bytes -> Prop} `{!ReaderOk R serves}.
Implicit Types (d : CDROMDevice R) (m : bytes).

(** C11: the device implements the disc.  Over any reader that serves the
    medium [m], every request, of any opcode and any length, is answered as
    the specification [disc_reply] says (same reply, same silence or same
    exception), the byte and block counters advance by what was read, and
    the device still plays the same medium afterwards.  The specification
    gives the bytes of each answer (capacity, table of contents cut to the
    allocation length, blocks padded with zeros) and of the envelope around
    them directly from the medium and the request. *)
Theorem device_refines_disc d m req :
  plays (serves := serves) d m -> wf_bytes (Packet.payload req) ->
  exists d', handle req d = (outcome_of (fst (disc_reply m req)), d') /\
    plays (serves := serves) d' m /\
    bytes_served d' = bytes_served d + fst (snd (disc_reply m req)) /\
    blocks_served d' = blocks_served d + snd (snd (disc_reply m req)).
Proof. apply handle_ok. Qed.

(** What a block read returns, byte by byte.  A READ(10) or READ(12) of
    fewer than 2^21 blocks in an envelope of at least 29 bytes gets the
    request envelope back, with the data length in both length fields,
    followed by exactly [blocks * 2048] bytes: byte [i] is byte
    [lba * 2048 + i] of the image, or zero past its end. *)
Theorem read_reply_exact d m req blocks :
  plays (serves := serves) d m -> wf_bytes (Packet.payload req) ->
  (29 <= length (Packet.payload req))%nat ->
  read_blocks (Packet.cdb req) = Some blocks -> blocks < 2 ^ 21 ->
  let lba := from_be (slice 2 6 (Packet.cdb req)) in
  exists out d', handle req d = (Ret (Some out), d') /\
    blen out = blen (Packet.payload req) + blocks * CD_BLOCK_SIZE /\
    from_le (slice 0 4 out) = blocks * CD_BLOCK_SIZE /\
    from_le (slice 25 29 out) = blocks * CD_BLOCK_SIZE /\
    (forall i, (i < Z.to_nat (blocks * CD_BLOCK_SIZE))%nat ->
       out !! (length (Packet.payload req) + i)%nat = Some (nth (Z.to_nat (lba * CD_BLOCK_SIZE) + i) m 0)) /\
    (forall j, (j < length (Packet.payload req))%nat -> (4 <= j < 25 \/ 29 <= j)%nat ->
       out !! j = Packet.payload req !! j).
Proof.
  intros Hp Hwf Hlen Hb Hlt lba.
  pose proof (read_blocks_nonneg _ _ (wf_cdb req Hwf) Hb) as Hnn.
  destruct (build_response_layout req (disc_read m lba blocks)) as (out & Ho & Hl & H0 & H25 & Hd & Hj);
    [done|rewrite blen_disc_read by done; unfold CD_BLOCK_SIZE; lia|].
  rewrite blen_disc_read in H0, H25 by done.
  destruct (handle_ok d m req Hp Hwf) as (d' & Hh & _).
  rewrite (disc_reply_read m req blocks Hb) in Hh. fold lba in Hh. rewrite Ho in Hh.
  exists out, d'. split; [exact Hh|]. rewrite length_disc_read in Hl.
  split_and!; try done.
  - unfold blen. rewrite Hl. unfold CD_BLOCK_SIZE. lia.
  - intros i Hi. rewrite <- lookup_drop, Hd. by apply disc_read_lookup.
Qed.

(** When a block read is answered.  A READ request is answered exactly
    when it asks for fewer than 2^21 blocks; a larger READ(12) raises an
    unclassified [OverflowError] because the length no longer fits the
    32-bit envelope field; a READ(10), whose count has 16 bits, is always
    answered. *)
Theorem read_overflow_threshold d m req blocks :
  plays (serves := serves) d m -> wf_bytes (Packet.payload req) ->
  read_blocks (Packet.cdb req) = Some blocks ->
  (blocks < 2 ^ 21 -> exists out d', handle req d = (Ret (Some out), d')) /\
  (2 ^ 21 <= blocks -> exists d',
     handle req d = (Raise (OverflowError ($"int too big to convert")), d')) /\
  (nth_error (Packet.cdb req) 0 = Some SCSI_READ10 -> blocks < 2 ^ 16).
Proof.
  intros Hp Hwf Hb. pose proof (wf_cdb req Hwf) as Hc.
  pose proof (read_blocks_nonneg _ _ Hc Hb) as Hnn.
  destruct (handle_ok d m req Hp Hwf) as (d' & Hh & _).
  rewrite (disc_reply_read m req blocks Hb) in Hh. split_and!.
  - intros Hlt. destruct (build_response_total req (disc_read m (from_be (slice 2 6 (Packet.cdb req))) blocks)) as [out Ho].
    { rewrite blen_disc_read by done. unfold CD_BLOCK_SIZE. lia. }
    rewrite Ho in Hh. by exists out, d'.
  - intros Hge. rewrite build_response_overflow in Hh; [by exists d'|].
    rewrite blen_disc_read by done. unfold CD_BLOCK_SIZE. lia.
  - destruct (Packet.cdb req) as [|op c] eqn:Hop; [done|]. cbn [nth_error]. intros [= ->].
    cbn [read_blocks] in Hb. injection Hb as <-.
    assert (wf_bytes (slice 7 9 (SCSI_READ10 :: c))) as Hs by (by apply wf_slice).
    pose proof (from_be_bound _ Hs) as Hbd.
    assert (blen (slice 7 9 (SCSI_READ10 :: c)) <= 2) as Hl2
      by (unfold blen, slice; rewrite length_take; lia).
    pose proof (Z.pow_le_mono_r 256 _ _ ltac:(lia) Hl2). lia.
Qed.

End DeviceProperties.

(** C2: the window cache is invisible to the guest.  An image file behind a
    [CDROMDevice] with a [Cache] of any window size and capacity in between
    answers every sequence of frames (malformed ones included) as the device
    reading the file directly does, and as the disc specification says. *)
Theorem cached_device_equiv (f : FileReader) (m : bytes) w ws mx (frames : list bytes) (dt : Z) :
  file_serves f m -> 0 < ws -> 0 <= mx -> Forall wf_bytes frames ->
  fst (process_all frames dt (CDROMDevice_init (Cache_init f w ws mx)))
  = fst (process_all frames dt (CDROMDevice_init f)) /\
  fst (process_all frames dt (CDROMDevice_init f))
  = map (fun frame => outcome_of (disc_frame m dt frame)) frames.
Proof.
  intros Hf Hws Hmx Hfr.
  assert (cache_serves (serves := file_serves) (Cache_init f w ws mx) m) as Hc by (by apply Cache_init_serves).
  destruct (process_all_ok frames dt m _ (CDROMDevice_init_plays (serves := file_serves) f m Hf) Hfr) as (d1 & H1 & _).
  destruct (process_all_ok frames dt m _
              (CDROMDevice_init_plays (serves := cache_serves (serves := file_serves)) _ m Hc) Hfr) as (d2 & H2 & _).
  rewrite H1, H2. done.
Qed.

(** A short envelope corrupts the data.  The guard of the second length
    field looks at the response, not at the envelope: for a READ of one block
    in an envelope of 28 bytes the field at offset 25 covers the first data
    byte, so the guest receives a wrong byte (0 for 7). *)
Theorem short_envelope_overwrites_data :
  exists (m : bytes) (req : Packet.t) (out : bytes),
    length (Packet.payload req) = 28%nat /\
    read_blocks (Packet.cdb req) = Some 1 /\
    disc_read m 0 1 !! 0%nat = Some 7 /\
    build_response req (disc_read m 0 1) = Ok out /\
    out !! 28%nat = Some 0.
Proof.
  exists [7],
    {| Packet.header := Header.default;
       Packet.payload := zeros 9 ++ [SCSI_READ10; 0; 0; 0; 0; 0; 0; 0; 1; 0] ++ zeros 9 |}.
  eexists. split_and!; [by vm_compute..|vm_compute; reflexivity|by vm_compute].
Qed.

(** *** Witnesses: one block of sevens and a partial block behind a file *)

Definition sample_image : bytes := replicate 2050 7.
Definition sample_image_file : FileReader :=
  {| f_content := sample_image; f_size := 2050; f_pos := 0; f_closed := false |}.
Definition sample_device : CDROMDevice FileReader := CDROMDevice_init sample_image_file.
(** A request of 30 bytes that carries the given command block. *)
Definition sample_request (cdb : bytes) : Packet.t :=
  {| Packet.header := Header.default; Packet.payload := zeros 9 ++ cdb ++ zeros (21 - length cdb) |}.
Definition sample_read10 : Packet.t := sample_request [SCSI_READ10; 0; 0; 0; 0; 1; 0; 0; 1; 0].
Definition sample_read12 : Packet.t := sample_request [SCSI_READ12; 0; 0; 0; 0; 0; 0; 32; 0; 0].
Definition sample_toc : Packet.t := sample_request [SCSI_READ_TOC; 0; 0; 0; 0; 0; 0; 0; 12; 0].

Lemma sample_image_serves : file_serves sample_image_file sample_image.
Proof. split_and!; vm_compute; reflexivity. Qed.

Lemma sample_device_plays : plays (serves := file_serves) sample_device sample_image.
Proof. apply CDROMDevice_init_plays. split_and!; vm_compute; reflexivity. Qed.

Lemma device_refines_disc_witness :
  exists d', handle sample_read10 sample_device
    = (outcome_of (fst (disc_reply sample_image sample_read10)), d') /\
    bytes_served d' = 2 /\ blocks_served d' = 1.
Proof.
  destruct (device_refines_disc (serves := file_serves) sample_device sample_image sample_read10
              sample_device_plays ltac:(by apply wf_bytesb)) as (d' & H1 & _ & H2 & H3).
  exists d'. split; [exact H1|]. rewrite H2, H3. split; vm_compute; reflexivity.
Defined.

Lemma read_reply_exact_witness :
  exists out d', handle sample_read10 sample_device = (Ret (Some out), d') /\
    from_le (slice 25 29 out) = 2048 /\ out !! 31%nat = Some 7 /\ out !! 32%nat = Some 0.
Proof.
  destruct (read_reply_exact (serves := file_serves) sample_device sample_image sample_read10 1
              sample_device_plays ltac:(by apply wf_bytesb) ltac:(vm_compute; lia)
              eq_refl ltac:(lia)) as (out & d' & H1 & _ & _ & H2 & H3 & _).
  exists out, d'. split; [exact H1|]. split; [exact H2|].
  split; [exact (H3 1%nat ltac:(vm_compute; lia))|exact (H3 2%nat ltac:(vm_compute; lia))].
Defined.

Lemma read_overflow_threshold_witness :
  exists d', handle sample_read12 sample_device
    = (Raise (OverflowError ($"int too big to convert")), d').
Proof.
  apply (read_overflow_threshold (serves := file_serves) sample_device sample_image sample_read12 (2 ^ 21)
           sample_device_plays ltac:(by apply wf_bytesb) eq_refl).
  lia.
Defined.

Lemma cached_device_equiv_witness :
  let frame := build_response_frame Header.default (Packet.payload sample_read10) DEVICE_CDROM in
  fst (process_all [frame; [1; 2]; frame] DEVICE_CDROM (CDROMDevice_init (Cache_init sample_image_file None 1000 1)))
  = fst (process_all [frame; [1; 2]; frame] DEVICE_CDROM (CDROMDevice_init sample_image_file)).
Proof.
  apply (cached_device_equiv sample_image_file sample_image None 1000 1 _ DEVICE_CDROM
           sample_image_serves ltac:(lia) ltac:(lia)).
  repeat (apply List.Forall_cons; [by apply wf_bytesb|]). apply List.Forall_nil.
Defined.
