(* ===== verification/Transport.v ===== *)
(** * Sockets, and the exact reads of [iusb.SocketTransport] and [ivtp.SocketTransport]

    A connected socket is the script of what its peer and the network will do
    ([rx]), the outcome of the sends to come ([send]) and what was sent so far
    ([tx]).  Bytes arrive in arbitrary chunks; a [Timeout] is a poll that
    elapses with nothing to read; [Eof] is the end of the stream, which every
    later read sees again.  A read that finds the script exhausted waits for
    ever ([Blocked]).

    Two scripts are [rx_equiv] when they deliver the same bytes with the same
    interruptions between the same bytes, in whatever chunks: [recv_exact] is
    proved to respect that equivalence, and everything built on it is stated
    up to it. *)
From Stdlib Require Import ZArith Lia Ascii String.
From stdpp Require Import prelude.
From S2P Require Import Prelude PyBytes PyText Regex Errors.

Inductive rx_event : Type :=
  | Arrive (b : bytes)
  | Timeout
  | OsErr (msg : text)
  | Eof.

Record sock : Type := mkSock {
  rx : list rx_event;
  send : list (option text);      (* outcome of each send; [None] is success *)
  tx : list bytes;                (* what was sent, in order *)
  poll : option Z;                (* the timeout set, in milliseconds *)
  closed : bool;
}.

Definition set_rx (s : sock) (r : list rx_event) : sock := mkSock r (send s) (tx s) (poll s) (closed s).

(** [sock.settimeout], [sock.close] *)
Definition set_timeout (t : option Z) (s : sock) : sock := mkSock (rx s) (send s) (tx s) t (closed s).
Definition close (s : sock) : sock := mkSock (rx s) (send s) (tx s) (poll s) true.

Definition EBADF : text := $"[Errno 9] Bad file descriptor".

(** What one [sock.recv(k)], [k > 0], does. *)
Inductive recv_result : Type :=
  | Chunk (b : bytes)
  | TimedOut
  | Failed (msg : text)
  | NoEvent.

Fixpoint recv_rx (k : nat) (r : list rx_event) : recv_result * list rx_event :=
  match r with
  | [] => (NoEvent, [])
  | Arrive [] :: r => recv_rx k r
  | Arrive b :: r => (Chunk (take k b), if (length b <=? k)%nat then r else Arrive (drop k b) :: r)
  | Timeout :: r => (TimedOut, r)
  | OsErr m :: r => (Failed m, r)
  | Eof :: r => (Chunk [], Eof :: r)
  end.

Definition recv (k : nat) (s : sock) : recv_result * sock :=
  if closed s then (Failed EBADF, s)
  else let '(x, r) := recv_rx k (rx s) in (x, set_rx s r).

(** [sock.sendall] *)
Definition sendall (data : bytes) (s : sock) : option text * sock :=
  if closed s then (Some EBADF, s)
  else
    match send s with
    | Some e :: q => (Some e, mkSock (rx s) q (tx s) (poll s) false)
    | None :: q => (None, mkSock (rx s) q (tx s ++ [data]) (poll s) false)
    | [] => (None, mkSock (rx s) [] (tx s ++ [data]) (poll s) false)
    end.

(** The loop of both [recv_exact] methods; they differ in the exceptions. *)
Section RecvExact.
Variable on_timeout : nat -> nat -> exn.    (* got, wanted *)
Variable on_os_error : text -> exn.
Variable on_eof : exn.

Fixpoint recv_loop (fuel : nat) (n : nat) (chunks : bytes) : io sock exn bytes := fun s =>
  if negb (length chunks <? n)%nat then (Ret chunks, s)
  else
    match fuel with
    | O => (Blocked, s)
    | S fuel =>
        match recv (n - length chunks) s with
        | (TimedOut, s) => (Raise (on_timeout (length chunks) n), s)
        | (Failed m, s) => (Raise (on_os_error m), s)
        | (NoEvent, s) => (Blocked, s)
        | (Chunk [], s) => (Raise on_eof, s)
        | (Chunk c, s) => recv_loop fuel n (chunks ++ c) s
        end
    end.

Definition recv_exact (n : nat) : io sock exn bytes :=
  if (n =? 0)%nat then io_ret [] else recv_loop n n [].
End RecvExact.

(** ** [iusb.SocketTransport] *)

Definition iusb_on_timeout (got n : nat) : exn :=
  if (got =? 0)%nat then IdleTimeout
  else Ikvm (ConnectionError_
         ($"iusb: connection stalled mid-frame after " ++ dec (Z.of_nat got) ++ $" of "
          ++ dec (Z.of_nat n) ++ $" bytes") None ($"iusb.read_packet")).
Definition iusb_on_os_error (e : text) : exn :=
  Ikvm (ConnectionError_ ($"iusb: socket error while reading: " ++ e) None ($"iusb.read_packet")).
Definition iusb_on_eof : exn := EOFError ($"iusb: connection closed while reading").

Definition iusb_recv_exact : nat -> io sock exn bytes :=
  recv_exact iusb_on_timeout iusb_on_os_error iusb_on_eof.

Definition iusb_send_all (data : bytes) : io sock exn unit := fun s =>
  match sendall data s with
  | (None, s) => (Ret tt, s)
  | (Some e, s) =>
      (Raise (Ikvm (ConnectionError_ ($"iusb: socket error while writing: " ++ e) None ($"iusb.write_frame"))), s)
  end.

(** ** [ivtp.SocketTransport] *)

Definition ivtp_on_timeout (got n : nat) : exn :=
  Ikvm (TimeoutError_
    ($"ivtp: timed out waiting for " ++ dec (Z.of_nat n - Z.of_nat got) ++ $" more byte(s) (got "
     ++ dec (Z.of_nat got) ++ $" of " ++ dec (Z.of_nat n) ++ $")")
    None ($"ivtp.read_packet") (negb (got =? 0)%nat)).
Definition ivtp_on_os_error (e : text) : exn :=
  Ikvm (ConnectionError_ ($"ivtp: socket error while reading: " ++ e) None ($"ivtp.read_packet")).
Definition ivtp_on_eof : exn := EOFError ($"ivtp: connection closed while reading").

Definition ivtp_recv_exact : nat -> io sock exn bytes :=
  recv_exact ivtp_on_timeout ivtp_on_os_error ivtp_on_eof.

Definition ivtp_send_all (data : bytes) : io sock exn unit := fun s =>
  match sendall data s with
  | (None, s) => (Ret tt, s)
  | (Some e, s) =>
      (Raise (Ikvm (ConnectionError_ ($"ivtp: socket error while writing: " ++ e) None ($"ivtp.write_packet"))), s)
  end.

(** Dialling: the outcome of [socket.create_connection] is the network's. *)
Inductive dial : Type :=
  | Connected (s : sock)
  | DialTimeout
  | DialError (msg : text).

Definition host_port (host : text) (port : Z) : text := host ++ $":" ++ dec port.

Definition iusb_connect (net : text -> Z -> dial) (host : text) (port : Z) : result exn sock :=
  match net host port with
  | Connected s => Ok s
  | DialTimeout =>
      raise_ikvm (ConnectionError_ ($"iusb: timed out connecting to " ++ host_port host port)
        (Some (host_port host port)) ($"iusb.connect"))
  | DialError e =>
      raise_ikvm (ConnectionError_ ($"iusb: could not connect to " ++ host_port host port ++ $": " ++ e)
        (Some (host_port host port)) ($"iusb.connect"))
  end.

(** [ivtp.SocketTransport.connect]: the TLS handshake too is the network's.
    With the result, the raw socket when the handshake on it failed: it is
    closed before the error is raised. *)
Inductive handshake : Type :=
  | Wrapped (s : sock)
  | SslError (msg : text)
  | WrapOsError (msg : text).

Definition ivtp_connect (net : text -> Z -> dial) (wrap : option (sock -> handshake))
    (host : text) (port : Z) : result exn sock * option sock :=
  match net host port with
  | DialTimeout =>
      (raise_ikvm (ConnectionError_ ($"ivtp: timed out connecting to " ++ host_port host port)
         (Some (host_port host port)) ($"ivtp.connect")), None)
  | DialError e =>
      (raise_ikvm (ConnectionError_ ($"ivtp: could not connect to " ++ host_port host port ++ $": " ++ e)
         (Some (host_port host port)) ($"ivtp.connect")), None)
  | Connected raw =>
      match wrap with
      | None => (Ok raw, None)
      | Some wrap_socket =>
          match wrap_socket raw with
          | Wrapped s => (Ok s, None)
          | SslError e =>
              (raise_ikvm (TlsValidationError
                 ($"ivtp: TLS handshake with " ++ host_port host port ++ $" failed: " ++ e)
                 (Some (host_port host port)) ($"ivtp.connect")), Some (close raw))
          | WrapOsError e =>
              (raise_ikvm (ConnectionError_
                 ($"ivtp: could not establish TLS with " ++ host_port host port ++ $": " ++ e)
                 (Some (host_port host port)) ($"ivtp.connect")), Some (close raw))
          end
      end
  end.

(** ** Scripts up to chunking *)

Inductive atom : Type :=
  | AByte (b : Z)
  | ATimeout
  | AErr (msg : text)
  | AEof.

Definition event_atoms (e : rx_event) : list atom :=
  match e with
  | Arrive b => map AByte b
  | Timeout => [ATimeout]
  | OsErr m => [AErr m]
  | Eof => [AEof]
  end.
Definition atoms (r : list rx_event) : list atom := concat (map event_atoms r).

Definition rx_equiv (a b : list rx_event) : Prop := atoms a = atoms b.
#[export] Instance rx_equiv_equivalence : Equivalence rx_equiv.
Proof. split; unfold rx_equiv; congruence. Qed.

(** Sockets that differ only in how the bytes to come are chunked. *)
Definition sock_equiv (s s' : sock) : Prop :=
  rx_equiv (rx s) (rx s') /\ send s = send s' /\ tx s = tx s' /\ poll s = poll s' /\ closed s = closed s'.
#[export] Instance sock_equiv_equivalence : Equivalence sock_equiv.
Proof.
  split; unfold sock_equiv, rx_equiv.
  - intros s. split_and!; done.
  - intros s s' (?&?&?&?&?). split_and!; congruence.
  - intros s1 s2 s3 (?&?&?&?&?) (?&?&?&?&?). split_and!; congruence.
Qed.

(** Computations that cannot tell equivalent sockets apart. *)
Definition io_equiv {A} (p q : outcome exn A * sock) : Prop := p.1 = q.1 /\ sock_equiv p.2 q.2.

(** What an exact read does to the atoms of a script. *)
Section Pull.
Variable on_timeout : nat -> nat -> exn.
Variable on_os_error : text -> exn.
Variable on_eof : exn.

Fixpoint pull (total : nat) (need : nat) (got : bytes) (a : list atom) : outcome exn bytes * list atom :=
  match need with
  | O => (Ret got, a)
  | S need =>
      match a with
      | [] => (Blocked, [])
      | AByte b :: a => pull total need (got ++ [b]) a
      | ATimeout :: a => (Raise (on_timeout (length got) total), a)
      | AErr m :: a => (Raise (on_os_error m), a)
      | AEof :: a => (Raise on_eof, AEof :: a)
      end
  end.
End Pull.

(** ** Lemmas *)

Lemma atoms_app a b : atoms (a ++ b) = atoms a ++ atoms b.
Proof. unfold atoms. by rewrite map_app, concat_app. Qed.

Section RecvProofs.
Context (on_timeout : nat -> nat -> exn) (on_os_error : text -> exn) (on_eof : exn).
Local Abbreviation loop := (recv_loop on_timeout on_os_error on_eof).
Local Abbreviation pull := (pull on_timeout on_os_error on_eof).

Lemma pull_bytes total need got c a :
  (length c <= need)%nat ->
  pull total need got (map AByte c ++ a) = pull total (need - length c) (got ++ c) a.
Proof.
  revert need got. induction c as [|b c IH]; intros need got Hl; cbn.
  - by rewrite Nat.sub_0_r, app_nil_r.
  - destruct need as [|need]; [cbn in Hl; lia|]. cbn in Hl |- *.
    rewrite IH by lia. by rewrite <- app_assoc.
Qed.

(** One [recv] against the atoms: it returns a prefix of the bytes to come. *)
Lemma recv_rx_spec k r :
  (0 < k)%nat ->
  match recv_rx k r with
  | (Chunk (b :: c), r') => atoms r = map AByte (b :: c) ++ atoms r' /\ (length (b :: c) <= k)%nat
  | (Chunk [], r') => atoms r' = atoms r /\ exists a, atoms r = AEof :: a
  | (TimedOut, r') => atoms r = ATimeout :: atoms r'
  | (Failed m, r') => atoms r = AErr m :: atoms r'
  | (NoEvent, r') => atoms r = [] /\ r' = []
  end.
Proof.
  intros Hk. induction r as [|e r IH]; [done|].
  destruct e as [[|b c]| | |]; [exact IH| |done|done|].
  - cbn [recv_rx]. destruct k as [|k]; [lia|]. cbn [take].
    split; [|cbn; rewrite length_take; lia].
    destruct (length (b :: c) <=? S k)%nat eqn:E; bool_to_prop.
    + cbn in E. rewrite take_ge by lia. done.
    + unfold atoms. cbn. f_equal. rewrite <- (take_drop k c) at 1.
      by rewrite map_app, <- app_assoc.
  - cbn. split; [done|]. by eexists.
Qed.

(** The exact read is the pull, whatever the chunks. *)
Lemma recv_loop_pull fuel n chunks s :
  closed s = false -> (length chunks <= n)%nat -> (n - length chunks <= fuel)%nat ->
  exists r', loop fuel n chunks s = ((pull n (n - length chunks) chunks (atoms (rx s))).1, set_rx s r')
    /\ atoms r' = (pull n (n - length chunks) chunks (atoms (rx s))).2.
Proof.
  revert chunks s. induction fuel as [|fuel IH]; intros chunks s Hc Hl Hf; cbn [recv_loop].
  { replace (length chunks <? n)%nat with false by (symmetry; apply Nat.ltb_ge; lia).
    replace (n - length chunks)%nat with O by lia. exists (rx s). by destruct s. }
  destruct (length chunks <? n)%nat eqn:E; bool_to_prop; cbn [negb].
  2: { replace (n - length chunks)%nat with O by lia. exists (rx s). by destruct s. }
  destruct (n - length chunks)%nat as [|need] eqn:Hneed; [lia|].
  unfold recv. rewrite Hc.
  pose proof (recv_rx_spec (S need) (rx s) ltac:(lia)) as Hr.
  destruct (recv_rx (S need) (rx s)) as [[[|b c]| |m|] r'].
  - destruct Hr as [Hr [a Ha]]. exists r'. rewrite Hr, Ha. done.
  - destruct Hr as [Hr Hlen]. rewrite Hr.
    destruct (IH (chunks ++ b :: c) (set_rx s r')) as (r'' & H1 & H2);
      [done|rewrite length_app; cbn [length] in *; lia..|].
    exists r''. rewrite H1. cbn [set_rx rx] in H2 |- *.
    rewrite pull_bytes by done. rewrite length_app in *.
    replace (S need - length (b :: c))%nat with (n - (length chunks + length (b :: c)))%nat by lia.
    done.
  - rewrite Hr. by exists r'.
  - rewrite Hr. by exists r'.
  - destruct Hr as [Hr ->]. rewrite Hr. by exists [].
Qed.

Lemma recv_exact_pull n s :
  closed s = false ->
  exists r', recv_exact on_timeout on_os_error on_eof n s
      = ((pull n n [] (atoms (rx s))).1, set_rx s r')
    /\ atoms r' = (pull n n [] (atoms (rx s))).2.
Proof.
  intros Hc. unfold recv_exact. destruct (n =? 0)%nat eqn:E; bool_to_prop.
  { subst n. exists (rx s). by destruct s. }
  destruct (recv_loop_pull n n [] s Hc) as (r' & H1 & H2); [cbn; lia..|].
  cbn in H1, H2. rewrite Nat.sub_0_r in *. by exists r'.
Qed.

(** Reading does not see the chunks. *)
#[global] Instance recv_exact_proper n :
  Proper (sock_equiv ==> io_equiv) (recv_exact on_timeout on_os_error on_eof n).
Proof.
  intros s s' Heq. destruct Heq as (Hrx & Hs & Ht & Hp & Hc) eqn:E0. clear E0.
  destruct (closed s) eqn:Hcl.
  - assert (forall k, recv k s = (Failed EBADF, s)) as H1 by (intros; unfold recv; by rewrite Hcl).
    assert (forall k, recv k s' = (Failed EBADF, s')) as H2 by (intros; unfold recv; by rewrite <- Hc).
    destruct n as [|n]; unfold recv_exact; cbn [Nat.eqb recv_loop]; rewrite ?H1, ?H2; by split.
  - destruct (recv_exact_pull n s Hcl) as (r1 & H1 & H1'), (recv_exact_pull n s') as (r2 & H2 & H2');
      [congruence|]. rewrite H1, H2.
    unfold rx_equiv in Hrx. rewrite Hrx in *.
    split; [done|]. split_and!; cbn; unfold rx_equiv; congruence.
Qed.

(** Enough bytes before any interruption: exactly they are returned. *)
Lemma pull_exact n bs a :
  length bs = n -> pull n n [] (map AByte bs ++ a) = (Ret bs, a).
Proof.
  intros Hl. rewrite pull_bytes by lia. replace (n - length bs)%nat with O by lia. done.
Qed.

(** Every byte goes to the caller or stays in the script. *)
Lemma pull_consumed total need got a :
  (length (pull total need got a).2 <= length a)%nat /\
  (forall bs, (pull total need got a).1 = Ret bs ->
     exists c, bs = got ++ c /\ length c = need /\ a = map AByte c ++ (pull total need got a).2) /\
  (forall e, (pull total need got a).1 = Raise e ->
     (length (pull total need got a).2 < length a)%nat \/ e = on_eof).
Proof.
  revert got a. induction need as [|need IH]; intros got a; cbn.
  { split_and!; [done| |done]. intros bs [= <-]. exists []. by rewrite app_nil_r. }
  destruct a as [|[b| |m|] a]; cbn.
  - done.
  - destruct (IH (got ++ [b]) a) as (H1 & H2 & H3). split_and!; [lia| |].
    + intros bs Hbs. destruct (H2 bs Hbs) as (c & -> & Hc & Ha). exists (b :: c).
      rewrite <- app_assoc. split_and!; [done|cbn; lia|cbn; congruence].
    + intros e He. destruct (H3 e He) as [?|?]; [left; lia|by right].
  - split_and!; [lia|done|]. intros e _. left. lia.
  - split_and!; [lia|done|]. intros e _. left. lia.
  - split_and!; [lia|done|]. intros e [= <-]. by right.
Qed.
End RecvProofs.

(** A stream that ends never leaves a reader waiting, and still ends. *)
Lemma pull_eof on_timeout on_os_error on_eof total need got a :
  AEof ∈ a ->
  (pull on_timeout on_os_error on_eof total need got a).1 <> Blocked /\
  AEof ∈ (pull on_timeout on_os_error on_eof total need got a).2.
Proof.
  revert got a. induction need as [|need IH]; intros got a Ha; cbn; [done|].
  destruct a as [|[b| |m|] a]; cbn; [by apply not_elem_of_nil in Ha|..].
  - apply IH. by apply elem_of_cons in Ha as [?|?].
  - by apply elem_of_cons in Ha as [?|?].
  - by apply elem_of_cons in Ha as [?|?].
  - split; [done|]. by left.
Qed.
