(* ===== verification/IusbSession.v ===== *)
(** * iusb.py: reading and writing frames, and the [Session] that serves them

    The connection is a socket and the optional frame recorder.  The serve
    loop is generic in its handler and callbacks, which act on a state [U] of
    their own: a device here, the whole daemon in [MediaSession].  The fuel of
    the loop is the number of atoms left in the script plus one: every
    iteration that continues has consumed at least one of them, so the fuel is
    never what stops it ([serve_loop_fuel]). *)
From Stdlib Require Import ZArith Lia Ascii String.
From stdpp Require Import prelude.
From S2P Require Import Prelude PyBytes PyText Regex Errors IusbFrame Transport.

(** ** [FrameEvent], [FrameRecorder] *)

Inductive direction : Type := Tx | Rx.
Record FrameEvent : Type := { ev_direction : direction; ev_data : bytes }.

Definition to_hex_lines (events : list FrameEvent) : list text :=
  map (fun e => (match ev_direction e with Tx => $"tx " | Rx => $"rx " end) ++ hex_of_bytes (ev_data e)) events.

Record conn : Type := mkConn {
  c_sock : sock;
  c_rec : option (list FrameEvent);     (* the events recorded, when there is a hook *)
}.

Definition on_sock {A} (f : io sock exn A) : io conn exn A := fun c =>
  let '(o, s) := f (c_sock c) in (o, mkConn s (c_rec c)).
(** [if frame_hook is not None: frame_hook(dir, data)] *)
Definition frame_hook (d : direction) (data : bytes) : io conn exn unit :=
  io_modify (fun c =>
    mkConn (c_sock c) (option_map (fun l => l ++ [{| ev_direction := d; ev_data := data |}]) (c_rec c))).

(** ** [read_packet], [write_frame] *)

Definition read_packet : io conn exn Packet.t :=
  do hdr_bytes <- on_sock (iusb_recv_exact HEADER_LEN);
  do header <- io_lift (Header.parse hdr_bytes);
  if MAX_PACKET_PAYLOAD <? Header.data_packet_len header then
    io_raise (Ikvm (ProtocolError
      ($"iusb: implausible payload length " ++ dec (Header.data_packet_len header)) None ($"iusb.read_packet")))
  else
    do payload <- (if Header.data_packet_len header =? 0 then io_ret []
                   else on_sock (iusb_recv_exact (Z.to_nat (Header.data_packet_len header))));
    run frame_hook Rx (hdr_bytes ++ payload);
    io_ret {| Packet.header := header; Packet.payload := payload |}.

Definition write_frame (frame : bytes) : io conn exn unit :=
  run on_sock (iusb_send_all frame);
  frame_hook Tx frame.

(** ** [class Session] *)

Record Session : Type := {
  s_device_type : Z;
  s_instance : Z;
}.

Definition authenticate (device_type instance : Z) (token : text) (endpoint : option text) : io conn exn Session :=
  do auth_pkt <- io_lift (build_auth device_type instance token false);
  run write_frame auth_pkt;
  do ack <- io_try read_packet (fun e =>
    match e with
    | IdleTimeout =>
        io_raise (Ikvm (ConnectionError_ ($"iusb: no response to the authentication packet")
                          endpoint ($"iusb.authenticate")))
    | e => io_raise e
    end);
  run io_lift (interpret_ack ack endpoint);
  io_ret {| s_device_type := device_type; s_instance := instance |}.

(** [Session.connect]: the outcome, and the socket that was opened, if it came
    to that, as the call leaves it.  After a failed handshake nothing holds
    that socket any more, and nothing has closed it. *)
Definition Session_connect (net : text -> Z -> dial) (host : text) (port : Z) (token : text)
    (device_type instance : Z) (rec : option (list FrameEvent)) : outcome exn Session * option conn :=
  match iusb_connect net host port with
  | Err e => (Raise e, None)
  | Ok s =>
      let '(o, c) := authenticate device_type instance token (Some (host_port host port)) (mkConn s rec) in (o, Some c)
  end.

Definition set_poll_timeout (seconds_ms : Z) (c : conn) : conn :=
  mkConn (set_timeout (Some seconds_ms) (c_sock c)) (c_rec c).
Definition Session_close (c : conn) : conn := mkConn (close (c_sock c)) (c_rec c).

Inductive serve_outcome : Type := SERVE_STOPPED | SERVE_PEER_CLOSED | SERVE_KILLED.

Section Serve.
Context {U : Type}.
Variable handle : Packet.t -> io U exn (option bytes).   (* handler.handle *)
Variable should_stop : io U exn bool.
Variable on_idle : io U exn unit.
Variable on_request : Packet.t -> io U exn unit.

Definition on_conn {A} (f : io conn exn A) : io (conn * U) exn A := fun p =>
  let '(o, c) := f p.1 in (o, (c, p.2)).
Definition on_user {A} (f : io U exn A) : io (conn * U) exn A := fun p =>
  let '(o, u) := f p.2 in (o, (p.1, u)).

(** What the [try] of the loop makes of [read_packet]. *)
Inductive next : Type :=
  | Request (req : Packet.t)
  | Idle
  | PeerClosed.

Definition next_packet : io conn exn next :=
  io_try (do req <- read_packet; io_ret (Request req)) (fun e =>
    match e with
    | IdleTimeout => io_ret Idle
    | EOFError _ => io_ret PeerClosed
    | e => io_raise e
    end).

(** Answer one request. *)
Definition serve_request (device_type : Z) (req : Packet.t) : io (conn * U) exn unit :=
  run on_user (on_request req);
  do payload <- on_user (handle req);
  match payload with
  | None => io_ret tt
  | Some payload => on_conn (write_frame (build_response_frame (Packet.header req) payload device_type))
  end.

Fixpoint serve_loop (fuel : nat) (device_type : Z) : io (conn * U) exn serve_outcome :=
  match fuel with
  | O => fun p => (Blocked, p)
  | S fuel =>
      do stop <- on_user should_stop;
      if stop : bool then io_ret SERVE_STOPPED
      else
        do n <- on_conn next_packet;
        match n with
        | Idle => run on_user on_idle; serve_loop fuel device_type
        | PeerClosed => io_ret SERVE_PEER_CLOSED
        | Request req =>
            if Packet.is_kill req then io_ret SERVE_KILLED
            else run serve_request device_type req; serve_loop fuel device_type
        end
  end.

Definition serve_fuel (c : conn) : nat := S (length (atoms (rx (c_sock c)))).

(** [Session.serve_forever] *)
Definition serve_forever (s : Session) : io (conn * U) exn serve_outcome := fun p =>
  serve_loop (serve_fuel p.1) (s_device_type s) p.
End Serve.

(** ** The frames of a stream: what the serve loop should do

    An item is a poll that elapses between frames, or a complete request. *)
Inductive item : Type :=
  | IdlePoll
  | Frame (h : Header.t) (payload : bytes).

Definition item_atoms (i : item) : list atom :=
  match i with
  | IdlePoll => [ATimeout]
  | Frame h payload => map AByte (Header.marshal h ++ payload)
  end.
Definition items_atoms (l : list item) : list atom := concat (map item_atoms l).

(** A frame as a peer may send it: a header that fits its fields and announces
    the payload that follows. *)
Definition item_wf (i : item) : Prop :=
  match i with
  | IdlePoll => True
  | Frame h payload =>
      Header.wf h /\ Header.data_packet_len h = blen payload /\ blen payload <= MAX_PACKET_PAYLOAD
  end.

Section ServeSpec.
Context {U : Type}.
Variable handle : Packet.t -> io U exn (option bytes).
Variable should_stop : io U exn bool.
Variable on_idle : io U exn unit.
Variable on_request : Packet.t -> io U exn unit.
Variable device_type : Z.

(** The session as a function of the items: the replies in order, and how it
    ends when the stream closes after them. *)
Fixpoint serve_items (l : list item) : io (list bytes * U) exn serve_outcome :=
  let user {A} (f : io U exn A) : io (list bytes * U) exn A := fun p =>
    let '(o, u) := f p.2 in (o, (p.1, u)) in
  do stop <- user should_stop;
  if stop : bool then io_ret SERVE_STOPPED
  else
    match l with
    | [] => io_ret SERVE_PEER_CLOSED
    | IdlePoll :: l => run user on_idle; serve_items l
    | Frame h payload :: l =>
        let req := {| Packet.header := h; Packet.payload := payload |} in
        if Packet.is_kill req then io_ret SERVE_KILLED
        else
          run user (on_request req);
          do reply <- user (handle req);
          match reply with
          | None => serve_items l
          | Some r =>
              run io_modify (fun p => (p.1 ++ [build_response_frame h r device_type], p.2));
              serve_items l
          end
    end.
End ServeSpec.

(** ** Lemmas *)

(** Connections that differ only in the chunks of the bytes to come. *)
Definition conn_equiv (c c' : conn) : Prop := sock_equiv (c_sock c) (c_sock c') /\ c_rec c = c_rec c'.
#[export] Instance conn_equiv_equivalence : Equivalence conn_equiv.
Proof.
  split; unfold conn_equiv.
  - by intros c.
  - intros c c' [? ?]. by split.
  - intros c1 c2 c3 [H1 ?] [H2 ?]. split; [by rewrite H1|congruence].
Qed.

Lemma respects_on_sock {A} (f : io sock exn A) : respects sock_equiv f -> respects conn_equiv (on_sock f).
Proof.
  intros Hf c c' [Hs Hr]. unfold on_sock. destruct (Hf _ _ Hs) as [H1 H2].
  destruct (f (c_sock c)), (f (c_sock c')). cbn in *. by subst.
Qed.

Lemma respects_recv n : respects sock_equiv (iusb_recv_exact n).
Proof. intros s s' Hs. by apply recv_exact_proper. Qed.

Lemma respects_send data : respects sock_equiv (iusb_send_all data).
Proof.
  intros s s' (H1 & H2 & H3 & H4 & H5). unfold iusb_send_all, sendall. rewrite H2, <- H5.
  destruct (closed s) eqn:Hc; [by split; [|split_and!; cbn; congruence]|].
  destruct (send s') as [|[e|] q]; cbn; by split; [|split_and!; cbn; congruence].
Qed.

Lemma respects_hook d data : respects conn_equiv (frame_hook d data).
Proof. apply respects_modify. intros c c' [Hs Hr]. split; [done|]. cbn. congruence. Qed.

#[export] Hint Resolve respects_on_sock respects_recv respects_send respects_hook : ikvm.

Lemma respects_read_packet : respects conn_equiv read_packet.
Proof.
  unfold read_packet. apply respects_bind; [eauto with ikvm|intros hdr].
  apply respects_bind; [eauto with ikvm|intros h].
  destruct (_ <? _); [eauto with ikvm|].
  apply respects_bind; [destruct (_ =? _); eauto with ikvm|eauto with ikvm].
Qed.

Lemma respects_write_frame frame : respects conn_equiv (write_frame frame).
Proof. unfold write_frame. eauto with ikvm. Qed.

Lemma respects_next_packet : respects conn_equiv next_packet.
Proof.
  unfold next_packet. apply respects_try.
  - apply respects_bind; [apply respects_read_packet|eauto with ikvm].
  - intros []; eauto with ikvm.
Qed.

Section ServeProofs.
Context {U : Type}.
Variable handle : Packet.t -> io U exn (option bytes).
Variable should_stop : io U exn bool.
Variable on_idle : io U exn unit.
Variable on_request : Packet.t -> io U exn unit.
Local Abbreviation serve := (serve_loop handle should_stop on_idle on_request).

Definition state_equiv (p p' : conn * U) : Prop := conn_equiv p.1 p'.1 /\ p.2 = p'.2.

Lemma respects_on_conn {A} (f : io conn exn A) : respects conn_equiv f -> respects state_equiv (on_conn f).
Proof.
  intros Hf [c u] [c' u'] [Hs Hr]. cbn in Hs, Hr. subst u'. unfold on_conn. cbn.
  destruct (Hf _ _ Hs) as [H1 H2]. destruct (f c), (f c'). by split.
Qed.

Lemma respects_on_user {A} (f : io U exn A) : respects state_equiv (on_user f).
Proof.
  intros [c u] [c' u'] [Hs Hr]. cbn in Hs, Hr. subst u'. unfold on_user. cbn.
  destruct (f u). by split.
Qed.

Lemma respects_serve_loop fuel dt : respects state_equiv (serve fuel dt).
Proof.
  induction fuel as [|fuel IH]; cbn; [by intros p p' H|].
  apply respects_bind; [apply respects_on_user|intros stop]. destruct stop; [eauto with ikvm|].
  apply respects_bind; [apply respects_on_conn, respects_next_packet|].
  intros [req| |]; [|apply respects_bind; [apply respects_on_user|done]|eauto with ikvm].
  destruct (Packet.is_kill req); [eauto with ikvm|].
  apply respects_bind; [|done]. unfold serve_request.
  apply respects_bind; [apply respects_on_user|intros _].
  apply respects_bind; [apply respects_on_user|intros [r|]; [|eauto with ikvm]].
  apply respects_on_conn, respects_write_frame.
Qed.

(** *** Exceptions *)

Lemma raises_on_conn {A} P (f : io conn exn A) : raises_only P f -> raises_only P (on_conn (U := U) f).
Proof.
  intros Hf [c u] e. unfold on_conn. cbn. pose proof (Hf c) as Hc.
  destruct (f c). apply Hc.
Qed.
Lemma raises_on_user {A} P (f : io U exn A) : raises_only P f -> raises_only P (on_user f).
Proof.
  intros Hf [c u] e. unfold on_user. cbn. pose proof (Hf u) as Hc.
  destruct (f u). apply Hc.
Qed.
End ServeProofs.

(** Errors of the collection's own taxonomy. *)
Definition classified (e : exn) : Prop := match e with Ikvm _ => True | _ => False end.
(** What a read of a frame may raise. *)
Definition wire_exn (e : exn) : Prop :=
  match e with Ikvm _ | IdleTimeout | EOFError _ => True | _ => False end.

Lemma raises_recv n : raises_only wire_exn (iusb_recv_exact n).
Proof.
  unfold iusb_recv_exact, recv_exact. destruct (n =? 0)%nat; [eauto with ikvm|].
  generalize (@nil Z) as chunks. generalize n at 1 as fuel.
  intros fuel. induction fuel as [|fuel IH]; intros chunks s e; cbn.
  { by destruct (negb _). }
  destruct (negb _); [done|]. destruct (recv _ s) as [[[|b c]| |m|] s']; cbn; try done.
  - by intros [= <-].
  - apply IH.
  - intros [= <-]. unfold iusb_on_timeout. by destruct (_ =? _)%nat.
  - by intros [= <-].
Qed.

Lemma raises_on_sock {A} P (f : io sock exn A) : raises_only P f -> raises_only P (on_sock f).
Proof.
  intros Hf c e. unfold on_sock. pose proof (Hf (c_sock c)) as Hc.
  destruct (f (c_sock c)). apply Hc.
Qed.

Lemma raises_lift_parse (P : exn -> Prop) b :
  (forall e, P (Ikvm e)) -> raises_only P (io_lift (S := conn) (Header.parse b)).
Proof.
  intros HP s e. destruct (Header.parse b) as [h|e'] eqn:Hp; cbn; [done|]. intros [= <-].
  unfold Header.parse, raise_ikvm in Hp. repeat (destruct (_ : bool) in Hp; [by injection Hp as <-|]). done.
Qed.

Lemma raises_read_packet : raises_only wire_exn read_packet.
Proof.
  unfold read_packet. apply raises_bind; [apply raises_on_sock, raises_recv|intros hdr].
  apply raises_bind; [by apply raises_lift_parse|intros h].
  destruct (_ <? _); [by apply raises_raise|].
  apply raises_bind; [|eauto with ikvm].
  destruct (_ =? _); [apply raises_ret|apply raises_on_sock, raises_recv].
Qed.

Lemma raises_write_frame P frame : (forall e, P (Ikvm e)) -> raises_only P (write_frame frame).
Proof.
  intros HP. unfold write_frame. apply raises_bind; [|unfold frame_hook; eauto with ikvm].
  apply raises_on_sock. intros s e. unfold iusb_send_all.
  destruct (sendall frame s) as [[m|] s']; [|done]. by intros [= <-].
Qed.

Lemma raises_next_packet P : (forall e, P (Ikvm e)) -> raises_only P next_packet.
Proof.
  intros HP. unfold next_packet. eapply raises_try.
  - apply raises_bind; [apply raises_read_packet|eauto with ikvm].
  - intros [] He; try done; first [apply raises_ret | by apply raises_raise].
Qed.

Lemma raises_serve_loop {U} handle should_stop on_idle on_request P fuel dt :
  (forall e, P (Ikvm e)) ->
  (forall req, raises_only P (handle req)) -> raises_only P should_stop ->
  raises_only P on_idle -> (forall req, raises_only P (on_request req)) ->
  raises_only P (serve_loop (U := U) handle should_stop on_idle on_request fuel dt).
Proof.
  intros HP Hh Hs Hi Hr. induction fuel as [|fuel IH]; cbn; [done|].
  apply raises_bind; [by apply raises_on_user|intros stop]. destruct stop; [eauto with ikvm|].
  apply raises_bind; [apply raises_on_conn; by apply raises_next_packet|].
  intros [req| |]; [|apply raises_bind; [by apply raises_on_user|done]|eauto with ikvm].
  destruct (Packet.is_kill req); [eauto with ikvm|]. apply raises_bind; [|done].
  unfold serve_request. apply raises_bind; [by apply raises_on_user|intros _].
  apply raises_bind; [by apply raises_on_user|intros [r|]; [|eauto with ikvm]].
  apply raises_on_conn. by apply raises_write_frame.
Qed.

(** *** Invariants of the callback state *)

Section ServeInvariant.
Context {U : Type} (I : U -> Prop).
Variable handle : Packet.t -> io U exn (option bytes).
Variable should_stop : io U exn bool.
Variable on_idle : io U exn unit.
Variable on_request : Packet.t -> io U exn unit.
Local Abbreviation keeps := (fun c => triple I c (fun _ => I) (fun _ => I)).
Hypothesis handle_keeps : forall req, keeps (handle req).
Hypothesis stop_keeps : keeps should_stop.
Hypothesis idle_keeps : keeps on_idle.
Hypothesis request_keeps : forall req, keeps (on_request req).

Lemma on_user_keeps {A} (f : io U exn A) :
  keeps f -> triple (fun p : conn * U => I p.2) (on_user f) (fun _ p => I p.2) (fun _ p => I p.2).
Proof. intros Hf [c u] Hu. specialize (Hf u Hu). unfold on_user. cbn. by destruct (f u) as [[] u']. Qed.

Lemma on_conn_keeps {A} (f : io conn exn A) :
  triple (fun p : conn * U => I p.2) (on_conn f) (fun _ p => I p.2) (fun _ p => I p.2).
Proof. intros [c u] Hu. unfold on_conn. cbn in *. by destruct (f c) as [[] c']. Qed.

(** What the callbacks keep, the session keeps, however it ends. *)
Lemma serve_loop_keeps fuel dt :
  triple (fun p : conn * U => I p.2) (serve_loop handle should_stop on_idle on_request fuel dt)
    (fun _ p => I p.2) (fun _ p => I p.2).
Proof.
  induction fuel as [|fuel IH]; cbn [serve_loop]; [by intros p Hp|].
  eapply triple_bind; [by apply on_user_keeps|intros stop]. cbn beta. destruct stop; [by apply triple_ret|].
  eapply triple_bind; [apply on_conn_keeps|]. intros [req| |]; cbn beta; [|eapply triple_bind; [by apply on_user_keeps|done]|by apply triple_ret].
  destruct (Packet.is_kill req); [by apply triple_ret|]. eapply triple_bind; [|intros ?; exact IH].
  unfold serve_request. eapply triple_bind; [apply on_user_keeps, request_keeps|intros ?]. cbn beta.
  eapply triple_bind; [apply on_user_keeps, handle_keeps|]. intros [r|]; cbn beta; [apply on_conn_keeps|by apply triple_ret].
Qed.
End ServeInvariant.

(** *** Reading one frame *)

Definition after_rx (c : conn) (r : list rx_event) (ev : option bytes) : conn :=
  mkConn (set_rx (c_sock c) r)
    (match ev with
     | Some b => option_map (fun l => l ++ [{| ev_direction := Rx; ev_data := b |}]) (c_rec c)
     | None => c_rec c
     end).

Definition atoms_of (c : conn) : list atom := atoms (rx (c_sock c)).

Lemma set_rx_rx s r r' : set_rx (set_rx s r) r' = set_rx s r'.
Proof. done. Qed.

(** An exact read of bytes that are all there. *)
Lemma on_sock_recv_exact n bs a c :
  closed (c_sock c) = false -> length bs = n -> atoms_of c = map AByte bs ++ a ->
  exists r, on_sock (iusb_recv_exact n) c = (Ret bs, after_rx c r None) /\ atoms r = a.
Proof.
  intros Hc Hl Ha. unfold on_sock, iusb_recv_exact.
  destruct (recv_exact_pull iusb_on_timeout iusb_on_os_error iusb_on_eof n _ Hc) as (r & H1 & H2).
  unfold atoms_of in Ha. rewrite Ha, pull_exact in H1, H2 by done. rewrite H1. by exists r.
Qed.

Lemma parse_marshal_wf h : Header.wf h -> Header.parse (Header.marshal h) = Ok h.
Proof.
  intros Hwf. pose proof (HeaderFacts.parse_marshal_app h []) as Hp.
  by rewrite app_nil_r, HeaderFacts.truncate_wf in Hp.
Qed.

Lemma read_packet_frame c h payload a :
  closed (c_sock c) = false -> item_wf (Frame h payload) ->
  atoms_of c = item_atoms (Frame h payload) ++ a ->
  exists r, read_packet c = (Ret {| Packet.header := h; Packet.payload := payload |},
                             after_rx c r (Some (Header.marshal h ++ payload))) /\ atoms r = a.
Proof.
  intros Hc (Hwf & Hlen & Hmax) Ha. cbn [item_atoms] in Ha. rewrite map_app, <- app_assoc in Ha.
  destruct (on_sock_recv_exact HEADER_LEN _ _ c Hc (HeaderFacts.length_marshal h) Ha) as (r1 & H1 & Ha1).
  unfold read_packet, io_bind. rewrite H1.
  rewrite parse_marshal_wf by done. cbn [io_lift io_ret].
  unfold io_ret. rewrite Hlen.
  replace (MAX_PACKET_PAYLOAD <? blen payload) with false by (symmetry; apply Z.ltb_ge; lia).
  destruct (blen payload =? 0) eqn:E; bool_to_prop.
  - destruct payload; [|unfold blen in E; cbn in E; lia]. exists r1. done.
  - destruct (on_sock_recv_exact (Z.to_nat (blen payload)) payload a (after_rx c r1 None)) as (r2 & H2 & Ha2);
      [done|unfold blen; lia|done|].
    rewrite H2. by exists r2.
Qed.

Lemma next_packet_frame c h payload a :
  closed (c_sock c) = false -> item_wf (Frame h payload) ->
  atoms_of c = item_atoms (Frame h payload) ++ a ->
  exists r, next_packet c = (Ret (Request {| Packet.header := h; Packet.payload := payload |}),
                             after_rx c r (Some (Header.marshal h ++ payload))) /\ atoms r = a.
Proof.
  intros Hc Hwf Ha. destruct (read_packet_frame c h payload a Hc Hwf Ha) as (r & Hr & Hra).
  exists r. unfold next_packet, io_try, io_bind. rewrite Hr. done.
Qed.

(** A poll that elapses, or the end of the stream, before a header. *)
Lemma read_packet_idle c a :
  closed (c_sock c) = false -> atoms_of c = ATimeout :: a ->
  exists r, read_packet c = (Raise IdleTimeout, after_rx c r None) /\ atoms r = a.
Proof.
  intros Hc Ha. unfold read_packet, io_bind, on_sock, iusb_recv_exact.
  destruct (recv_exact_pull iusb_on_timeout iusb_on_os_error iusb_on_eof HEADER_LEN _ Hc) as (r & H1 & H2).
  unfold atoms_of in Ha. rewrite Ha in H1, H2. rewrite H1. by exists r.
Qed.

Lemma read_packet_eof c a :
  closed (c_sock c) = false -> atoms_of c = AEof :: a ->
  exists r, read_packet c = (Raise iusb_on_eof, after_rx c r None).
Proof.
  intros Hc Ha. unfold read_packet, io_bind, on_sock, iusb_recv_exact.
  destruct (recv_exact_pull iusb_on_timeout iusb_on_os_error iusb_on_eof HEADER_LEN _ Hc) as (r & H1 & _).
  unfold atoms_of in Ha. rewrite Ha in H1. rewrite H1. by exists r.
Qed.

Lemma next_packet_idle c a :
  closed (c_sock c) = false -> atoms_of c = ATimeout :: a ->
  exists r, next_packet c = (Ret Idle, after_rx c r None) /\ atoms r = a.
Proof.
  intros Hc Ha. destruct (read_packet_idle c a Hc Ha) as (r & Hr & Hra). exists r.
  unfold next_packet, io_try, io_bind. by rewrite Hr.
Qed.

Lemma next_packet_eof c a :
  closed (c_sock c) = false -> atoms_of c = AEof :: a ->
  exists r, next_packet c = (Ret PeerClosed, after_rx c r None).
Proof.
  intros Hc Ha. destruct (read_packet_eof c a Hc Ha) as (r & Hr). exists r.
  unfold next_packet, io_try, io_bind. by rewrite Hr.
Qed.

(** A connection that accepts every send. *)
Definition writable (c : conn) : Prop := closed (c_sock c) = false /\ send (c_sock c) = [].

Lemma write_frame_ok c frame :
  writable c ->
  exists c', write_frame frame c = (Ret tt, c') /\ writable c' /\ atoms_of c' = atoms_of c /\
    tx (c_sock c') = tx (c_sock c) ++ [frame].
Proof.
  intros [Hc Hs]. unfold write_frame, io_bind, on_sock, iusb_send_all, sendall. rewrite Hc, Hs.
  eexists. split; [done|]. by split_and!.
Qed.

(** *** The loop against the items *)

Section ServeItems.
Context {U : Type}.
Variable handle : Packet.t -> io U exn (option bytes).
Variable should_stop : io U exn bool.
Variable on_idle : io U exn unit.
Variable on_request : Packet.t -> io U exn unit.
Variable dt : Z.

Lemma serve_loop_items l fuel c u :
  Forall item_wf l -> writable c -> atoms_of c = items_atoms l ++ [AEof] -> (length l < fuel)%nat ->
  exists o c' u',
    serve_loop handle should_stop on_idle on_request fuel dt (c, u) = (o, (c', u')) /\
    serve_items handle should_stop on_idle on_request dt l (tx (c_sock c), u) = (o, (tx (c_sock c'), u')).
Proof.
  intros Hl. revert fuel c u. induction Hl as [|i l Hi Hl IH]; intros fuel c u [Hc Hs] Ha Hf.
  all: destruct fuel as [|fuel]; [cbn in Hf; lia|]; cbn [serve_loop serve_items].
  all: unfold io_bind; unfold on_user at 1; cbn [fst snd].
  all: destruct (should_stop u) as [[[|]|e|] u1]; cbn [io_ret fst snd]; try by do 3 eexists.
  all: unfold on_conn; cbn [fst snd].
  - destruct (next_packet_eof c [] Hc Ha) as (r & Hr). rewrite Hr. by do 3 eexists.
  - cbn [length] in Hf. change (items_atoms (i :: l)) with (item_atoms i ++ items_atoms l) in Ha.
    rewrite <- app_assoc in Ha. destruct i as [|h payload].
    + destruct (next_packet_idle c _ Hc Ha) as (r & Hr & Har). rewrite Hr. unfold on_user. cbn [fst snd].
      destruct (on_idle u1) as [[[]|e|] u2]; try by do 3 eexists.
      apply (IH fuel (after_rx c r None) u2); [done|done|lia].
    + destruct (next_packet_frame c h payload _ Hc Hi Ha) as (r & Hr & Har). rewrite Hr. cbn [fst snd].
      destruct (Packet.is_kill _); [by do 3 eexists|].
      set (req := {| Packet.header := h; Packet.payload := payload |}).
      set (c1 := after_rx c r (Some (Header.marshal h ++ payload))).
      unfold serve_request, io_bind, on_user. cbn [fst snd].
      destruct (on_request req u1) as [[[]|e|] u2]; try by do 3 eexists.
      cbn [fst snd].
      destruct (handle req u2) as [[[reply|]|e|] u3]; try by do 3 eexists.
      * destruct (write_frame_ok c1 (build_response_frame h reply dt)) as (c2 & Hw & Hw2 & Ha2 & Ht2); [done|].
        unfold on_conn. cbn [fst snd]. change (Packet.header req) with h. rewrite Hw. unfold io_modify. cbn [fst snd].
        replace (tx (c_sock c) ++ [build_response_frame h reply dt]) with (tx (c_sock c2)) by done.
        apply (IH fuel c2 u3); [done|by rewrite Ha2|lia].
      * apply (IH fuel c1 u3); [done|done|lia].
Qed.
End ServeItems.

Lemma item_atoms_nonempty i : (1 <= length (item_atoms i))%nat.
Proof. destruct i; cbn; [done|]. rewrite length_map, length_app, HeaderFacts.length_marshal. cbn. lia. Qed.

Lemma length_items_atoms l : (length l <= length (items_atoms l))%nat.
Proof.
  induction l as [|i l IH]; cbn; [done|]. rewrite length_app.
  pose proof (item_atoms_nonempty i). unfold items_atoms in IH. lia.
Qed.

(** *** Progress and termination *)

(** What a read leaves of the script: never more than before, strictly less
    when it returned bytes or timed out, and still ending if it ended. *)
Definition consumes {A} (strict : A -> Prop) (f : io conn exn A) : Prop :=
  forall c, closed (c_sock c) = false ->
    closed (c_sock (f c).2) = false /\
    (length (atoms_of (f c).2) <= length (atoms_of c))%nat /\
    (forall a, (f c).1 = Ret a -> strict a -> (length (atoms_of (f c).2) < length (atoms_of c))%nat) /\
    ((f c).1 = Raise IdleTimeout -> (length (atoms_of (f c).2) < length (atoms_of c))%nat) /\
    (AEof ∈ atoms_of c -> AEof ∈ atoms_of (f c).2 /\ (f c).1 <> Blocked).

Lemma consumes_recv n :
  consumes (fun _ => (0 < n)%nat) (on_sock (iusb_recv_exact n)).
Proof.
  intros c Hc. unfold on_sock, iusb_recv_exact.
  destruct (recv_exact_pull iusb_on_timeout iusb_on_os_error iusb_on_eof n _ Hc) as (r & H1 & H2).
  rewrite H1. unfold atoms_of. cbn [fst snd c_sock set_rx rx closed]. rewrite H2.
  destruct (pull_consumed iusb_on_timeout iusb_on_os_error iusb_on_eof n n [] (atoms (rx (c_sock c)))) as (P1 & P2 & P3).
  split_and!; [done|done| | |].
  - intros bs Hbs Hn. destruct (P2 bs Hbs) as (b & _ & Hb & Ha).
    apply (f_equal length) in Ha. rewrite length_app, length_map in Ha. lia.
  - intros He. destruct (P3 _ He) as [?|?]; done.
  - intros He. destruct (pull_eof iusb_on_timeout iusb_on_os_error iusb_on_eof n n [] _ He). done.
Qed.

(** Sequencing: enough that one of the two makes progress. *)
Lemma consumes_bind {A B} (P : A -> Prop) (Q : B -> Prop) (f : io conn exn A) (k : A -> io conn exn B) :
  consumes P f -> (forall a, P a) -> (forall a, consumes Q (k a)) -> consumes (fun _ => True) (io_bind f k).
Proof.
  intros Hf HP Hk c Hc. destruct (Hf c Hc) as (F1 & F2 & F3 & F4 & F5). unfold io_bind.
  destruct (f c) as [[a|e|] c1]; cbn [fst snd] in *.
  - destruct (Hk a c1 F1) as (K1 & K2 & K3 & K4 & K5). specialize (F3 a eq_refl (HP a)).
    split_and!; [done|lia|intros; lia|intros; lia|]. intros He. apply K5. by apply F5.
  - split_and!; [done|done|done|by intros [= ->]; apply F4|]. intros He. split; [by apply F5|done].
  - split_and!; [done|done|done|done|]. intros He. by destruct (F5 He).
Qed.

Lemma consumes_weak {A} (P : A -> Prop) (f : io conn exn A) : consumes P f -> consumes (fun _ => False) f.
Proof. intros Hf c Hc. destruct (Hf c Hc) as (F1 & F2 & F3 & F4 & F5). by split_and!. Qed.

(** A step that neither reads nor raises [IdleTimeout]. *)
Lemma consumes_still {A} (f : io conn exn A) :
  (forall c, c_sock (f c).2 = c_sock c /\ (f c).1 <> Blocked /\ (f c).1 <> Raise IdleTimeout) ->
  consumes (fun _ => False) f.
Proof.
  intros Hf c Hc. destruct (Hf c) as (F1 & F2 & F3). unfold atoms_of. rewrite F1. by split_and!.
Qed.

Lemma consumes_bind_still {A B} (f : io conn exn A) (k : A -> io conn exn B) :
  consumes (fun _ => False) f -> (forall a, consumes (fun _ => False) (k a)) ->
  consumes (fun _ => False) (io_bind f k).
Proof.
  intros Hf Hk c Hc. destruct (Hf c Hc) as (F1 & F2 & F3 & F4 & F5). unfold io_bind.
  destruct (f c) as [[a|e|] c1]; cbn [fst snd] in *.
  - destruct (Hk a c1 F1) as (K1 & K2 & K3 & K4 & K5).
    split_and!; [done|lia|done|intros H; specialize (K4 H); lia|]. intros He. apply K5. by apply F5.
  - split_and!; [done|done|done|by intros [= ->]; apply F4|]. intros He. split; [by apply F5|done].
  - split_and!; [done|done|done|done|]. intros He. by destruct (F5 He).
Qed.

Lemma consumes_parse b : consumes (fun _ => False) (io_lift (Header.parse b)).
Proof.
  apply consumes_still. intros c.
  pose proof (raises_lift_parse classified b (fun _ => I) c) as Hp.
  destruct (Header.parse b) as [h|e]; [done|]. split_and!; [done..|].
  intros [= ->]. exact (Hp _ eq_refl).
Qed.

Lemma consumes_read_packet : consumes (fun _ => True) read_packet.
Proof.
  unfold read_packet. apply (consumes_bind (fun _ => (0 < HEADER_LEN)%nat) (fun _ => False)); [apply consumes_recv|intros _; unfold HEADER_LEN; lia|intros hdr].
  apply consumes_bind_still; [apply consumes_parse|intros h].
  destruct (_ <? _); [by apply consumes_still|].
  apply consumes_bind_still.
  - destruct (_ =? _); [by apply consumes_still|]. eapply consumes_weak, consumes_recv.
  - intros p. apply consumes_bind_still; [|intros _]; by apply consumes_still.
Qed.

(** The loop continues only after a step that consumed part of the script. *)
Lemma next_packet_progress c :
  closed (c_sock c) = false ->
  closed (c_sock (next_packet c).2) = false /\
  (forall n, (next_packet c).1 = Ret n -> n <> PeerClosed ->
     (length (atoms_of (next_packet c).2) < length (atoms_of c))%nat) /\
  (AEof ∈ atoms_of c -> AEof ∈ atoms_of (next_packet c).2 /\ (next_packet c).1 <> Blocked).
Proof.
  intros Hc. destruct (consumes_read_packet c Hc) as (F1 & F2 & F3 & F4 & F5).
  unfold next_packet, io_try, io_bind, io_ret.
  destruct (read_packet c) as [[req|e|] c1]; cbn [fst snd] in *.
  - split_and!; [done| |].
    + intros n [= <-] _. by eapply F3.
    + intros He. split; [by apply F5|done].
  - destruct e; cbn; split_and!; try done;
      try (intros He; split; [by apply F5|done]); intros n [= <-] Hn; by auto.
  - split_and!; [done|done|]. intros He. by destruct (F5 He).
Qed.

Lemma write_frame_script frame c :
  rx (c_sock (write_frame frame c).2) = rx (c_sock c) /\
  closed (c_sock (write_frame frame c).2) = closed (c_sock c) /\
  (write_frame frame c).1 <> Blocked.
Proof.
  unfold write_frame, io_bind, on_sock, iusb_send_all, sendall.
  destruct (closed (c_sock c)) eqn:Hc; [done|].
  destruct (send (c_sock c)) as [|[e|] q]; done.
Qed.

Section ServeTermination.
Context {U : Type}.
Variable handle : Packet.t -> io U exn (option bytes).
Variable should_stop : io U exn bool.
Variable on_idle : io U exn unit.
Variable on_request : Packet.t -> io U exn unit.
Local Abbreviation serve := (serve_loop handle should_stop on_idle on_request).

(** Answering a request leaves the script alone. *)
Lemma serve_request_script dt req c u :
  rx (c_sock (serve_request handle on_request dt req (c, u)).2.1) = rx (c_sock c) /\
  closed (c_sock (serve_request handle on_request dt req (c, u)).2.1) = closed (c_sock c).
Proof.
  unfold serve_request, io_bind, on_user, on_conn. cbn [fst snd].
  destruct (on_request req u) as [[[]|e|] u1]; [|done..]. cbn [fst snd].
  destruct (handle req u1) as [[[r|]|e|] u2]; [|done..].
  destruct (write_frame_script (build_response_frame (Packet.header req) r dt) c) as (H1 & H2 & _).
  cbn [fst snd]. destruct (write_frame _ c) as [o c']. done.
Qed.

(** Fuel beyond the length of the script changes nothing. *)
Lemma serve_loop_fuel fuel1 fuel2 dt c u :
  closed (c_sock c) = false ->
  (length (atoms_of c) < fuel1)%nat -> (length (atoms_of c) < fuel2)%nat ->
  serve fuel1 dt (c, u) = serve fuel2 dt (c, u).
Proof.
  revert fuel2 c u. induction fuel1 as [|fuel1 IH]; intros fuel2 c u Hc H1 H2; [lia|].
  destruct fuel2 as [|fuel2]; [lia|]. cbn [serve_loop]. unfold io_bind, on_user. cbn [fst snd].
  destruct (should_stop u) as [[[|]|e|] u1]; [done| |done..].
  destruct (next_packet_progress c Hc) as (P1 & P2 & _).
  unfold on_conn. cbn [fst snd]. destruct (next_packet c) as [[n|e|] c1]; [|done..].
  cbn [fst snd] in *. destruct n as [req| |]; [| |done].
  - specialize (P2 _ eq_refl ltac:(done)). destruct (Packet.is_kill req); [done|].
    destruct (serve_request_script dt req c1 u1) as [S1 S2].
    destruct (serve_request handle on_request dt req (c1, u1)) as [[[]|e|] [c2 u2]]; [|done..].
    cbn [fst snd] in *. apply IH; [congruence| |]; unfold atoms_of in *; rewrite S1; lia.
  - specialize (P2 _ eq_refl ltac:(done)). cbn [fst snd].
    destruct (on_idle u1) as [[[]|e|] u2]; [|done..]. apply IH; [done|lia..].
Qed.

Hypothesis handle_nb : forall req, never_blocks (handle req).
Hypothesis stop_nb : never_blocks should_stop.
Hypothesis idle_nb : never_blocks on_idle.
Hypothesis request_nb : forall req, never_blocks (on_request req).

Lemma serve_request_nb dt req : never_blocks (serve_request handle on_request dt req).
Proof.
  intros [c u]. unfold serve_request, io_bind, on_user, on_conn. cbn [fst snd].
  pose proof (request_nb req u) as Hq.
  destruct (on_request req u) as [[[]|e|] u1]; [|done..]. cbn [fst snd].
  pose proof (handle_nb req u1) as Hh.
  destruct (handle req u1) as [[[r|]|e|] u2]; [|done..].
  destruct (write_frame_script (build_response_frame (Packet.header req) r dt) c) as (_ & _ & H3).
  cbn [fst snd]. by destruct (write_frame _ c) as [o c'].
Qed.

Lemma serve_loop_terminates fuel dt c u :
  closed (c_sock c) = false -> AEof ∈ atoms_of c -> (length (atoms_of c) < fuel)%nat ->
  (serve fuel dt (c, u)).1 <> Blocked.
Proof.
  revert c u. induction fuel as [|fuel IH]; intros c u Hc He Hf; [lia|].
  cbn [serve_loop]. unfold io_bind. unfold on_user at 1. cbn [fst snd].
  pose proof (stop_nb u) as Hs. destruct (should_stop u) as [[[|]|e|] u1]; [done| |done..].
  destruct (next_packet_progress c Hc) as (P1 & P2 & P3). destruct (P3 He) as [P4 P5].
  unfold on_conn. cbn [fst snd]. destruct (next_packet c) as [[n|e|] c1]; [|done..].
  cbn [fst snd] in *. destruct n as [req| |]; [|unfold on_user|done].
  - specialize (P2 _ eq_refl ltac:(done)). destruct (Packet.is_kill req); [done|].
    destruct (serve_request_script dt req c1 u1) as [S1 S2].
    pose proof (serve_request_nb dt req (c1, u1)) as Hq.
    destruct (serve_request handle on_request dt req (c1, u1)) as [[[]|e|] [c2 u2]]; [|done..].
    cbn [fst snd] in *. apply IH; [congruence| |]; unfold atoms_of in *; rewrite S1; [done|lia].
  - specialize (P2 _ eq_refl ltac:(done)). cbn [fst snd]. pose proof (idle_nb u1) as Hi.
    destruct (on_idle u1) as [[[]|e|] u2]; [|done..]. apply IH; [done|done|lia].
Qed.
End ServeTermination.

(** ** Properties *)

Section SessionProperties.
Context {U : Type}.
Variable handle : Packet.t -> io U exn (option bytes).
Variable should_stop : io U exn bool.
Variable on_idle : io U exn unit.
Variable on_request : Packet.t -> io U exn unit.

(** C3: the session serves the frames of the stream.  On a stream of
    well-formed requests with any number of elapsed polls between them,
    closed by the peer after the last, delivered in any chunks, the session
    does what [serve_items] says: it answers each request with its handler,
    in order, calls back on every request and on every idle poll, and ends
    the same way with the same callback state; nothing else is sent. *)
Theorem serve_refines_items (s : Session) (l : list item) (c : conn) (u : U) :
  Forall item_wf l -> writable c -> atoms_of c = items_atoms l ++ [AEof] ->
  exists o c' u',
    serve_forever handle should_stop on_idle on_request s (c, u) = (o, (c', u')) /\
    serve_items handle should_stop on_idle on_request (s_device_type s) l (tx (c_sock c), u)
    = (o, (tx (c_sock c'), u')).
Proof.
  intros Hl Hw Ha. apply serve_loop_items; [done..|]. unfold serve_fuel, atoms_of in *. cbn [fst].
  rewrite Ha, length_app. pose proof (length_items_atoms l). cbn. lia.
Qed.

(** Chunking is invisible.  Two connections whose scripts deliver the
    same bytes with the same interruptions, cut into segments in any two
    ways, give the same outcome, the same frames sent, the same recorded
    events and the same callback state. *)
Theorem serve_ignores_chunking (s : Session) (c c' : conn) (u : U) :
  conn_equiv c c' ->
  let r := serve_forever handle should_stop on_idle on_request s (c, u) in
  let r' := serve_forever handle should_stop on_idle on_request s (c', u) in
  r.1 = r'.1 /\ conn_equiv r.2.1 r'.2.1 /\ r.2.2 = r'.2.2.
Proof.
  intros Hc r r'. subst r r'. unfold serve_forever, serve_fuel. cbn [fst].
  replace (atoms (rx (c_sock c))) with (atoms (rx (c_sock c'))) by (symmetry; apply Hc).
  apply (respects_serve_loop handle should_stop on_idle on_request _ (s_device_type s)). by split.
Qed.

(** an idle session is never a fault.  Whatever the script (stalls, socket
    errors, malformed frames, polls elapsing anywhere), if the handler and
    the callbacks raise only classified errors then so does the session:
    neither [IdleTimeout] nor [EOFError] nor any other exception leaves the
    serve loop. *)
Theorem serve_faults_classified (s : Session) (p : conn * U) (e : exn) :
  (forall req, raises_only classified (handle req)) -> raises_only classified should_stop ->
  raises_only classified on_idle -> (forall req, raises_only classified (on_request req)) ->
  (serve_forever handle should_stop on_idle on_request s p).1 = Raise e ->
  exists err, e = Ikvm err.
Proof.
  intros Hh Hs Hi Hr He. unfold serve_forever in He.
  apply (raises_serve_loop handle should_stop on_idle on_request classified) in He; [|done..].
  destruct e; try done. by eexists.
Qed.

(** the session terminates when its stream does.  If the peer closes the
    connection at some point and neither the handler nor a callback waits
    for ever, the serve loop returns or raises; the fuel of the model is
    never what stops it, any larger amount gives the same run. *)
Theorem serve_terminates (s : Session) (c : conn) (u : U) (extra : nat) :
  closed (c_sock c) = false -> AEof ∈ atoms_of c ->
  (forall req, never_blocks (handle req)) -> never_blocks should_stop ->
  never_blocks on_idle -> (forall req, never_blocks (on_request req)) ->
  (serve_forever handle should_stop on_idle on_request s (c, u)).1 <> Blocked /\
  serve_loop handle should_stop on_idle on_request (serve_fuel c + extra) (s_device_type s) (c, u)
  = serve_forever handle should_stop on_idle on_request s (c, u).
Proof.
  intros Hc He Hh Hs Hi Hr. unfold serve_forever, serve_fuel, atoms_of in *. cbn [fst]. split.
  - apply serve_loop_terminates; try done. unfold atoms_of. lia.
  - apply serve_loop_fuel; [done|unfold atoms_of; lia..].
Qed.
End SessionProperties.

(** The authentication handshake.  With a token that fits, the session sends
    the authentication frame and nothing else; an acknowledgement frame is
    judged by [interpret_ack]; silence is a classified connection error; a
    peer that closes instead of answering raises a bare [EOFError], outside
    the error taxonomy. *)
Theorem authenticate_outcomes (dt inst : Z) (token : text) (ep : option text) (c : conn) (auth : bytes) :
  writable c -> build_auth dt inst token false = Ok auth ->
  (forall h payload a, item_wf (Frame h payload) -> atoms_of c = item_atoms (Frame h payload) ++ a ->
     exists c', authenticate dt inst token ep c
       = (match interpret_ack {| Packet.header := h; Packet.payload := payload |} ep with
          | Ok _ => Ret {| s_device_type := dt; s_instance := inst |}
          | Err e => Raise e
          end, c')
       /\ tx (c_sock c') = tx (c_sock c) ++ [auth] /\ atoms_of c' = a /\ writable c') /\
  (forall a, atoms_of c = ATimeout :: a ->
     (authenticate dt inst token ep c).1
     = Raise (Ikvm (ConnectionError_ ($"iusb: no response to the authentication packet") ep ($"iusb.authenticate")))) /\
  (forall a, atoms_of c = AEof :: a ->
     (authenticate dt inst token ep c).1 = Raise (EOFError ($"iusb: connection closed while reading"))).
Proof.
  intros Hw Hb. destruct (write_frame_ok c auth Hw) as (c1 & H1 & [Hc1 Hs1] & Ha1 & Ht1).
  unfold authenticate. rewrite Hb. cbn [io_lift]. unfold io_bind, io_ret. rewrite H1.
  split_and!.
  - intros h payload a Hi Ha. rewrite <- Ha1 in Ha.
    destruct (read_packet_frame c1 h payload a Hc1 Hi Ha) as (r & Hr & Hra).
    unfold io_bind, io_try. rewrite Hr.
    exists (after_rx c1 r (Some (Header.marshal h ++ payload))).
    split; [by destruct (interpret_ack _ ep) as [[]|e]|by split].
  - intros a Ha. rewrite <- Ha1 in Ha. destruct (read_packet_idle c1 a Hc1 Ha) as (r & Hr & _).
    unfold io_bind, io_try. by rewrite Hr.
  - intros a Ha. rewrite <- Ha1 in Ha. destruct (read_packet_eof c1 a Hc1 Ha) as (r & Hr).
    unfold io_bind, io_try. by rewrite Hr.
Qed.

(** *** Witnesses: an echoing handler that counts idle polls *)

Definition echo (req : Packet.t) : io Z exn (option bytes) := io_ret (Some (Packet.payload req)).
Definition sample_payload : bytes := zeros 12.
Definition sample_req_header : Header.t :=
  {| Header.major := 1; Header.minor := 0; Header.data_packet_len := 12; Header.server_caps := 0;
     Header.device_type := 5; Header.protocol := 1; Header.direction := 0; Header.device_number := 0;
     Header.interface_number := 0; Header.client_data := 0; Header.instance := 0; Header.sequence_number := 77 |}.
Definition sample_items : list item := [IdlePoll; Frame sample_req_header sample_payload; IdlePoll].
Definition sample_session : Session := {| s_device_type := DEVICE_CDROM; s_instance := 0 |}.
Definition conn_of (r : list rx_event) : conn := mkConn (mkSock r [] [] None false) None.
(** The request cut after its tenth byte. *)
Definition sample_wire : bytes := Header.marshal sample_req_header ++ sample_payload.
Definition sample_conn : conn :=
  conn_of [Timeout; Arrive (take 10 sample_wire); Arrive (drop 10 sample_wire); Timeout; Eof].
Definition whole_conn : conn := conn_of [Timeout; Arrive sample_wire; Arrive []; Timeout; Eof].
Definition serve_echo : Session -> io (conn * Z) exn serve_outcome :=
  serve_forever echo (io_ret false) (io_modify (fun n => n + 1)) (fun _ => io_ret tt).

Lemma sample_header_fits : item_wf (Frame sample_req_header sample_payload).
Proof. split_and!; [|by vm_compute..]. by repeat split. Qed.

Lemma sample_items_wf : Forall item_wf sample_items.
Proof. repeat apply List.Forall_cons; [done|apply sample_header_fits|done|apply List.Forall_nil]. Qed.

Lemma serve_refines_items_witness :
  exists c', serve_echo sample_session (sample_conn, 0) = (Ret SERVE_PEER_CLOSED, (c', 2)) /\
    tx (c_sock c') = [build_response_frame sample_req_header sample_payload DEVICE_CDROM].
Proof.
  destruct (serve_refines_items echo (io_ret false) (io_modify (fun n => n + 1)) (fun _ => io_ret tt)
              sample_session sample_items sample_conn 0 sample_items_wf ltac:(by split) ltac:(by vm_compute))
    as (o & c' & u' & H1 & H2).
  assert (serve_items echo (io_ret false) (io_modify (fun n => n + 1)) (fun _ => io_ret tt) DEVICE_CDROM
            sample_items ([], 0)
          = (Ret SERVE_PEER_CLOSED, ([build_response_frame sample_req_header sample_payload DEVICE_CDROM], 2)))
    as Hs by (vm_compute; reflexivity).
  pose proof (eq_trans (eq_sym H2) Hs) as H3. injection H3 as -> Ht ->.
  exists c'. split; [exact H1|exact Ht].
Defined.

Lemma serve_ignores_chunking_witness :
  (serve_echo sample_session (sample_conn, 0)).1 = (serve_echo sample_session (whole_conn, 0)).1.
Proof.
  apply (serve_ignores_chunking echo (io_ret false) (io_modify (fun n => n + 1)) (fun _ => io_ret tt)
           sample_session sample_conn whole_conn 0).
  split; [split_and!; by vm_compute|done].
Defined.

(** A socket error in the middle of a header. *)
Definition broken_conn : conn := conn_of [Timeout; Arrive (take 10 sample_wire); OsErr ($"reset")].

Lemma serve_faults_classified_witness :
  exists err, (serve_echo sample_session (broken_conn, 0)).1 = Raise (Ikvm err).
Proof.
  destruct (serve_echo sample_session (broken_conn, 0)).1 as [o|e|] eqn:E; [by vm_compute in E| |by vm_compute in E].
  destruct (serve_faults_classified echo (io_ret false) (io_modify (fun n => n + 1)) (fun _ => io_ret tt)
              sample_session (broken_conn, 0) e) as [err ->];
    [intros req s e'; discriminate|intros s e'; discriminate|intros s e'; discriminate
    |intros req s e'; discriminate|exact E|].
  exists err. reflexivity.
Defined.

Lemma serve_terminates_witness :
  (serve_echo sample_session (sample_conn, 0)).1 <> Blocked.
Proof.
  apply (serve_terminates echo (io_ret false) (io_modify (fun n => n + 1)) (fun _ => io_ret tt)
           sample_session sample_conn 0 0);
    [reflexivity| |intros req s; discriminate|intros s; discriminate|intros s; discriminate|intros req s; discriminate].
  apply list_elem_of_In. vm_compute. repeat (first [left; reflexivity | right]).
Defined.

(** An acknowledgement that the redirection started, and one that it is busy. *)
Definition ack_payload (status : Z) : bytes := setb (setb (zeros 40) OPCODE_OFFSET OP_REDIRECT_ACK) CONN_STATUS_OFFSET status.
Definition ack_header : Header.t :=
  {| Header.major := 1; Header.minor := 0; Header.data_packet_len := 40; Header.server_caps := 0;
     Header.device_type := 5; Header.protocol := 1; Header.direction := 0; Header.device_number := 0;
     Header.interface_number := 0; Header.client_data := 0; Header.instance := 0; Header.sequence_number := 0 |}.

Lemma authenticate_outcomes_witness :
  let auth := match build_auth DEVICE_CDROM 0 ($"tok") false with Ok a => a | Err _ => [] end in
  let c := conn_of [Arrive (Header.marshal ack_header ++ ack_payload CONN_OK)] in
  exists c', authenticate DEVICE_CDROM 0 ($"tok") None c
    = (Ret {| s_device_type := DEVICE_CDROM; s_instance := 0 |}, c') /\ tx (c_sock c') = [auth].
Proof.
  intros auth c.
  destruct (proj1 (authenticate_outcomes DEVICE_CDROM 0 ($"tok") None c auth ltac:(by split) ltac:(by vm_compute))
              ack_header (ack_payload CONN_OK) [] ltac:(split_and!; [by repeat split|by vm_compute..])
              ltac:(by vm_compute)) as (c' & H1 & H2 & _).
  exists c'. split; [rewrite H1; by vm_compute|exact H2].
Defined.

(** A poll that elapses between a header and its payload loses the frame.
    The payload read starts with nothing received, so its timeout counts as
    idle: the header is dropped, the payload that follows is taken for a
    header, and the session dies of a protocol error, although the same bytes
    without the pause are served. *)
Theorem pause_after_header_desynchronises :
  let hdr := Header.marshal sample_req_header in
  let paused := conn_of [Arrive hdr; Timeout; Arrive (sample_payload ++ hdr ++ sample_payload); Eof] in
  let steady := conn_of [Arrive hdr; Arrive (sample_payload ++ hdr ++ sample_payload); Eof] in
  (exists err, (serve_echo sample_session (paused, 0)).1 = Raise (Ikvm err) /\ error_class err = PROTOCOL) /\
  tx (c_sock (serve_echo sample_session (paused, 0)).2.1) = [] /\
  (serve_echo sample_session (steady, 0)).1 = Ret SERVE_PEER_CLOSED /\
  length (tx (c_sock (serve_echo sample_session (steady, 0)).2.1)) = 2%nat.
Proof.
  intros hdr paused steady. split_and!; [|by vm_compute..].
  destruct (serve_echo sample_session (paused, 0)).1 as [o|e|] eqn:E; [by vm_compute in E| |by vm_compute in E].
  destruct e; try (vm_compute in E; discriminate E). eexists. split; [reflexivity|].
  vm_compute in E. injection E as <-. reflexivity.
Qed.
