(* ===== verification/Ivtp.v ===== *)
(** * ivtp.py: the KVM/video channel

    The packet codec, the session-validation packet, the classification of the
    peer's refusals, the reassembly of video fragments, and the two drivers
    [open_channel] and [capture_one_frame] over an [ivtp.SocketTransport].
    The fuel of both reading loops is the number of atoms of the script plus
    one; each iteration consumes a header of eight bytes. *)
From Stdlib Require Import ZArith Lia Ascii String.
From stdpp Require Import prelude.
From S2P Require Import Prelude PyBytes PyText Regex Errors Transport.

Definition HEADER_LEN : nat := 8.

(** ** [class Header], packed as ["<HIH"] *)
Module Header.
Record t : Type := mk {
  type : Z;
  pkt_size : Z;
  status : Z;
}.

Definition marshal (h : t) : bytes :=
  le_bytes 2 (u16 (type h)) ++ le_bytes 4 (u32 (pkt_size h)) ++ le_bytes 2 (u16 (status h)).

Definition parse (data : bytes) : result exn t :=
  if (length data <? HEADER_LEN)%nat then
    raise_ikvm (ProtocolError
      ($"ivtp: short header: " ++ dec (blen data) ++ $" bytes (need " ++ dec (Z.of_nat HEADER_LEN) ++ $")")
      None ($"ivtp.parse_header"))
  else Ok {| type := from_le (slice 0 2 data); pkt_size := from_le (slice 2 6 data);
             status := from_le (slice 6 8 data) |}.

(** The fields as the wire keeps them. *)
Definition truncate (h : t) : t :=
  {| type := u16 (type h); pkt_size := u32 (pkt_size h); status := u16 (status h) |}.
Definition wf (h : t) : Prop :=
  0 <= type h < 2 ^ 16 /\ 0 <= pkt_size h < 2 ^ 32 /\ 0 <= status h < 2 ^ 16.
End Header.

(** ** Opcodes *)

Definition OP_REFRESH_VIDEO_SCREEN : Z := 5.
Definition OP_RESUME_REDIRECTION : Z := 6.
Definition OP_STOP_SESSION_IMMEDIATE : Z := 8.
Definition OP_VALIDATE_VIDEO_SESSION : Z := 18.
Definition OP_VALIDATE_VIDEO_SESSION_RESPONSE : Z := 19.
Definition OP_GET_WEB_TOKEN : Z := 21.
Definition OP_SESSION_ACCEPTED : Z := 23.
Definition OP_VIDEO_FRAGMENT : Z := 25.

Definition TOKEN_TYPE_WEB_SESSION : Z := 0.

Definition TOKEN_FIELD_LEN : nat := 130.
Definition IP_FIELD_LEN : nat := 65.
Definition USERNAME_FIELD_LEN : nat := 129.
Definition VIDEO_PACKET_SIZE : nat := TOKEN_FIELD_LEN + IP_FIELD_LEN + USERNAME_FIELD_LEN.

(** [_fixed_ascii] *)
Definition fixed_ascii (value : text) (width : nat) (field operation : text) : result exn bytes :=
  let* encoded := encode_ascii_exn value in
  if (width <? length encoded)%nat then
    raise_ikvm (ProtocolError
      ($"ivtp: " ++ field ++ $" (" ++ dec (blen encoded) ++ $" bytes) does not fit in its "
       ++ dec (Z.of_nat width) ++ $"-byte fixed-width field") None operation)
  else Ok (encoded ++ zeros (width - length encoded)).

Definition build_validate_video_session (token client_ip username : text) (token_type : Z) : result exn bytes :=
  let operation := $"ivtp.build_validate_video_session" in
  let* t := fixed_ascii token (TOKEN_FIELD_LEN - 1) ($"token") operation in
  let token_field := u8 token_type :: t in
  let* ip_field := fixed_ascii client_ip IP_FIELD_LEN ($"client_ip") operation in
  let* username_field := fixed_ascii username USERNAME_FIELD_LEN ($"username") operation in
  let body := token_field ++ ip_field ++ username_field in
  if negb (length body =? VIDEO_PACKET_SIZE)%nat then
    Err (AssertionError ($"ivtp: VALIDATE_VIDEO_SESSION body is " ++ dec (blen body) ++ $" bytes, expected "
                     ++ dec (Z.of_nat VIDEO_PACKET_SIZE)))
  else
    let header := {| Header.type := OP_VALIDATE_VIDEO_SESSION; Header.pkt_size := blen body; Header.status := 0 |} in
    Ok (Header.marshal header ++ body).

Definition build_get_web_token (token : text) : result exn bytes :=
  let* body := encode_ascii_exn token in
  let header := {| Header.type := OP_GET_WEB_TOKEN; Header.pkt_size := blen body; Header.status := 0 |} in
  Ok (Header.marshal header ++ body).

Definition bodyless (opcode status : Z) : bytes :=
  Header.marshal {| Header.type := opcode; Header.pkt_size := 0; Header.status := status |}.
Definition build_resume_redirection : bytes := bodyless OP_RESUME_REDIRECTION 0.
Definition build_refresh_video_screen : bytes := bodyless OP_REFRESH_VIDEO_SCREEN 0.
Definition build_stop_session (status : Z) : bytes := bodyless OP_STOP_SESSION_IMMEDIATE status.

(** ** VALIDATE_VIDEO_SESSION_RESPONSE *)

Definition SESSION_INVALID : Z := 0.
Definition SESSION_VALID : Z := 1.
Definition SESSION_KVM_DISABLED : Z := 2.
Definition SESSION_INVALID_VIDEO_TOKEN : Z := 3.
Definition SESSION_INVALID_CDROM_TOKEN : Z := 4.
Definition SESSION_INVALID_FLOPPY_TOKEN : Z := 5.

Definition VALIDATE_STATUS_NAMES : list (Z * text) :=
  [(SESSION_INVALID, $"invalid_session"); (SESSION_VALID, $"valid_session");
   (SESSION_KVM_DISABLED, $"kvm_disabled"); (SESSION_INVALID_VIDEO_TOKEN, $"invalid_video_session_token");
   (SESSION_INVALID_CDROM_TOKEN, $"invalid_cdrom_session_token");
   (SESSION_INVALID_FLOPPY_TOKEN, $"invalid_floppy_session_token")].

(** [names.get(status, f"unknown({status})")] *)
Definition name_or_unknown (names : list (Z * text)) (status : Z) : text :=
  match assoc_get names status with
  | Some n => n
  | None => $"unknown(" ++ dec status ++ $")"
  end.
Definition validate_status_name : Z -> text := name_or_unknown VALIDATE_STATUS_NAMES.

Definition parse_validate_video_session_response (body : bytes) : result exn (Z * option Z) :=
  match body with
  | [] =>
      raise_ikvm (ProtocolError
        ($"ivtp: VALIDATE_VIDEO_SESSION_RESPONSE body is empty (expected at least 1 status byte)")
        None ($"ivtp.parse_validate_video_session_response"))
  | status :: rest => Ok (status, head rest)
  end.

(** [ (status={status} {name})] *)
Definition status_suffix (status : Z) (name : text) : text :=
  $" (status=" ++ dec status ++ $" " ++ name ++ $")".

Definition validate_status_error (status : Z) (ep : option text) : IkvmError :=
  let name := validate_status_name status in
  let operation := $"ivtp.open_channel" in
  if status =? SESSION_KVM_DISABLED then
    UnsupportedCapabilityError
      ($"BMC reports the KVM/video channel is disabled for this session" ++ status_suffix status name) ep operation
  else if existsb (Z.eqb status)
            [SESSION_INVALID; SESSION_INVALID_VIDEO_TOKEN; SESSION_INVALID_CDROM_TOKEN; SESSION_INVALID_FLOPPY_TOKEN]
  then AuthenticationError ($"BMC rejected the KVM/video session token" ++ status_suffix status name) ep operation
  else ProtocolError
    ($"BMC returned an unrecognised VALIDATE_VIDEO_SESSION_RESPONSE status " ++ dec status
     ++ $" (" ++ name ++ $")") ep operation.

(** ** STOP_SESSION_IMMEDIATE *)

Definition STOP_GENERIC : Z := 2.
Definition STOP_CONF_CHANGE : Z := 5.
Definition STOP_WEB_LOGOUT : Z := 7.
Definition STOP_LICENSE_EXPIRED : Z := 8.
Definition STOP_TIMED_OUT : Z := 9.
Definition STOP_KVM_DISCONNECT : Z := 10.

Definition STOP_REASON_NAMES : list (Z * text) :=
  [(STOP_GENERIC, $"generic"); (STOP_CONF_CHANGE, $"conf_change"); (STOP_WEB_LOGOUT, $"web_logout");
   (STOP_LICENSE_EXPIRED, $"license_expired"); (STOP_TIMED_OUT, $"timed_out");
   (STOP_KVM_DISCONNECT, $"kvm_disconnect")].
Definition stop_reason_name : Z -> text := name_or_unknown STOP_REASON_NAMES.

Definition stop_session_error (status : Z) (ep : option text) : IkvmError :=
  let name := stop_reason_name status in
  let operation := $"ivtp.open_channel" in
  if status =? STOP_WEB_LOGOUT then
    AuthenticationError ($"BMC stopped the KVM session: the underlying web session was logged out"
                         ++ status_suffix status name) ep operation
  else if status =? STOP_LICENSE_EXPIRED then
    UnsupportedCapabilityError ($"BMC stopped the KVM session: KVM licensing has expired"
                                ++ status_suffix status name) ep operation
  else if status =? STOP_TIMED_OUT then
    TimeoutError_ ($"BMC stopped the KVM session: server-side inactivity timeout" ++ status_suffix status name
      ++ $". This is the BMC's own 1800s KVM session timeout, distinct from this module's own connect/handshake timeouts.")
      ep operation false
  else if status =? STOP_KVM_DISCONNECT then
    InvalidStateError ($"BMC stopped the KVM session: another client requested a KVM disconnect"
                       ++ status_suffix status name) ep operation
  else RemoteOperationError ($"BMC stopped the KVM session" ++ status_suffix status name) ep operation.

(** ** VIDEO_FRAGMENT *)

Definition FRAG_LAST_BIT : Z := 0x8000.
Definition FRAG_NUM_MASK : Z := 0x7FFF.
Definition MAX_FRAME_BYTES : Z := 9216000.

Definition frag_is_first (frag_num : Z) : bool := Z.land frag_num FRAG_NUM_MASK =? 0.
Definition frag_is_last (frag_num : Z) : bool := negb (Z.land frag_num FRAG_LAST_BIT =? 0).

Definition parse_video_fragment (body : bytes) : result exn (Z * bool * bool * bytes) :=
  if (length body <? 2)%nat then
    raise_ikvm (ProtocolError
      ($"ivtp: VIDEO_FRAGMENT body (" ++ dec (blen body) ++ $" bytes) is shorter than the 2-byte fragment-number prefix")
      None ($"ivtp.parse_video_fragment"))
  else
    let frag_num := from_le (slice 0 2 body) in
    Ok (frag_num, frag_is_first frag_num, frag_is_last frag_num, drop 2 body).

(** [class FrameReassembler]: its state is the buffer. *)
Definition feed (frag_num : Z) (data : bytes) : io bytes exn (option bytes) := fun buf =>
  let is_first := frag_is_first frag_num in
  let is_last := frag_is_last frag_num in
  let buf := if is_first then [] else buf in
  if MAX_FRAME_BYTES <? blen buf + blen data then
    (Raise (Ikvm (ProtocolError
       ($"ivtp: reassembled video frame would exceed " ++ dec MAX_FRAME_BYTES ++ $" bytes")
       None ($"ivtp.capture_one_frame"))), buf)
  else
    let buf := buf ++ data in
    if is_last then (Ret (Some buf), []) else (Ret None, buf).

(** ** Packets on a transport *)

Definition read_packet : io sock exn (Header.t * bytes) :=
  do hdr_bytes <- ivtp_recv_exact HEADER_LEN;
  do header <- io_lift (Header.parse hdr_bytes);
  if MAX_FRAME_BYTES <? Header.pkt_size header then
    io_raise (Ikvm (ProtocolError
      ($"ivtp: implausible pkt_size " ++ dec (Header.pkt_size header) ++ $" in a received header (type="
       ++ dec (Header.type header) ++ $")") None ($"ivtp.read_packet")))
  else
    do body <- (if Header.pkt_size header =? 0 then io_ret []
                else ivtp_recv_exact (Z.to_nat (Header.pkt_size header)));
    io_ret (header, body).

Definition write_packet (data : bytes) : io sock exn unit := ivtp_send_all data.

Record ChannelFacts : Type := {
  session_accepted : bool;
  greeting_body_len : Z;
  validate_status : Z;
  validate_status_name_ : text;
  validate_sub_status : option Z;
  resumed : bool;
}.

(** The loop of [open_channel]: wait for the response to the validation. *)
Fixpoint await_response (fuel : nat) : io sock exn (Z * option Z) :=
  match fuel with
  | O => fun s => (Blocked, s)
  | S fuel =>
      do (header, body) <- read_packet;
      if Header.type header =? OP_VALIDATE_VIDEO_SESSION_RESPONSE then
        io_lift (parse_validate_video_session_response body)
      else if Header.type header =? OP_STOP_SESSION_IMMEDIATE then
        io_raise (Ikvm (stop_session_error (Header.status header) None))
      else await_response fuel
  end.

Definition script_fuel (s : sock) : nat := S (length (atoms (rx s))).

(** [if send_get_web_token: write_packet(transport, build_get_web_token(token))] *)
Definition announce_token (send_get_web_token : bool) (token : text) : io sock exn unit :=
  if send_get_web_token then (do p <- io_lift (build_get_web_token token); write_packet p) else io_ret tt.

Definition open_channel (token client_ip username : text) (handshake_timeout_ms : Z) (send_get_web_token : bool)
    : io sock exn ChannelFacts :=
  run io_modify (set_timeout (Some handshake_timeout_ms));
  do (header, body) <- read_packet;
  if negb (Header.type header =? OP_SESSION_ACCEPTED) then
    io_raise (Ikvm (ProtocolError
      ($"ivtp: expected the BMC's greeting to be SESSION_ACCEPTED (23), got opcode " ++ dec (Header.type header)
       ++ $" (pktSize=" ++ dec (Header.pkt_size header) ++ $", status=" ++ dec (Header.status header) ++ $")")
      None ($"ivtp.open_channel")))
  else
    let greeting := blen body in
    run announce_token send_get_web_token token;
    do p <- io_lift (build_validate_video_session token client_ip username TOKEN_TYPE_WEB_SESSION);
    run write_packet p;
    do s <- io_get;
    do (status, sub_status) <- await_response (script_fuel s);
    if negb (status =? SESSION_VALID) then io_raise (Ikvm (validate_status_error status None))
    else
      run write_packet build_resume_redirection;
      io_ret {| session_accepted := true; greeting_body_len := greeting; validate_status := status;
                validate_status_name_ := validate_status_name status; validate_sub_status := sub_status;
                resumed := true |}.

(** The loop of [capture_one_frame], with the reassembler's buffer. *)
Fixpoint capture_loop (fuel : nat) (buf : bytes) : io sock exn bytes :=
  match fuel with
  | O => fun s => (Blocked, s)
  | S fuel =>
      do (header, body) <- read_packet;
      if Header.type header =? OP_VIDEO_FRAGMENT then
        do (frag_num, _, _, data) <- io_lift (parse_video_fragment body);
        match feed frag_num data buf with
        | (Ret (Some frame), _) => io_ret frame
        | (Ret None, buf) => capture_loop fuel buf
        | (Raise e, _) => io_raise e
        | (Blocked, _) => fun s => (Blocked, s)
        end
      else if Header.type header =? OP_STOP_SESSION_IMMEDIATE then
        io_raise (Ikvm (stop_session_error (Header.status header) None))
      else capture_loop fuel buf
  end.

Definition capture_one_frame (frame_timeout_ms : Z) (request_refresh : bool) : io sock exn bytes :=
  run io_modify (set_timeout (Some frame_timeout_ms));
  run (if request_refresh then write_packet build_refresh_video_screen else io_ret tt);
  do s <- io_get;
  capture_loop (script_fuel s) [].

(** ** Lemmas *)

Module IvtpHeaderFacts.
Import Header.

Lemma ivtp_length_marshal h : length (marshal h) = HEADER_LEN.
Proof. unfold marshal. by rewrite !length_app, !length_le_bytes. Qed.

Lemma from_le_fixed n z : 0 <= z < 256 ^ Z.of_nat n -> from_le (le_bytes n z) = z.
Proof. intros. rewrite from_le_le_bytes. by apply Z.mod_small. Qed.

Lemma u16_bound z : 0 <= u16 z < 2 ^ 16.
Proof. rewrite u16_mod. by apply Z.mod_pos_bound. Qed.
Lemma u32_bound z : 0 <= u32 z < 2 ^ 32.
Proof. rewrite u32_mod. by apply Z.mod_pos_bound. Qed.

Lemma ivtp_parse_marshal_app h rest : parse (marshal h ++ rest) = Ok (truncate h).
Proof.
  unfold parse. rewrite length_app, ivtp_length_marshal.
  replace (HEADER_LEN + length rest <? HEADER_LEN)%nat with false by (symmetry; apply Nat.ltb_ge; lia).
  unfold truncate, slice, marshal.
  rewrite <- !app_assoc.
  set (a := le_bytes 2 (u16 (type h))). set (b := le_bytes 4 (u32 (pkt_size h))).
  set (c := le_bytes 2 (u16 (status h))).
  assert (length a = 2 /\ length b = 4 /\ length c = 2)%nat as (Ha & Hb & Hc)
    by (unfold a, b, c; by rewrite !length_le_bytes).
  rewrite drop_0. rewrite take_app_length' by lia.
  rewrite (drop_app_length' a) by lia. rewrite take_app_length' by lia.
  rewrite (app_assoc a b), (drop_app_length' (a ++ b)) by (rewrite length_app; lia).
  rewrite take_app_length' by lia. unfold a, b, c.
  rewrite !from_le_fixed; [done|apply u16_bound|apply u32_bound|apply u16_bound].
Qed.

Lemma ivtp_truncate_wf h : wf h -> truncate h = h.
Proof.
  intros (H1 & H2 & H3). destruct h as [t p s]. unfold truncate. cbn in *.
  rewrite !u16_mod, u32_mod, !Z.mod_small; done.
Qed.
End IvtpHeaderFacts.

(** A packet as the peer sends it. *)
Definition packet_wf (p : Header.t * bytes) : Prop :=
  Header.wf p.1 /\ Header.pkt_size p.1 = blen p.2 /\ blen p.2 <= MAX_FRAME_BYTES.
Definition packet_atoms (p : Header.t * bytes) : list atom := map AByte (Header.marshal p.1 ++ p.2).
Definition packets_atoms (l : list (Header.t * bytes)) : list atom := concat (map packet_atoms l).

Lemma ivtp_recv_all n bs a s :
  closed s = false -> length bs = n -> atoms (rx s) = map AByte bs ++ a ->
  exists r, ivtp_recv_exact n s = (Ret bs, set_rx s r) /\ atoms r = a.
Proof.
  intros Hc Hl Ha. unfold ivtp_recv_exact.
  destruct (recv_exact_pull ivtp_on_timeout ivtp_on_os_error ivtp_on_eof n s Hc) as (r & H1 & H2).
  rewrite Ha, pull_exact in H1, H2 by done. rewrite H1. by exists r.
Qed.

Lemma read_packet_ok s p a :
  closed s = false -> packet_wf p -> atoms (rx s) = packet_atoms p ++ a ->
  exists r, read_packet s = (Ret p, set_rx s r) /\ atoms r = a.
Proof.
  destruct p as [h body]. intros Hc (Hwf & Hlen & Hmax) Ha. unfold packet_atoms in Ha. cbn [fst snd] in *.
  rewrite map_app, <- app_assoc in Ha.
  destruct (ivtp_recv_all HEADER_LEN _ _ s Hc (IvtpHeaderFacts.ivtp_length_marshal h) Ha) as (r1 & H1 & Ha1).
  unfold read_packet, io_bind. rewrite H1.
  pose proof (IvtpHeaderFacts.ivtp_parse_marshal_app h []) as Hp. rewrite app_nil_r, IvtpHeaderFacts.ivtp_truncate_wf in Hp by done.
  rewrite Hp. cbn [io_lift]. unfold io_ret. rewrite Hlen.
  replace (MAX_FRAME_BYTES <? blen body) with false by (symmetry; apply Z.ltb_ge; lia).
  destruct (blen body =? 0) eqn:E; bool_to_prop.
  - destruct body; [|unfold blen in E; cbn in E; lia]. by exists r1.
  - destruct (ivtp_recv_all (Z.to_nat (blen body)) body a (set_rx s r1)) as (r2 & H2 & Ha2);
      [done|unfold blen; lia|done|].
    rewrite H2. by exists r2.
Qed.

Lemma write_packet_ok s data :
  closed s = false -> send s = [] ->
  write_packet data s = (Ret tt, mkSock (rx s) [] (tx s ++ [data]) (poll s) false).
Proof. intros Hc Hs. unfold write_packet, ivtp_send_all, sendall. by rewrite Hc, Hs. Qed.

Lemma length_packet_atoms p : (HEADER_LEN <= length (packet_atoms p))%nat.
Proof. unfold packet_atoms. rewrite length_map, length_app, IvtpHeaderFacts.ivtp_length_marshal. lia. Qed.

Lemma length_packets_atoms l : (length l <= length (packets_atoms l))%nat.
Proof.
  induction l as [|p l IH]; cbn; [done|]. rewrite length_app. unfold packets_atoms in IH.
  pose proof (length_packet_atoms p). unfold HEADER_LEN in *. lia.
Qed.

(** Packets the handshake ignores, and packets the capture ignores. *)
Definition tolerated (p : Header.t * bytes) : Prop :=
  Header.type p.1 <> OP_VALIDATE_VIDEO_SESSION_RESPONSE /\ Header.type p.1 <> OP_STOP_SESSION_IMMEDIATE.
Definition not_video (p : Header.t * bytes) : Prop :=
  Header.type p.1 <> OP_VIDEO_FRAGMENT /\ Header.type p.1 <> OP_STOP_SESSION_IMMEDIATE.

(** After any number of tolerated packets, the next one decides. *)
Lemma await_response_skip noise p a fuel s :
  closed s = false -> Forall packet_wf noise -> Forall tolerated noise -> packet_wf p -> ~ tolerated p ->
  atoms (rx s) = packets_atoms noise ++ packet_atoms p ++ a -> (length noise < fuel)%nat ->
  exists r, atoms r = a /\
    await_response fuel s
    = (if Header.type p.1 =? OP_VALIDATE_VIDEO_SESSION_RESPONSE then
         match parse_validate_video_session_response p.2 with Ok x => Ret x | Err e => Raise e end
       else Raise (Ikvm (stop_session_error (Header.status p.1) None)), set_rx s r).
Proof.
  intros Hc Hn Ht Hp Hnt. revert fuel s Hc.
  induction noise as [|q noise IH]; intros fuel s Hc Ha Hf; (destruct fuel as [|fuel]; [cbn in Hf; lia|]).
  - destruct (read_packet_ok s p a Hc Hp Ha) as (r & Hr & Hra). exists r. split; [done|].
    cbn [await_response]. unfold io_bind. rewrite Hr. destruct p as [h body]. cbn [fst snd] in *.
    destruct (Header.type h =? OP_VALIDATE_VIDEO_SESSION_RESPONSE) eqn:E1.
    { by destruct (parse_validate_video_session_response body). }
    destruct (Header.type h =? OP_STOP_SESSION_IMMEDIATE) eqn:E2; [done|].
    bool_to_prop. exfalso. by apply Hnt.
  - apply Forall_cons in Hn as [Hq Hn]. apply Forall_cons in Ht as [[Hq1 Hq2] Ht]. cbn [length] in Hf.
    change (packets_atoms (q :: noise)) with (packet_atoms q ++ packets_atoms noise) in Ha.
    rewrite <- app_assoc in Ha.
    destruct (read_packet_ok s q _ Hc Hq Ha) as (r & Hr & Hra).
    cbn [await_response]. unfold io_bind. rewrite Hr. destruct q as [h body]. cbn [fst snd] in *.
    apply Z.eqb_neq in Hq1, Hq2. rewrite Hq1, Hq2.
    destruct (IH Hn Ht fuel (set_rx s r)) as (r' & Hr' & Hw); [done|done|lia|]. by exists r'.
Qed.

(** *** Fragments *)

(** The fragments of one frame: numbered from zero, the last one marked. *)
Fixpoint numbered_from (i : Z) (parts : list bytes) : list (Z * bytes) :=
  match parts with
  | [] => []
  | [p] => [(i + FRAG_LAST_BIT, p)]
  | p :: parts => (i, p) :: numbered_from (i + 1) parts
  end.
Definition numbered : list bytes -> list (Z * bytes) := numbered_from 0.

Definition frag_packet (f : Z * bytes) : Header.t * bytes :=
  ({| Header.type := OP_VIDEO_FRAGMENT; Header.pkt_size := 2 + blen f.2; Header.status := 0 |},
   le_bytes 2 f.1 ++ f.2).
Definition frag_ok (f : Z * bytes) : Prop := 0 <= f.1 < 2 ^ 16.

(** Fragments fed one after another until a frame is complete. *)
Fixpoint feed_all (fs : list (Z * bytes)) (buf : bytes) : outcome exn (option bytes) :=
  match fs with
  | [] => Ret None
  | (n, d) :: fs =>
      match feed n d buf with
      | (Ret (Some frame), _) => Ret (Some frame)
      | (Ret None, buf) => feed_all fs buf
      | (Raise e, _) => Raise e
      | (Blocked, _) => Blocked
      end
  end.

Lemma frag_is_first_mod n : frag_is_first n = (n mod 2 ^ 15 =? 0).
Proof. unfold frag_is_first, FRAG_NUM_MASK. change 0x7FFF with (Z.ones 15). by rewrite Z.land_ones by lia. Qed.

Lemma frag_is_last_bit n : frag_is_last n = Z.testbit n 15.
Proof.
  unfold frag_is_last, FRAG_LAST_BIT. change 0x8000 with (2 ^ 15).
  destruct (Z.testbit n 15) eqn:E.
  - apply negb_true_iff, Z.eqb_neq. intros H. apply (f_equal (fun z => Z.testbit z 15)) in H.
    rewrite Z.land_spec, E, Z.pow2_bits_true, Z.bits_0 in H by lia. done.
  - apply negb_false_iff, Z.eqb_eq, Z.bits_inj'. intros k Hk.
    rewrite Z.land_spec, Z.bits_0. destruct (decide (k = 15)) as [->|Hne]; [by rewrite E|].
    rewrite Z.pow2_bits_false by lia. apply andb_false_r.
Qed.

Lemma frag_last_small n : 0 <= n < 2 ^ 15 -> frag_is_last n = false /\ frag_is_last (n + FRAG_LAST_BIT) = true.
Proof.
  intros Hn. rewrite !frag_is_last_bit. unfold FRAG_LAST_BIT. split.
  - rewrite Z.testbit_false by lia. by rewrite Z.div_small by lia.
  - rewrite Z.testbit_true by lia. replace (n + 0x8000) with (n + 1 * 2 ^ 15) by lia.
    rewrite Z.div_add, Z.div_small by lia. done.
Qed.

Lemma frag_first_small n :
  0 <= n < 2 ^ 15 -> frag_is_first n = (n =? 0) /\ frag_is_first (n + FRAG_LAST_BIT) = (n =? 0).
Proof.
  intros Hn. rewrite !frag_is_first_mod. unfold FRAG_LAST_BIT.
  replace (n + 0x8000) with (n + 1 * 2 ^ 15) by lia. rewrite Z.mod_add, Z.mod_small by lia. done.
Qed.

(** One fragment that fits. *)
Lemma feed_fits n d buf :
  blen (if frag_is_first n then [] else buf) + blen d <= MAX_FRAME_BYTES ->
  feed n d buf = (let b := (if frag_is_first n then [] else buf) ++ d in
                  if frag_is_last n then (Ret (Some b), []) else (Ret None, b)).
Proof.
  intros Hl. unfold feed.
  replace (MAX_FRAME_BYTES <? blen (if frag_is_first n then [] else buf) + blen d) with false
    by (symmetry; apply Z.ltb_ge; lia).
  by destruct (frag_is_last n).
Qed.

(** Continuation fragments extend the buffer up to the marked one. *)
Lemma feed_all_numbered parts i buf :
  0 <= i -> i + blen parts <= 2 ^ 15 -> parts <> [] ->
  blen (if i =? 0 then [] else buf) + blen (concat parts) <= MAX_FRAME_BYTES ->
  feed_all (numbered_from i parts) buf = Ret (Some ((if i =? 0 then [] else buf) ++ concat parts)).
Proof.
  revert i buf. induction parts as [|p parts IH]; intros i buf Hi Hn Hne Hsz; [done|].
  pose proof (blen_nonneg parts) as Hpl.
  rewrite (blen_app [p] parts : blen (p :: parts) = _) in Hn. change (blen [p]) with 1 in Hn.
  cbn [concat] in *. rewrite blen_app in Hsz. pose proof (blen_nonneg (concat parts)) as Hcl.
  destruct (frag_last_small i ltac:(lia)) as [L1 L2], (frag_first_small i ltac:(lia)) as [F1 F2].
  destruct parts as [|p' parts'].
  - cbn [numbered_from feed_all]. rewrite feed_fits by (rewrite F2; lia).
    rewrite F2, L2. cbn. by rewrite app_nil_r.
  - change (numbered_from i (p :: p' :: parts')) with ((i, p) :: numbered_from (i + 1) (p' :: parts')).
    set (parts := p' :: parts') in *. cbn [feed_all].
    rewrite feed_fits by (rewrite F1; lia). rewrite F1, L1. cbv zeta iota beta.
    rewrite IH; [|lia|lia|done|].
    + replace (i + 1 =? 0) with false by (symmetry; apply Z.eqb_neq; lia). by rewrite <- app_assoc.
    + replace (i + 1 =? 0) with false by (symmetry; apply Z.eqb_neq; lia). rewrite blen_app. lia.
Qed.

Lemma numbered_from_ok parts i :
  0 <= i -> i + blen parts <= 2 ^ 15 -> Forall frag_ok (numbered_from i parts).
Proof.
  revert i. induction parts as [|p parts IH]; intros i Hi Hn; cbn [numbered_from]; [constructor|].
  rewrite (blen_app [p] parts : blen (p :: parts) = _) in Hn. change (blen [p]) with 1 in Hn.
  pose proof (blen_nonneg parts). destruct parts as [|p' parts'].
  - apply Forall_singleton. unfold frag_ok, FRAG_LAST_BIT. cbn [fst]. lia.
  - constructor; [unfold frag_ok; cbn [fst]; lia|]. apply IH; lia.
Qed.

(** Leftovers of an earlier frame do not survive the first fragment of the next. *)
Lemma feed_all_stale stale parts buf :
  Forall (fun f => frag_is_last f.1 = false) stale ->
  blen buf + blen (concat stale.*2) <= MAX_FRAME_BYTES ->
  blen parts <= 2 ^ 15 -> parts <> [] -> blen (concat parts) <= MAX_FRAME_BYTES ->
  feed_all (stale ++ numbered parts) buf = Ret (Some (concat parts)).
Proof.
  intros Hs. revert buf. induction Hs as [|[n d] stale Hn Hs IH]; intros buf Hb Hp Hne Hsz.
  - apply (feed_all_numbered parts 0 buf); [lia|lia|done|done].
  - cbn in Hn. rewrite fmap_cons in Hb. cbn [concat snd] in Hb. rewrite blen_app in Hb.
    pose proof (blen_nonneg (concat stale.*2)). pose proof (blen_nonneg buf). pose proof (blen_nonneg d).
    assert (blen (if frag_is_first n then [] else buf) <= blen buf) as Hle
      by (destruct (frag_is_first n); [done|lia]).
    cbn [app feed_all]. rewrite feed_fits by lia. rewrite Hn. cbv zeta iota beta.
    apply IH; [rewrite blen_app; lia|done..].
Qed.

Lemma parse_frag_packet f :
  frag_ok f ->
  parse_video_fragment (frag_packet f).2 = Ok (f.1, frag_is_first f.1, frag_is_last f.1, f.2).
Proof.
  destruct f as [n d]. unfold frag_ok. cbn [fst snd frag_packet]. intros Hn. unfold parse_video_fragment.
  rewrite length_app, length_le_bytes.
  replace (2 + length d <? 2)%nat with false by (symmetry; apply Nat.ltb_ge; lia).
  unfold slice. rewrite drop_0, take_app_length' by (by rewrite length_le_bytes).
  rewrite drop_app_length' by (by rewrite length_le_bytes).
  rewrite IvtpHeaderFacts.from_le_fixed; [done|]. cbn. lia.
Qed.

Definition is_video (p : Header.t * bytes) : bool := Header.type p.1 =? OP_VIDEO_FRAGMENT.

(** The capture loop feeds the video fragments of the stream in order,
    whatever other packets are between them. *)
Lemma capture_loop_feeds l fs fuel buf frame s a :
  closed s = false -> Forall packet_wf l ->
  Forall (fun p => Header.type p.1 <> OP_STOP_SESSION_IMMEDIATE) l ->
  Forall frag_ok fs -> List.filter is_video l = map frag_packet fs ->
  feed_all fs buf = Ret (Some frame) ->
  atoms (rx s) = packets_atoms l ++ a -> (length l < fuel)%nat ->
  (capture_loop fuel buf s).1 = Ret frame.
Proof.
  intros Hc Hw. revert fs fuel buf s Hc.
  induction Hw as [|p l Hp Hw IH]; intros fs fuel buf s Hc Hs Hfo Hf Hfeed Ha Hfuel.
  { destruct fs; [|done]. done. }
  apply Forall_cons in Hs as [Hp1 Hs]. destruct fuel as [|fuel]; [cbn in Hfuel; lia|]. cbn [length] in Hfuel.
  change (packets_atoms (p :: l)) with (packet_atoms p ++ packets_atoms l) in Ha. rewrite <- app_assoc in Ha.
  destruct (read_packet_ok s p _ Hc Hp Ha) as (r & Hr & Hra).
  cbn [capture_loop]. unfold io_bind. rewrite Hr. cbn [List.filter] in Hf. unfold is_video in Hf at 1.
  destruct p as [h body]. cbn [fst snd] in *.
  destruct (Header.type h =? OP_VIDEO_FRAGMENT) eqn:Hv.
  - destruct fs as [|f fs]; [done|]. cbn [map] in Hf.
    assert ((h, body) = frag_packet f /\ List.filter is_video l = map frag_packet fs) as [Hh Hf']
      by (split; [exact (f_equal (hd (h, body)) Hf)|exact (f_equal (@tl _) Hf)]).
    apply Forall_cons in Hfo as [Hfk Hfo].
    pose proof (parse_frag_packet f Hfk) as Hpf. rewrite <- Hh in Hpf. cbn [snd] in Hpf.
    rewrite Hpf. cbn [io_lift]. unfold io_ret. destruct f as [n d]. cbn [feed_all fst snd] in *.
    destruct (feed n d buf) as [[[fr|]|e|] buf']; [|..|done|done].
    + by injection Hfeed as ->.
    + apply (IH fs); [done..|lia].
  - apply Z.eqb_neq in Hp1. rewrite Hp1. apply (IH fs); [done..|lia].
Qed.

(** *** Fixed-width fields *)

Lemma fixed_ascii_spec v w field op :
  fixed_ascii v w field op
  = match encode_ascii v with
    | None => Err (UnicodeEncodeError (ascii_error v))
    | Some _ =>
        if (length v <=? w)%nat then Ok (v ++ zeros (w - length v))
        else raise_ikvm (ProtocolError
          ($"ivtp: " ++ field ++ $" (" ++ dec (blen v) ++ $" bytes) does not fit in its "
           ++ dec (Z.of_nat w) ++ $"-byte fixed-width field") None op)
    end.
Proof.
  unfold fixed_ascii, encode_ascii_exn. destruct (encode_ascii v) as [b|] eqn:E; [|done].
  apply encode_ascii_some in E as ->. cbn [rbind]. rewrite Nat.leb_antisym.
  by destruct (w <? length v)%nat.
Qed.

Definition fits_field (v : text) (w : nat) : bool :=
  match encode_ascii v with Some _ => (length v <=? w)%nat | None => false end.

(** [v] padded to [w]. *)
Definition padded (v : text) (w : nat) : bytes := v ++ zeros (w - length v).

Lemma length_padded v w : (length v <= w)%nat -> length (padded v w) = w.
Proof. intros. unfold padded. rewrite length_app, length_zeros. lia. Qed.

Lemma fits_field_length v w : fits_field v w = true -> (length v <= w)%nat.
Proof. unfold fits_field. destruct (encode_ascii v); [|done]. by intros ?%Nat.leb_le. Qed.

Lemma fixed_ascii_fits v w field op : fits_field v w = true -> fixed_ascii v w field op = Ok (padded v w).
Proof. rewrite fixed_ascii_spec. unfold fits_field. destruct (encode_ascii v); [|done]. by intros ->. Qed.

Lemma fixed_ascii_unfit v w field op :
  fits_field v w = false ->
  exists e, fixed_ascii v w field op = Err e /\ match e with Ikvm _ | UnicodeEncodeError _ => True | _ => False end.
Proof.
  rewrite fixed_ascii_spec. unfold fits_field. destruct (encode_ascii v); [|by eexists].
  intros ->. by eexists.
Qed.

(** *** Streams that end *)

(** A stream that ends, by a close or an error of the peer's making, leaves
    no reader waiting: [prompt c] says so of a computation, and that it reads
    no byte twice. *)
Definition stream_ends (s : sock) : Prop := AEof ∈ atoms (rx s).
Definition prompt {A} (c : io sock exn A) : Prop := forall s, stream_ends s ->
  (c s).1 <> Blocked /\ stream_ends (c s).2 /\ (length (atoms (rx (c s).2)) <= length (atoms (rx s)))%nat.

Lemma prompt_ret {A} (x : A) : prompt (io_ret x).
Proof. by intros s. Qed.
Lemma prompt_raise {A} e : prompt (io_raise (A := A) e).
Proof. by intros s. Qed.
Lemma prompt_lift {A} (r : result exn A) : prompt (io_lift r).
Proof. by destruct r; intros s. Qed.
Lemma prompt_bind {A B} (c : io sock exn A) (k : A -> io sock exn B) : prompt c -> (forall x, prompt (k x)) -> prompt (io_bind c k).
Proof.
  intros Hc Hk s Hs. unfold io_bind. destruct (Hc s Hs) as (H1 & H2 & H3). destruct (c s) as [[x|e|] s1]; [|done..].
  cbn [fst snd] in *. destruct (Hk x s1 H2) as (H4 & H5 & H6). split_and!; [done..|lia].
Qed.
Lemma prompt_write data : prompt (write_packet data).
Proof. intros s Hs. unfold write_packet, ivtp_send_all, sendall. destruct (closed s); [done|]. by destruct (send s) as [|[m|] q]. Qed.
Lemma prompt_timeout t : prompt (io_modify (set_timeout t)).
Proof. by intros s. Qed.

(** A successful exact read takes its bytes. *)
Lemma recv_prompt n s : stream_ends s ->
  let r := ivtp_recv_exact n s in
  r.1 <> Blocked /\ stream_ends r.2 /\ (length (atoms (rx r.2)) <= length (atoms (rx s)))%nat /\
  forall b, r.1 = Ret b -> length (atoms (rx s)) = (n + length (atoms (rx r.2)))%nat.
Proof.
  intros Hs. destruct (closed s) eqn:Hc.
  - assert (n = 0 \/ (ivtp_recv_exact n s) = (Raise (ivtp_on_os_error EBADF), s))%nat as [->|Hr].
    { destruct n as [|n]; [by left|right]. unfold ivtp_recv_exact, recv_exact. cbn [Nat.eqb recv_loop]. unfold recv. by rewrite Hc. }
    + by cbn.
    + cbn zeta. by rewrite Hr.
  - destruct (recv_exact_pull ivtp_on_timeout ivtp_on_os_error ivtp_on_eof n s Hc) as (r & Hr & Ha). unfold ivtp_recv_exact. cbn zeta.
    rewrite Hr. cbn [fst snd rx set_rx]. unfold stream_ends. cbn [rx set_rx]. rewrite Ha.
    destruct (pull_eof ivtp_on_timeout ivtp_on_os_error ivtp_on_eof n n [] (atoms (rx s)) Hs) as [H1 H2].
    destruct (pull_consumed ivtp_on_timeout ivtp_on_os_error ivtp_on_eof n n [] (atoms (rx s))) as (H3 & H4 & _).
    split_and!; [done..|]. intros b Hb. destruct (H4 b Hb) as (c & _ & <- & Hd). rewrite Hd at 1. by rewrite length_app, length_map.
Qed.

Lemma prompt_recv n : prompt (ivtp_recv_exact n).
Proof. intros s Hs. destruct (recv_prompt n s Hs) as (H1 & H2 & H3 & _). by split_and!. Qed.

#[local] Hint Resolve prompt_ret prompt_raise prompt_lift prompt_bind prompt_write prompt_timeout prompt_recv : ikvm.

(** A packet that was read took at least its header. *)
Lemma read_packet_prompt s : stream_ends s ->
  (read_packet s).1 <> Blocked /\ stream_ends (read_packet s).2 /\
  (length (atoms (rx (read_packet s).2)) <= length (atoms (rx s)))%nat /\
  forall p, (read_packet s).1 = Ret p -> (length (atoms (rx (read_packet s).2)) < length (atoms (rx s)))%nat.
Proof.
  intros Hs. assert (exists k, read_packet = io_bind (ivtp_recv_exact HEADER_LEN) k /\ forall x, prompt (k x)) as (k & -> & Hk).
  { eexists. split; [reflexivity|]. intros hdr. apply prompt_bind; [apply prompt_lift|]. intros h.
    destruct (MAX_FRAME_BYTES <? _); [apply prompt_raise|].
    apply prompt_bind; [destruct (_ =? 0); auto with ikvm|]. intros b. apply prompt_ret. }
  unfold io_bind. destruct (recv_prompt HEADER_LEN s Hs) as (H1 & H2 & H3 & H4).
  destruct (ivtp_recv_exact HEADER_LEN s) as [[hdr|e|] s1]; cbn [fst snd] in *; [|by split_and!..].
  specialize (H4 hdr eq_refl). unfold HEADER_LEN in H4. destruct (Hk hdr s1 H2) as (H5 & H6 & H7).
  split_and!; [done|done|lia|]. intros p _. lia.
Qed.

Lemma await_prompt fuel s : stream_ends s -> (length (atoms (rx s)) < fuel)%nat ->
  (await_response fuel s).1 <> Blocked /\ stream_ends (await_response fuel s).2 /\
  (length (atoms (rx (await_response fuel s).2)) <= length (atoms (rx s)))%nat.
Proof.
  revert s. induction fuel as [|fuel IH]; intros s Hs Hf; [lia|]. cbn [await_response]. unfold io_bind at 1 2 3.
  destruct (read_packet_prompt s Hs) as (H1 & H2 & H3 & H4). destruct (read_packet s) as [[[header body]|e|] s1]; [|by split_and!..].
  cbn [fst snd] in *. specialize (H4 _ eq_refl).
  destruct (_ =? OP_VALIDATE_VIDEO_SESSION_RESPONSE); [destruct (parse_validate_video_session_response body); by split_and!|].
  destruct (_ =? OP_STOP_SESSION_IMMEDIATE); [by split_and!|]. destruct (IH s1 H2 ltac:(lia)) as (H5 & H6 & H7). split_and!; [done..|lia].
Qed.

Lemma capture_prompt fuel buf s : stream_ends s -> (length (atoms (rx s)) < fuel)%nat ->
  (capture_loop fuel buf s).1 <> Blocked /\ stream_ends (capture_loop fuel buf s).2 /\
  (length (atoms (rx (capture_loop fuel buf s).2)) <= length (atoms (rx s)))%nat.
Proof.
  revert buf s. induction fuel as [|fuel IH]; intros buf s Hs Hf; [lia|]. cbn [capture_loop]. unfold io_bind at 1 3 5.
  destruct (read_packet_prompt s Hs) as (H1 & H2 & H3 & H4). destruct (read_packet s) as [[[header body]|e|] s1]; [|by split_and!..].
  cbn [fst snd] in *. specialize (H4 _ eq_refl).
  assert (forall b, (capture_loop fuel b s1).1 <> Blocked /\ stream_ends (capture_loop fuel b s1).2 /\
    (length (atoms (rx (capture_loop fuel b s1).2)) <= length (atoms (rx s)))%nat) as Hn.
  { intros b. destruct (IH b s1 H2 ltac:(lia)) as (H5 & H6 & H7). split_and!; [done..|lia]. }
  destruct (_ =? OP_VIDEO_FRAGMENT).
  - unfold io_bind. destruct (parse_video_fragment body) as [[[[n x] y] data]|e]; [|by split_and!]. cbn [io_lift]. unfold io_ret at 1 3 5.
    unfold feed. destruct (MAX_FRAME_BYTES <? _); [by split_and!|]. destruct (frag_is_last n); [by split_and!|apply Hn].
  - destruct (_ =? OP_STOP_SESSION_IMMEDIATE); [by split_and!|apply Hn].
Qed.

Lemma prompt_await {A} (k : Z * option Z -> io sock exn A) :
  (forall x, prompt (k x)) -> prompt (do s <- io_get; do x <- await_response (script_fuel s); k x).
Proof.
  intros Hk s Hs. unfold io_bind, io_get. destruct (await_prompt (script_fuel s) s Hs ltac:(unfold script_fuel; lia)) as (H1 & H2 & H3).
  destruct (await_response (script_fuel s) s) as [[x|e|] s1]; cbn [fst snd] in *; [|by split_and!..].
  destruct (Hk x s1 H2) as (H4 & H5 & H6). split_and!; [done..|lia].
Qed.

(** The handshake and the capture of a frame end whenever the stream does,
    and so their fuel suffices. *)
Lemma open_channel_prompt token ip user tmo web : prompt (open_channel token ip user tmo web).
Proof.
  apply prompt_bind; [apply prompt_timeout|]. intros _. apply prompt_bind.
  { intros s Hs. destruct (read_packet_prompt s Hs) as (H1 & H2 & H3 & _). by split_and!. }
  intros [header body]. destruct (negb _); [apply prompt_raise|].
  apply prompt_bind; [unfold announce_token; destruct web; auto with ikvm|]. intros _.
  apply prompt_bind; [apply prompt_lift|]. intros p. apply prompt_bind; [apply prompt_write|]. intros _.
  apply prompt_await. intros [status sub]. destruct (negb _); [apply prompt_raise|].
  apply prompt_bind; [apply prompt_write|]. intros _. apply prompt_ret.
Qed.

Lemma capture_frame_prompt tmo refresh : prompt (capture_one_frame tmo refresh).
Proof.
  apply prompt_bind; [apply prompt_timeout|]. intros _. apply prompt_bind; [destruct refresh; auto with ikvm|]. intros _.
  intros s Hs. unfold io_bind, io_get. apply capture_prompt; [done|]. unfold script_fuel. lia.
Qed.

(** *** What is written

    Of the packets a socket is asked to send, those get through whose write
    does not fail. *)
Fixpoint delivered (l : list bytes) (script : list (option text)) : list bytes :=
  match l, script with
  | [], _ => []
  | _ :: l, Some _ :: q => delivered l q
  | x :: l, None :: q => x :: delivered l q
  | x :: l, [] => x :: delivered l []
  end.

Lemma delivered_app a b q : delivered (a ++ b) q = delivered a q ++ delivered b (drop (length a) q).
Proof.
  revert q. induction a as [|x a IH]; intros q; [done|].
  destruct q as [|[m|] q]; cbn [app delivered length drop]; rewrite IH; [|done..]. by rewrite drop_nil.
Qed.

(** [s'] is [s] after the writes [l]. *)
Definition wrote (s s' : sock) (l : list bytes) : Prop :=
  closed s' = false /\ tx s' = tx s ++ delivered l (send s) /\ send s' = drop (length l) (send s).
Definition writes {A} (c : io sock exn A) : Prop :=
  forall s, closed s = false -> exists l, wrote s (c s).2 l.

Lemma wrote_nothing s s' : closed s' = false -> tx s' = tx s -> send s' = send s -> exists l, wrote s s' l.
Proof. intros. exists []. split_and!; [done|by rewrite app_nil_r|done]. Qed.
Lemma wrote_trans s s1 s2 a b : wrote s s1 a -> wrote s1 s2 b -> wrote s s2 (a ++ b).
Proof.
  intros (H1 & H2 & H3) (G1 & G2 & G3). split_and!; [done| |].
  - rewrite G2, H2, H3, delivered_app, app_assoc. done.
  - by rewrite G3, H3, drop_drop, length_app.
Qed.
Lemma wrote_packet s p : closed s = false -> wrote s (ivtp_send_all p s).2 [p].
Proof.
  intros Hc. unfold ivtp_send_all, sendall. rewrite Hc.
  destruct (send s) as [|[m|] q] eqn:E; split_and!; try done; cbn [snd send tx length delivered]; rewrite ?E; try done;
    cbn [delivered]; by rewrite ?app_nil_r.
Qed.

Lemma writes_ret {A} (x : A) : writes (io_ret x).
Proof. intros s Hs. by apply wrote_nothing. Qed.
Lemma writes_raise {A} e : writes (io_raise (A := A) e).
Proof. intros s Hs. by apply wrote_nothing. Qed.
Lemma writes_blocked {A} : writes (fun s => (@Blocked exn A, s)).
Proof. intros s Hs. by apply wrote_nothing. Qed.
Lemma writes_lift {A} (r : result exn A) : writes (io_lift r).
Proof. destruct r; intros s Hs; by apply wrote_nothing. Qed.
Lemma writes_timeout t : writes (io_modify (set_timeout t)).
Proof. intros s Hs. by apply wrote_nothing. Qed.
Lemma writes_bind {A B} (c : io sock exn A) (k : A -> io sock exn B) : writes c -> (forall x, writes (k x)) -> writes (io_bind c k).
Proof.
  intros Hc Hk s Hs. unfold io_bind. destruct (Hc s Hs) as (a & Ha). destruct (c s) as [[x|e|] s1]; cbn [snd] in *; [|by exists a..].
  destruct (Hk x s1 (proj1 Ha)) as (b & Hb). exists (a ++ b). by eapply wrote_trans.
Qed.
Lemma writes_get {A} (k : sock -> io sock exn A) : (forall s, writes (k s)) -> writes (io_bind io_get k).
Proof. intros Hk s Hs. by apply Hk. Qed.
Lemma writes_packet p : writes (write_packet p).
Proof. intros s Hs. exists [p]. by apply wrote_packet. Qed.
Lemma writes_recv n : writes (ivtp_recv_exact n).
Proof.
  unfold ivtp_recv_exact, recv_exact. destruct (n =? 0)%nat; [apply writes_ret|].
  assert (forall fuel chunks, writes (recv_loop ivtp_on_timeout ivtp_on_os_error ivtp_on_eof fuel n chunks)) as H; [|apply H].
  induction fuel as [|fuel IH]; intros chunks s Hs; cbn [recv_loop]; destruct (negb _); try by apply wrote_nothing.
  unfold recv. rewrite Hs. destruct (recv_rx _ (rx s)) as [[[|x b]| |m|] r]; try by apply wrote_nothing.
  apply (IH (chunks ++ x :: b) (set_rx s r) Hs).
Qed.
#[local] Hint Resolve writes_ret writes_raise writes_blocked writes_lift writes_timeout writes_bind writes_get writes_packet
  writes_recv : ikvm.

Lemma writes_read : writes read_packet.
Proof.
  apply writes_bind; [auto with ikvm|]. intros hdr. apply writes_bind; [auto with ikvm|]. intros h.
  destruct (_ <? _); [auto with ikvm|]. apply writes_bind; [destruct (_ =? _); auto with ikvm|auto with ikvm].
Qed.
Lemma writes_await fuel : writes (await_response fuel).
Proof.
  induction fuel as [|fuel IH]; [apply writes_blocked|]. cbn [await_response]. apply writes_bind; [apply writes_read|].
  intros [h body]. destruct (_ =? _); [auto with ikvm|]. destruct (_ =? _); auto with ikvm.
Qed.
Lemma writes_open token ip user tmo web : writes (open_channel token ip user tmo web).
Proof.
  apply writes_bind; [auto with ikvm|]. intros _. apply writes_bind; [apply writes_read|]. intros [h body].
  destruct (negb _); [auto with ikvm|]. apply writes_bind; [unfold announce_token; destruct web; auto with ikvm|]. intros _.
  apply writes_bind; [auto with ikvm|]. intros p. apply writes_bind; [auto with ikvm|]. intros _.
  apply writes_get. intros s. apply writes_bind; [apply writes_await|]. intros [status sub]. destruct (negb _); auto with ikvm.
Qed.
Lemma writes_capture tmo refresh : writes (capture_one_frame tmo refresh).
Proof.
  apply writes_bind; [auto with ikvm|]. intros _. apply writes_bind; [destruct refresh; auto with ikvm|]. intros _.
  apply writes_get. intros s. generalize (script_fuel s) as fuel, (@nil Z) as buf.
  induction fuel as [|fuel IH]; intros buf; [apply writes_blocked|]. cbn [capture_loop]. apply writes_bind; [apply writes_read|].
  intros [h body]. destruct (_ =? _).
  - apply writes_bind; [auto with ikvm|]. intros [[[n f] l] data]. destruct (feed n data buf) as [[[frame|]|e|] b]; auto with ikvm.
  - destruct (_ =? _); auto with ikvm.
Qed.

(** ** Properties *)

(** The packet header codec.  Marshalling gives eight bytes that parse back
    to the fields reduced to their widths, whatever follows; and a header
    parsed from well-formed bytes marshals to exactly the first eight of
    them, every short input being refused as a protocol error. *)
Theorem ivtp_header_codec :
  (forall h rest, length (Header.marshal h) = HEADER_LEN /\
     Header.parse (Header.marshal h ++ rest) = Ok (Header.truncate h)) /\
  (forall b, wf_bytes b ->
     match Header.parse b with
     | Ok h => Header.wf h /\ Header.marshal h = take 8 b
     | Err e => (length b < 8)%nat /\ exists err, e = Ikvm err /\ error_class err = PROTOCOL
     end).
Proof.
  split.
  { intros h rest. split; [apply IvtpHeaderFacts.ivtp_length_marshal|apply IvtpHeaderFacts.ivtp_parse_marshal_app]. }
  intros b Hb. unfold Header.parse. destruct (length b <? HEADER_LEN)%nat eqn:E; bool_to_prop.
  { cbn. split; [done|]. by eexists. }
  unfold HEADER_LEN in E.
  assert (forall i j, (i <= j)%nat -> (j <= 8)%nat ->
    wf_bytes (slice i j b) /\ length (slice i j b) = (j - i)%nat) as Hsl.
  { intros i j Hij Hj. split; [by apply wf_slice|]. unfold slice. rewrite length_take, length_drop. lia. }
  destruct (Hsl 0 2 ltac:(lia) ltac:(lia))%nat as [W1 L1], (Hsl 2 6 ltac:(lia) ltac:(lia))%nat as [W2 L2],
    (Hsl 6 8 ltac:(lia) ltac:(lia))%nat as [W3 L3].
  pose proof (from_le_bound _ W1) as B1. pose proof (from_le_bound _ W2) as B2.
  pose proof (from_le_bound _ W3) as B3. unfold blen in B1, B2, B3. rewrite L1 in B1. rewrite L2 in B2. rewrite L3 in B3.
  change (256 ^ Z.of_nat (2 - 0)) with 65536 in B1. change (256 ^ Z.of_nat (6 - 2)) with 4294967296 in B2.
  change (256 ^ Z.of_nat (8 - 6)) with 65536 in B3.
  split; [split_and!; cbn [Header.type Header.pkt_size Header.status]; lia|].
  unfold Header.marshal. cbn [Header.type Header.pkt_size Header.status].
  rewrite !u16_mod, u32_mod, !Z.mod_small by lia.
  pose proof (le_bytes_from_le _ W1) as R1. pose proof (le_bytes_from_le _ W2) as R2.
  pose proof (le_bytes_from_le _ W3) as R3. rewrite L1 in R1. rewrite L2 in R2. rewrite L3 in R3.
  cbn [Nat.sub] in R1, R2, R3. rewrite R1, R2, R3. unfold slice. cbn [Nat.sub]. rewrite drop_0.
  rewrite (slice_split b 0 2 6 : take 8 b = _). f_equal. by rewrite (slice_split b 2 4 2 : take 6 (drop (0 + 2) b) = _).
Qed.

(** The session-validation packet.  It is built exactly when the token fits
    129, the client address 65 and the user name 129 bytes of ASCII; it is
    then 332 bytes long, its header announces the 324-byte body, and each
    field lies at its fixed offset padded with zeros.  Otherwise the error is
    a protocol or an encoding error: the internal shape assertion never
    fires. *)
Theorem validate_packet_layout (token ip user : text) (tt_ : Z) :
  match build_validate_video_session token ip user tt_ with
  | Ok p =>
      fits_field token 129 && fits_field ip 65 && fits_field user 129 = true /\
      length p = 332%nat /\
      Header.parse p = Ok {| Header.type := 18; Header.pkt_size := 324; Header.status := 0 |} /\
      slice 8 9 p = [u8 tt_] /\ slice 9 138 p = token ++ zeros (129 - length token) /\
      slice 138 203 p = ip ++ zeros (65 - length ip) /\ slice 203 332 p = user ++ zeros (129 - length user)
  | Err e =>
      fits_field token 129 && fits_field ip 65 && fits_field user 129 = false /\
      match e with Ikvm _ | UnicodeEncodeError _ => True | _ => False end
  end.
Proof.
  unfold build_validate_video_session. change (TOKEN_FIELD_LEN - 1)%nat with 129%nat.
  change IP_FIELD_LEN with 65%nat. change USERNAME_FIELD_LEN with 129%nat.
  destruct (fits_field token 129) eqn:F1.
  2: { edestruct (fixed_ascii_unfit token) as (e & -> & He); [exact F1|]. by split. }
  rewrite fixed_ascii_fits by done. cbn [rbind].
  destruct (fits_field ip 65) eqn:F2.
  2: { edestruct (fixed_ascii_unfit ip) as (e & -> & He); [exact F2|]. by split. }
  rewrite fixed_ascii_fits by done. cbn [rbind].
  destruct (fits_field user 129) eqn:F3.
  2: { edestruct (fixed_ascii_unfit user) as (e & -> & He); [exact F3|]. by split. }
  rewrite fixed_ascii_fits by done. cbn [rbind].
  apply fits_field_length in F1, F2, F3.
  pose proof (length_padded _ _ F1) as L1. pose proof (length_padded _ _ F2) as L2. pose proof (length_padded _ _ F3) as L3.
  set (a := padded token 129) in *. set (b := padded ip 65) in *. set (c := padded user 129) in *.
  assert (length ((u8 tt_ :: a) ++ b ++ c) = 324)%nat as Hl
    by (rewrite !length_app; cbn [length]; lia).
  rewrite Hl. change (negb (324 =? VIDEO_PACKET_SIZE)%nat) with false. unfold blen. rewrite Hl.
  set (h := {| Header.type := _; Header.pkt_size := _; Header.status := 0 |}).
  pose proof (IvtpHeaderFacts.ivtp_length_marshal h) as Lh. unfold HEADER_LEN in Lh. split; [done|].
  split; [rewrite length_app; lia|]. split; [by rewrite IvtpHeaderFacts.ivtp_parse_marshal_app|].
  unfold slice. cbn [Nat.sub]. split_and!.
  - rewrite (drop_app_length' (Header.marshal h)) by lia. done.
  - change ((u8 tt_ :: a) ++ b ++ c) with ([u8 tt_] ++ a ++ b ++ c). rewrite (app_assoc (Header.marshal h)).
    rewrite drop_app_length' by (rewrite length_app; cbn; lia). by rewrite take_app_length' by lia.
  - rewrite (app_assoc (Header.marshal h) (u8 tt_ :: a)).
    rewrite drop_app_length' by (rewrite length_app; cbn; lia). by rewrite take_app_length' by lia.
  - rewrite (app_assoc (u8 tt_ :: a) b), (app_assoc (Header.marshal h)).
    rewrite drop_app_length' by (rewrite !length_app; cbn; lia). by rewrite take_ge by lia.
Qed.

(** ** What decides a handshake: the specification

    By the numbers on the wire: the status byte of the response (0, 3, 4 and
    5: the session or one of its tokens is invalid; 2: KVM disabled) and the
    reason of a stop message (7: web logout; 8: licence; 9: inactivity;
    10: another client). *)
Definition refusal_class (status : Z) : ErrorClass :=
  match status with
  | 0 | 3 | 4 | 5 => AUTHENTICATION
  | 2 => UNSUPPORTED_CAPABILITY
  | _ => PROTOCOL
  end.
Definition stop_class (reason : Z) : ErrorClass :=
  match reason with
  | 7 => AUTHENTICATION
  | 8 => UNSUPPORTED_CAPABILITY
  | 9 => TIMEOUT
  | 10 => INVALID_STATE
  | _ => REMOTE_OPERATION
  end.

(** The end of the handshake, as the decisive packet determines it: the facts,
    or the class of the error. *)
Definition handshake_verdict (greeting : bytes) (p : Header.t * bytes) : ChannelFacts + ErrorClass :=
  if Header.type p.1 =? 8 then inr (stop_class (Header.status p.1))
  else
    match p.2 with
    | 1 :: rest =>
        inl {| session_accepted := true; greeting_body_len := blen greeting; validate_status := 1;
               validate_status_name_ := $"valid_session"; validate_sub_status := head rest; resumed := true |}
    | status :: _ => inr (refusal_class status)
    | [] => inr PROTOCOL
    end.

(** The packets of the client, byte by byte: the token, the request (type 18,
    324 bytes: token type 0 and the three padded fields), and the resumption. *)
Definition token_packet (token : text) : bytes := [21; 0] ++ le_bytes 4 (blen token) ++ [0; 0] ++ token.
Definition request_packet (token ip user : text) : bytes :=
  [18; 0; 68; 1; 0; 0; 0; 0] ++ [0] ++ padded token 129 ++ padded ip 65 ++ padded user 129.
Definition handshake_sends (web_token : bool) (token ip user : text) (verdict : ChannelFacts + ErrorClass) : list bytes :=
  (if web_token then [token_packet token] else []) ++ [request_packet token ip user]
  ++ match verdict with inl _ => [[6; 0; 0; 0; 0; 0; 0; 0]] | inr _ => [] end.

Lemma refusal_class_ok status ep : status <> SESSION_VALID -> error_class (validate_status_error status ep) = refusal_class status.
Proof.
  intros Hv. unfold validate_status_error. cbv zeta. destruct (status =? SESSION_KVM_DISABLED) eqn:E2.
  { by apply Z.eqb_eq in E2 as ->. }
  destruct (existsb _ _) eqn:Ex.
  - apply existsb_exists in Ex as (x & Hx & Ex). apply Z.eqb_eq in Ex as ->. cbn in Hx. by destruct_or! Hx; subst.
  - cbn in Ex. rewrite !orb_false_iff, !Z.eqb_neq in Ex. apply Z.eqb_neq in E2. destruct Ex as (H0 & H3 & H4 & H5 & _).
    unfold SESSION_KVM_DISABLED, SESSION_INVALID, SESSION_INVALID_VIDEO_TOKEN, SESSION_INVALID_CDROM_TOKEN,
      SESSION_INVALID_FLOPPY_TOKEN in *. cbn [error_class].
    do 3 (try done; destruct status as [|[status|status|]|status]; try done).
Qed.

Lemma stop_class_ok reason ep : error_class (stop_session_error reason ep) = stop_class reason.
Proof.
  unfold stop_session_error, STOP_WEB_LOGOUT, STOP_LICENSE_EXPIRED, STOP_TIMED_OUT, STOP_KVM_DISCONNECT. cbv zeta.
  repeat match goal with |- context [reason =? ?k] => destruct (Z.eqb_spec reason k) as [->|?]; [done|] end.
  unfold stop_class. repeat match goal with |- context [match ?x with _ => _ end] => destruct x; try done end.
Qed.

Lemma token_packet_ok token : fits_field token 129 = true -> build_get_web_token token = Ok (token_packet token).
Proof.
  intros Hf. pose proof (fits_field_length _ _ Hf) as Hl. unfold fits_field in Hf. unfold build_get_web_token, encode_ascii_exn.
  destruct (encode_ascii token) as [b|] eqn:E; [|done]. apply encode_ascii_some in E as ->. cbn [rbind].
  unfold token_packet, Header.marshal. cbn [Header.type Header.pkt_size Header.status].
  rewrite u32_mod, Z.mod_small by (unfold blen; lia). by rewrite <- !app_assoc.
Qed.

Lemma request_packet_ok token ip user :
  fits_field token 129 = true -> fits_field ip 65 = true -> fits_field user 129 = true ->
  build_validate_video_session token ip user TOKEN_TYPE_WEB_SESSION = Ok (request_packet token ip user).
Proof.
  intros F1 F2 F3. unfold build_validate_video_session. change (TOKEN_FIELD_LEN - 1)%nat with 129%nat.
  change IP_FIELD_LEN with 65%nat. change USERNAME_FIELD_LEN with 129%nat.
  rewrite !fixed_ascii_fits by done. cbn [rbind].
  assert (length ((u8 TOKEN_TYPE_WEB_SESSION :: padded token 129) ++ padded ip 65 ++ padded user 129) = 324)%nat as Hl.
  { apply fits_field_length in F1, F2, F3. rewrite !length_app. cbn [length]. rewrite !length_padded by done. done. }
  unfold blen. rewrite Hl. done.
Qed.

(** C32: the KVM handshake.  After a SESSION_ACCEPTED greeting and any tolerated
    packets, delivered in any chunks, the first validation response or stop
    message decides: the facts are returned exactly on a valid status, every
    other status and every stop reason raises the error of its class; the
    packets sent are the token (when asked), the validation request and, only
    on success, RESUME_REDIRECTION, in this order and byte by byte; what
    follows the decisive packet stays unread.  The token, the address and the
    user name fit their fields, the writes succeed and a decisive packet does
    arrive; a peer that hangs up before is not covered here. *)
Theorem open_channel_outcome (token ip user : text) (tmo : Z) (web_token : bool)
    (g p : Header.t * bytes) (noise : list (Header.t * bytes)) (a : list atom) (s : sock) :
  closed s = false -> send s = [] ->
  packet_wf g -> Header.type g.1 = OP_SESSION_ACCEPTED ->
  Forall packet_wf noise -> Forall tolerated noise -> packet_wf p -> ~ tolerated p ->
  atoms (rx s) = packet_atoms g ++ packets_atoms noise ++ packet_atoms p ++ a ->
  fits_field token 129 = true -> fits_field ip 65 = true -> fits_field user 129 = true ->
  let verdict := handshake_verdict g.2 p in
  exists o s', open_channel token ip user tmo web_token s = (o, s') /\
    match verdict with
    | inl facts => o = Ret facts
    | inr class => exists err, o = Raise (Ikvm err) /\ error_class err = class
    end /\
    tx s' = tx s ++ handshake_sends web_token token ip user verdict /\
    atoms (rx s') = a /\ poll s' = Some tmo.
Proof.
  intros Hc Hs Hg Hgt Hn Ht Hp Hnt Ha F1 F2 F3 verdict. subst verdict.
  pose proof (token_packet_ok token F1) as Hwt. pose proof (request_packet_ok token ip user F1 F2 F3) as Hvp.
  set (wt := token_packet token) in *. set (vp := request_packet token ip user) in *.
  destruct (read_packet_ok (set_timeout (Some tmo) s) g _ Hc Hg Ha) as (r1 & H1 & Ha1).
  set (s1 := set_rx (set_timeout (Some tmo) s) r1) in *.
  set (s2 := mkSock r1 [] (tx s ++ (if web_token then [wt] else [])) (Some tmo) false).
  set (s3 := mkSock r1 [] (tx s2 ++ [vp]) (Some tmo) false).
  assert (announce_token web_token token s1 = (Ret tt, s2)) as H2.
  { unfold announce_token. destruct web_token.
    - rewrite Hwt. cbn [io_lift]. unfold io_bind, io_ret. by rewrite write_packet_ok.
    - unfold io_ret, s1, s2, set_rx, set_timeout. cbn. by rewrite app_nil_r, Hs, Hc. }
  assert (write_packet vp s2 = (Ret tt, s3)) as H3 by (by rewrite write_packet_ok).
  destruct (await_response_skip noise p a (script_fuel s3) s3) as (r4 & Ha4 & H4); try done.
  { unfold script_fuel. change (rx s3) with r1. rewrite Ha1, length_app.
    pose proof (length_packets_atoms noise). lia. }
  unfold open_channel, io_bind, io_modify. rewrite H1. destruct g as [gh gb]. cbn [fst snd] in *.
  rewrite Hgt. change (negb (OP_SESSION_ACCEPTED =? OP_SESSION_ACCEPTED)) with false. cbn iota.
  cbv beta. rewrite H2, Hvp. cbn [io_lift]. unfold io_ret, io_get. rewrite H3, H4.
  unfold handshake_verdict. destruct p as [h body]. unfold tolerated in Hnt. cbn [fst snd] in *.
  assert (tx s3 = tx s ++ (if web_token then [wt] else []) ++ [vp]) as Htx by (cbn; by rewrite <- app_assoc).
  assert (forall x, tx (set_rx s3 r4) ++ x = tx s ++ (if web_token then [wt] else []) ++ [vp] ++ x) as Htx4
    by (intros x; change (tx (set_rx s3 r4)) with (tx s3); by rewrite Htx, <- !app_assoc).
  unfold handshake_sends. fold wt vp.
  destruct (Header.type h =? OP_VALIDATE_VIDEO_SESSION_RESPONSE) eqn:E1.
  - apply Z.eqb_eq in E1. rewrite E1. change (OP_VALIDATE_VIDEO_SESSION_RESPONSE =? 8) with false. cbn iota.
    destruct body as [|status rest]; cbn [parse_validate_video_session_response rbind io_lift].
    { do 2 eexists. split; [done|]. split; [by eexists|]. rewrite <- Htx4, app_nil_r. by split_and!. }
    destruct (status =? SESSION_VALID) eqn:Ev; cbn [negb].
    + apply Z.eqb_eq in Ev as ->. rewrite write_packet_ok by done.
      do 2 eexists. split; [done|]. split; [done|]. rewrite <- Htx4. by split_and!.
    + apply Z.eqb_neq in Ev. do 2 eexists. split; [done|].
      assert ((match status with 1 => inl {| session_accepted := true; greeting_body_len := blen gb; validate_status := 1;
                 validate_status_name_ := $"valid_session"; validate_sub_status := head rest; resumed := true |}
               | _ => inr (refusal_class status) end) = inr (A := ChannelFacts) (refusal_class status)) as ->
        by (by destruct status as [|[]|]).
      split; [eexists; split; [done|by apply refusal_class_ok]|]. rewrite <- Htx4, app_nil_r. by split_and!.
  - assert (Header.type h = OP_STOP_SESSION_IMMEDIATE) as ->.
    { apply Z.eqb_neq in E1. destruct (decide (Header.type h = OP_STOP_SESSION_IMMEDIATE)); [done|].
      exfalso. by apply Hnt. }
    change (OP_STOP_SESSION_IMMEDIATE =? 8) with true. cbn iota.
    do 2 eexists. split; [done|]. split; [eexists; split; [done|by apply stop_class_ok]|].
    rewrite <- Htx4, app_nil_r. by split_and!.
Qed.

(** C38: a captured frame is the frame that was sent.  Let the video fragments
    of a stream be leftovers of an earlier frame (none of them its last
    fragment) followed by the numbered fragments of one frame of at most
    32768 parts and 9,216,000 bytes, with any other packets except a stop
    message in between: the capture returns exactly the concatenation of the
    parts. *)
Theorem capture_reassembles_frame (tmo : Z) (refresh : bool) (l : list (Header.t * bytes))
    (stale : list (Z * bytes)) (parts : list bytes) (a : list atom) (s : sock) :
  closed s = false -> send s = [] ->
  Forall packet_wf l -> Forall (fun p => Header.type p.1 <> OP_STOP_SESSION_IMMEDIATE) l ->
  Forall frag_ok stale -> Forall (fun f => frag_is_last f.1 = false) stale ->
  blen (concat stale.*2) <= MAX_FRAME_BYTES ->
  parts <> [] -> blen parts <= 2 ^ 15 -> blen (concat parts) <= MAX_FRAME_BYTES ->
  List.filter is_video l = map frag_packet (stale ++ numbered parts) ->
  atoms (rx s) = packets_atoms l ++ a ->
  (capture_one_frame tmo refresh s).1 = Ret (concat parts).
Proof.
  intros Hc Hs Hw Hns Hso Hsl Hsz Hne Hn Hmax Hf Ha.
  assert (Forall frag_ok (numbered parts)) as Hno.
  { apply numbered_from_ok; lia. }
  assert (feed_all (stale ++ numbered parts) [] = Ret (Some (concat parts))) as Hfeed
    by (by apply feed_all_stale).
  assert (forall s, atoms (rx s) = packets_atoms l ++ a -> closed s = false ->
    (capture_loop (script_fuel s) [] s).1 = Ret (concat parts)) as Hloop.
  { intros s' Ha' Hc'. eapply (capture_loop_feeds l _ _ [] _ s' a); [done|done|done| |done|done|done|].
    - by apply Forall_app.
    - unfold script_fuel. rewrite Ha', length_app. pose proof (length_packets_atoms l). lia. }
  unfold capture_one_frame, io_bind, io_modify, io_get.
  destruct refresh; [rewrite write_packet_ok by done|cbn [io_ret]]; apply Hloop; done.
Qed.

(** The reassembly buffer is bounded.  Feeding any fragment to a buffer of
    at most 9,216,000 bytes leaves such a buffer; a completed frame is within
    the bound too and leaves the buffer empty; the only exception is the
    classified overflow error, raised exactly when the frame would exceed the
    bound. *)
Theorem reassembly_bounded (n : Z) (data buf : bytes) :
  blen buf <= MAX_FRAME_BYTES ->
  let base := if frag_is_first n then [] else buf in
  let '(o, buf') := feed n data buf in
  blen buf' <= MAX_FRAME_BYTES /\
  match o with
  | Ret (Some frame) => frame = base ++ data /\ blen frame <= MAX_FRAME_BYTES /\ buf' = [] /\ frag_is_last n = true
  | Ret None => buf' = base ++ data /\ frag_is_last n = false
  | Raise e => MAX_FRAME_BYTES < blen base + blen data /\ exists err, e = Ikvm err /\ error_class err = PROTOCOL
  | Blocked => False
  end.
Proof.
  intros Hb base. unfold feed. fold base.
  assert (blen base <= MAX_FRAME_BYTES) as Hbase by (unfold base; by destruct (frag_is_first n)).
  destruct (MAX_FRAME_BYTES <? blen base + blen data) eqn:E; bool_to_prop.
  - split; [done|]. split; [done|]. by eexists.
  - assert (blen (base ++ data) <= MAX_FRAME_BYTES) by (rewrite blen_app; lia).
    destruct (frag_is_last n); by split_and!.
Qed.

(** A frame without its first fragments is returned as complete.  A reader
    that joins the stream in the middle of a frame, at any fragment [i > 0],
    starts from the empty buffer, collects the remaining fragments and hands
    their concatenation out as a frame, although fragment zero was never
    received. *)
Theorem headless_frame_accepted (i : Z) (parts : list bytes) :
  0 < i -> i + blen parts <= 2 ^ 15 -> parts <> [] -> blen (concat parts) <= MAX_FRAME_BYTES ->
  feed_all (numbered_from i parts) [] = Ret (Some (concat parts)).
Proof.
  intros Hi Hn Hne Hsz.
  assert ((if i =? 0 then [] else []) = @nil Z) as Hif by (by destruct (i =? 0)).
  rewrite feed_all_numbered; [by rewrite Hif|lia|done|done|by rewrite Hif].
Qed.

(** *** Witnesses *)

Definition sample_packet (type : Z) (body : bytes) : Header.t * bytes :=
  ({| Header.type := type; Header.pkt_size := blen body; Header.status := 0 |}, body).
Definition sample_greeting : Header.t * bytes := sample_packet OP_SESSION_ACCEPTED [].
Definition sample_led : Header.t * bytes := sample_packet 20 [3].
Definition sample_response : Header.t * bytes := sample_packet OP_VALIDATE_VIDEO_SESSION_RESPONSE [SESSION_VALID; 9].
Definition wire (p : Header.t * bytes) : bytes := Header.marshal p.1 ++ p.2.
Definition sock_of (r : list rx_event) : sock := mkSock r [] [] None false.
Definition get_ok {A} (d : A) (r : result exn A) : A := match r with Ok a => a | Err _ => d end.
Definition sample_validate : bytes :=
  get_ok [] (build_validate_video_session ($"tok") ($"10.0.0.1") ($"admin") TOKEN_TYPE_WEB_SESSION).
Definition sample_web_token : bytes := get_ok [] (build_get_web_token ($"tok")).
(** The greeting and the packets after it, the second segment cut mid-header. *)
Definition sample_kvm : sock :=
  let b := wire sample_led ++ wire sample_response in
  sock_of [Arrive (wire sample_greeting); Arrive (take 5 b); Arrive (drop 5 b)].

Lemma sample_packet_wf type body :
  0 <= type < 2 ^ 16 -> blen body <= MAX_FRAME_BYTES -> packet_wf (sample_packet type body).
Proof.
  intros Ht Hb. pose proof (blen_nonneg body). unfold MAX_FRAME_BYTES in Hb.
  split; [split_and!; cbn; lia|]. split; [done|]. cbn. unfold MAX_FRAME_BYTES. lia.
Qed.

Lemma open_channel_outcome_witness :
  exists s', open_channel ($"tok") ($"10.0.0.1") ($"admin") 15000 true sample_kvm
    = (Ret {| session_accepted := true; greeting_body_len := 0; validate_status := 1;
              validate_status_name_ := $"valid_session"; validate_sub_status := Some 9; resumed := true |}, s') /\
    tx s' = [sample_web_token; sample_validate; build_resume_redirection].
Proof.
  destruct (open_channel_outcome ($"tok") ($"10.0.0.1") ($"admin") 15000 true sample_greeting sample_response
              [sample_led] [] sample_kvm) as (o & s' & H1 & H2 & H3 & _);
    [reflexivity|reflexivity|apply sample_packet_wf; vm_compute; done|reflexivity
    |apply Forall_singleton, sample_packet_wf; vm_compute; done
    |apply Forall_singleton; split; vm_compute; discriminate
    |apply sample_packet_wf; vm_compute; done
    |intros [H _]; apply H; reflexivity
    |vm_compute; reflexivity|vm_compute; reflexivity|vm_compute; reflexivity|vm_compute; reflexivity|].
  exists s'. cbn in H2. subst o. split; [exact H1|]. rewrite H3. vm_compute. reflexivity.
Defined.

(** The end of one frame, then a frame of two fragments with a packet between. *)
Definition sample_stream : list (Header.t * bytes) :=
  [frag_packet (4, [1; 1]); frag_packet (0, [10; 20]); sample_led; frag_packet (1 + FRAG_LAST_BIT, [30])].

Lemma capture_reassembles_frame_witness :
  (capture_one_frame 20000 true (sock_of [Arrive (concat (map wire sample_stream))])).1 = Ret [10; 20; 30].
Proof.
  apply (capture_reassembles_frame 20000 true sample_stream [(4, [1; 1])] [[10; 20]; [30]] []);
    [reflexivity|reflexivity| | | | | |done| | | | ].
  - repeat (apply List.Forall_cons; [split; [split_and!; vm_compute; done|split; vm_compute; done]|]).
    apply List.Forall_nil.
  - repeat (apply List.Forall_cons; [vm_compute; discriminate|]). apply List.Forall_nil.
  - apply Forall_singleton. unfold frag_ok. cbn. lia.
  - apply Forall_singleton. reflexivity.
  - vm_compute. discriminate.
  - vm_compute. discriminate.
  - vm_compute. discriminate.
  - vm_compute. reflexivity.
  - vm_compute. reflexivity.
Defined.

Lemma reassembly_bounded_witness :
  blen (feed (1 + FRAG_LAST_BIT) [30] [10; 20]).2 <= MAX_FRAME_BYTES.
Proof.
  pose proof (reassembly_bounded (1 + FRAG_LAST_BIT) [30] [10; 20] ltac:(vm_compute; discriminate)) as H.
  cbv zeta in H. destruct (feed (1 + FRAG_LAST_BIT) [30] [10; 20]) as [o b]. exact (proj1 H).
Defined.

Lemma headless_frame_accepted_witness :
  feed_all [(7, [1]); (8 + FRAG_LAST_BIT, [2])] [] = Ret (Some [1; 2]).
Proof. apply (headless_frame_accepted 7 [[1]; [2]]); [lia|vm_compute; discriminate|done|vm_compute; discriminate]. Defined.
