(* ===== verification/DaemonRuntime.v ===== *)
(** * daemon_runtime.py: state files, processes and bounded waiting

    What both background daemons share.  The outside world is the runtime
    directory (in directory order), the process table, the clock, and the
    outcome of the disk writes to come.  A state file holds a record of type
    [St] (each daemon has its own), or text that is no JSON object, or bytes
    that are no UTF-8, or cannot be opened.  What the other processes do while
    this one sleeps is the parameter [env].

    The second half models the two ways of writing a state file at the level
    of system calls, with inodes, and shows what a reader and a racing writer
    can observe. *)
From Stdlib Require Import ZArith Lia Ascii String.
From stdpp Require Import prelude.
From S2P Require Import Prelude PyBytes PyText Regex Errors.

Inductive content (St Ln : Type) : Type :=
  | Doc (s : St)            (* a JSON object *)
  | NotADoc                 (* no JSON, or JSON that is no object *)
  | NotUtf8
  | Denied (msg : text)     (* open() fails *)
  | LineLog (l : list Ln)   (* an append-only log, line by line *)
  | Plain.                  (* anything else *)
Arguments Doc {St Ln} s.
Arguments NotADoc {St Ln}.
Arguments NotUtf8 {St Ln}.
Arguments Denied {St Ln} msg.
Arguments LineLog {St Ln} l.
Arguments Plain {St Ln}.

Record proc : Type := {
  p_mine : bool;            (* this user may signal it *)
  p_sigterm : Z;            (* how many SIGTERMs it was sent *)
}.

Record world (St Ln : Type) : Type := mkWorld {
  w_files : list (text * content St Ln);
  w_procs : list (Z * proc);
  w_clock : Z;                       (* time.monotonic(), in milliseconds *)
  w_disk : list (option text);       (* outcome of each state write; [None] succeeds *)
}.
Arguments mkWorld {St Ln}.
Arguments w_files {St Ln}.
Arguments w_procs {St Ln}.
Arguments w_clock {St Ln}.
Arguments w_disk {St Ln}.

(** The extension of a state file. *)
Definition json_ext : text := $".json".
Definition state_file_path (session_id : text) : text := session_id ++ json_ext.
Definition log_file_path (session_id : text) : text := session_id ++ $".log".

(** [fnmatch(name, "*.json")] and [path.stem] of such a name *)
Definition is_json_name (name : text) : bool := startswith (rev json_ext) (rev name).
Definition path_stem (name : text) : text :=
  if bool_decide (name = json_ext) then name else take (length name - 5) name.

Section DaemonRuntime.
Context {St Ln : Type}.
Local Abbreviation W := (world St Ln).

Definition set_files (w : W) (f : list (text * content St Ln)) : W :=
  mkWorld f (w_procs w) (w_clock w) (w_disk w).
Definition set_procs (w : W) (p : list (Z * proc)) : W :=
  mkWorld (w_files w) p (w_clock w) (w_disk w).

(** [read_state] *)
Definition read_state (session_id : text) : io W exn (option St) := fun w =>
  match assoc_get (w_files w) (state_file_path session_id) with
  | None => (Ret None, w)
  | Some (Doc s) => (Ret (Some s), w)
  | Some NotUtf8 => (Raise (UnicodeDecodeError ($"'utf-8' codec can't decode")), w)
  | Some (Denied e) => (Raise (PermissionError e), w)
  | Some NotADoc | Some (LineLog _) | Some Plain => (Ret None, w)
  end.

(** [list_session_ids] *)
Definition list_session_ids (w : W) : list text :=
  map path_stem (List.filter is_json_name (w_files w).*1).

(** The outcome of the next write of a state file. *)
Definition disk_step : io W exn unit := fun w =>
  match w_disk w with
  | [] => (Ret tt, w)
  | o :: q =>
      (match o with None => Ret tt | Some e => Raise (OSError e) end,
       mkWorld (w_files w) (w_procs w) (w_clock w) q)
  end.

(** [_write_state_atomic]: all or nothing. *)
Definition write_state_atomic (session_id : text) (data : St) : io W exn unit :=
  run disk_step;
  io_modify (fun w => set_files w (assoc_set (w_files w) (state_file_path session_id) (Doc data))).

(** [_write_state_if_absent] *)
Definition write_state_if_absent (session_id : text) (data : St) : io W exn bool := fun w =>
  match assoc_get (w_files w) (state_file_path session_id) with
  | Some _ => (Ret false, w)
  | None =>
      (run disk_step;
       run io_modify (fun w => set_files w (assoc_set (w_files w) (state_file_path session_id) (Doc data)));
       io_ret true) w
  end.

(** [remove_paths] *)
Definition remove_paths (paths : list text) (w : W) : W :=
  set_files w (foldl assoc_del (w_files w) paths).

(** [os.kill(pid, sig)]: success, ProcessLookupError or PermissionError. *)
Inductive kill_result : Type := Killed | NoSuchProcess | NotPermitted.
Definition probe (pid : Z) (w : W) : kill_result :=
  match assoc_get (w_procs w) pid with
  | None => NoSuchProcess
  | Some p => if p_mine p then Killed else NotPermitted
  end.

(** [is_pid_alive] *)
Definition is_pid_alive (pid : option Z) (w : W) : bool :=
  match pid with
  | None => false
  | Some pid =>
      if pid <=? 0 then false
      else match probe pid w with
           | NoSuchProcess => false
           | NotPermitted => true
           | Killed => true
           end
  end.

(** [request_stop] *)
Definition request_stop (pid : option Z) : io W exn unit := fun w =>
  match pid with
  | None => (Ret tt, w)
  | Some pid =>
      if pid <=? 0 then (Ret tt, w)
      else match assoc_get (w_procs w) pid with
           | None => (Ret tt, w)                                 (* ProcessLookupError, suppressed *)
           | Some p =>
               if p_mine p
               then (Ret tt, set_procs w (assoc_set (w_procs w) pid
                               {| p_mine := true; p_sigterm := p_sigterm p + 1 |}))
               else (Raise (PermissionError ($"[Errno 1] Operation not permitted")), w)
           end
  end.

Section Waiting.
(** What the rest of the system does while this process sleeps. *)
Variable env : W -> W.

(** [time.sleep(poll_interval)] *)
Definition sleep (ms : Z) (w : W) : W :=
  env (mkWorld (w_files w) (w_procs w) (w_clock w + ms) (w_disk w)).

Definition STATE_POLL_INTERVAL : Z := 200.

(** Iterations a wait of [timeout] can need. *)
Definition wait_fuel (timeout poll : Z) : nat := Z.to_nat (timeout / poll) + 2.

Fixpoint wait_for_state_loop (fuel : nat) (session_id : text) (until : St -> bool) (deadline poll : Z)
    : io W exn (option St) :=
  match fuel with
  | O => fun w => (Blocked, w)
  | S fuel =>
      do observed <- read_state session_id;
      do w <- io_get;
      if match observed with Some s => until s | None => false end then io_ret observed
      else if deadline <=? w_clock w then io_ret observed
      else
        run io_modify (sleep poll);
        wait_for_state_loop fuel session_id until deadline poll
  end.

(** [wait_for_state] *)
Definition wait_for_state (session_id : text) (until : St -> bool) (timeout : Z) : io W exn (option St) :=
  do w <- io_get;
  wait_for_state_loop (wait_fuel timeout STATE_POLL_INTERVAL) session_id until
    (w_clock w + timeout) STATE_POLL_INTERVAL.

Fixpoint wait_for_exit_loop (fuel : nat) (pid : option Z) (deadline poll : Z) : io W exn bool :=
  match fuel with
  | O => fun w => (Blocked, w)
  | S fuel =>
      do w <- io_get;
      if negb (is_pid_alive pid w) then io_ret true
      else if deadline <=? w_clock w then io_ret false
      else
        run io_modify (sleep poll);
        wait_for_exit_loop fuel pid deadline poll
  end.

(** [wait_for_exit] *)
Definition wait_for_exit (pid : option Z) (timeout : Z) : io W exn bool :=
  do w <- io_get;
  wait_for_exit_loop (wait_fuel timeout STATE_POLL_INTERVAL) pid (w_clock w + timeout) STATE_POLL_INTERVAL.
End Waiting.
End DaemonRuntime.

(** ** Lemmas *)

Section RuntimeLemmas.
Context {St Ln : Type}.
Local Abbreviation W := (world St Ln).
Implicit Types w : W.

Lemma state_file_path_inj a b : state_file_path a = state_file_path b -> a = b.
Proof. unfold state_file_path. apply app_inv_tail. Qed.

Lemma path_stem_state sid : sid <> [] -> path_stem (state_file_path sid) = sid.
Proof.
  intros Hne. unfold path_stem, state_file_path. rewrite bool_decide_false.
  - rewrite length_app. change (length json_ext) with 5%nat.
    replace (length sid + 5 - 5)%nat with (length sid) by lia. apply take_app_length.
  - intros H. apply (f_equal length) in H. rewrite length_app in H. destruct sid; [done|]. cbn in H. lia.
Qed.

Lemma is_json_state sid : is_json_name (state_file_path sid) = true.
Proof. unfold is_json_name, state_file_path. rewrite rev_app_distr. apply startswith_app. Qed.

(** A name the scan picks up is the state file of its stem. *)
Lemma is_json_name_inv name :
  is_json_name name = true -> name <> json_ext -> state_file_path (path_stem name) = name.
Proof.
  unfold is_json_name. intros (r & Hr)%startswith_spec Hne.
  apply (f_equal (@rev Z)) in Hr. rewrite rev_involutive, rev_app_distr, rev_involutive in Hr.
  unfold path_stem. rewrite bool_decide_false by done. subst name. rewrite length_app.
  change (length json_ext) with 5%nat. replace (length (rev r) + 5 - 5)%nat with (length (rev r)) by lia.
  by rewrite take_app_length.
Qed.

Lemma remove_paths_get paths w name :
  assoc_get (w_files (remove_paths paths w)) name
  = if decide (name ∈ paths) then None else assoc_get (w_files w) name.
Proof.
  unfold remove_paths. cbn. generalize (w_files w). induction paths as [|p paths IH]; intros d; cbn.
  { rewrite decide_False by apply not_elem_of_nil. done. }
  rewrite IH. destruct (decide (name ∈ paths)) as [Hin|Hin].
  { by rewrite decide_True by (by right). }
  destruct (decide (p = name)) as [->|Hne].
  - rewrite decide_True by left. apply assoc_get_del_eq.
  - rewrite decide_False by (by rewrite not_elem_of_cons; split; [congruence|]). by apply assoc_get_del_ne.
Qed.

Lemma remove_paths_procs paths w : w_procs (remove_paths paths w) = w_procs w.
Proof. done. Qed.

Lemma wait_fuel_steps timeout poll k :
  0 < poll -> (wait_fuel timeout poll <= k)%nat -> timeout < poll * (Z.of_nat k - 1).
Proof.
  intros Hp Hk. unfold wait_fuel in Hk.
  pose proof (Z.mul_succ_div_gt timeout poll Hp) as Hgt.
  assert (timeout / poll + 1 <= Z.of_nat k - 1) as Hle.
  { destruct (Z.le_gt_cases 0 (timeout / poll)); lia. }
  nia.
Qed.

Section WaitLemmas.
Variable env : W -> W.
Hypothesis env_clock : forall w, w_clock w <= w_clock (env w).

Lemma sleep_clock ms w : w_clock w + ms <= w_clock (sleep env ms w).
Proof. unfold sleep. etransitivity; [|apply env_clock]. done. Qed.

(** With [fuel] iterations left and the clock that far, the wait ends. *)
Lemma wait_for_exit_loop_ok fuel pid deadline poll w :
  0 < poll -> deadline <= w_clock w + poll * (Z.of_nat fuel - 1) -> (0 < fuel)%nat ->
  exists b w', wait_for_exit_loop env fuel pid deadline poll w = (Ret b, w') /\
    is_pid_alive pid w' = negb b /\ (b = false -> deadline <= w_clock w').
Proof.
  intros Hp. revert w. induction fuel as [|fuel IH]; intros w Hd Hf; [lia|].
  cbn [wait_for_exit_loop]. unfold io_bind, io_get, io_ret, io_modify.
  destruct (is_pid_alive pid w) eqn:Ha; cbn [negb].
  2: { exists true, w. by rewrite Ha. }
  destruct (deadline <=? w_clock w) eqn:Hc; bool_to_prop.
  { exists false, w. by rewrite Ha. }
  pose proof (sleep_clock poll w) as Hs.
  destruct fuel as [|fuel]; [lia|]. apply IH; lia.
Qed.

Lemma wait_for_state_loop_ok fuel sid until deadline poll w :
  0 < poll -> deadline <= w_clock w + poll * (Z.of_nat fuel - 1) -> (0 < fuel)%nat ->
  exists w', 
    (let r := wait_for_state_loop env fuel sid until deadline poll w in
     r.2 = w' /\ r.1 = (read_state sid w').1) /\
    match (read_state sid w').1 with
    | Ret (Some s) => until s = true \/ deadline <= w_clock w'
    | Ret None => deadline <= w_clock w'
    | Raise _ => True
    | Blocked => False
    end.
Proof.
  intros Hp. revert w. induction fuel as [|fuel IH]; intros w Hd Hf; [lia|].
  assert ((read_state sid w).2 = w) as Hw.
  { unfold read_state. by destruct (assoc_get _ _) as [[]|]. }
  assert ((read_state sid w).1 <> Blocked) as Hnb.
  { unfold read_state. by destruct (assoc_get _ _) as [[]|]. }
  cbn [wait_for_state_loop]. unfold io_bind, io_get, io_ret, io_modify.
  destruct (read_state sid w) as [[obs|e|] w1] eqn:Hr; cbn [fst snd] in *; [subst w1|subst w1|done].
  2: { exists w. rewrite Hr. done. }
  destruct (match obs with Some s => until s | None => false end) eqn:Hu.
  { exists w. rewrite Hr. cbn. destruct obs; [|done]. split; [done|]. by left. }
  destruct (deadline <=? w_clock w) eqn:Hc; bool_to_prop.
  { exists w. rewrite Hr. cbn. destruct obs; [|done]. split; [done|]. by right. }
  pose proof (sleep_clock poll w) as Hs.
  destruct fuel as [|fuel]; [lia|]. apply IH; lia.
Qed.

(** The world after [k] polls of a wait. *)
Fixpoint polls (k : nat) (w : W) : W :=
  match k with O => w | S k => polls k (sleep env STATE_POLL_INTERVAL w) end.

Lemma polls_clock k w : w_clock w + STATE_POLL_INTERVAL * Z.of_nat k <= w_clock (polls k w).
Proof.
  revert w. induction k as [|k IH]; intros w; cbn [polls]; [lia|].
  pose proof (IH (sleep env STATE_POLL_INTERVAL w)). pose proof (sleep_clock STATE_POLL_INTERVAL w). lia.
Qed.

(** The record looked for appears at poll [k]: before that the file can be
    read, does not hold it, and the deadline has not passed. *)
Record settles_at (sid : text) (until : St -> bool) (deadline : Z) (k : nat) (w : W) (s : St) : Prop := {
  sa_before : forall i, (i < k)%nat -> exists o, read_state sid (polls i w) = (Ret o, polls i w) /\
    match o with Some s => until s | None => false end = false /\ w_clock (polls i w) < deadline;
  sa_at : read_state sid (polls k w) = (Ret (Some s), polls k w);
  sa_until : until s = true;
}.

Lemma wait_loop_finds fuel sid until deadline k w s :
  (k < fuel)%nat -> settles_at sid until deadline k w s ->
  wait_for_state_loop env fuel sid until deadline STATE_POLL_INTERVAL w = (Ret (Some s), polls k w).
Proof.
  revert fuel w. induction k as [|k IH]; intros [|fuel] w Hk [Hb Ha Hu]; try lia; cbn [wait_for_state_loop polls] in *; unfold io_bind at 1.
  - rewrite Ha. unfold io_bind, io_get. by rewrite Hu.
  - destruct (Hb 0%nat ltac:(lia)) as (o & H1 & H2 & H3). cbn [polls] in *. rewrite H1. unfold io_bind at 1, io_get. rewrite H2.
    destruct (Z.leb_spec deadline (w_clock w)); [lia|]. unfold io_bind, io_modify. apply IH; [lia|]. split; [|done|done].
    intros i Hi. apply (Hb (S i)). lia.
Qed.

(** The first record that satisfies the predicate is what a wait returns. *)
Lemma wait_finds sid until timeout k w s :
  settles_at sid until (w_clock w + timeout) k w s ->
  wait_for_state env sid until timeout w = (Ret (Some s), polls k w).
Proof.
  intros H. unfold wait_for_state, io_bind, io_get. apply wait_loop_finds; [|done]. destruct k as [|k]; [unfold wait_fuel; lia|].
  destruct (sa_before _ _ _ _ _ _ H k ltac:(lia)) as (_ & _ & _ & Hc). pose proof (polls_clock k w).
  pose proof (wait_fuel_steps timeout STATE_POLL_INTERVAL _ ltac:(unfold STATE_POLL_INTERVAL; lia)
                (le_n (wait_fuel timeout STATE_POLL_INTERVAL))).
  destruct (decide (S k < wait_fuel timeout STATE_POLL_INTERVAL)%nat) as [|Hge]; [done|]. unfold STATE_POLL_INTERVAL in *.
  unfold wait_fuel in *. pose proof (Z.mul_div_le timeout 200 ltac:(lia)). pose proof (Z.mul_succ_div_gt timeout 200 ltac:(lia)). lia.
Qed.
End WaitLemmas.
End RuntimeLemmas.

(** ** The two writers at the level of system calls

    The parent creates the state file with [O_CREAT | O_EXCL] and then fills
    it; the daemon fills a temporary file and renames it over the state file,
    once per report.  Directory entries point to inodes; a descriptor keeps
    writing to its inode whatever the directory says by then. *)
Module StateRace.
Section StateRace.
Context {St : Type}.
(** The parent's fallback record. *)
Variable fallback : St.

(** An inode is incomplete until its record is written. *)
Definition inode := nat.

Inductive parent_pc : Type :=
  | PStart
  | PCreated (i : inode)
  | PDone (wrote : bool).

Inductive daemon_pc : Type :=
  | DIdle
  | DOpened (i : inode) (r : St)
  | DWritten (i : inode) (r : St).

Record state : Type := mkState {
  path_entry : option inode;            (* the state file *)
  tmp_entry : option inode;             (* the daemon's temporary file *)
  data : list (option St);              (* inode contents *)
  parent : parent_pc;
  daemon : daemon_pc;
  reported : list St;                   (* the daemon's completed reports, latest first *)
}.

(** [O_CREAT] gives a fresh, empty inode. *)
Definition fresh (s : state) : inode := length (data s).

Inductive step : state -> state -> Prop :=
  | parent_exists s i :
      parent s = PStart -> path_entry s = Some i ->
      step s (mkState (path_entry s) (tmp_entry s) (data s) (PDone false) (daemon s) (reported s))
  | parent_creates s :
      parent s = PStart -> path_entry s = None ->
      step s (mkState (Some (fresh s)) (tmp_entry s) (data s ++ [None]) (PCreated (fresh s)) (daemon s) (reported s))
  | parent_writes s i :
      parent s = PCreated i ->
      step s (mkState (path_entry s) (tmp_entry s) (<[i := Some fallback]> (data s)) (PDone true) (daemon s) (reported s))
  | daemon_opens s r :
      daemon s = DIdle ->
      step s (mkState (path_entry s) (Some (fresh s)) (data s ++ [None]) (parent s) (DOpened (fresh s) r) (reported s))
  | daemon_writes s i r :
      daemon s = DOpened i r ->
      step s (mkState (path_entry s) (tmp_entry s) (<[i := Some r]> (data s)) (parent s) (DWritten i r) (reported s))
  | daemon_renames s i r :
      daemon s = DWritten i r ->
      step s (mkState (Some i) None (data s) (parent s) DIdle (r :: reported s)).

Definition start : state := mkState None None [] PStart DIdle [].

(** What [read_state] returns: nothing for a missing or an incomplete file. *)
Definition observe (s : state) : option St :=
  match path_entry s with
  | None => None
  | Some i => match data s !! i with Some (Some r) => Some r | _ => None end
  end.

(** The inodes each writer still holds are its own. *)
Record inv (s : state) : Prop := {
  inv_parent : forall i, parent s = PCreated i ->
    (i < length (data s))%nat /\
    (reported s = [] -> path_entry s = Some i) /\ (reported s <> [] -> path_entry s <> Some i) /\
    (forall j r, daemon s = DOpened j r \/ daemon s = DWritten j r -> i <> j);
  inv_daemon : forall j r, daemon s = DOpened j r \/ daemon s = DWritten j r ->
    (j < length (data s))%nat /\ path_entry s <> Some j;
  inv_written : forall j r, daemon s = DWritten j r -> data s !! j = Some (Some r);
  inv_path : forall i, path_entry s = Some i -> (i < length (data s))%nat;
  inv_observe : match reported s with
                | r :: _ => observe s = Some r
                | [] => observe s = None \/ observe s = Some fallback
                end;
}.

End StateRace.
Arguments state St : clear implicits.
End StateRace.

Section StateRaceLemmas.
Import StateRace.
Context {St : Type} (fallback : St).

(** Appending an inode, or writing one the path does not name, is unobserved. *)
Lemma observe_fresh (s : state St) o p d t rs :
  (forall i, path_entry s = Some i -> (i < length (data s))%nat) ->
  observe (mkState (path_entry s) t (data s ++ [o]) p d rs) = observe s.
Proof.
  intros Hp. unfold observe. cbn. destruct (path_entry s) as [i|]; [|done].
  by rewrite lookup_app_l by (by apply Hp).
Qed.

Lemma observe_other (s : state St) i o p d t rs :
  path_entry s <> Some i ->
  observe (mkState (path_entry s) t (<[i := o]> (data s)) p d rs) = observe s.
Proof.
  intros Hp. unfold observe. cbn. destruct (path_entry s) as [k|]; [|done].
  by rewrite list_lookup_insert_ne by congruence.
Qed.

Lemma inv_start : inv fallback (start (St := St)).
Proof. split; cbn; try done; [intros j r [?|?]; done|by left]. Qed.

Lemma step_inv s s' : step fallback s s' -> inv fallback s -> inv fallback s'.
Proof.
  intros Hs [IP ID IW IPa IO]. destruct Hs as [s i Hp Hi|s Hp Hi|s i Hp|s r Hd|s i r Hd|s i r Hd]; unfold fresh in *.
  - split; cbn; try done.
  - split; cbn.
    + intros i [= <-]. rewrite length_app. cbn. split_and!; [lia|done| |].
      * intros Hne. destruct (reported s) as [|r rs]; [done|]. unfold observe in IO. by rewrite Hi in IO.
      * intros j r Hj. destruct (ID j r Hj). lia.
    + intros j r Hj. destruct (ID j r Hj) as [Hl _]. rewrite length_app. split; [lia|]. intros [= ?]. lia.
    + intros j r Hj. destruct (ID j r (or_intror Hj)) as [Hl _]. rewrite lookup_app_l by done. by apply IW.
    + intros i [= <-]. rewrite length_app. cbn. lia.
    + destruct (reported s) as [|r rs]; unfold observe in IO; rewrite Hi in IO; [|done].
      left. unfold observe. cbn. by rewrite lookup_app_r, Nat.sub_diag by lia.
  - destruct (IP i Hp) as (Hl & H0 & H1 & H2). split; cbn.
    + done.
    + intros j r Hj. rewrite length_insert. by apply (ID j r).
    + intros j r Hj. rewrite list_lookup_insert_ne by (by apply (H2 j r); right). by apply IW.
    + intros k Hk. rewrite length_insert. by apply IPa.
    + destruct (reported s) as [|r rs].
      * right. unfold observe. cbn. rewrite H0 by done. by rewrite list_lookup_insert_eq by done.
      * rewrite observe_other; [done|]. by apply H1.
  - split; cbn.
    + intros i Hi. destruct (IP i Hi) as (Hl & H0 & H1 & _). rewrite length_app. split_and!; [lia|done|done|].
      intros j r' [[= <- _]|?]; [lia|done].
    + intros j r' [[= <- _]|?]; [|done]. rewrite length_app. cbn. split; [lia|].
      intros Hk%IPa. lia.
    + done.
    + intros i Hi%IPa. rewrite length_app. lia.
    + destruct (reported s); rewrite observe_fresh by done; done.
  - destruct (ID i r (or_introl Hd)) as [Hl Hne]. split; cbn.
    + intros k Hk. destruct (IP k Hk) as (Hkl & H0 & H1 & H2). rewrite length_insert. split_and!; [done|done|done|].
      intros j r' [?|[= <- _]]; [done|]. apply (H2 i r). by left.
    + intros j r' [?|[= <- _]]; [done|]. by rewrite length_insert.
    + intros j r' [= <- <-]. by apply list_lookup_insert_eq.
    + intros k Hk. rewrite length_insert. by apply IPa.
    + destruct (reported s); rewrite observe_other by done; done.
  - destruct (ID i r (or_intror Hd)) as [Hl Hne]. split; cbn.
    + intros k Hk. destruct (IP k Hk) as (Hkl & H0 & H1 & H2). split_and!; [done|done| |intros j r' [?|?]; done].
      intros _ [= ->]. by apply (H2 k r); [right|].
    + intros j r' [?|?]; done.
    + done.
    + by intros k [= <-].
    + unfold observe. cbn. by rewrite (IW i r Hd).
Qed.

Lemma steps_inv s s' : rtc (step fallback) s s' -> inv fallback s -> inv fallback s'.
Proof. induction 1; eauto using step_inv. Qed.
End StateRaceLemmas.

(** ** Properties *)

(** C12: nobody observes a torn or a stale report.  In every interleaving of the
    parent's create-only fallback write with any number of the daemon's
    write-and-rename reports, cut off at any system call, a reader sees the
    daemon's latest completed report as soon as there is one, and before that
    nothing or the parent's fallback record; the fallback never replaces a
    report. *)
Theorem state_race_safe {St : Type} (fallback : St) (s : StateRace.state St) :
  rtc (StateRace.step fallback) StateRace.start s ->
  match StateRace.reported s with
  | r :: _ => StateRace.observe s = Some r
  | [] => StateRace.observe s = None \/ StateRace.observe s = Some fallback
  end.
Proof. intros Hs. apply (steps_inv fallback _ _ Hs), inv_start. Qed.

(** Stop requests reach one process or none.  Without a positive pid no
    signal is sent at all; with one, at most the process of that pid is sent
    one SIGTERM, every other process and every file is left alone, and a
    process that is gone makes the call a silent no-op. *)
Theorem request_stop_targets_one {St Ln : Type} (pid : option Z) (w : world St Ln) :
  let '(o, w') := request_stop pid w in
  w_files w' = w_files w /\
  (forall q, pid <> Some q -> assoc_get (w_procs w') q = assoc_get (w_procs w) q) /\
  (match pid with Some p => p <= 0 | None => True end -> o = Ret tt /\ w' = w) /\
  (is_pid_alive pid w = false -> o = Ret tt /\ w' = w) /\
  (forall p q, pid = Some p -> 0 < p -> assoc_get (w_procs w) p = Some q -> p_mine q = true ->
     o = Ret tt /\ assoc_get (w_procs w') p = Some {| p_mine := true; p_sigterm := p_sigterm q + 1 |}).
Proof.
  unfold request_stop, is_pid_alive, probe. destruct pid as [p|]; [|by split_and!].
  destruct (p <=? 0) eqn:Hp; bool_to_prop.
  { split_and!; try done. intros ? ? [= <-]. lia. }
  destruct (assoc_get (w_procs w) p) as [q|] eqn:Hq.
  2: { split_and!; try done. intros ? ? [= <-] _ ?. congruence. }
  destruct (p_mine q) eqn:Hm.
  - split_and!; try done; [|lia|].
    + intros k Hk. apply assoc_get_set_ne. congruence.
    + intros p' q' [= <-] _ Hq' _. simplify_eq. split; [done|]. apply assoc_get_set_eq.
  - split_and!; try done; [lia|]. intros p' q' [= <-] _ Hq' ?. congruence.
Qed.

(** A foreign process under a recorded pid breaks the stop request.  If the
    pid of a state file has been taken over by a process of another user, the
    liveness probe says it is alive, and the stop request that follows raises
    an unclassified [PermissionError]. *)
Theorem foreign_pid_stop_raises {St Ln : Type} (p : Z) (q : proc) (w : world St Ln) :
  0 < p -> assoc_get (w_procs w) p = Some q -> p_mine q = false ->
  is_pid_alive (Some p) w = true /\
  (request_stop (Some p) w).1 = Raise (PermissionError ($"[Errno 1] Operation not permitted")).
Proof.
  intros Hp Hq Hm. unfold is_pid_alive, request_stop, probe.
  replace (p <=? 0) with false by (symmetry; apply Z.leb_gt; lia). by rewrite Hq, Hm.
Qed.

Section WaitProperties.
Context {St Ln : Type}.
Variable env : world St Ln -> world St Ln.

(** Waits are bounded and report what they last saw.  Whatever the other
    processes do, as long as the clock never goes back: waiting for a process
    ends, with [true] exactly when the process is gone at the end and with
    [false] only once the deadline has passed; waiting for a state ends with
    what the state file holds at the end, which satisfies the predicate
    unless the deadline has passed. *)
Theorem waits_bounded (pid : option Z) (sid : text) (until : St -> bool) (timeout : Z) (w : world St Ln) :
  (forall w, w_clock w <= w_clock (env w)) ->
  (exists b w', wait_for_exit env pid timeout w = (Ret b, w') /\ is_pid_alive pid w' = negb b /\
     (b = false -> w_clock w + timeout <= w_clock w')) /\
  (exists w', wait_for_state env sid until timeout w = ((read_state sid w').1, w') /\
     match (read_state sid w').1 with
     | Ret (Some s) => until s = true \/ w_clock w + timeout <= w_clock w'
     | Ret None => w_clock w + timeout <= w_clock w'
     | Raise _ => True
     | Blocked => False
     end).
Proof.
  intros He.
  assert (w_clock w + timeout
          <= w_clock w + STATE_POLL_INTERVAL * (Z.of_nat (wait_fuel timeout STATE_POLL_INTERVAL) - 1)) as Hf.
  { pose proof (wait_fuel_steps timeout STATE_POLL_INTERVAL _ ltac:(unfold STATE_POLL_INTERVAL; lia)
                  (le_n (wait_fuel timeout STATE_POLL_INTERVAL))). lia. }
  assert (0 < wait_fuel timeout STATE_POLL_INTERVAL)%nat as H0 by (unfold wait_fuel; lia).
  split.
  - apply wait_for_exit_loop_ok; [done|unfold STATE_POLL_INTERVAL; lia|done|done].
  - destruct (wait_for_state_loop_ok env He _ sid until _ STATE_POLL_INTERVAL w ltac:(unfold STATE_POLL_INTERVAL; lia) Hf H0)
      as (w' & [H1 H2] & H3).
    exists w'. split; [|exact H3]. unfold wait_for_state, io_bind, io_get.
    destruct (wait_for_state_loop _ _ _ _ _ _ w) as [o w'']. cbn in H1, H2. congruence.
Qed.
End WaitProperties.

(** *** Witnesses *)

Lemma state_race_safe_witness :
  exists s : StateRace.state Z,
    rtc (StateRace.step 0) StateRace.start s /\ StateRace.parent s = StateRace.PDone true /\
    StateRace.reported s = [7] /\ StateRace.observe s = Some 7.
Proof.
  assert (exists s : StateRace.state Z, rtc (StateRace.step 0) StateRace.start s /\
            StateRace.parent s = StateRace.PDone true /\ StateRace.reported s = [7]) as (s & Hs & Hp & Hr).
  { eexists. split.
    - eapply rtc_l; [by apply StateRace.parent_creates|].
      eapply rtc_l; [by apply (StateRace.daemon_opens _ _ 7)|].
      eapply rtc_l; [by apply StateRace.daemon_writes|].
      eapply rtc_l; [by apply StateRace.daemon_renames|].
      eapply rtc_l; [by apply StateRace.parent_writes|]. apply rtc_refl.
    - by split. }
  exists s. pose proof (state_race_safe 0 s Hs) as H. rewrite Hr in H.
  split; [exact Hs|split; [exact Hp|split; [exact Hr|exact H]]].
Defined.

Definition sample_world : world Z Z :=
  mkWorld [] [(40, {| p_mine := true; p_sigterm := 0 |}); (41, {| p_mine := false; p_sigterm := 0 |})] 0 [].

Lemma foreign_pid_stop_raises_witness : is_pid_alive (Some 41) sample_world = true.
Proof. apply (foreign_pid_stop_raises 41 {| p_mine := false; p_sigterm := 0 |}); [lia|reflexivity|reflexivity]. Defined.

Lemma waits_bounded_witness :
  exists b w', wait_for_exit (fun w => w) (Some 40) 1000 sample_world = (Ret b, w') /\
    is_pid_alive (Some 40) w' = negb b.
Proof.
  destruct (waits_bounded (fun w => w) (Some 40) [] (fun _ => true) 1000 sample_world ltac:(intros; apply Z.le_refl))
    as [(b & w' & H1 & H2 & _) _].
  exists b, w'. split; [exact H1|exact H2].
Defined.
