(* ===== verification/DaemonSpawn.v ===== *)
(** * Starting a daemon: the double fork and its file descriptors

    [spawn_session] of media_session.py and of http_origin.py start their
    daemon the same way: a pipe, a short-lived first child that calls
    [setsid] and forks the daemon, and a parent that reads the daemon's pid
    from the pipe and reaps the child.  The three processes run side by side;
    their steps interleave freely here.  A read of the pipe ends when nobody
    holds its write end any more, so whether the parent comes back depends on
    who closes what.  [Fds] is [daemon_runtime._redirect_std_fds], the first
    thing the daemon does. *)
From Stdlib Require Import ZArith Lia Ascii String.
From stdpp Require Import prelude relations.
From S2P Require Import Prelude PyBytes PyText.

(** ** The double fork *)
Module Spawn.

Inductive parent_pc : Type :=
  | PForked                        (* has forked; both ends of the pipe open *)
  | PReading                       (* [reader.read()] *)
  | PWaiting (reported : text)     (* [os.waitpid(first_pid, 0)] *)
  | PReturned (pid : option Z).    (* the pid, or the error for an empty report *)
Inductive child_pc : Type :=
  | CStart                         (* [os.close(read_fd)] *)
  | CSetsid
  | CFork
  | CReport (second_pid : Z)       (* [writer.write(...)] and the close that flushes it *)
  | CLeaving                       (* [os._exit(0)] *)
  | CExited (code : Z).
Inductive daemon_pc : Type :=
  | DNone                          (* not forked *)
  | DForked (pid : Z)              (* [os.close(write_fd)] *)
  | DRunning (pid : Z)             (* [_run_daemon(...)] *)
  | DExited (pid code : Z).

Record state : Type := mkSpawn {
  sp_parent : parent_pc;
  sp_child : child_pc;
  sp_daemon : daemon_pc;
  sp_pipe : text;                  (* written and not yet read *)
}.

Definition spawn_start : state := mkSpawn PForked CStart DNone [].

(** Who holds the write end of the pipe. *)
Definition parent_holds (p : parent_pc) : bool := match p with PForked => true | _ => false end.
Definition child_holds (c : child_pc) : bool :=
  match c with CStart | CSetsid | CFork | CReport _ => true | CLeaving | CExited _ => false end.
Definition daemon_holds (d : daemon_pc) : bool := match d with DForked _ => true | _ => false end.
Definition write_end_open (s : state) : bool :=
  parent_holds (sp_parent s) || child_holds (sp_child s) || daemon_holds (sp_daemon s).

(** What the parent makes of the report. *)
Definition read_report (buffer : text) : option Z := if bool_decide (strip buffer = []) then None else py_int (strip buffer).

Inductive step : state -> state -> Prop :=
  | parent_closes c d b : step (mkSpawn PForked c d b) (mkSpawn PReading c d b)
  | parent_reads c d b :
      write_end_open (mkSpawn PReading c d b) = false -> step (mkSpawn PReading c d b) (mkSpawn (PWaiting b) c d [])
  | parent_reaps r code d b : step (mkSpawn (PWaiting r) (CExited code) d b) (mkSpawn (PReturned (read_report r)) (CExited code) d b)
  | child_closes p d b : step (mkSpawn p CStart d b) (mkSpawn p CSetsid d b)
  | child_setsid p d b : step (mkSpawn p CSetsid d b) (mkSpawn p CFork d b)
  | child_setsid_fails p d b : step (mkSpawn p CSetsid d b) (mkSpawn p (CExited 1) d b)
  | child_forks p pid b : 0 < pid -> step (mkSpawn p CFork DNone b) (mkSpawn p (CReport pid) (DForked pid) b)
  | child_fork_fails p d b : step (mkSpawn p CFork d b) (mkSpawn p (CExited 1) d b)
  | child_reports p pid d b : step (mkSpawn p (CReport pid) d b) (mkSpawn p CLeaving d (b ++ dec pid ++ [10]))
  | child_leaves p d b : step (mkSpawn p CLeaving d b) (mkSpawn p (CExited 0) d b)
  | daemon_closes p c pid b : step (mkSpawn p c (DForked pid) b) (mkSpawn p c (DRunning pid) b).

(** The daemon's own end, which nobody here waits for. *)
Inductive daemon_end : state -> state -> Prop :=
  | daemon_ends p c pid code b : (code = 0 \/ code = 1) -> daemon_end (mkSpawn p c (DRunning pid) b) (mkSpawn p c (DExited pid code) b).

Definition any_step (s s' : state) : Prop := step s s' \/ daemon_end s s'.
Definition reachable : state -> Prop := rtc any_step spawn_start.

Definition daemon_pid (d : daemon_pc) : option Z :=
  match d with DNone => None | DForked p | DRunning p | DExited p _ => Some p end.

(** ** The invariant *)

(** What the pipe carries between the child's report and the parent's read. *)
Definition report_of (d : option Z) : text := match d with Some pid => dec pid ++ [10] | None => [] end.

Definition child_inv (c : child_pc) (d : option Z) : Prop :=
  match c with
  | CStart | CSetsid | CFork => d = None
  | CReport pid => d = Some pid
  | CLeaving => is_Some d
  | CExited _ => True
  end.
(** What has been written so far. *)
Definition written (c : child_pc) (d : option Z) : text :=
  match c with CLeaving | CExited _ => report_of d | _ => [] end.

Record inv (s : state) : Prop := {
  inv_child : child_inv (sp_child s) (daemon_pid (sp_daemon s));
  inv_pid : forall pid, daemon_pid (sp_daemon s) = Some pid -> 0 < pid;
  inv_parent : match sp_parent s with
               | PForked | PReading => sp_pipe s = written (sp_child s) (daemon_pid (sp_daemon s))
               | PWaiting r => r = report_of (daemon_pid (sp_daemon s)) /\ child_holds (sp_child s) = false
               | PReturned r => r = read_report (report_of (daemon_pid (sp_daemon s))) /\ exists code, sp_child s = CExited code
               end;
}.

Lemma spawn_inv_start : inv spawn_start.
Proof. by split. Qed.

(** The child's steps, at every place of the parent. *)
Ltac by_parent p Hc Hq :=
  destruct p as [| |r|r]; cbn in *; rewrite ?Hc in *;
  [rewrite ?Hq; try done; simplify_eq; congruence..
  |destruct Hq as [-> Hq]; first [done|by split; [congruence|]]
  |destruct Hq as [-> [? ?]]; try done].

Lemma spawn_inv_step s s' : inv s -> any_step s s' -> inv s'.
Proof.
  intros [Hc Hp Hq] [Hst|Hst].
  - destruct Hst; cbn in *; split; cbn in *; try done.
    + by destruct c.
    + destruct Hq as [-> _]. split; [done|by eexists].
    + by_parent p Hc Hq.
    + by_parent p Hc Hq.
    + by_parent p Hc Hq.
    + by intros x [= <-].
    + by_parent p Hc Hq.
    + by_parent p Hc Hq.
    + by_parent p Hc Hq.
    + by_parent p Hc Hq.
  - destruct Hst as [p c pid code b _]. by split.
Qed.

Lemma spawn_reachable_inv s : reachable s -> inv s.
Proof.
  intros H. unfold reachable in H. remember spawn_start as s0 eqn:E.
  assert (inv s0) as Hi by (rewrite E; apply spawn_inv_start). clear E. induction H as [|x y z Hxy _ IH]; [done|].
  apply IH. by eapply spawn_inv_step.
Qed.

Lemma read_report_pid pid : 0 < pid -> read_report (report_of (Some pid)) = Some pid.
Proof.
  intros Hp. cbn [report_of]. assert (strip (dec pid ++ [10]) = dec pid) as Hs.
  { destruct (dec_digits pid ltac:(lia)) as [Hd Hne].
    assert (Forall (fun c => is_space c = false) (dec pid)) as Hns by (eapply Forall_impl; [exact Hd|apply digit_not_space]).
    pose proof (strip_clean (dec pid) Hns) as Hc. unfold strip, rstrip in Hc |- *.
    assert (lstrip (dec pid ++ [10]) = dec pid ++ [10]) as ->.
    { destruct (dec pid) as [|c r]; [done|]. inversion Hns as [|? ? H1 _]; subst. cbn. by rewrite H1. }
    rewrite rev_app_distr. cbn [rev app lstrip].
    assert (lstrip (dec pid) = dec pid) as Hl.
    { destruct (dec pid) as [|c r]; [done|]. inversion Hns as [|? ? H1 _]; subst. cbn. by rewrite H1. }
    rewrite Hl in Hc. exact Hc. }
  unfold read_report. rewrite Hs. destruct (dec_digits pid ltac:(lia)) as [_ Hne].
  rewrite bool_decide_eq_false_2 by done. apply int_dec. lia.
Qed.

(** ** Progress *)

Definition parent_left (p : parent_pc) : nat := match p with PForked => 3 | PReading => 2 | PWaiting _ => 1 | PReturned _ => 0 end.
Definition child_left (c : child_pc) : nat :=
  match c with CStart => 5 | CSetsid => 4 | CFork => 3 | CReport _ => 2 | CLeaving => 1 | CExited _ => 0 end.
Definition daemon_left (d : daemon_pc) : nat := match d with DNone => 3 | DForked _ => 2 | DRunning _ => 1 | DExited _ _ => 0 end.
Definition steps_left (s : state) : nat := parent_left (sp_parent s) + child_left (sp_child s) + daemon_left (sp_daemon s).

Lemma steps_decrease s s' : any_step s s' -> (steps_left s' < steps_left s)%nat.
Proof. intros [H|H]; destruct H; unfold steps_left; cbn; lia. Qed.

Lemma child_moves s : child_inv (sp_child s) (daemon_pid (sp_daemon s)) -> (forall code, sp_child s <> CExited code) -> exists s', step s s'.
Proof.
  destruct s as [p c d b]. cbn. intros Hc Hne. destruct c as [| | |pid| |code]; [eexists; constructor..|by destruct (Hne code)].
Qed.

Lemma not_stuck s : inv s -> (forall r, sp_parent s <> PReturned r) -> exists s', step s s'.
Proof.
  intros [Hc Hp Hq] Hne. destruct (sp_child s) eqn:Ec; try (apply child_moves; rewrite Ec; done).
  destruct s as [p c d b]. cbn in *. subst c. destruct p as [| |r|r].
  - eexists; constructor.
  - destruct d as [|pid|pid|pid code']; [| |eexists; by constructor|eexists; by constructor]; eexists; by constructor.
  - eexists; constructor.
  - by destruct (Hne r).
Qed.

(** ** The property *)

(** C15: Starting a daemon comes back with its pid.  In every interleaving of
    the parent, the first child and the daemon: as long as the parent has
    not returned, one of the three can take a step, and none of these steps
    is the end of the daemon, so the parent never waits for the daemon it
    starts (which would keep the module from ending); every step brings the
    end nearer, so no run is longer than eleven steps.  When the parent
    returns, the first child has been reaped, and the pid it reports is that
    of the daemon; it reports none exactly when none was forked. *)
Theorem spawn_comes_back s :
  reachable s ->
  ((forall r, sp_parent s <> PReturned r) -> exists s', step s s') /\
  (forall s', any_step s s' -> (steps_left s' < steps_left s)%nat) /\ (steps_left s <= 11)%nat /\
  (forall r, sp_parent s = PReturned r -> r = daemon_pid (sp_daemon s) /\ exists code, sp_child s = CExited code).
Proof.
  intros Hr. pose proof (spawn_reachable_inv s Hr) as Hi. split_and!.
  - by apply not_stuck.
  - intros s'. apply steps_decrease.
  - unfold steps_left. destruct s as [p c d b]; destruct p, c, d; cbn; lia.
  - intros r Hs. destruct Hi as [_ Hpid Hq]. rewrite Hs in Hq. destruct Hq as [-> Hc]. split; [|done].
    destruct (daemon_pid (sp_daemon s)) as [pid|]; [by apply read_report_pid, Hpid|by vm_compute].
Qed.

Lemma spawn_comes_back_witness :
  exists s code, reachable s /\ sp_parent s = PReturned (Some 4242) /\ sp_daemon s = DRunning 4242 /\ sp_child s = CExited code.
Proof.
  assert (reachable (mkSpawn (PReturned (Some 4242)) (CExited 0) (DRunning 4242) [])) as Hr.
  { eapply rtc_l; [left; apply parent_closes|]. eapply rtc_l; [left; apply child_closes|].
    eapply rtc_l; [left; apply child_setsid|]. eapply rtc_l; [left; apply (child_forks _ 4242); lia|].
    eapply rtc_l; [left; apply child_reports|]. eapply rtc_l; [left; apply daemon_closes|].
    eapply rtc_l; [left; by apply parent_reads|]. eapply rtc_l; [left; apply child_leaves|].
    eapply rtc_l; [left; apply parent_reaps|]. apply rtc_refl. }
  destruct (proj2 (proj2 (proj2 (spawn_comes_back _ Hr))) (Some 4242) eq_refl) as [_ [code Hc]].
  exists (mkSpawn (PReturned (Some 4242)) (CExited 0) (DRunning 4242) []), code. done.
Defined.
End Spawn.

(** ** [_redirect_std_fds] *)
Module Fds.

(** What a descriptor refers to. *)
Inductive file : Type :=
  | DevNull
  | LogFile
  | Inherited (n : Z).

(** The table: the position is the descriptor. *)
Abbreviation table := (list (option file)).
Definition get (t : table) (n : nat) : option file := mjoin (t !! n).

(** [os.open]: the lowest free descriptor *)
Fixpoint open_lowest (f : file) (t : table) : nat * table :=
  match t with
  | [] => (0%nat, [Some f])
  | None :: t => (0%nat, Some f :: t)
  | Some g :: t => let '(n, t) := open_lowest f t in (S n, Some g :: t)
  end.
(** [os.dup2] of an open descriptor onto one of the table *)
Definition dup2 (old new : nat) (t : table) : table := <[new := get t old]> t.
Definition close (n : nat) (t : table) : table := <[n := None]> t.

Definition redirect_std_fds (t : table) : table :=
  let '(devnull_fd, t) := open_lowest DevNull t in
  let t := dup2 devnull_fd 0 t in
  let t := close devnull_fd t in
  let '(log_fd, t) := open_lowest LogFile t in
  let t := dup2 log_fd 1 t in
  let t := dup2 log_fd 2 t in
  close log_fd t.

Lemma open_lowest_spec f t n t' : open_lowest f t = (n, t') ->
  get t n = None /\ get t' n = Some f /\ (n < length t')%nat /\ (forall k, k <> n -> get t' k = get t k).
Proof.
  revert n t'. induction t as [|[g|] t IH]; intros n t'; cbn [open_lowest].
  - intros [= <- <-]. split_and!; [done|done|cbn; lia|]. intros [|k] Hk; [done|]. done.
  - destruct (open_lowest f t) as [m t1]. destruct (IH m t1 eq_refl) as (H1 & H2 & H3 & H4). intros [= <- <-].
    split_and!; [done|done|cbn; lia|]. intros [|k] Hk; [done|]. apply H4. lia.
  - intros [= <- <-]. split_and!; [done|done|cbn; lia|]. intros [|k] Hk; done.
Qed.

Lemma get_insert n o t k : (n < length t)%nat -> get (<[n := o]> t) k = if decide (k = n) then o else get t k.
Proof.
  intros Hn. unfold get. case_decide as Hk.
  - subst k. by rewrite list_lookup_insert_eq.
  - by rewrite list_lookup_insert_ne.
Qed.

(** The descriptors after a stretch of the routine: [n] is opened, copied
    onto the descriptors [l] below three, and closed. *)
Lemma open_dup_close f t (l : list nat) n t' :
  (forall k, (k < 3)%nat -> get t k <> None) -> Forall (fun k => (k < 3)%nat) l ->
  open_lowest f t = (n, t') ->
  let t'' := close n (foldl (fun t k => dup2 n k t) t' l) in
  (forall k, get t'' k = if decide (k ∈ l) then Some f else get t k) /\ (n >= 3)%nat.
Proof.
  intros Hstd Hl Ho. destruct (open_lowest_spec f t n t' Ho) as (H1 & H2 & H3 & H4).
  assert (n >= 3)%nat as Hn by (destruct (decide (n < 3)%nat) as [Hlt|]; [by destruct (Hstd n Hlt)|lia]).
  split; [|done].
  assert (forall l t0, Forall (fun k => (k < 3)%nat) l -> (n < length t0)%nat -> get t0 n = Some f ->
    let t1 := foldl (fun t k => dup2 n k t) t0 l in
    (n < length t1)%nat /\ get t1 n = Some f /\ forall k, get t1 k = if decide (k ∈ l) then Some f else get t0 k) as Hd.
  { clear l Hl. induction l as [|x l IH]; intros t0 Hl Hlen Hf; cbn [foldl].
    - split_and!; [done|done|]. intros k. by rewrite decide_False by apply not_elem_of_nil.
    - inversion Hl as [|? ? Hx Hl']; subst. destruct (IH (dup2 n x t0)) as (I1 & I2 & I3); [done| | |].
      + unfold dup2. by rewrite length_insert.
      + unfold dup2. rewrite get_insert by lia. rewrite decide_False by lia. done.
      + split_and!; [done|done|]. intros k. rewrite I3. unfold dup2. rewrite get_insert by lia.
        destruct (decide (k ∈ l)) as [Hk|Hk].
        * rewrite decide_True; [done|by right].
        * destruct (decide (k = x)) as [->|Hne].
          -- rewrite decide_True; [done|by left].
          -- rewrite decide_False; [done|]. rewrite elem_of_cons. by intros [?|?]. }
  destruct (Hd l t' Hl H3 H2) as (D1 & D2 & D3). intros k. unfold close. rewrite get_insert by done.
  destruct (decide (k = n)) as [->|Hk].
  - rewrite decide_False; [by rewrite H1|]. rewrite Forall_forall in Hl. intros Hin%Hl. lia.
  - rewrite D3. destruct (decide (k ∈ l)); [done|by apply H4].
Qed.

(** A daemon lets go of the pipes it was born with.  When the three
    standard descriptors were open, then afterwards standard input is
    [/dev/null], standard output and standard error are the log, and every
    other descriptor is as it was; in particular none of the three refers to
    what was inherited, so whoever reads the module's output sees its end. *)
Theorem std_fds_detached (t : table) :
  (forall k, (k < 3)%nat -> get t k <> None) ->
  forall k, get (redirect_std_fds t) k
    = match k with 0%nat => Some DevNull | 1%nat | 2%nat => Some LogFile | _ => get t k end.
Proof.
  intros Hstd. unfold redirect_std_fds.
  destruct (open_lowest DevNull t) as [n t1] eqn:E1.
  destruct (open_dup_close DevNull t [0%nat] n t1 Hstd ltac:(repeat constructor; lia) E1) as [H1 Hn]. cbn [foldl] in H1.
  set (t2 := close n (dup2 n 0 t1)) in *.
  assert (forall k, (k < 3)%nat -> get t2 k <> None) as Hstd2.
  { intros k Hk. rewrite H1. case_decide; [done|by apply Hstd]. }
  destruct (open_lowest LogFile t2) as [m t3] eqn:E2.
  destruct (open_dup_close LogFile t2 [1%nat; 2%nat] m t3 Hstd2 ltac:(repeat constructor; lia) E2) as [H2 Hm]. cbn [foldl] in H2.
  intros k. rewrite H2, H1. destruct k as [|[|[|k]]]; [done..|].
  rewrite !decide_False; [done|..]; rewrite ?elem_of_cons, ?elem_of_nil; lia.
Qed.

(** With a standard descriptor closed at birth, the temporary descriptor is
    that very one, and the final close closes it again: standard output ends
    up closed. *)
Example closed_stdout_stays_closed :
  get (redirect_std_fds [Some (Inherited 0); None; Some (Inherited 2)]) 1 = None /\
  get (redirect_std_fds [None; Some (Inherited 1); Some (Inherited 2)]) 0 = None.
Proof. split; by vm_compute. Qed.

Lemma std_fds_detached_witness :
  get (redirect_std_fds [Some (Inherited 0); Some (Inherited 1); Some (Inherited 2); None; Some (Inherited 4)]) 1 = Some LogFile.
Proof.
  apply (std_fds_detached [Some (Inherited 0); Some (Inherited 1); Some (Inherited 2); None; Some (Inherited 4)]).
  intros [|[|[|k]]] Hk; [discriminate..|lia].
Defined.
End Fds.
