(* ===== verification/MediaSession.v ===== *)
(** * media_session.py: the virtual-media daemon

    The state record the daemon publishes, its idle-streak bookkeeping, the
    read trace and its two-ended summary, the reclamation of conflicting
    sessions, and the daemon itself from its first report to its last.  Login
    and token allocation ([asp.AspClient]) are the parameter [allocate], which
    [MediaStart] instantiates; the network is [net], the wall clock [wall] and the arrival of SIGTERM
    [sigterm]; both are indexed by how often they were consulted.  Times are
    integers; durations are in milliseconds (the poll interval of 2.0 s is
    exact). *)
From Stdlib Require Import ZArith Lia Ascii String.
From stdpp Require Import prelude.
From S2P Require Import Prelude PyBytes PyText Regex Errors IusbFrame IusbCache IusbDevice Transport IusbSession DaemonRuntime.

(** ** The state record *)

Inductive SessionState : Type :=
  | STATE_STARTING | STATE_CONNECTING | STATE_ATTACHED | STATE_DETACHED | STATE_ERROR.
#[export] Instance SessionState_eq_dec : EqDecision SessionState.
Proof. solve_decision. Defined.

(** Membership in [TERMINAL_STATES]. *)
Definition is_terminal (s : SessionState) : bool :=
  match s with STATE_DETACHED | STATE_ERROR => true | _ => false end.

(** The poll interval, 2.0 s. *)
Definition RECV_POLL_TIMEOUT : Z := 2000.
Definition RECLAIM_STOP_TIMEOUT : Z := 10000.
Definition READ_TRACE_HEAD_LIMIT : Z := 128.
Definition READ_TRACE_TAIL_LIMIT : Z := 128.

Record IdleStreak : Type := {
  streak_started_at : Z;
  streak_polls : Z;
  streak_seconds : Z;
  streak_ended_at : option Z;
}.

Record MediaState : Type := {
  ms_session_id : option text;
  ms_pid : option Z;
  ms_endpoint : option text;
  ms_state : SessionState;
  ms_error : option text;
  ms_error_class : option text;
  ms_image : text;
  ms_bytes_read : Z;
  ms_sectors_served : Z;
  ms_last_request_at : option Z;
  ms_started_at : Z;
  ms_updated_at : Z;
  ms_idle_polls : Z;
  ms_idle_poll_interval : Z;
  ms_current_idle_streak : option IdleStreak;
  ms_last_idle_streak : option IdleStreak;
  ms_stop_reason : option text;
}.

(** [_initial_state] *)
Definition initial_state (session_id endpoint : text) (pid : Z) (image : text) (now : Z) : MediaState :=
  {| ms_session_id := Some session_id; ms_pid := Some pid; ms_endpoint := Some endpoint;
     ms_state := STATE_STARTING; ms_error := None; ms_error_class := None; ms_image := image;
     ms_bytes_read := 0; ms_sectors_served := 0; ms_last_request_at := None;
     ms_started_at := now; ms_updated_at := now; ms_idle_polls := 0;
     ms_idle_poll_interval := RECV_POLL_TIMEOUT; ms_current_idle_streak := None;
     ms_last_idle_streak := None; ms_stop_reason := None |}.

(** The assignments the daemon makes to the record, by group. *)
Definition set_status (st : SessionState) (err ec stop : option text) (s : MediaState) : MediaState :=
  {| ms_session_id := ms_session_id s; ms_pid := ms_pid s; ms_endpoint := ms_endpoint s;
     ms_state := st; ms_error := err; ms_error_class := ec; ms_image := ms_image s;
     ms_bytes_read := ms_bytes_read s; ms_sectors_served := ms_sectors_served s;
     ms_last_request_at := ms_last_request_at s; ms_started_at := ms_started_at s;
     ms_updated_at := ms_updated_at s; ms_idle_polls := ms_idle_polls s;
     ms_idle_poll_interval := ms_idle_poll_interval s;
     ms_current_idle_streak := ms_current_idle_streak s;
     ms_last_idle_streak := ms_last_idle_streak s; ms_stop_reason := stop |}.
(** [state["state"] = st], the rest kept. *)
Definition set_state (st : SessionState) (s : MediaState) : MediaState :=
  set_status st (ms_error s) (ms_error_class s) (ms_stop_reason s) s.
Definition set_updated (now : Z) (s : MediaState) : MediaState :=
  {| ms_session_id := ms_session_id s; ms_pid := ms_pid s; ms_endpoint := ms_endpoint s;
     ms_state := ms_state s; ms_error := ms_error s; ms_error_class := ms_error_class s; ms_image := ms_image s;
     ms_bytes_read := ms_bytes_read s; ms_sectors_served := ms_sectors_served s;
     ms_last_request_at := ms_last_request_at s; ms_started_at := ms_started_at s;
     ms_updated_at := now; ms_idle_polls := ms_idle_polls s;
     ms_idle_poll_interval := ms_idle_poll_interval s;
     ms_current_idle_streak := ms_current_idle_streak s;
     ms_last_idle_streak := ms_last_idle_streak s; ms_stop_reason := ms_stop_reason s |}.
Definition set_idle (polls : Z) (cur last : option IdleStreak) (s : MediaState) : MediaState :=
  {| ms_session_id := ms_session_id s; ms_pid := ms_pid s; ms_endpoint := ms_endpoint s;
     ms_state := ms_state s; ms_error := ms_error s; ms_error_class := ms_error_class s; ms_image := ms_image s;
     ms_bytes_read := ms_bytes_read s; ms_sectors_served := ms_sectors_served s;
     ms_last_request_at := ms_last_request_at s; ms_started_at := ms_started_at s;
     ms_updated_at := ms_updated_at s; ms_idle_polls := polls;
     ms_idle_poll_interval := ms_idle_poll_interval s;
     ms_current_idle_streak := cur; ms_last_idle_streak := last; ms_stop_reason := ms_stop_reason s |}.
Definition set_counters (bytes_read sectors : Z) (last_request : option Z) (s : MediaState) : MediaState :=
  {| ms_session_id := ms_session_id s; ms_pid := ms_pid s; ms_endpoint := ms_endpoint s;
     ms_state := ms_state s; ms_error := ms_error s; ms_error_class := ms_error_class s; ms_image := ms_image s;
     ms_bytes_read := bytes_read; ms_sectors_served := sectors;
     ms_last_request_at := last_request; ms_started_at := ms_started_at s;
     ms_updated_at := ms_updated_at s; ms_idle_polls := ms_idle_polls s;
     ms_idle_poll_interval := ms_idle_poll_interval s;
     ms_current_idle_streak := ms_current_idle_streak s;
     ms_last_idle_streak := ms_last_idle_streak s; ms_stop_reason := ms_stop_reason s |}.

(** [_close_idle_streak] *)
Definition close_idle_streak (now : Z) (s : MediaState) : MediaState :=
  match ms_current_idle_streak s with
  | None => s
  | Some k =>
      set_idle (ms_idle_polls s) None
        (Some {| streak_started_at := streak_started_at k; streak_polls := streak_polls k;
                 streak_seconds := streak_seconds k; streak_ended_at := Some now |}) s
  end.

(** The record update of [_on_idle]. *)
Definition note_idle (now : Z) (s : MediaState) : MediaState :=
  let cur :=
    match ms_current_idle_streak s with
    | None => {| streak_started_at := now; streak_polls := 1; streak_seconds := RECV_POLL_TIMEOUT;
                 streak_ended_at := None |}
    | Some k => {| streak_started_at := streak_started_at k; streak_polls := streak_polls k + 1;
                   streak_seconds := (streak_polls k + 1) * RECV_POLL_TIMEOUT;
                   streak_ended_at := streak_ended_at k |}
    end in
  set_idle (ms_idle_polls s + 1) (Some cur) (ms_last_idle_streak s) s.

(** ** The read trace *)

Record TraceEntry : Type := { t_opcode : Z; t_lba : Z; t_blocks : Z }.

(** A line of the sidecar log. *)
Inductive TraceLine : Type :=
  | Entry (e : TraceEntry)
  | TornLine                 (* no JSON *)
  | OtherJson                (* JSON that is no object *)
  | BlankLine.

Definition read_trace_log_path (session_id : text) : text := session_id ++ $".reads.jsonl".

Definition MWorld : Type := world MediaState TraceLine.

(** [deque(maxlen=n).append(x)] *)
Definition deque_append {A} (maxlen : Z) (q : list A) (x : A) : list A :=
  if maxlen <=? 0 then [] else if blen q <? maxlen then q ++ [x] else drop 1 q ++ [x].

(** One line of the loop of [read_trace_summary]: head, tail, total. *)
Definition trace_step (head_limit tail_limit : Z) (acc : list TraceEntry * list TraceEntry * Z) (line : TraceLine)
    : list TraceEntry * list TraceEntry * Z :=
  let '(head, tail, total) := acc in
  match line with
  | BlankLine | TornLine | OtherJson => acc
  | Entry e =>
      let total := total + 1 in
      if total <=? head_limit then (head ++ [e], tail, total)
      else (head, deque_append tail_limit tail e, total)
  end.

Record TraceSummary : Type := {
  read_trace_head : list TraceEntry;
  read_trace_tail : list TraceEntry;
  read_trace_dropped : Z;
}.

(** The loop and what follows it. *)
Definition summarise (head_limit tail_limit : Z) (lines : list TraceLine) : TraceSummary :=
  let '(head, tail, total) := foldl (trace_step head_limit tail_limit) ([], [], 0) lines in
  {| read_trace_head := head; read_trace_tail := tail;
     read_trace_dropped := Z.max 0 (total - head_limit - tail_limit) |}.

(** The lines of the log, nothing when it is missing. *)
Definition trace_lines (session_id : text) (w : MWorld) : list TraceLine :=
  match assoc_get (w_files w) (read_trace_log_path session_id) with
  | Some (LineLog l) => l
  | _ => []
  end.

(** [read_trace_summary]; the limits default to the two constants. *)
Definition read_trace_summary (session_id : text) (head_limit tail_limit : Z) : io MWorld exn TraceSummary := fun w =>
  match assoc_get (w_files w) (read_trace_log_path session_id) with
  | None => (Ret {| read_trace_head := []; read_trace_tail := []; read_trace_dropped := 0 |}, w)
  | Some (Denied e) => (Raise (PermissionError e), w)
  | Some NotUtf8 => (Raise (UnicodeDecodeError ($"'utf-8' codec can't decode")), w)
  | Some _ => (Ret (summarise head_limit tail_limit (trace_lines session_id w)), w)
  end.

(** [remove_state] *)
Definition remove_state (session_id : text) (w : MWorld) : MWorld :=
  remove_paths [state_file_path session_id; log_file_path session_id; read_trace_log_path session_id] w.

(** ** Reclamation *)

(** The loop of [find_conflicting_sessions]. *)
Fixpoint find_conflicts (ids : list text) (endpoint : text) (exclude : option text) : io MWorld exn (list MediaState) :=
  match ids with
  | [] => io_ret []
  | sid :: ids =>
      if bool_decide (Some sid = exclude) then find_conflicts ids endpoint exclude
      else
        do state <- read_state sid;
        do rest <- find_conflicts ids endpoint exclude;
        match state with
        | Some s => if bool_decide (ms_endpoint s = Some endpoint) then io_ret (s :: rest) else io_ret rest
        | None => io_ret rest
        end
  end.
Definition find_conflicting_sessions (endpoint : text) (exclude : option text) : io MWorld exn (list MediaState) :=
  do w <- io_get;
  find_conflicts (list_session_ids w) endpoint exclude.

Section Reclaim.
Variable env : MWorld -> MWorld.

(** One iteration of [reclaim_conflicting_sessions]. *)
Definition reclaim_one (state : MediaState) : io MWorld exn (list text) :=
  do w <- io_get;
  run (if is_pid_alive (ms_pid state) w
       then (run request_stop (ms_pid state);
             do _x <- wait_for_exit env (ms_pid state) RECLAIM_STOP_TIMEOUT; io_ret tt)
       else io_ret tt);
  match ms_session_id state with
  | Some (c :: sid) => run io_modify (remove_state (c :: sid)); io_ret [c :: sid]
  | _ => io_ret []
  end.

Fixpoint reclaim_all (states : list MediaState) : io MWorld exn (list text) :=
  match states with
  | [] => io_ret []
  | s :: states =>
      do a <- reclaim_one s;
      do b <- reclaim_all states;
      io_ret (a ++ b)
  end.

(** [reclaim_conflicting_sessions] *)
Definition reclaim_conflicting_sessions (endpoint : text) (exclude : option text) : io MWorld exn (list text) :=
  do states <- find_conflicting_sessions endpoint exclude;
  reclaim_all states.
End Reclaim.

(** ** [validate_image] *)
Definition validate_image (fs : text -> fs_node) (path : text) : result exn unit :=
  match FileReader_open fs path with
  | Ok _ => Ok tt
  | Err e =>
      if is_os_error e
      then raise_ikvm (ProtocolError ($"invalid media image " ++ repr path ++ $": " ++ exn_str e)
                         None ($"asmb8_media.validate_image"))
      else Err e
  end.

(** ** The daemon *)

(** [class SessionConfig]: neither a credential nor a token. *)
Record SessionConfig : Type := {
  cfg_session_id : text;
  cfg_host : text;
  cfg_port : Z;                      (* the web port, not the media port *)
  cfg_use_tls : bool;
  cfg_allow_insecure_transport : bool;
  cfg_validate_certs : bool;
  cfg_ca_path : option text;
  cfg_tls_fingerprint : option text;
  cfg_timeout : Z;
  cfg_connect_timeout : Z;
  cfg_cd_port : Z;
  cfg_instance : Z;
  cfg_image : text;
  cfg_runtime_dir : text;
}.

(** The daemon's own memory and its surroundings. *)
Record daemon : Type := mkDaemon {
  d_state : MediaState;
  d_world : MWorld;
  d_now_calls : Z;          (* how often the wall clock was read *)
  d_stop_checks : Z;        (* how often the stop flag was read *)
}.

Definition device : Type := CDROMDevice (Cache FileReader).

Section Daemon.
Variable wall : Z -> Z.            (* the wall clock at its n-th reading *)
Variable sigterm : Z -> bool.      (* whether SIGTERM has arrived at the n-th check *)
Variable sid : text.               (* config.session_id *)

(** [_now_iso()] *)
Definition now_iso {E} : io daemon E Z := fun d =>
  (Ret (wall (d_now_calls d)), mkDaemon (d_state d) (d_world d) (d_now_calls d + 1) (d_stop_checks d)).

Definition update_state {E} (f : MediaState -> MediaState) : io daemon E unit :=
  io_modify (fun d => mkDaemon (f (d_state d)) (d_world d) (d_now_calls d) (d_stop_checks d)).

Definition on_world {A} (f : io MWorld exn A) : io daemon exn A := fun d =>
  let '(o, w) := f (d_world d) in (o, mkDaemon (d_state d) w (d_now_calls d) (d_stop_checks d)).

(** [_persist(now)] *)
Definition persist (now : option Z) : io daemon exn unit :=
  do t <- match now with Some t => io_ret t | None => now_iso end;
  run update_state (set_updated t);
  do d <- io_get;
  on_world (write_state_atomic sid (d_state d)).

(** [_on_idle] *)
Definition on_idle : io daemon exn unit :=
  do now <- now_iso;
  run update_state (note_idle now);
  persist (Some now).

(** The trace entry of a request, if it is a READ. *)
Definition trace_entry (req : Packet.t) : option TraceEntry :=
  let cdb := Packet.cdb req in
  match cdb with
  | [] => None
  | op :: _ =>
      if (op =? SCSI_READ10) || (op =? SCSI_READ12) then
        let blocks_slice := if op =? SCSI_READ10 then slice 7 9 cdb else slice 6 10 cdb in
        Some {| t_opcode := op; t_lba := from_be (slice 2 6 cdb); t_blocks := from_be blocks_slice |}
      else None
  end.

(** [trace_log.write(json.dumps(entry) + "\n"); trace_log.flush()] *)
Definition append_trace (e : TraceEntry) : io MWorld exn unit :=
  run disk_step;
  io_modify (fun w => set_files w (assoc_set (w_files w) (read_trace_log_path sid)
                                     (LineLog (trace_lines sid w ++ [Entry e])))).

(** [_on_request]: the device's counters are those before this request. *)
Definition on_request (req : Packet.t) (dev : device) : io daemon exn unit :=
  do now <- now_iso;
  run update_state (close_idle_streak now);
  run update_state (fun s => set_counters (bytes_served dev) (blocks_served dev) (ms_last_request_at s) s);
  run match trace_entry req with
      | Some e => on_world (append_trace e)
      | None => io_ret tt
      end;
  run update_state (fun s => set_counters (ms_bytes_read s) (ms_sectors_served s) (Some now) s);
  persist (Some now).

(** [should_stop=lambda: _stop_flag] *)
Definition should_stop : io daemon exn bool := fun d =>
  (Ret (sigterm (d_stop_checks d)), mkDaemon (d_state d) (d_world d) (d_now_calls d) (d_stop_checks d + 1)).

(** The callbacks as [serve_forever] sees them: the daemon and its device. *)
Definition on_daemon {A} (f : io daemon exn A) : io (daemon * device) exn A := fun p =>
  let '(o, d) := f p.1 in (o, (d, p.2)).
Definition on_device {A} (f : io device exn A) : io (daemon * device) exn A := fun p =>
  let '(o, d) := f p.2 in (o, (p.1, d)).
Definition media_handle (req : Packet.t) : io (daemon * device) exn (option bytes) := on_device (handle req).
Definition media_should_stop : io (daemon * device) exn bool := on_daemon should_stop.
Definition media_on_idle : io (daemon * device) exn unit := on_daemon on_idle.
Definition media_on_request (req : Packet.t) : io (daemon * device) exn unit := fun p =>
  on_daemon (on_request req p.2) p.

Definition media_serve : Session -> io (conn * (daemon * device)) exn serve_outcome :=
  serve_forever media_handle media_should_stop media_on_idle media_on_request.

(** What the daemon does when the serve loop has returned. *)
Definition stop_status (o : serve_outcome) : option text * text :=
  match o with
  | SERVE_STOPPED => (None, $"signal")
  | SERVE_PEER_CLOSED => (Some ($"connection closed by peer"), $"peer_closed")
  | SERVE_KILLED => (Some ($"BMC sent a redirection-terminate (opcode 0xF6)"), $"bmc_terminate")
  end.
Definition finish (o : serve_outcome) (dev : device) : io daemon exn unit :=
  do now <- now_iso;
  run update_state (close_idle_streak now);
  run update_state (fun s => set_counters (bytes_served dev) (blocks_served dev) (ms_last_request_at s) s);
  run update_state (fun s => set_status STATE_DETACHED (stop_status o).1 (ms_error_class s) (Some (stop_status o).2) s);
  persist (Some now).

(** [_fail] *)
Definition fail (known_secrets : list text) (message error_class : text) : io daemon exn unit :=
  run update_state (fun s =>
    set_status STATE_ERROR (Some (redact (Some message) (map Some known_secrets))) (Some error_class)
      (ms_stop_reason s) s);
  persist None.

(** The handlers of the outer [try]. *)
Definition report_exception (known_secrets : list text) (e : exn) : io daemon exn unit :=
  match e with
  | Ikvm err => fail known_secrets (message err) (error_class_str (error_class err))
  | e => fail known_secrets ($"unexpected error: " ++ exn_str e) (error_class_str PROTOCOL)
  end.
End Daemon.

(** [_run_daemon] as a whole: the daemon, the connection it holds (if it got
    that far), the secrets it knows and its web client. *)
Record run_state (C : Type) : Type := mkRun {
  r_daemon : daemon;
  r_conn : option conn;
  r_secrets : list text;
  r_client : C;
  r_lost : option conn;      (* a socket whose handshake failed *)
}.
Arguments mkRun {C}.
Arguments r_daemon {C}.
Arguments r_conn {C}.
Arguments r_secrets {C}.
Arguments r_client {C}.
Arguments r_lost {C}.

Section RunDaemon.
Context {C : Type}.
Variable wall : Z -> Z.
Variable sigterm : Z -> bool.
Variable fs : text -> fs_node.                 (* the controller's files *)
Variable net : text -> Z -> dial.
Variable allocate : io C exn (option text).    (* login, local address and token allocation *)
Variable cfg : SessionConfig.
Variable pid : Z.

Definition in_daemon {A} (f : io daemon exn A) : io (run_state C) exn A := fun r =>
  let '(o, d) := f (r_daemon r) in (o, mkRun d (r_conn r) (r_secrets r) (r_client r) (r_lost r)).
Definition run_endpoint : text := host_port (cfg_host cfg) (cfg_cd_port cfg).
Definition run_persist (now : option Z) : io (run_state C) exn unit :=
  in_daemon (persist wall (cfg_session_id cfg) now).

(** Opening the trace log creates it when it is missing. *)
Definition open_trace_log : io MWorld exn unit :=
  run disk_step;
  io_modify (fun w => set_files w (assoc_set (w_files w) (read_trace_log_path (cfg_session_id cfg))
                                     (LineLog (trace_lines (cfg_session_id cfg) w)))).

(** The connection a call leaves behind is remembered for the final close. *)
Definition connect_session (token : text) : io (run_state C) exn Session := fun r =>
  match Session_connect net (cfg_host cfg) (cfg_cd_port cfg) token DEVICE_CDROM (cfg_instance cfg) None with
  | (Ret s, Some c) =>
      (Ret s, mkRun (r_daemon r) (Some (set_poll_timeout RECV_POLL_TIMEOUT c)) (r_secrets r) (r_client r) (r_lost r))
  | (Ret s, None) => (Blocked, r)              (* a session has a socket *)
  | (Raise e, c) => (Raise e, mkRun (r_daemon r) (r_conn r) (r_secrets r) (r_client r) c)
  | (Blocked, c) => (Blocked, mkRun (r_daemon r) (r_conn r) (r_secrets r) (r_client r) c)
  end.

Definition serve_media (s : Session) (dev : device) : io (run_state C) exn (serve_outcome * device) := fun r =>
  match r_conn r with
  | None => (Blocked, r)                       (* connect_session has set it *)
  | Some c =>
      let '(o, (c, (d, dev))) := media_serve wall sigterm (cfg_session_id cfg) s (c, (r_daemon r, dev)) in
      (match o with Ret x => Ret (x, dev) | Raise e => Raise e | Blocked => Blocked end,
       mkRun d (Some c) (r_secrets r) (r_client r) (r_lost r))
  end.

Definition in_client {A} (f : io C exn A) : io (run_state C) exn A := fun r =>
  let '(o, c) := f (r_client r) in (o, mkRun (r_daemon r) (r_conn r) (r_secrets r) c (r_lost r)).

(** The body of the [try]. *)
Definition daemon_body : io (run_state C) exn unit :=
  do reader <- io_lift (FileReader_open fs (cfg_image cfg));
  let cache := Cache_init reader None WINDOW_SIZE DEFAULT_MAX_WINDOWS in
  let dev : device := CDROMDevice_init cache in
  run in_daemon (on_world open_trace_log);
  run in_daemon (update_state (set_state STATE_CONNECTING));
  run run_persist None;
  do token <- in_client allocate;
  match token with
  | None =>
      io_raise (Ikvm (ProtocolError ($"jviewer.jnlp allocation did not yield a usable media token")
                        (Some run_endpoint) ($"asmb8_media.attach")))
  | Some token =>
      run io_modify (fun r => mkRun (r_daemon r) (r_conn r) (r_secrets r ++ [token]) (r_client r) (r_lost r));
      do session <- connect_session token;
      run in_daemon (update_state (set_state STATE_ATTACHED));
      run run_persist None;
      do (outcome, dev) <- serve_media session dev;
      in_daemon (finish wall (cfg_session_id cfg) outcome dev)
  end.

(** The [finally] clause: the connection, if any, is closed. *)
Definition close_all {E} : io (run_state C) E unit :=
  io_modify (fun r => mkRun (r_daemon r) (option_map Session_close (r_conn r)) (r_secrets r) (r_client r) (r_lost r)).

Definition run_daemon (password : text) (client : C) (w : MWorld) : outcome exn unit * run_state C :=
  let w := set_files w (assoc_set (w_files w) (log_file_path (cfg_session_id cfg)) Plain) in
  let start := initial_state (cfg_session_id cfg) run_endpoint pid (cfg_image cfg) (wall 0) in
  (run run_persist None;
   let guarded := io_try daemon_body (fun e => do r <- io_get; in_daemon (report_exception wall (cfg_session_id cfg) (r_secrets r) e)) in
   fun r =>
     match guarded r with
     | (Blocked, r) => (Blocked, r)
     | (o, r) => (o, (close_all (E := exn) r).2)
     end)
  (mkRun (mkDaemon start w 1 0) None [password] client None).
End RunDaemon.

(** ** Lemmas: the trace summary *)

Definition line_entry (l : TraceLine) : list TraceEntry := match l with Entry e => [e] | _ => [] end.
Definition entries (lines : list TraceLine) : list TraceEntry := concat (map line_entry lines).

Lemma entries_app a b : entries (a ++ b) = entries a ++ entries b.
Proof. unfold entries. by rewrite map_app, concat_app. Qed.

(** The last [n] elements. *)
Definition lastn {A} (n : Z) (l : list A) : list A := drop (length l - Z.to_nat n) l.

Lemma lastn_snoc {A} n (l : list A) x : deque_append n (lastn n l) x = lastn n (l ++ [x]).
Proof.
  unfold deque_append, lastn, blen. rewrite length_app, length_drop. cbn [length].
  destruct (n <=? 0) eqn:E0; bool_to_prop.
  { replace (Z.to_nat n) with O by lia. rewrite Nat.sub_0_r. symmetry. apply drop_ge. rewrite length_app. cbn. lia. }
  destruct (Z.of_nat _ <? n) eqn:E; bool_to_prop.
  - rewrite drop_app_le by lia. f_equal. f_equal. lia.
  - rewrite drop_drop, drop_app_le by lia. f_equal. f_equal. lia.
Qed.

Lemma trace_fold h t lines :
  0 <= h ->
  foldl (trace_step h t) ([], [], 0) lines
  = (take (Z.to_nat h) (entries lines), lastn t (drop (Z.to_nat h) (entries lines)), blen (entries lines)).
Proof.
  intros Hh. induction lines as [|line lines IH] using rev_ind.
  { cbn. rewrite take_nil, drop_nil. done. }
  rewrite foldl_app, IH, entries_app. unfold blen.
  destruct line as [e| | |]; cbn [foldl trace_step entries map concat line_entry app];
    rewrite ?app_nil_r; try done.
  set (es := entries lines). rewrite length_app. cbn [length].
  destruct (Z.of_nat (length es) + 1 <=? h) eqn:E; bool_to_prop.
  - rewrite !take_ge, !drop_ge by (rewrite ?length_app; cbn; lia). f_equal. lia.
  - rewrite lastn_snoc. rewrite take_app_le, drop_app_le by lia. f_equal. lia.
Qed.

(** ** Lemmas: idle bookkeeping *)

(** What happened to the session, newest last: an idle poll or a request. *)
Record event : Type := { ev_idle : bool; ev_at : Z }.

Definition note_event (s : MediaState) (e : event) : MediaState :=
  if ev_idle e then note_idle (ev_at e) s else close_idle_streak (ev_at e) s.

(** The times of the idle polls since the last request, newest first, of a
    history given newest first. *)
Fixpoint trailing (h : list event) : list Z :=
  match h with
  | e :: h => if ev_idle e then ev_at e :: trailing h else []
  | [] => []
  end.

(** The streak made of idle polls at these times (newest first). *)
Definition streak_of (ts : list Z) (ended : option Z) : option IdleStreak :=
  match ts with
  | [] => None
  | _ => Some {| streak_started_at := List.last ts 0; streak_polls := blen ts;
                 streak_seconds := blen ts * RECV_POLL_TIMEOUT; streak_ended_at := ended |}
  end.

(** The most recent streak that a request ended. *)
Fixpoint ended_streak (h : list event) : option IdleStreak :=
  match h with
  | [] => None
  | e :: h =>
      if ev_idle e then ended_streak h
      else match streak_of (trailing h) (Some (ev_at e)) with
           | Some k => Some k
           | None => ended_streak h
           end
  end.

Definition idle_view (h : list event) : Z * option IdleStreak * option IdleStreak :=
  (blen (List.filter ev_idle h), streak_of (trailing h) None, ended_streak h).
Definition idle_fields (s : MediaState) : Z * option IdleStreak * option IdleStreak :=
  (ms_idle_polls s, ms_current_idle_streak s, ms_last_idle_streak s).

Lemma note_event_view h e s :
  idle_fields s = idle_view h -> idle_fields (note_event s e) = idle_view (e :: h).
Proof.
  unfold idle_fields, idle_view. intros [= H1 H2 H3].
  unfold note_event. destruct e as [[] t]; cbn [ev_idle ev_at].
  - unfold note_idle. cbn -[blen streak_of]. rewrite H1, H3. cbn [List.filter trailing ended_streak ev_idle ev_at].
    f_equal. f_equal.
    + unfold blen. cbn [length]. lia.
    + rewrite H2. destruct (trailing h) as [|t' ts]; [done|]. cbn [streak_of streak_started_at streak_polls streak_seconds streak_ended_at].
      unfold blen. cbn [length]. do 2 f_equal; lia.
  - cbn [List.filter trailing ended_streak ev_idle ev_at]. unfold close_idle_streak. rewrite H2.
    destruct (trailing h) as [|t' ts] eqn:Ht; [cbn [streak_of]; by rewrite H1, H2, H3|].
    cbn -[blen]. rewrite H1. done.
Qed.

Lemma idle_fields_updated t s : idle_fields (set_updated t s) = idle_fields s.
Proof. done. Qed.
Lemma idle_fields_counters b n r s : idle_fields (set_counters b n r s) = idle_fields s.
Proof. done. Qed.

(** ** Lemmas: the callbacks when the disk works *)

(** The state file holds the daemon's record. *)
Definition published (sid : text) (d : daemon) : Prop :=
  assoc_get (w_files (d_world d)) (state_file_path sid) = Some (Doc (d_state d)).
Definition disk_ok (d : daemon) : Prop := w_disk (d_world d) = [].

Lemma trace_path_ne sid sid' : read_trace_log_path sid <> state_file_path sid'.
Proof.
  unfold read_trace_log_path, state_file_path. intros H. apply (f_equal (fun l => last l)) in H.
  rewrite !last_app in H. vm_compute in H. discriminate.
Qed.

Section CallbackLemmas.
Variable wall : Z -> Z.
Variable sid : text.
Implicit Types d : daemon.

Lemma persist_ok d now :
  disk_ok d ->
  let t := match now with Some t => t | None => wall (d_now_calls d) end in
  exists d', persist wall sid now d = (Ret tt, d') /\ disk_ok d' /\ published sid d' /\
    d_state d' = set_updated t (d_state d) /\ trace_lines sid (d_world d') = trace_lines sid (d_world d) /\
    d_stop_checks d' = d_stop_checks d.
Proof.
  intros Hd t. unfold disk_ok in Hd.
  assert (forall d0, w_disk (d_world d0) = [] ->
    on_world (write_state_atomic sid (d_state d0)) d0
    = (Ret tt, mkDaemon (d_state d0)
        (set_files (d_world d0) (assoc_set (w_files (d_world d0)) (state_file_path sid) (Doc (d_state d0))))
        (d_now_calls d0) (d_stop_checks d0))) as Hw.
  { intros d0 H0. unfold on_world, write_state_atomic, io_bind, disk_step. by rewrite H0. }
  unfold persist, io_bind, update_state, io_modify, io_get.
  destruct now as [t0|]; cbn [io_ret now_iso]; unfold io_ret, now_iso; rewrite Hw by done.
  all: eexists; split; [done|]; unfold disk_ok, published, trace_lines; cbn.
  all: rewrite assoc_get_set_eq, assoc_get_set_ne by (symmetry; apply trace_path_ne); done.
Qed.

Lemma on_idle_ok d :
  disk_ok d ->
  exists d', on_idle wall sid d = (Ret tt, d') /\ disk_ok d' /\ published sid d' /\
    d_state d' = set_updated (wall (d_now_calls d)) (note_idle (wall (d_now_calls d)) (d_state d)) /\
    trace_lines sid (d_world d') = trace_lines sid (d_world d).
Proof.
  intros Hd. unfold on_idle, io_bind, now_iso, update_state, io_modify. cbn [d_state d_world d_now_calls d_stop_checks].
  set (t := wall (d_now_calls d)).
  destruct (persist_ok (mkDaemon (note_idle t (d_state d)) (d_world d) (d_now_calls d + 1) (d_stop_checks d)) (Some t) Hd)
    as (d' & H1 & H2 & H3 & H4 & H5 & _).
  exists d'. done.
Qed.

Lemma append_trace_ok e (w : MWorld) :
  w_disk w = [] ->
  exists w', append_trace sid e w = (Ret tt, w') /\ w_disk w' = [] /\
    trace_lines sid w' = trace_lines sid w ++ [Entry e].
Proof.
  intros Hd. unfold append_trace, io_bind, disk_step, io_modify. rewrite Hd.
  eexists. split; [done|]. split; [done|]. unfold trace_lines at 1. cbn. by rewrite assoc_get_set_eq.
Qed.

Definition entry_lines (req : Packet.t) : list TraceLine :=
  match trace_entry req with Some e => [Entry e] | None => [] end.

Lemma on_request_ok req dev d :
  disk_ok d ->
  let t := wall (d_now_calls d) in
  exists d', on_request wall sid req dev d = (Ret tt, d') /\ disk_ok d' /\ published sid d' /\
    d_state d' = set_updated t (set_counters (bytes_served dev) (blocks_served dev) (Some t)
                                  (close_idle_streak t (d_state d))) /\
    trace_lines sid (d_world d') = trace_lines sid (d_world d) ++ entry_lines req.
Proof.
  intros Hd t. set (s1 := set_counters (bytes_served dev) (blocks_served dev)
                            (ms_last_request_at (close_idle_streak t (d_state d))) (close_idle_streak t (d_state d))).
  assert (exists w', (match trace_entry req with Some e => append_trace sid e | None => io_ret tt end) (d_world d)
            = (Ret tt, w') /\ w_disk w' = [] /\ trace_lines sid w' = trace_lines sid (d_world d) ++ entry_lines req)
    as (w' & Hw & Hwd & Hwt).
  { unfold entry_lines. destruct (trace_entry req) as [e|]; [by apply append_trace_ok|].
    exists (d_world d). by rewrite app_nil_r. }
  destruct (persist_ok (mkDaemon (set_counters (ms_bytes_read s1) (ms_sectors_served s1) (Some t) s1) w'
                          (d_now_calls d + 1) (d_stop_checks d)) (Some t) Hwd) as (d' & H1 & H2 & H3 & H4 & H5 & _).
  exists d'. split; [|split_and!; [done|done|done|by rewrite H5]].
  rewrite <- H1. unfold on_request, io_bind, now_iso, update_state, io_modify.
  cbn [d_state d_world d_now_calls d_stop_checks]. fold t s1.
  destruct (trace_entry req) as [e|].
  - unfold on_world. cbn [d_state d_world d_now_calls d_stop_checks]. rewrite Hw. done.
  - injection Hw as <-. done.
Qed.
End CallbackLemmas.

(** ** Lemmas: a whole session *)

Definition packet_of (h : Header.t) (payload : bytes) : Packet.t := {| Packet.header := h; Packet.payload := payload |}.
(** The replies, the trace and the traffic the specification assigns to a stream. *)
Definition item_replies (m : bytes) (dt : Z) (i : item) : list bytes :=
  match i with
  | Frame h p => match fst (disc_reply m (packet_of h p)) with
                 | Ok (Some r) => [reply_frame h r dt]
                 | _ => []
                 end
  | IdlePoll => []
  end.
Definition item_lines (i : item) : list TraceLine :=
  match i with Frame h p => entry_lines (packet_of h p) | IdlePoll => [] end.
Definition item_traffic (m : bytes) (i : item) : Z * Z :=
  match i with Frame h p => snd (disc_reply m (packet_of h p)) | IdlePoll => (0, 0) end.
Definition is_idle_item (i : item) : bool := match i with IdlePoll => true | Frame _ _ => false end.
Definition traffic (m : bytes) (l : list item) : Z * Z :=
  (fold_right Z.add 0 (map (fun i => (item_traffic m i).1) l), fold_right Z.add 0 (map (fun i => (item_traffic m i).2) l)).

(** A request the disc answers or ignores: no terminate, no oversized read. *)
Definition item_served (m : bytes) (i : item) : Prop :=
  match i with
  | IdlePoll => True
  | Frame h p => wf_bytes p /\ Packet.is_kill (packet_of h p) = false /\
                 exists r, fst (disc_reply m (packet_of h p)) = Ok r
  end.

(** A daemon in working order, playing [m]. *)
Definition working (m : bytes) (u : daemon * device) : Prop :=
  disk_ok u.1 /\ plays (serves := cache_serves (serves := file_serves)) u.2 m.

Section SessionLemmas.
Variable wall : Z -> Z.
Variable sigterm : Z -> bool.
Variable sid : text.
Variable m : bytes.

Lemma media_handle_ok req u :
  working m u -> wf_bytes (Packet.payload req) ->
  exists u', media_handle req u = (outcome_of (fst (disc_reply m req)), u') /\ working m u' /\ u'.1 = u.1 /\
    bytes_served u'.2 = bytes_served u.2 + fst (snd (disc_reply m req)) /\
    blocks_served u'.2 = blocks_served u.2 + snd (snd (disc_reply m req)).
Proof.
  destruct u as [d dev]. intros [Hd Hp] Hwf. cbn [fst snd] in *.
  destruct (handle_ok dev m req Hp Hwf) as (dev' & H1 & H2 & H3 & H4).
  exists (d, dev'). unfold media_handle, on_device. cbn [fst snd]. rewrite H1. by split_and!.
Qed.

(** What one item does to the daemon and its device. *)
Record item_effect (i : item) (u u' : daemon * device) : Prop := {
  ie_working : working m u';
  ie_published : published sid u'.1;
  ie_lines : trace_lines sid (d_world u'.1) = trace_lines sid (d_world u.1) ++ item_lines i;
  ie_bytes : bytes_served u'.2 = bytes_served u.2 + (item_traffic m i).1;
  ie_blocks : blocks_served u'.2 = blocks_served u.2 + (item_traffic m i).2;
  ie_idle : forall h, idle_fields (d_state u.1) = idle_view h ->
    exists t, idle_fields (d_state u'.1) = idle_view ({| ev_idle := is_idle_item i; ev_at := t |} :: h);
  ie_state : ms_state (d_state u'.1) = ms_state (d_state u.1);
}.

Lemma media_idle_effect u :
  working m u -> exists u', media_on_idle wall sid u = (Ret tt, u') /\ item_effect IdlePoll u u'.
Proof.
  destruct u as [d dev]. intros [Hd Hp]. cbn [fst snd] in *.
  destruct (on_idle_ok wall sid d Hd) as (d' & H1 & H2 & H3 & H4 & H5).
  exists (d', dev). unfold media_on_idle, on_daemon. cbn [fst snd]. rewrite H1. split; [done|].
  split; cbn [fst snd item_lines item_traffic]; rewrite ?app_nil_r, ?Z.add_0_r; try done.
  - intros h Hh. exists (wall (d_now_calls d)). rewrite H4, idle_fields_updated.
    by apply (note_event_view h {| ev_idle := true; ev_at := wall (d_now_calls d) |}).
  - by rewrite H4.
Qed.

(** A request: the callback, then the device. *)
Lemma media_request_effect h p u :
  working m u -> item_served m (Frame h p) ->
  let req := packet_of h p in
  exists u1 u2, media_on_request wall sid req u = (Ret tt, u1) /\
    media_handle req u1 = (outcome_of (fst (disc_reply m req)), u2) /\ item_effect (Frame h p) u u2.
Proof.
  destruct u as [d dev]. intros [Hd Hp] (Hwf & _ & _) req. cbn [fst snd] in *.
  destruct (on_request_ok wall sid req dev d Hd) as (d1 & H1 & H2 & H3 & H4 & H5).
  destruct (media_handle_ok req (d1, dev)) as (u2 & G1 & G2 & G3 & G4 & G5); [done|done|]. cbn [fst snd] in *.
  exists (d1, dev), u2. unfold media_on_request, on_daemon. cbn [fst snd]. rewrite H1.
  split; [done|]. split; [done|].
  split; cbn [fst snd item_lines item_traffic is_idle_item]; rewrite ?G3; try done.
  - intros hist Hh. exists (wall (d_now_calls d)). rewrite H4, idle_fields_updated, idle_fields_counters.
    by apply (note_event_view hist {| ev_idle := false; ev_at := wall (d_now_calls d) |}).
  - rewrite H4. cbn. unfold close_idle_streak. by destruct (ms_current_idle_streak (d_state d)).
Qed.

(** The effect of a list of items. *)
Record session_effect (l : list item) (u u' : daemon * device) : Prop := {
  se_working : working m u';
  se_published : published sid u.1 -> published sid u'.1;
  se_lines : trace_lines sid (d_world u'.1) = trace_lines sid (d_world u.1) ++ concat (map item_lines l);
  se_bytes : bytes_served u'.2 = bytes_served u.2 + (traffic m l).1;
  se_blocks : blocks_served u'.2 = blocks_served u.2 + (traffic m l).2;
  se_idle : forall h, idle_fields (d_state u.1) = idle_view h ->
    exists h', map ev_idle h' = rev (map is_idle_item l) /\ idle_fields (d_state u'.1) = idle_view (h' ++ h);
  se_state : ms_state (d_state u'.1) = ms_state (d_state u.1);
}.

Lemma session_effect_nil u : working m u -> session_effect [] u u.
Proof.
  intros Hw. split; cbn; rewrite ?app_nil_r, ?Z.add_0_r; try done.
  intros h Hh. by exists [].
Qed.

Lemma session_effect_cons i l u u1 u2 :
  item_effect i u u1 -> session_effect l u1 u2 -> session_effect (i :: l) u u2.
Proof.
  intros [A1 A2 A3 A4 A5 A6 A7] [B1 B2 B3 B4 B5 B6 B7]. split; cbn; try done.
  - intros _. by apply B2.
  - by rewrite B3, A3, <- app_assoc.
  - rewrite B4, A4. cbn. lia.
  - rewrite B5, A5. cbn. lia.
  - intros h Hh. destruct (A6 h Hh) as [t Ht]. destruct (B6 _ Ht) as (h' & Hm & Hv).
    exists (h' ++ [{| ev_idle := is_idle_item i; ev_at := t |}]). rewrite map_app, Hm, <- app_assoc. done.
  - congruence.
Qed.

(** The stop check only counts. *)
Lemma session_effect_stop l d dev u2 n :
  session_effect l (mkDaemon (d_state d) (d_world d) (d_now_calls d) n, dev) u2 -> session_effect l (d, dev) u2.
Proof. intros [B1 B2 B3 B4 B5 B6 B7]. by split. Qed.

Lemma media_serve_items dt l txs u :
  (forall n, sigterm n = false) -> working m u -> Forall (item_served m) l ->
  exists u', serve_items media_handle (media_should_stop sigterm) (media_on_idle wall sid)
               (media_on_request wall sid) dt l (txs, u)
    = (Ret SERVE_PEER_CLOSED, (txs ++ concat (map (item_replies m dt) l), u')) /\ session_effect l u u'.
Proof.
  intros Hsig Hw Hl. revert txs u Hw. induction Hl as [|i l Hi Hl IH]; intros txs [d dev] Hw.
  all: set (u := (mkDaemon (d_state d) (d_world d) (d_now_calls d) (d_stop_checks d + 1), dev)).
  all: assert (working m u) as Hu by exact Hw.
  all: assert (media_should_stop sigterm (d, dev) = (Ret false, u)) as Hstop
    by (unfold media_should_stop, on_daemon, should_stop; cbn; by rewrite Hsig).
  all: cbn [serve_items]; unfold io_bind; cbn [fst snd]; rewrite Hstop; cbn beta iota zeta delta [fst snd].
  - exists u. cbn. rewrite app_nil_r. split; [done|].
    apply (session_effect_stop [] d dev u (d_stop_checks d + 1)). by apply session_effect_nil.
  - destruct i as [|h p].
    + destruct (media_idle_effect u Hu) as (u1 & H1 & He). cbn [fst snd]. rewrite H1. cbn [fst snd].
      destruct (IH txs u1 (ie_working _ _ _ He)) as (u' & H2 & He2). exists u'. split; [exact H2|].
      apply (session_effect_stop _ d dev u' (d_stop_checks d + 1)). by eapply session_effect_cons.
    + destruct Hi as (Hwf & Hk & [r Hr]).
      destruct (media_request_effect h p u Hu (conj Hwf (conj Hk (ex_intro _ r Hr)))) as (u1 & u2 & H1 & H2 & He).
      fold (packet_of h p). rewrite Hk. cbn [fst snd]. rewrite H1. cbn [fst snd]. rewrite H2, Hr.
      cbn [outcome_of map concat item_replies].
      rewrite Hr. destruct r as [r|].
      * unfold io_modify. cbn [fst snd].
        destruct (IH (txs ++ [build_response_frame h r dt]) u2 (ie_working _ _ _ He)) as (u' & H3 & He2).
        exists u'. rewrite H3, <- app_assoc, build_response_frame_ok. split; [done|].
        apply (session_effect_stop _ d dev u' (d_stop_checks d + 1)). by eapply session_effect_cons.
      * destruct (IH txs u2 (ie_working _ _ _ He)) as (u' & H3 & He2). exists u'. split; [exact H3|].
        apply (session_effect_stop _ d dev u' (d_stop_checks d + 1)). by eapply session_effect_cons.
Qed.
End SessionLemmas.

(** ** Lemmas: the daemon from start to end *)

(** A record of this session that has not reached its end. *)
Record live_record (sid ep : text) (pid : Z) (s : MediaState) : Prop := {
  lr_id : ms_session_id s = Some sid;
  lr_pid : ms_pid s = Some pid;
  lr_endpoint : ms_endpoint s = Some ep;
  lr_class : ms_error_class s = None;
  lr_reason : ms_stop_reason s = None;
}.
(** A final record. *)
Record final_record (sid ep : text) (pid : Z) (s : MediaState) : Prop := {
  fr_id : ms_session_id s = Some sid;
  fr_pid : ms_pid s = Some pid;
  fr_endpoint : ms_endpoint s = Some ep;
  fr_status : (ms_state s = STATE_DETACHED /\ ms_error_class s = None /\ is_Some (ms_stop_reason s)) \/
              (ms_state s = STATE_ERROR /\ is_Some (ms_error_class s) /\ is_Some (ms_error s) /\ ms_stop_reason s = None);
}.

Section DaemonLemmas.
Variable wall : Z -> Z.
Variable sigterm : Z -> bool.
Variable sid ep : text.
Variable pid : Z.

(** A daemon at work: the disk accepts writes, the record is live. *)
Definition alive (d : daemon) : Prop := disk_ok d /\ live_record sid ep pid (d_state d).
Definition finished (d : daemon) : Prop := disk_ok d /\ published sid d /\ final_record sid ep pid (d_state d).

(** Updates that keep the identity and the open status. *)
Lemma live_updated t s : live_record sid ep pid s -> live_record sid ep pid (set_updated t s).
Proof. by intros [? ? ? ? ?]. Qed.
Lemma live_idle a b c s : live_record sid ep pid s -> live_record sid ep pid (set_idle a b c s).
Proof. by intros [? ? ? ? ?]. Qed.
Lemma live_counters a b c s : live_record sid ep pid s -> live_record sid ep pid (set_counters a b c s).
Proof. by intros [? ? ? ? ?]. Qed.
Lemma live_close t s : live_record sid ep pid s -> live_record sid ep pid (close_idle_streak t s).
Proof. intros H. unfold close_idle_streak. destruct (ms_current_idle_streak s); [by apply live_idle|done]. Qed.
Lemma live_state st s : live_record sid ep pid s -> live_record sid ep pid (set_state st s).
Proof. by intros [? ? ? ? ?]. Qed.
Hint Resolve live_updated live_idle live_counters live_close live_state : core.

Lemma alive_keeps_user {A} (f : io daemon exn A) :
  triple alive f (fun _ => alive) (fun _ => alive) ->
  triple (fun u : daemon * device => alive u.1) (on_daemon f) (fun _ u => alive u.1) (fun _ u => alive u.1).
Proof. intros Hf [d dev] Hd. specialize (Hf d Hd). unfold on_daemon. cbn. by destruct (f d) as [[] d']. Qed.

Lemma on_idle_alive : triple alive (on_idle wall sid) (fun _ => alive) (fun _ => alive).
Proof.
  intros d [Hd Hl]. destruct (on_idle_ok wall sid d Hd) as (d' & -> & H2 & H3 & H4 & _).
  split; [done|]. rewrite H4. unfold note_idle. auto.
Qed.

Lemma on_request_alive req dev : triple alive (on_request wall sid req dev) (fun _ => alive) (fun _ => alive).
Proof.
  intros d [Hd Hl]. destruct (on_request_ok wall sid req dev d Hd) as (d' & -> & H2 & H3 & H4 & _).
  split; [done|]. rewrite H4. auto.
Qed.

Lemma persist_alive now :
  triple alive (persist wall sid now) (fun _ d => alive d /\ published sid d) (fun _ => alive).
Proof.
  intros d [Hd Hl]. destruct (persist_ok wall sid d now Hd) as (d' & -> & H2 & H3 & H4 & _).
  split; [|done]. split; [done|]. rewrite H4. auto.
Qed.

Lemma finish_finished o dev : triple alive (finish wall sid o dev) (fun _ => finished) (fun _ _ => False).
Proof.
  intros d [Hd Hl]. unfold finish, io_bind, now_iso, update_state, io_modify. cbn [d_state d_world d_now_calls d_stop_checks].
  set (t := wall (d_now_calls d)). set (s := set_status _ _ _ _ _).
  destruct (persist_ok wall sid (mkDaemon s (d_world d) (d_now_calls d + 1) (d_stop_checks d)) (Some t) Hd)
    as (d' & -> & H2 & H3 & H4 & _).
  split; [done|]. split; [done|]. rewrite H4. cbn [d_state].
  assert (live_record sid ep pid (close_idle_streak t (d_state d))) as [? ? ? ? ?] by auto.
  split; try done. left. cbn. split_and!; [done|done|]. by eexists.
Qed.

Lemma report_finished secrets e :
  triple alive (report_exception wall sid secrets e) (fun _ => finished) (fun _ _ => False).
Proof.
  assert (forall msg cls, triple alive (fail wall sid secrets msg cls) (fun _ => finished) (fun _ _ => False)) as Hf.
  { intros msg cls d [Hd [? ? ? ? ?]]. unfold fail, io_bind, update_state, io_modify. cbn [d_state d_world d_now_calls d_stop_checks].
    set (s := set_status _ _ _ _ _).
    destruct (persist_ok wall sid (mkDaemon s (d_world d) (d_now_calls d) (d_stop_checks d)) None Hd)
      as (d' & -> & H2 & H3 & H4 & _).
    split; [done|]. split; [done|]. rewrite H4. cbn [d_state]. split; try done. right. cbn.
    split_and!; [done|by eexists|by eexists|done]. }
  unfold report_exception. destruct e; apply Hf.
Qed.

Lemma media_serve_alive s :
  triple (fun p : conn * (daemon * device) => alive p.2.1) (media_serve wall sigterm sid s)
    (fun _ p => alive p.2.1) (fun _ p => alive p.2.1).
Proof.
  intros p Hp. unfold media_serve, serve_forever.
  apply (serve_loop_keeps (fun u : daemon * device => alive u.1)); [..|done].
  - intros req [d dev] Hd. unfold media_handle, on_device. cbn in *. by destruct (handle req dev) as [[] ?].
  - apply alive_keeps_user. by intros d Hd.
  - apply alive_keeps_user, on_idle_alive.
  - intros req [d dev] Hd. apply (alive_keeps_user (on_request wall sid req dev)); [apply on_request_alive|done].
Qed.

Lemma open_trace_alive cfg : cfg_session_id cfg = sid ->
  triple alive (on_world (open_trace_log cfg)) (fun _ => alive) (fun _ => alive).
Proof.
  intros _ d [Hd Hl]. unfold on_world, open_trace_log, io_bind, disk_step, io_modify. unfold disk_ok in Hd. rewrite Hd. by split.
Qed.
End DaemonLemmas.

(** What holds of the daemon through the body of the [try], given that the
    callbacks, the reports and the end of the serve loop respect it. *)
Section RunLemmas.
Context {C : Type}.
Variable wall : Z -> Z.
Variable sigterm : Z -> bool.
Variable fs : text -> fs_node.
Variable net : text -> Z -> dial.
Variable allocate : io C exn (option text).
Variable cfg : SessionConfig.
Variable keeps : daemon -> Prop.
Variable final : list text -> daemon -> Prop.   (* at the end, given the secrets known *)
Variable base : list text.                      (* the secrets known from the start *)
Local Abbreviation sid := (cfg_session_id cfg).

Definition holding (r : run_state C) : Prop := keeps (r_daemon r) /\ base ⊆ r_secrets r.

Record respected : Prop := {
  rs_persist now : triple keeps (persist wall sid now) (fun _ => keeps) (fun _ => keeps);
  rs_state st d : keeps d -> keeps (mkDaemon (set_state st (d_state d)) (d_world d) (d_now_calls d) (d_stop_checks d));
  rs_trace : triple keeps (on_world (open_trace_log cfg)) (fun _ => keeps) (fun _ => keeps);
  rs_serve s : triple (fun p : conn * (daemon * device) => keeps p.2.1) (media_serve wall sigterm sid s)
                 (fun _ p => keeps p.2.1) (fun _ p => keeps p.2.1);
  rs_finish l o dev : triple keeps (finish wall sid o dev) (fun _ => final l) (fun _ => keeps);
}.
Hypothesis ok : respected.

Lemma in_daemon_triple {A} (P : daemon -> Prop) (Q : list text -> daemon -> Prop) (R : exn -> daemon -> Prop) (f : io daemon exn A) :
  (forall l, triple P f (fun _ => Q l) R) ->
  triple (fun r : run_state C => P (r_daemon r) /\ base ⊆ r_secrets r) (in_daemon f)
    (fun _ r => Q (r_secrets r) (r_daemon r) /\ base ⊆ r_secrets r) (fun e r => R e (r_daemon r) /\ base ⊆ r_secrets r).
Proof. intros Hf r [Hr Hb]. specialize (Hf (r_secrets r) _ Hr). unfold in_daemon. by destruct (f (r_daemon r)) as [[] d]. Qed.

Lemma run_persist_triple now :
  triple holding (run_persist wall cfg now) (fun _ => holding) (fun _ => holding).
Proof using ok. apply (in_daemon_triple _ (fun _ => keeps)). intros _. apply (rs_persist ok). Qed.

Lemma set_state_triple st R :
  triple holding (in_daemon (update_state (set_state st))) (fun _ => holding) R.
Proof using ok. intros r [Hr Hb]. split; [by apply (rs_state ok)|done]. Qed.

Lemma serve_media_triple s dev :
  triple holding (serve_media wall sigterm cfg s dev) (fun _ => holding) (fun _ => holding).
Proof using ok.
  intros r [Hr Hb]. unfold serve_media. destruct (r_conn r) as [c|]; [|done].
  pose proof (rs_serve ok s (c, (r_daemon r, dev)) Hr) as H.
  destruct (media_serve wall sigterm (cfg_session_id cfg) s (c, (r_daemon r, dev))) as [[] [c' [d' dev']]]; by split.
Qed.

Lemma daemon_body_triple :
  triple holding (daemon_body wall sigterm fs net allocate cfg)
    (fun _ r => final (r_secrets r) (r_daemon r) /\ base ⊆ r_secrets r) (fun _ => holding).
Proof using ok.
  unfold daemon_body.
  eapply triple_bind; [apply (triple_lift _ _ (fun _ => holding)); done|intros reader].
  eapply triple_bind; [apply (in_daemon_triple _ (fun _ => keeps)); intros _; apply (rs_trace ok)|intros ?].
  eapply triple_bind; [apply set_state_triple|intros ?].
  eapply triple_bind; [apply run_persist_triple|intros ?].
  eapply triple_bind with (Q := fun _ => holding); [intros r Hr; unfold in_client; by destruct (allocate (r_client r)) as [[] c]|intros [token|]].
  2: by apply triple_raise.
  eapply triple_bind; [apply (triple_modify _ _ (fun _ => holding)); intros r [Hr Hb]; split; [done|set_solver]|intros ?].
  eapply triple_bind with (Q := fun _ => holding).
  { intros r Hr. unfold connect_session. by destruct (Session_connect _ _ _ _ _ _ _) as [[] []]. }
  intros session. eapply triple_bind; [apply set_state_triple|intros ?].
  eapply triple_bind; [apply run_persist_triple|intros ?].
  eapply triple_bind; [apply serve_media_triple|intros [o dev]].
  apply in_daemon_triple. intros l'. apply (rs_finish ok).
Qed.

(** The [try] with its handlers, when the reports lead to [final] too. *)
Definition guarded_body : io (run_state C) exn unit :=
  io_try (daemon_body wall sigterm fs net allocate cfg)
    (fun e => do r <- io_get; in_daemon (report_exception wall sid (r_secrets r) e)).

Lemma guarded_body_triple (R : list text -> exn -> daemon -> Prop) :
  (forall l e, triple keeps (report_exception wall sid l e) (fun _ => final l) (R l)) ->
  triple holding guarded_body (fun _ r => final (r_secrets r) (r_daemon r) /\ base ⊆ r_secrets r)
    (fun e r => R (r_secrets r) e (r_daemon r) /\ base ⊆ r_secrets r).
Proof using ok.
  intros Hrep. unfold guarded_body. eapply triple_try; [apply daemon_body_triple|].
  intros e r [Hr Hb]. unfold io_bind, io_get, in_daemon. cbn [fst snd]. specialize (Hrep (r_secrets r) e _ Hr).
  by destruct (report_exception _ _ _ _ _) as [[] d].
Qed.
End RunLemmas.

Lemma alive_respected wall sigterm cfg pid :
  respected wall sigterm cfg (alive (cfg_session_id cfg) (run_endpoint cfg) pid)
    (fun _ => finished (cfg_session_id cfg) (run_endpoint cfg) pid).
Proof.
  split; try done.
  - intros now. eapply triple_conseq; [apply persist_alive|done|by intros ? ? []|done].
  - intros st d [Hd Hl]. split; [done|]. by apply live_state.
  - by apply open_trace_alive.
  - intros s. apply media_serve_alive.
  - intros l o dev. eapply triple_conseq; [apply finish_finished|done|done|done].
Qed.

(** ** Lemmas: the daemon ends when its stream does *)

Section NonBlocking.
Variable wall : Z -> Z.
Variable sigterm : Z -> bool.
Variable sid : text.

Lemma disk_step_nb : never_blocks (disk_step (St := MediaState) (Ln := TraceLine)).
Proof. intros w. unfold disk_step. by destruct (w_disk w) as [|[]]. Qed.

Lemma on_world_nb {A} (f : io MWorld exn A) : never_blocks f -> never_blocks (on_world f).
Proof. intros Hf d. specialize (Hf (d_world d)). unfold on_world. by destruct (f (d_world d)). Qed.

Lemma now_nb {E} : never_blocks (now_iso (E := E) wall).
Proof. by intros d. Qed.
Lemma update_nb {E} f : never_blocks (update_state (E := E) f).
Proof. by intros d. Qed.

Hint Resolve disk_step_nb on_world_nb now_nb update_nb : ikvm.

Lemma persist_nb now : never_blocks (persist wall sid now).
Proof.
  unfold persist. apply nb_bind; [destruct now; auto with ikvm|]. intros t. apply nb_bind; [auto with ikvm|]. intros _.
  apply nb_bind; [auto with ikvm|]. intros d. apply on_world_nb. unfold write_state_atomic. auto with ikvm.
Qed.

Lemma on_daemon_nb {A} (f : io daemon exn A) : never_blocks f -> never_blocks (on_daemon f).
Proof. intros Hf [d dev]. specialize (Hf d). unfold on_daemon. cbn. by destruct (f d). Qed.

Lemma media_handle_nb req : never_blocks (media_handle req).
Proof. intros [d dev]. pose proof (handle_nb_cached req dev) as H. unfold media_handle, on_device. cbn. by destruct (handle req dev). Qed.
Lemma media_stop_nb : never_blocks (media_should_stop sigterm).
Proof. apply on_daemon_nb. by intros d. Qed.
Lemma media_idle_nb : never_blocks (media_on_idle wall sid).
Proof.
  apply on_daemon_nb. unfold on_idle. apply nb_bind; [auto with ikvm|]. intros t.
  apply nb_bind; [auto with ikvm|]. intros _. apply persist_nb.
Qed.
Lemma media_request_nb req : never_blocks (media_on_request wall sid req).
Proof.
  intros [d dev]. unfold media_on_request. apply on_daemon_nb. unfold on_request.
  do 3 (apply nb_bind; [auto with ikvm|intros ?]).
  apply nb_bind; [destruct (trace_entry req); [apply on_world_nb; unfold append_trace; auto with ikvm|auto with ikvm]|].
  intros _. apply nb_bind; [auto with ikvm|]. intros _. apply persist_nb.
Qed.
End NonBlocking.

(** A connection whose stream ends. *)
Definition ending (c : conn) : Prop := closed (c_sock c) = false /\ AEof ∈ atoms_of c.
(** Every connection the network offers ends at some point. *)
Definition ending_net (net : text -> Z -> dial) : Prop :=
  forall host port s, net host port = Connected s -> closed s = false /\ AEof ∈ atoms (rx s).

Lemma Session_connect_ending net host port token dt inst rec :
  ending_net net ->
  match Session_connect net host port token dt inst rec with
  | (Ret _, Some c) => ending c
  | (Raise _, _) => True
  | (Ret _, None) | (Blocked, _) => False
  end.
Proof.
  intros Hn. unfold Session_connect, iusb_connect. destruct (net host port) as [s| |e] eqn:Hs; [|done|done].
  destruct (Hn host port s Hs) as [Hc He]. unfold authenticate, io_bind, io_try.
  destruct (build_auth dt inst token false) as [auth|e]; [|done]. cbn [io_lift]. unfold io_ret.
  destruct (write_frame_script auth (mkConn s rec)) as (W1 & W2 & W3).
  destruct (write_frame auth (mkConn s rec)) as [[[]|e|] c1]; cbn [fst snd] in *; [|done|done].
  destruct (consumes_read_packet c1) as (R1 & _ & _ & _ & R5); [rewrite W2; exact Hc|].
  destruct R5 as [R5 R6]; [unfold atoms_of; rewrite W1; done|].
  destruct (read_packet c1) as [[ack|e|] c2]; cbn [fst snd] in *; [|by destruct e|done].
  by destruct (interpret_ack ack (Some (host_port host port))) as [[]|e].
Qed.

Lemma media_serve_ends wall sigterm sid s c u :
  ending c -> (media_serve wall sigterm sid s (c, u)).1 <> Blocked.
Proof.
  intros [Hc He]. unfold media_serve, serve_forever. cbn [fst].
  apply serve_loop_terminates;
    [apply media_handle_nb|apply media_stop_nb|apply media_idle_nb|apply media_request_nb|done|done|].
  unfold serve_fuel, atoms_of. lia.
Qed.

Section RunEnds.
Context {C : Type}.
Variable wall : Z -> Z.
Variable sigterm : Z -> bool.
Variable fs : text -> fs_node.
Variable net : text -> Z -> dial.
Variable allocate : io C exn (option text).
Variable cfg : SessionConfig.
Hypothesis net_ends : ending_net net.

Lemma in_daemon_nb {A} (f : io daemon exn A) : never_blocks f -> never_blocks (in_daemon (C := C) f).
Proof. intros Hf r. specialize (Hf (r_daemon r)). unfold in_daemon. by destruct (f (r_daemon r)). Qed.

(** A step that leaves the client alone, and what follows for that client. *)
Lemma nb_client_bind {A B} (f : io (run_state C) exn A) (k : A -> io (run_state C) exn B) c :
  (forall r, (f r).1 <> Blocked /\ r_client (f r).2 = r_client r) ->
  (forall a r, r_client r = c -> (k a r).1 <> Blocked) ->
  forall r, r_client r = c -> (io_bind f k r).1 <> Blocked.
Proof.
  intros Hf Hk r Hr. destruct (Hf r) as [H1 H2]. unfold io_bind. destruct (f r) as [[a|e|] r']; [|done|done].
  apply Hk. cbn in H2. congruence.
Qed.

Lemma in_daemon_nb_client {A} (f : io daemon exn A) :
  never_blocks f -> forall r : run_state C, (in_daemon f r).1 <> Blocked /\ r_client (in_daemon f r).2 = r_client r.
Proof. intros Hf r. specialize (Hf (r_daemon r)). unfold in_daemon. by destruct (f (r_daemon r)). Qed.

Lemma run_persist_nb now : never_blocks (run_persist (C := C) wall cfg now).
Proof. apply in_daemon_nb, persist_nb. Qed.

Lemma finish_nb sid o dev : never_blocks (finish wall sid o dev).
Proof.
  unfold finish. apply nb_bind; [apply now_nb|intros t].
  repeat (apply nb_bind; [apply update_nb|intros ?]). apply persist_nb.
Qed.

Lemma report_nb sid secrets e : never_blocks (report_exception wall sid secrets e).
Proof.
  assert (forall msg cls, never_blocks (fail wall sid secrets msg cls)) as Hf.
  { intros. unfold fail. apply nb_bind; [apply update_nb|intros ?]. apply persist_nb. }
  unfold report_exception. destruct e; apply Hf.
Qed.

(** From the connection on. *)
Lemma serve_phase_nb token dev :
  never_blocks (S := run_state C)
    (do session <- connect_session net cfg token;
     run in_daemon (update_state (set_state STATE_ATTACHED));
     run run_persist wall cfg None;
     do (outcome, dev) <- serve_media wall sigterm cfg session dev;
     in_daemon (finish wall (cfg_session_id cfg) outcome dev)).
Proof.
  intros r. unfold io_bind at 1, connect_session.
  pose proof (Session_connect_ending net (cfg_host cfg) (cfg_cd_port cfg) token DEVICE_CDROM (cfg_instance cfg) None net_ends) as Hc.
  destruct (Session_connect _ _ _ _ _ _ _) as [[session|e|] [c|]]; try done.
  set (c1 := set_poll_timeout RECV_POLL_TIMEOUT c). assert (ending c1) as Hc1 by exact Hc.
  unfold io_bind at 1. cbn [in_daemon update_state io_modify]. unfold in_daemon at 1, update_state, io_modify.
  cbn [r_daemon r_conn r_secrets]. unfold io_bind at 1.
  set (r1 := mkRun _ (Some c1) _ _ _).
  pose proof (run_persist_nb None r1) as Hp.
  assert (r_conn (run_persist wall cfg None r1).2 = Some c1) as Hconn.
  { unfold run_persist, in_daemon. by destruct (persist wall (cfg_session_id cfg) None (r_daemon r1)). }
  destruct (run_persist wall cfg None r1) as [[[]|e|] r2]; [|done|done]. cbn [snd] in Hconn.
  unfold io_bind at 1, serve_media. rewrite Hconn.
  pose proof (media_serve_ends wall sigterm (cfg_session_id cfg) session c1 (r_daemon r2, dev) Hc1) as Hs.
  destruct (media_serve _ _ _ _ _) as [[o|e|] [c3 [d3 dev3]]]; [|done|done].
  apply in_daemon_nb, finish_nb.
Qed.

Lemma daemon_body_nb r :
  (allocate (r_client r)).1 <> Blocked -> (daemon_body wall sigterm fs net allocate cfg r).1 <> Blocked.
Proof using net_ends.
  intros Hal. unfold daemon_body. revert r Hal. enough (forall c r, (allocate c).1 <> Blocked -> r_client r = c -> _) as H by
    (intros r Hal; exact (H _ r Hal eq_refl)).
  intros c r Hal. revert r. apply nb_client_bind; [intros r; by destruct (FileReader_open _ _)|intros reader].
  apply nb_client_bind; [apply in_daemon_nb_client, on_world_nb, nb_bind; [apply disk_step_nb|intros ?; apply nb_modify]|intros _].
  apply nb_client_bind; [apply in_daemon_nb_client, update_nb|intros _].
  apply nb_client_bind; [apply in_daemon_nb_client, persist_nb|intros _].
  intros r <-. unfold io_bind at 1, in_client. destruct (allocate (r_client r)) as [[[token|]|e|] c']; [|done|done|done].
  clear Hal. generalize (mkRun (r_daemon r) (r_conn r) (r_secrets r) c' (r_lost r)).
  apply nb_bind; [apply nb_modify|intros ?]. apply serve_phase_nb.
Qed.
End RunEnds.

(** ** Lemmas: the sockets of a run *)

Section Sockets.
Context {C : Type}.
Variable wall : Z -> Z.
Variable sigterm : Z -> bool.
Variable fs : text -> fs_node.
Variable net : text -> Z -> dial.
Variable allocate : io C exn (option text).
Variable cfg : SessionConfig.
Implicit Types r : run_state C.

(** The dialling of a run, when it comes to that: the image can be opened
    and a token is allocated. *)
Definition dialled (client : C) : option (outcome exn Session * option conn) :=
  match FileReader_open fs (cfg_image cfg), allocate client with
  | Ok _, (Ret (Some token), _) =>
      Some (Session_connect net (cfg_host cfg) (cfg_cd_port cfg) token DEVICE_CDROM (cfg_instance cfg) None)
  | _, _ => None
  end.

(** A session is held exactly when the handshake succeeded; the socket of a
    failed handshake is held by nobody. *)
Definition sockets_of (client : C) (r : run_state C) : Prop :=
  match dialled client with
  | Some (Ret _, _) => is_Some (r_conn r) /\ r_lost r = None
  | Some (_, lost) => r_conn r = None /\ r_lost r = lost
  | None => r_conn r = None /\ r_lost r = None
  end.

Definition in_session r : Prop := is_Some (r_conn r) /\ r_lost r = None.
Definition keeps_session {A} (c : io (run_state C) exn A) : Prop := triple in_session c (fun _ => in_session) (fun _ => in_session).

Lemma in_daemon_sockets {A} (f : io daemon exn A) r :
  r_conn (in_daemon f r).2 = r_conn r /\ r_lost (in_daemon f r).2 = r_lost r /\ r_client (in_daemon f r).2 = r_client r.
Proof. unfold in_daemon. by destruct (f (r_daemon r)). Qed.
Lemma in_daemon_session {A} (f : io daemon exn A) : keeps_session (in_daemon f).
Proof.
  intros r Hr. destruct (in_daemon_sockets f r) as (H1 & H2 & _). destruct (in_daemon f r) as [[] r']; cbn [snd] in *; [..|done];
    unfold in_session; by rewrite H1, H2.
Qed.
Lemma serve_media_session session dev : keeps_session (serve_media wall sigterm cfg session dev).
Proof.
  intros r [[c Hc] Hl]. unfold serve_media. rewrite Hc. destruct (media_serve _ _ _ _ _) as [[] [c' [d' dev']]]; [..|done]; by (split; [eexists|]).
Qed.

(** Up to the allocation of the token nothing but the daemon's own record
    changes, when the image opens and writes succeed. *)
Definition after_allocation (dev : device) (token : option text) : io (run_state C) exn unit :=
  match token with
  | None =>
      io_raise (Ikvm (ProtocolError ($"jviewer.jnlp allocation did not yield a usable media token")
                        (Some (run_endpoint cfg)) ($"asmb8_media.attach")))
  | Some token =>
      run io_modify (fun r => mkRun (r_daemon r) (r_conn r) (r_secrets r ++ [token]) (r_client r) (r_lost r));
      do session <- connect_session net cfg token;
      run in_daemon (update_state (set_state STATE_ATTACHED));
      run run_persist wall cfg None;
      do (outcome, dev) <- serve_media wall sigterm cfg session dev;
      in_daemon (finish wall (cfg_session_id cfg) outcome dev)
  end.
Lemma body_allocates r reader : disk_ok (r_daemon r) -> FileReader_open fs (cfg_image cfg) = Ok reader ->
  exists d dev, daemon_body wall sigterm fs net allocate cfg r
    = io_bind (in_client allocate) (after_allocation dev) (mkRun d (r_conn r) (r_secrets r) (r_client r) (r_lost r)).
Proof.
  intros Hd Hf. unfold daemon_body. unfold io_bind at 1. rewrite Hf. cbn [io_lift]. unfold io_ret at 1. cbv zeta.
  assert (exists d1, on_world (open_trace_log cfg) (r_daemon r) = (Ret tt, d1) /\ disk_ok d1) as (d1 & E1 & Hd1).
  { unfold on_world, open_trace_log, io_bind, disk_step, io_modify. rewrite Hd. by eexists. }
  unfold io_bind at 1, in_daemon at 1. rewrite E1. unfold io_bind at 1, in_daemon at 1, update_state at 1, io_modify at 1.
  cbn [r_daemon r_conn r_secrets r_client r_lost].
  destruct (persist_ok wall (cfg_session_id cfg) (mkDaemon (set_state STATE_CONNECTING (d_state d1)) (d_world d1) (d_now_calls d1) (d_stop_checks d1))
              None Hd1) as (d2 & E2 & Hd2 & _).
  unfold io_bind at 1, run_persist at 1, in_daemon at 1. cbn [r_daemon]. rewrite E2.
  by eexists d2, _.
Qed.

Lemma body_sockets r : disk_ok (r_daemon r) -> r_conn r = None -> r_lost r = None ->
  match daemon_body wall sigterm fs net allocate cfg r with (Blocked, _) => True | (_, r') => sockets_of (r_client r) r' end.
Proof.
  intros Hd Hc Hl. unfold sockets_of, dialled.
  destruct (FileReader_open fs (cfg_image cfg)) as [reader|e] eqn:Ef; [|by unfold daemon_body, io_bind at 1; rewrite Ef].
  destruct (body_allocates r reader Hd Ef) as (d2 & dev & ->). unfold io_bind at 1, in_client at 1. cbn [r_daemon r_conn r_secrets r_client r_lost].
  destruct (allocate (r_client r)) as [[[token|]|e|] client]; [|by cbn..]. cbn [after_allocation].
  unfold io_bind at 1, io_modify at 1, io_bind at 1, connect_session. cbn [r_daemon r_conn r_secrets r_client r_lost].
  destruct (Session_connect _ _ _ _ _ _ _) as [[session|e|] [c|]]; try by cbn.
  set (rest := io_bind _ _). set (r1 := mkRun _ _ _ _ _).
  assert (keeps_session rest) as Hk.
  { eapply triple_bind; [apply in_daemon_session|intros ?]. eapply triple_bind; [apply in_daemon_session|intros ?].
    eapply triple_bind; [apply serve_media_session|intros [o dev']]. apply in_daemon_session. }
  specialize (Hk r1). unfold in_session in Hk. cbn [r1 r_conn r_lost] in Hk. rewrite Hl in Hk.
  specialize (Hk (conj (ex_intro _ _ eq_refl) eq_refl)). by destruct (rest r1) as [[] r'].
Qed.

(** A token that was allocated is among the secrets from then on. *)
Definition keeps_secret {A} (t : text) (c : io (run_state C) exn A) : Prop :=
  triple (fun r => t ∈ r_secrets r) c (fun _ r => t ∈ r_secrets r) (fun _ r => t ∈ r_secrets r).
Lemma in_daemon_secret {A} t (f : io daemon exn A) : keeps_secret t (in_daemon f).
Proof. intros r Hr. unfold in_daemon. by destruct (f (r_daemon r)) as [[] d]. Qed.

Lemma body_secret r token client' : disk_ok (r_daemon r) -> (exists reader, FileReader_open fs (cfg_image cfg) = Ok reader) ->
  allocate (r_client r) = (Ret (Some token), client') ->
  match daemon_body wall sigterm fs net allocate cfg r with (Blocked, _) => True | (_, r') => token ∈ r_secrets r' end.
Proof.
  intros Hd [reader Hf] Ha. destruct (body_allocates r reader Hd Hf) as (d2 & dev & ->).
  unfold io_bind at 1, in_client at 1. cbn [r_daemon r_conn r_secrets r_client r_lost]. rewrite Ha. cbn [after_allocation].
  unfold io_bind at 1, io_modify at 1. set (rest := io_bind _ _). set (r1 := mkRun _ _ _ _ _).
  assert (keeps_secret token rest) as Hk.
  { eapply triple_bind with (Q := fun _ r => token ∈ r_secrets r).
    { intros r2 Hr2. unfold connect_session. by destruct (Session_connect _ _ _ _ _ _ _) as [[] []]. }
    intros session. eapply triple_bind; [apply in_daemon_secret|intros ?]. eapply triple_bind; [apply in_daemon_secret|intros ?].
    eapply triple_bind with (Q := fun _ r => token ∈ r_secrets r); [|intros [o dev2]; apply in_daemon_secret].
    intros r2 Hr2. unfold serve_media. destruct (r_conn r2) as [c|]; [|done]. by destruct (media_serve _ _ _ _ _) as [[] [c' [d' dev']]]. }
  specialize (Hk r1 ltac:(cbn; apply elem_of_app; right; left)). by destruct (rest r1) as [[] r'].
Qed.

Lemma guarded_secret r token client' : disk_ok (r_daemon r) -> (exists reader, FileReader_open fs (cfg_image cfg) = Ok reader) ->
  allocate (r_client r) = (Ret (Some token), client') ->
  match guarded_body wall sigterm fs net allocate cfg r with (Blocked, _) => True | (_, r') => token ∈ r_secrets r' end.
Proof.
  intros Hd Hf Ha. unfold guarded_body, io_try. pose proof (body_secret r token client' Hd Hf Ha) as H.
  destruct (daemon_body _ _ _ _ _ _ r) as [[x|e|] r1]; [done| |done].
  unfold io_bind, io_get. pose proof (in_daemon_secret token (report_exception wall (cfg_session_id cfg) (r_secrets r1) e) r1 H) as H1.
  by destruct (in_daemon _ r1) as [[] r2].
Qed.

Lemma guarded_sockets r : disk_ok (r_daemon r) -> r_conn r = None -> r_lost r = None ->
  match guarded_body wall sigterm fs net allocate cfg r with (Blocked, _) => True | (_, r') => sockets_of (r_client r) r' end.
Proof.
  intros Hd Hc Hl. unfold guarded_body, io_try. pose proof (body_sockets r Hd Hc Hl) as H.
  destruct (daemon_body _ _ _ _ _ _ r) as [[x|e|] r1]; [done| |done].
  unfold io_bind, io_get. destruct (in_daemon_sockets (report_exception wall (cfg_session_id cfg) (r_secrets r1) e) r1) as (H1 & H2 & _).
  unfold sockets_of in *. destruct (in_daemon _ r1) as [[] r2]; [..|done]; cbn [snd] in *; by rewrite H1, H2.
Qed.
End Sockets.

(** ** Lemmas: reclamation *)

(** The file [name] of a world. *)
Definition file_at (w : MWorld) (name : text) : option (content MediaState TraceLine) := assoc_get (w_files w) name.

(** A file that was at most rewritten by its daemon, which keeps the identity
    of the record. *)
Definition same_file (a b : option (content MediaState TraceLine)) : Prop :=
  a = b \/ exists s s', a = Some (Doc s) /\ b = Some (Doc s') /\
             ms_session_id s' = ms_session_id s /\ ms_endpoint s' = ms_endpoint s.

Definition all_mine (w : MWorld) : Prop :=
  forall pid p, assoc_get (w_procs w) pid = Some p -> p_mine p = true.

(** The other processes while this one sleeps: time passes, the processes stay
    this user's, and of each file they keep what the relation [rel] says.
    Nothing else is assumed: with a suitable [rel] files may appear, change
    and disappear. *)
Definition file_relation : Type := relation (option (content MediaState TraceLine)).
Record fair_env (rel : file_relation) (env : MWorld -> MWorld) : Prop := {
  fe_clock : forall w, w_clock w <= w_clock (env w);
  fe_files : forall w name, rel (file_at w name) (file_at (env w) name);
  fe_mine : forall w, all_mine w -> all_mine (env w);
}.

(** Every [.json] file is a record that names its own session. *)
Definition dir_ok (w : MWorld) : Prop :=
  forall name c, file_at w name = Some c -> is_json_name name = true ->
    exists sid s, sid <> [] /\ name = state_file_path sid /\ c = Doc s /\ ms_session_id s = Some sid.

Lemma same_file_refl a : same_file a a.
Proof. by left. Qed.
Lemma same_file_trans a b c : same_file a b -> same_file b c -> same_file a c.
Proof.
  intros [->|(s & s' & -> & -> & H1 & H2)]; [done|].
  intros [<-|(s2 & s3 & [= <-] & -> & H3 & H4)]; right; [by exists s, s'|].
  exists s, s3. split_and!; [done|done|congruence..].
Qed.
#[export] Instance same_file_preorder : PreOrder same_file.
Proof. split; [intros a; apply same_file_refl|intros a b c; apply same_file_trans]. Qed.

(** What may change while waiting. *)
Definition evolves (rel : file_relation) (w w' : MWorld) : Prop :=
  all_mine w' /\ forall name, rel (file_at w name) (file_at w' name).

Lemma wait_for_exit_evolves (rel : file_relation) `{!PreOrder rel} env pid timeout w :
  fair_env rel env -> all_mine w ->
  exists b w', wait_for_exit env pid timeout w = (Ret b, w') /\ evolves rel w w'.
Proof.
  intros [Hc Hf Hm] Hw. unfold wait_for_exit, io_bind, io_get.
  assert (forall fuel deadline poll w0, all_mine w0 ->
    evolves rel w0 (wait_for_exit_loop env fuel pid deadline poll w0).2) as Hev.
  { intros fuel deadline poll. induction fuel as [|fuel IH]; intros w0 H0; cbn [wait_for_exit_loop].
    { by split; [|intros; reflexivity]. }
    unfold io_bind, io_get, io_ret, io_modify.
    destruct (negb _); [by split; [|intros; reflexivity]|].
    destruct (_ <=? _); [by split; [|intros; reflexivity]|].
    destruct (IH (sleep env poll w0)) as [H1 H2]; [by apply Hm|]. split; [done|].
    intros name. etransitivity; [|apply H2].
    apply (Hf (mkWorld (w_files w0) (w_procs w0) (w_clock w0 + poll) (w_disk w0)) name). }
  assert (w_clock w + timeout
          <= w_clock w + STATE_POLL_INTERVAL * (Z.of_nat (wait_fuel timeout STATE_POLL_INTERVAL) - 1)) as Hfuel.
  { pose proof (wait_fuel_steps timeout STATE_POLL_INTERVAL _ ltac:(unfold STATE_POLL_INTERVAL; lia)
                  (le_n (wait_fuel timeout STATE_POLL_INTERVAL))). lia. }
  destruct (wait_for_exit_loop_ok env Hc _ pid _ STATE_POLL_INTERVAL w ltac:(unfold STATE_POLL_INTERVAL; lia) Hfuel
              ltac:(unfold wait_fuel; lia)) as (b & w' & Hr & _).
  exists b, w'. split; [done|]. specialize (Hev (wait_fuel timeout STATE_POLL_INTERVAL) (w_clock w + timeout) STATE_POLL_INTERVAL w Hw).
  by rewrite Hr in Hev.
Qed.

Lemma request_stop_mine pid (w : MWorld) :
  all_mine w -> exists w', request_stop pid w = (Ret tt, w') /\ all_mine w' /\ w_files w' = w_files w.
Proof.
  intros Hw. unfold request_stop. destruct pid as [p|]; [|by exists w].
  destruct (p <=? 0); [by exists w|]. destruct (assoc_get (w_procs w) p) as [q|] eqn:Hq; [|by exists w].
  rewrite (Hw p q Hq). eexists. split; [done|]. split; [|done].
  intros p' q'. cbn. destruct (decide (p = p')) as [<-|Hne].
  - rewrite assoc_get_set_eq. by intros [= <-].
  - rewrite assoc_get_set_ne by done. apply Hw.
Qed.

(** The files of a session. *)
Definition session_files (sid : text) : list text :=
  [state_file_path sid; log_file_path sid; read_trace_log_path sid].

Lemma state_path_in_session sid sid' : state_file_path sid ∈ session_files sid' <-> sid = sid'.
Proof.
  split; [|intros ->; by left]. unfold session_files. rewrite !elem_of_cons.
  intros [H|[H|[H|H]]]; [by apply state_file_path_inj| | |by apply not_elem_of_nil in H].
  - exfalso. unfold state_file_path, log_file_path in H. apply (f_equal (fun l => last l)) in H.
    rewrite !last_app in H. vm_compute in H. discriminate.
  - exfalso. by apply (trace_path_ne sid' sid).
Qed.

(** Reclaiming one record stops its process and removes its session's files. *)
Lemma reclaim_one_ok env s sid w :
  fair_env same_file env -> all_mine w -> ms_session_id s = Some sid -> sid <> [] ->
  exists w', reclaim_one env s w = (Ret [sid], w') /\ all_mine w' /\
    forall name, if decide (name ∈ session_files sid) then file_at w' name = None
                 else same_file (file_at w name) (file_at w' name).
Proof.
  intros He Hw Hs Hne.
  assert (exists w1, (if is_pid_alive (ms_pid s) w
       then (run request_stop (ms_pid s);
             do _x <- wait_for_exit env (ms_pid s) RECLAIM_STOP_TIMEOUT; io_ret tt)
       else io_ret tt) w = (Ret tt, w1) /\ evolves same_file w w1) as (w1 & H1 & Hm1 & Hf1).
  { destruct (is_pid_alive (ms_pid s) w); [|exists w; by split; [|split; [|intros; apply same_file_refl]]].
    destruct (request_stop_mine (ms_pid s) w Hw) as (w0 & R1 & R2 & R3).
    destruct (wait_for_exit_evolves same_file env (ms_pid s) RECLAIM_STOP_TIMEOUT w0 He R2) as (b & w1 & E1 & E2 & E3).
    exists w1. unfold io_bind. rewrite R1, E1. split; [done|]. split; [done|].
    intros name. specialize (E3 name). unfold file_at in *. by rewrite R3 in E3. }
  exists (remove_state sid w1). unfold reclaim_one, io_bind, io_get. unfold io_bind in H1. rewrite H1, Hs.
  destruct sid as [|c sid]; [done|]. split; [done|]. split; [done|].
  intros name. unfold file_at, remove_state. rewrite remove_paths_get. fold (session_files (c :: sid)).
  destruct (decide (name ∈ session_files (c :: sid))); [done|]. apply Hf1.
Qed.

(** The session named by a record, as a list. *)
Definition named (s : MediaState) : list text := match ms_session_id s with Some sid => [sid] | None => [] end.

Lemma reclaim_all_ok env states w :
  fair_env same_file env -> all_mine w ->
  Forall (fun s => exists sid, ms_session_id s = Some sid /\ sid <> []) states ->
  exists w', reclaim_all env states w = (Ret (concat (map named states)), w') /\
    forall sid, if decide (sid ∈ concat (map named states)) then file_at w' (state_file_path sid) = None
                else same_file (file_at w (state_file_path sid)) (file_at w' (state_file_path sid)).
Proof.
  intros He Hw Hs. revert w Hw. induction Hs as [|s states (sid & Hsid & Hne) Hs IH]; intros w Hw.
  { exists w. split; [done|]. intros sid. rewrite decide_False by (cbn; apply not_elem_of_nil). apply same_file_refl. }
  destruct (reclaim_one_ok env s sid w He Hw Hsid Hne) as (w1 & H1 & Hm1 & Hf1).
  destruct (IH w1 Hm1) as (w2 & H2 & Hf2). exists w2.
  assert (named s = [sid]) as Hn by (unfold named; by rewrite Hsid).
  cbn [reclaim_all map concat]. rewrite Hn. unfold io_bind. rewrite H1, H2. split; [done|].
  intros k. specialize (Hf1 (state_file_path k)). specialize (Hf2 k). cbn [app].
  destruct (decide (k = sid)) as [->|Hk].
  - rewrite decide_True in Hf1 by (by apply state_path_in_session).
    rewrite decide_True by (by left).
    case_decide; [done|]. rewrite Hf1 in Hf2. by destruct Hf2 as [<-|(? & ? & ? & _)].
  - rewrite decide_False in Hf1 by (by rewrite state_path_in_session).
    destruct (decide (k ∈ concat (map named states))).
    + rewrite decide_True by (by right). done.
    + rewrite decide_False by (rewrite not_elem_of_cons; done). by eapply same_file_trans.
Qed.

(** A record in the way of an attach. *)
Definition conflict_of (ep : text) (exclude : option text) (w : MWorld) (sid : text) : option MediaState :=
  if bool_decide (Some sid = exclude) then None
  else match file_at w (state_file_path sid) with
       | Some (Doc s) => if bool_decide (ms_endpoint s = Some ep) then Some s else None
       | _ => None
       end.

Lemma find_conflicts_ok ids ep exclude w :
  dir_ok w -> find_conflicts ids ep exclude w = (Ret (omap (conflict_of ep exclude w) ids), w).
Proof.
  intros Hd. induction ids as [|sid ids IH]; cbn [find_conflicts omap list_omap]; [done|].
  unfold conflict_of at 1. case_bool_decide as Hx; [exact IH|].
  unfold io_bind. unfold read_state, file_at.
  pose proof (Hd (state_file_path sid)) as Hs. unfold file_at in Hs.
  destruct (assoc_get (w_files w) (state_file_path sid)) as [c|].
  - destruct (Hs c eq_refl (is_json_state sid)) as (sid' & s & _ & _ & -> & _). rewrite IH.
    by case_bool_decide.
  - rewrite IH. done.
Qed.

Lemma list_session_ids_in w sid c :
  sid <> [] -> file_at w (state_file_path sid) = Some c -> sid ∈ list_session_ids w.
Proof.
  intros Hne Hf. unfold list_session_ids. rewrite list_elem_of_In, in_map_iff.
  exists (state_file_path sid). split; [by apply path_stem_state|].
  apply filter_In. split; [|apply is_json_state]. apply list_elem_of_In.
  apply assoc_get_in in Hf. by apply (list_elem_of_fmap_2 fst) in Hf.
Qed.

(** ** Properties *)

(** a media session end to end.  A daemon that plays the image [m], on a
    stream of well-formed requests and idle polls closed by the peer, without
    SIGTERM and with a working disk, sends for every request exactly the
    frame the disc specification prescribes and nothing else, appends one
    trace line per READ in order, counts the bytes and blocks read and every
    idle poll, and returns [SERVE_PEER_CLOSED]; the published state file is
    the daemon's record. *)
Theorem media_session_end_to_end (wall : Z -> Z) (sigterm : Z -> bool) (sid : text) (m : bytes)
    (s : Session) (l : list item) (c : conn) (u : daemon * device) (h : list event) :
  (forall n, sigterm n = false) -> working m u -> published sid u.1 ->
  idle_fields (d_state u.1) = idle_view h ->
  Forall item_wf l -> Forall (item_served m) l -> writable c -> atoms_of c = items_atoms l ++ [AEof] ->
  exists c' u',
    media_serve wall sigterm sid s (c, u) = (Ret SERVE_PEER_CLOSED, (c', u')) /\
    tx (c_sock c') = tx (c_sock c) ++ concat (map (item_replies m (s_device_type s)) l) /\
    trace_lines sid (d_world u'.1) = trace_lines sid (d_world u.1) ++ concat (map item_lines l) /\
    bytes_served u'.2 = bytes_served u.2 + (traffic m l).1 /\
    blocks_served u'.2 = blocks_served u.2 + (traffic m l).2 /\
    ms_idle_polls (d_state u'.1) = ms_idle_polls (d_state u.1) + blen (List.filter is_idle_item l) /\
    published sid u'.1.
Proof.
  intros Hsig Hw Hpub Hidle Hl Hserved Hwr Ha.
  assert (length l < serve_fuel c)%nat as Hfuel.
  { unfold serve_fuel. unfold atoms_of in Ha. rewrite Ha, length_app. pose proof (length_items_atoms l). cbn. lia. }
  destruct (serve_loop_items media_handle (media_should_stop sigterm) (media_on_idle wall sid)
              (media_on_request wall sid) (s_device_type s) l (serve_fuel c) c u Hl Hwr Ha Hfuel)
    as (o & c' & u' & H1 & H2).
  destruct (media_serve_items wall sigterm sid m (s_device_type s) l (tx (c_sock c)) u Hsig Hw Hserved) as (u2 & H3 & He).
  rewrite H3 in H2. injection H2 as <- Ht <-. exists c', u2.
  split; [exact H1|]. destruct He as [E1 E2 E3 E4 E5 E6 E7]. split_and!; try done; [|by apply E2].
  destruct (E6 h Hidle) as (h' & Hm & Hv). unfold idle_fields, idle_view in Hv, Hidle.
  injection Hv as Hv1 _ _. injection Hidle as Hi1 _ _. rewrite Hv1, Hi1. unfold blen.
  rewrite List.filter_app, length_app.
  assert (length (List.filter ev_idle h') = length (List.filter is_idle_item l)) as ->; [|lia].
  assert (forall A (f : A -> bool) k, length (List.filter f k) = length (List.filter (fun b => b) (map f k))) as Hcnt.
  { intros A f k. induction k as [|x k IH]; cbn; [done|]. destruct (f x); cbn; lia. }
  rewrite (Hcnt _ ev_idle h'), Hm, (Hcnt _ is_idle_item l), List.filter_rev. apply length_rev.
Qed.

Section DaemonProperties.
Context {C : Type}.
Variable wall : Z -> Z.
Variable sigterm : Z -> bool.
Variable fs : text -> fs_node.
Variable net : text -> Z -> dial.
Variable allocate : io C exn (option text).
Variable cfg : SessionConfig.
Variable pid : Z.

(** C7: the daemon always reports how it ended.  Whatever the image file, the
    network, the token allocation and the peer do, if the allocation comes
    back, every connection is closed by the peer at some point and the writes
    to the runtime directory succeed, then the daemon ends, without an
    exception; its state file holds its own record with its pid and endpoint
    in a terminal state (detached with a stop reason and no error class, or
    error with a message, a class and no stop reason).  When the handshake on
    the media port succeeded, the daemon held that connection and has closed
    it; when it came to a handshake that failed, it holds no connection, and
    the socket is left as the handshake left it (see
    [refused_socket_left_open]); otherwise it opened none. *)
Theorem daemon_always_reports (password : text) (client : C) (w : MWorld) :
  ending_net net -> (allocate client).1 <> Blocked -> w_disk w = [] ->
  let '(o, r) := run_daemon wall sigterm fs net allocate cfg pid password client w in
  o = Ret tt /\
  (exists st, assoc_get (w_files (d_world (r_daemon r))) (state_file_path (cfg_session_id cfg)) = Some (Doc st) /\
     final_record (cfg_session_id cfg) (host_port (cfg_host cfg) (cfg_cd_port cfg)) pid st /\
     is_terminal (ms_state st) = true) /\
  match dialled fs net allocate cfg client with
  | Some (Ret _, _) => (exists c, r_conn r = Some c /\ closed (c_sock c) = true) /\ r_lost r = None
  | Some (_, lost) => r_conn r = None /\ r_lost r = lost
  | None => r_conn r = None /\ r_lost r = None
  end.
Proof.
  intros Hnet Hal Hd.
  set (sid := cfg_session_id cfg).
  set (w0 := set_files w (assoc_set (w_files w) (log_file_path sid) Plain)).
  set (start := initial_state sid (run_endpoint cfg) pid (cfg_image cfg) (wall 0)).
  set (r0 := mkRun (mkDaemon start w0 1 0) None [password] client None).
  assert (alive sid (run_endpoint cfg) pid (r_daemon r0)) as H0 by (by split).
  pose proof (guarded_body_triple wall sigterm fs net allocate cfg _ _ [] (alive_respected wall sigterm cfg pid)) as Ht.
  unfold run_daemon. fold sid w0 start r0. change (io_try _ _) with (guarded_body wall sigterm fs net allocate cfg). unfold io_bind at 1.
  pose proof (persist_alive wall sid (run_endpoint cfg) pid None (r_daemon r0) H0) as Hp.
  destruct H0 as [Hd0 Hl0]. destruct (persist_ok wall sid (r_daemon r0) None Hd0) as (d1 & P1 & Hd1 & _).
  unfold run_persist at 1, in_daemon at 1. fold sid. rewrite P1 in Hp |- *. cbv iota beta.
  set (r1 := mkRun d1 (r_conn r0) (r_secrets r0) (r_client r0) (r_lost r0)).
  assert ((guarded_body wall sigterm fs net allocate cfg r1).1 <> Blocked) as Hnb.
  { unfold guarded_body, io_try. pose proof (daemon_body_nb wall sigterm fs net allocate cfg Hnet r1 Hal) as Hb.
    destruct (daemon_body _ _ _ _ _ _ r1) as [[[]|e|] r']; [done| |done]. apply in_daemon_nb, report_nb. }
  specialize (Ht (fun _ _ _ => False) (report_finished wall sid (run_endpoint cfg) pid) r1 (conj (proj1 Hp) (list_subseteq_nil _))).
  pose proof (guarded_sockets wall sigterm fs net allocate cfg r1 Hd1 eq_refl eq_refl) as Hso.
  destruct (guarded_body _ _ _ _ _ _ r1) as [[[]|e|] r]; [|by destruct Ht|done].
  split; [done|]. destruct Ht as ((_ & Hpub & Hfin) & _). split.
  - exists (d_state (r_daemon r)). split; [exact Hpub|]. split; [exact Hfin|].
    destruct (fr_status _ _ _ _ Hfin) as [(-> & _)|(-> & _)]; done.
  - unfold sockets_of in Hso. cbn [r1 r_client r0] in Hso. unfold close_all, io_modify. cbn [snd r_conn r_lost].
    destruct (dialled fs net allocate cfg client) as [[[x|e|] lost]|]; destruct Hso as [Hc ->]; try (by rewrite Hc).
    destruct Hc as [c ->]. split; [by eexists|done].
Qed.
End DaemonProperties.

(** The two-ended read trace.  From any log (blank, torn or foreign lines
    included) with [n] entries, the summary keeps the first [h] entries, the
    last [t] of the others, and the exact number of dropped ones; the log is
    head, dropped middle and tail in this order, so nothing appears twice,
    and with nothing dropped head and tail are the complete trace. *)
Theorem read_trace_two_ended (lines : list TraceLine) (h t : Z) :
  0 <= h -> 0 <= t ->
  let es := entries lines in
  let s := summarise h t lines in
  read_trace_head s = take (Z.to_nat h) es /\
  read_trace_tail s = lastn t (drop (Z.to_nat h) es) /\
  read_trace_dropped s = Z.max 0 (blen es - h - t) /\
  exists middle, es = read_trace_head s ++ middle ++ read_trace_tail s /\ blen middle = read_trace_dropped s.
Proof.
  intros Hh Ht es s. unfold s, summarise. rewrite trace_fold by done. fold es.
  cbn [read_trace_head read_trace_tail read_trace_dropped]. split_and!; [done..|].
  set (rest := drop (Z.to_nat h) es). exists (take (length rest - Z.to_nat t) rest). split.
  - unfold lastn. rewrite take_drop. unfold rest. by rewrite take_drop.
  - unfold blen. rewrite length_take. unfold rest. rewrite length_drop. lia.
Qed.

(** Idle bookkeeping.  After any history of idle polls and requests, the
    record shows the number of all idle polls, the streak still open (when it
    began, its length in polls and in time) exactly when the history ends in
    idle polls, and the most recent streak that a request ended, with the
    time it ended. *)
Theorem idle_bookkeeping (hist : list event) (session_id endpoint : text) (pid : Z) (image : text) (now : Z) :
  idle_fields (foldl note_event (initial_state session_id endpoint pid image now) hist) = idle_view (rev hist).
Proof.
  induction hist as [|e hist IH] using rev_ind; [done|].
  rewrite foldl_app, rev_app_distr. cbn. by apply note_event_view.
Qed.

(** Reclamation frees the endpoint and nothing else.  In a runtime directory
    of well-formed records whose processes may be signalled, reclaiming for an
    endpoint always returns; afterwards no session but the excluded one has a
    record for that endpoint, the sessions reported are exactly those that
    had one, and every other session's record is still there. *)
Theorem reclaim_frees_endpoint (env : MWorld -> MWorld) (ep : text) (exclude : option text) (w : MWorld) :
  fair_env same_file env -> dir_ok w -> all_mine w ->
  exists ids w', reclaim_conflicting_sessions env ep exclude w = (Ret ids, w') /\
    (forall sid s, Some sid <> exclude -> file_at w' (state_file_path sid) = Some (Doc s) -> ms_endpoint s <> Some ep) /\
    (forall sid, sid ∈ ids <->
       Some sid <> exclude /\ exists s, file_at w (state_file_path sid) = Some (Doc s) /\ ms_endpoint s = Some ep) /\
    (forall sid, sid ∉ ids -> same_file (file_at w (state_file_path sid)) (file_at w' (state_file_path sid))).
Proof.
  intros He Hd Hm. set (states := omap (conflict_of ep exclude w) (list_session_ids w)).
  assert (forall sid s, conflict_of ep exclude w sid = Some s ->
    Some sid <> exclude /\ file_at w (state_file_path sid) = Some (Doc s) /\ ms_endpoint s = Some ep /\
    ms_session_id s = Some sid /\ sid <> []) as Hconf.
  { intros sid s. unfold conflict_of. case_bool_decide as Hx; [done|].
    destruct (file_at w (state_file_path sid)) as [c|] eqn:Hf; [|done].
    destruct (Hd _ _ Hf (is_json_state sid)) as (sid' & s' & Hne & Heq & -> & Hid).
    apply state_file_path_inj in Heq as <-. case_bool_decide; [|done]. intros [= <-]. by split_and!. }
  assert (forall s, s ∈ states -> exists sid, conflict_of ep exclude w sid = Some s) as Hin.
  { intros s (sid & _ & Hs)%list_elem_of_omap. by exists sid. }
  destruct (reclaim_all_ok env states w He Hm) as (w' & Hr & Hf).
  { apply Forall_forall. intros s [sid Hs]%Hin. exists sid. by apply Hconf in Hs as (_ & _ & _ & ? & ?). }
  assert (forall sid, sid ∈ concat (map named states) <->
    Some sid <> exclude /\ exists s, file_at w (state_file_path sid) = Some (Doc s) /\ ms_endpoint s = Some ep) as Hids.
  { intros sid. rewrite list_elem_of_In, in_concat. split.
    - intros (l & (s & <- & Hs)%in_map_iff & Hsid). apply list_elem_of_In in Hs. apply Hin in Hs as [k Hk].
      destruct (Hconf k s Hk) as (H1 & H2 & H3 & H4 & _). unfold named in Hsid. rewrite H4 in Hsid.
      destruct Hsid as [<-|[]]. split; [done|]. by exists s.
    - intros (Hx & s & Hs & Hep). destruct (Hd _ _ Hs (is_json_state sid)) as (k & s' & Hne & Heq & [= <-] & Hid).
      apply state_file_path_inj in Heq as <-. exists (named s). split.
      + apply in_map, list_elem_of_In. apply list_elem_of_omap. exists sid.
        split; [by eapply list_session_ids_in|]. unfold conflict_of. rewrite bool_decide_false by done.
        rewrite Hs. by rewrite bool_decide_true.
      + unfold named. rewrite Hid. by left. }
  exists (concat (map named states)), w'. split_and!.
  - unfold reclaim_conflicting_sessions, find_conflicting_sessions, io_bind, io_get.
    rewrite find_conflicts_ok by done. exact Hr.
  - intros sid s Hx Hs Hep. specialize (Hf sid). case_decide as Hsid; [by rewrite Hf in Hs|].
    apply Hsid, Hids. split; [done|]. rewrite Hs in Hf.
    destruct Hf as [Hf|(s1 & s2 & H1 & [= <-] & _ & H4)]; [by exists s|]. exists s1. split; [done|congruence].
  - exact Hids.
  - intros sid Hsid. specialize (Hf sid). by case_decide.
Qed.

(** *** Witnesses *)

Definition sample_sid : text := $"s1".
Definition sample_endpoint : text := $"bmc:5120".
Definition sample_record : MediaState := initial_state sample_sid sample_endpoint 40 ($"a.iso") 0.
Definition sample_mworld : MWorld :=
  mkWorld [(state_file_path sample_sid, Doc sample_record)] [(40, {| p_mine := true; p_sigterm := 0 |})] 0 [].
Definition sample_daemon : daemon := mkDaemon sample_record sample_mworld 0 0.
Definition sample_media : daemon * device :=
  (sample_daemon, CDROMDevice_init (Cache_init sample_image_file None WINDOW_SIZE DEFAULT_MAX_WINDOWS)).

Lemma sample_media_working : working sample_image sample_media.
Proof.
  split; [done|]. apply CDROMDevice_init_plays, Cache_init_serves; [apply sample_image_serves|done|done].
Qed.

(** One idle poll, a READ(10) of block 1, one idle poll. *)
Definition sample_read_header : Header.t :=
  {| Header.major := 1; Header.minor := 0; Header.data_packet_len := 30; Header.server_caps := 0;
     Header.device_type := 5; Header.protocol := 1; Header.direction := 0; Header.device_number := 0;
     Header.interface_number := 0; Header.client_data := 0; Header.instance := 0; Header.sequence_number := 9 |}.
Definition sample_media_items : list item :=
  [IdlePoll; Frame sample_read_header (Packet.payload sample_read10); IdlePoll].
Definition sample_media_conn : conn :=
  conn_of [Timeout; Arrive (Header.marshal sample_read_header); Arrive (Packet.payload sample_read10); Timeout; Eof].

Lemma sample_media_items_wf : Forall item_wf sample_media_items.
Proof.
  repeat apply List.Forall_cons; [done| |done|apply List.Forall_nil].
  split_and!; [by repeat split|by vm_compute..].
Qed.

Lemma sample_media_items_served : Forall (item_served sample_image) sample_media_items.
Proof.
  repeat apply List.Forall_cons; [done| |done|apply List.Forall_nil].
  split; [by apply wf_bytesb|]. split; [reflexivity|]. eexists. vm_compute. reflexivity.
Qed.

Lemma media_session_end_to_end_witness :
  exists c' u',
    media_serve (fun n => n) (fun _ => false) sample_sid sample_session (sample_media_conn, sample_media)
      = (Ret SERVE_PEER_CLOSED, (c', u')) /\
    trace_lines sample_sid (d_world u'.1) = [Entry {| t_opcode := 0x28; t_lba := 1; t_blocks := 1 |}] /\
    bytes_served u'.2 = 2 /\ blocks_served u'.2 = 1 /\ ms_idle_polls (d_state u'.1) = 2.
Proof.
  destruct (media_session_end_to_end (fun n => n) (fun _ => false) sample_sid sample_image sample_session
              sample_media_items sample_media_conn sample_media [] ltac:(reflexivity) sample_media_working
              ltac:(reflexivity) ltac:(reflexivity) sample_media_items_wf sample_media_items_served
              ltac:(split; reflexivity) ltac:(vm_compute; reflexivity))
    as (c' & u' & H1 & _ & H3 & H4 & H5 & H6 & _).
  exists c', u'. split; [exact H1|]. split; [exact H3|].
  split; [rewrite H4; vm_compute; reflexivity|]. split; [rewrite H5; vm_compute; reflexivity|].
  rewrite H6. vm_compute. reflexivity.
Defined.

Definition sample_config : SessionConfig :=
  {| cfg_session_id := sample_sid; cfg_host := $"bmc"; cfg_port := 443; cfg_use_tls := true;
     cfg_allow_insecure_transport := false; cfg_validate_certs := true; cfg_ca_path := None; cfg_tls_fingerprint := None;
     cfg_timeout := 30; cfg_connect_timeout := 10; cfg_cd_port := 5120; cfg_instance := 0; cfg_image := $"a.iso";
     cfg_runtime_dir := $"/run" |}.
Definition sample_fs (_ : text) : fs_node := RegularFile sample_image.
(** A peer that accepts the session, asks for one block and closes. *)
Definition sample_net (_ : text) (_ : Z) : dial :=
  Connected (mkSock [Arrive (Header.marshal ack_header ++ ack_payload CONN_OK);
                     Arrive (Header.marshal sample_read_header ++ Packet.payload sample_read10); Eof] [] [] None false).

Lemma sample_net_ends : ending_net sample_net.
Proof.
  intros host port s [= <-]. split; [done|]. apply list_elem_of_In. vm_compute.
  repeat (first [left; reflexivity | right]).
Qed.

Lemma daemon_always_reports_witness :
  let '(o, r) := run_daemon (fun n => n) (fun _ => false) sample_fs sample_net (io_ret (Some ($"tok"))) sample_config 40
                   ($"pw") tt sample_mworld in
  o = Ret tt /\
  exists st, assoc_get (w_files (d_world (r_daemon r))) (state_file_path sample_sid) = Some (Doc st) /\
    is_terminal (ms_state st) = true.
Proof.
  pose proof (daemon_always_reports (fun n => n) (fun _ => false) sample_fs sample_net (io_ret (Some ($"tok")))
                sample_config 40 ($"pw") tt sample_mworld sample_net_ends ltac:(discriminate) eq_refl) as H.
  destruct (run_daemon _ _ _ _ _ _ _ _ _ _) as [o r]. destruct H as (H1 & (st & H2 & _ & H3) & _).
  split; [exact H1|]. exists st. split; [exact H2|exact H3].
Defined.

Lemma read_trace_two_ended_witness :
  read_trace_dropped (summarise 1 1
    [Entry {| t_opcode := 0x28; t_lba := 0; t_blocks := 1 |}; Entry {| t_opcode := 0x28; t_lba := 1; t_blocks := 1 |};
     BlankLine; Entry {| t_opcode := 0x28; t_lba := 2; t_blocks := 1 |}; TornLine]) = 1.
Proof.
  destruct (read_trace_two_ended
    [Entry {| t_opcode := 0x28; t_lba := 0; t_blocks := 1 |}; Entry {| t_opcode := 0x28; t_lba := 1; t_blocks := 1 |};
     BlankLine; Entry {| t_opcode := 0x28; t_lba := 2; t_blocks := 1 |}; TornLine] 1 1 ltac:(lia) ltac:(lia))
    as (_ & _ & H & _).
  rewrite H. reflexivity.
Defined.

(** Two sessions: one for the endpoint to be freed, one for another board. *)
Definition sample_dir : MWorld :=
  mkWorld [(state_file_path sample_sid, Doc sample_record);
           (state_file_path ($"s2"), Doc (initial_state ($"s2") ($"other:5120") 41 ($"b.iso") 0))]
    [(40, {| p_mine := true; p_sigterm := 0 |})] 0 [].

Lemma sample_env_fair rel `{!PreOrder rel} : fair_env rel (fun w => w).
Proof. split; intros; [lia|reflexivity|done]. Qed.

Lemma sample_dir_ok : dir_ok sample_dir.
Proof.
  intros name c. unfold file_at. cbn [sample_dir w_files assoc_get].
  case_decide as H1; [intros [= <-] _|case_decide as H2; [intros [= <-] _|done]].
  - by exists sample_sid, sample_record.
  - by exists ($"s2"), (initial_state ($"s2") ($"other:5120") 41 ($"b.iso") 0).
Qed.

Lemma sample_dir_mine : all_mine sample_dir.
Proof. intros pid p. cbn. case_decide; [by intros [= <-]|done]. Qed.

Lemma reclaim_frees_endpoint_witness :
  exists ids w', reclaim_conflicting_sessions (fun w => w) sample_endpoint None sample_dir = (Ret ids, w') /\
    sample_sid ∈ ids /\ same_file (file_at sample_dir (state_file_path ($"s2"))) (file_at w' (state_file_path ($"s2"))).
Proof.
  destruct (reclaim_frees_endpoint (fun w => w) sample_endpoint None sample_dir (sample_env_fair same_file) sample_dir_ok sample_dir_mine)
    as (ids & w' & H1 & _ & H3 & H4).
  exists ids, w'. split; [exact H1|]. split.
  - apply H3. split; [discriminate|]. exists sample_record. split; reflexivity.
  - apply H4. intros H. apply H3 in H as [_ (s & Hs & He)]. vm_compute in Hs. injection Hs as <-. vm_compute in He. discriminate.
Defined.

(** A peer that refuses the session. *)
Definition refusing_net (_ : text) (_ : Z) : dial :=
  Connected (mkSock [Arrive (Header.marshal ack_header ++ ack_payload 5); Eof] [] [] None false).

(** The socket of a refused handshake is left open: [Session.connect] raises
    without closing it, and the [finally] of the daemon, which closes its
    session, has none. *)
Theorem refused_socket_left_open :
  let '(o, r) := run_daemon (fun n => n) (fun _ => false) sample_fs refusing_net (io_ret (Some ($"tok"))) sample_config 40
                   ($"pw") tt sample_mworld in
  o = Ret tt /\ ms_state (d_state (r_daemon r)) = STATE_ERROR /\ r_conn r = None /\
  exists c, r_lost r = Some c /\ closed (c_sock c) = false /\ length (tx (c_sock c)) = 1%nat.
Proof. vm_compute. split; [reflexivity|]. split; [reflexivity|]. split; [reflexivity|]. eexists. split; [reflexivity|]. split; reflexivity. Qed.
