(* ===== verification/Models.v ===== *)
(** * models.py: coercions, the JNLP session and operation receipts

    Python values the modules pass around are the type [pyval]; a dataclass
    instance keeps its fields by name.  An [opaque] value stands for
    everything without strings inside (floats and the like). *)
From Stdlib Require Import ZArith Lia Ascii String.
From stdpp Require Import prelude.
From S2P Require Import Prelude PyBytes PyText Regex Errors.

Inductive pyval : Type :=
  | PNone
  | PBool (b : bool)
  | PInt (z : Z)
  | PStr (t : text)
  | PList (l : list pyval)
  | PTuple (l : list pyval)
  | PDict (d : list (pyval * pyval))
  | PData (fields : list (text * pyval))
  | POpaque (repr : text).

(** [repr(value)] of a literal value. *)
Definition commas (l : list text) : text :=
  match l with
  | [] => []
  | x :: l => x ++ List.concat (map (fun y => $", " ++ y) l)
  end.
Fixpoint repr_value (v : pyval) : text :=
  match v with
  | PNone => $"None"
  | PBool true => $"True"
  | PBool false => $"False"
  | PInt z => dec z
  | PStr t => repr t
  | PList l => $"[" ++ commas (map repr_value l) ++ $"]"
  | PTuple [x] => $"(" ++ repr_value x ++ $",)"
  | PTuple l => $"(" ++ commas (map repr_value l) ++ $")"
  | PDict d => $"{" ++ commas ((fix go (l : list (pyval * pyval)) : list text :=
                                  match l with
                                  | [] => []
                                  | (k, v) :: l => (repr_value k ++ $": " ++ repr_value v) :: go l
                                  end) d) ++ $"}"
  | PData _ => $"<dataclass>"
  | POpaque r => r
  end.

(** ** Coercions *)

(** [str(value)]: the text itself, and the [repr] of everything else. *)
Definition str_of (v : pyval) : text :=
  match v with
  | PStr t => t
  | v => repr_value v
  end.

Definition nonempty (t : text) : option text := match t with [] => None | _ => Some t end.

Definition optional_str (value : pyval) : option text :=
  match value with
  | PNone | PDict _ | PList _ => None
  | v => nonempty (strip (str_of v))
  end.

Definition optional_int (value : pyval) : option Z :=
  match value with
  | PNone | PBool _ => None
  | v => py_int (strip (str_of v))
  end.

Definition optional_bool_flag (value : pyval) : option bool :=
  match value with
  | PNone => None
  | v => match strip (str_of v) with
         | [] => None
         | t => Some (negb (text_eqb t ($"0")))
         end
  end.

(** ** [class JnlpSession] *)

Inductive port_mode : Type := DedicatedPorts | SinglePort | UnknownMode.

Record JnlpSession : Type := {
  kvm_port : option Z;
  kvm_token : option text;
  web_cookie : option text;
  single_port_enabled : option bool;
  cd_port : option Z;
  fd_port : option Z;
  hd_port : option Z;
  cd_state : option text;
  cd_num : option Z;
  kvm_secure : option bool;
  vm_secure : option bool;
  js_port_mode : port_mode;
  js_extra : list (text * text);
}.

Definition NAMED_ARGUMENTS : list text :=
  [$"kvmport"; $"kvmtoken"; $"webcookie"; $"singleportenabled"; $"cdport"; $"fdport"; $"hdport";
   $"cdstate"; $"cdnum"; $"kvmsecure"; $"vmsecure"].

(** [arguments.get(name)] *)
Definition arg (arguments : list (text * text)) (name : text) : pyval :=
  match assoc_get arguments name with
  | Some v => PStr v
  | None => PNone
  end.

Definition from_arguments (arguments : list (text * text)) : JnlpSession :=
  let cd := optional_int (arg arguments ($"cdport")) in
  let fd := optional_int (arg arguments ($"fdport")) in
  let hd := optional_int (arg arguments ($"hdport")) in
  let single := optional_bool_flag (arg arguments ($"singleportenabled")) in
  let has_dedicated_ports := existsb (fun p => match p with Some _ => true | None => false end) [cd; fd; hd] in
  {| kvm_port := optional_int (arg arguments ($"kvmport"));
     kvm_token := optional_str (arg arguments ($"kvmtoken"));
     web_cookie := optional_str (arg arguments ($"webcookie"));
     single_port_enabled := single;
     cd_port := cd; fd_port := fd; hd_port := hd;
     cd_state := optional_str (arg arguments ($"cdstate"));
     cd_num := optional_int (arg arguments ($"cdnum"));
     kvm_secure := optional_bool_flag (arg arguments ($"kvmsecure"));
     vm_secure := optional_bool_flag (arg arguments ($"vmsecure"));
     js_port_mode := if has_dedicated_ports then DedicatedPorts
                     else match single with Some true => SinglePort | _ => UnknownMode end;
     js_extra := List.filter (fun p => negb (bool_decide (fst p ∈ NAMED_ARGUMENTS))) arguments |}.

(** ** [class OperationReceipt] *)

Record OperationReceipt : Type := {
  rc_action : text;
  rc_endpoint : text;
  rc_changed : bool;
  rc_previous : pyval;
  rc_desired : pyval;
  rc_observed : pyval;
  rc_error_class : option text;
  rc_extra : list (text * pyval);
}.

Definition RECEIPT_SCHEMA : text := $"asmb8-ikvm-operation/v1".

(** [dataclasses.asdict]: recursively, through lists, tuples and dicts. *)
Fixpoint asdict (v : pyval) : pyval :=
  match v with
  | PData fields => PDict ((fix go (l : list (text * pyval)) : list (pyval * pyval) :=
                              match l with
                              | [] => []
                              | (k, v) :: l => (PStr k, asdict v) :: go l
                              end) fields)
  | PList l => PList (map asdict l)
  | PTuple l => PTuple (map asdict l)
  | PDict d => PDict ((fix go (l : list (pyval * pyval)) : list (pyval * pyval) :=
                         match l with
                         | [] => []
                         | (k, v) :: l => (asdict k, asdict v) :: go l
                         end) d)
  | v => v
  end.

(** [_to_serializable] *)
Definition to_serializable (v : pyval) : pyval :=
  match v with
  | PData _ => asdict v
  | v => v
  end.

(** [_redact_strings] *)
Fixpoint redact_strings (v : pyval) : pyval :=
  match v with
  | PStr t => PStr (redact (Some t) [])
  | PDict d => PDict ((fix go (l : list (pyval * pyval)) : list (pyval * pyval) :=
                         match l with
                         | [] => []
                         | (k, v) :: l => (k, redact_strings v) :: go l
                         end) d)
  | PList l | PTuple l => PList (map redact_strings l)
  | v => v
  end.

(** [document.update(...)]: insertion order, later values win. *)
Definition update_document (d : list (text * pyval)) (extra : list (text * pyval)) : list (text * pyval) :=
  foldl (fun d p => assoc_set d (fst p) (to_serializable (snd p))) d extra.

(** [OperationReceipt.to_dict] *)
Definition to_dict (r : OperationReceipt) : pyval :=
  let document :=
    [($"schema", PStr RECEIPT_SCHEMA); ($"action", PStr (rc_action r)); ($"endpoint", PStr (rc_endpoint r));
     ($"changed", PBool (rc_changed r)); ($"previous", to_serializable (rc_previous r));
     ($"desired", to_serializable (rc_desired r)); ($"observed", to_serializable (rc_observed r));
     ($"error_class", match rc_error_class r with Some c => PStr c | None => PNone end)] in
  redact_strings (PDict (map (fun p => (PStr (fst p), snd p)) (update_document document (rc_extra r)))).

(** ** Lemmas *)

(** Induction through the containers. *)
Section PyvalInd.
Variable P : pyval -> Prop.
Hypotheses (Hnone : P PNone) (Hbool : forall b, P (PBool b)) (Hint : forall z, P (PInt z))
  (Hstr : forall t, P (PStr t)) (Hopaque : forall r, P (POpaque r))
  (Hlist : forall l, Forall P l -> P (PList l)) (Htuple : forall l, Forall P l -> P (PTuple l))
  (Hdict : forall d, Forall (fun p => P (fst p) /\ P (snd p)) d -> P (PDict d))
  (Hdata : forall d, Forall (fun p => P (snd p)) d -> P (PData d)).

Fixpoint pyval_nested (v : pyval) : P v :=
  let fix all (l : list pyval) : Forall P l :=
    match l with
    | [] => List.Forall_nil P
    | v :: l => List.Forall_cons _ v _ (pyval_nested v) (all l)
    end in
  match v with
  | PNone => Hnone
  | PBool b => Hbool b
  | PInt z => Hint z
  | PStr t => Hstr t
  | POpaque r => Hopaque r
  | PList l => Hlist l (all l)
  | PTuple l => Htuple l (all l)
  | PDict d =>
      Hdict d ((fix go (d : list (pyval * pyval)) : Forall (fun p => P (fst p) /\ P (snd p)) d :=
                  match d with
                  | [] => List.Forall_nil _
                  | (k, v) :: d => List.Forall_cons _ (k, v) _ (conj (pyval_nested k) (pyval_nested v)) (go d)
                  end) d)
  | PData d =>
      Hdata d ((fix go (d : list (text * pyval)) : Forall (fun p => P (snd p)) d :=
                  match d with
                  | [] => List.Forall_nil _
                  | (k, v) :: d => List.Forall_cons _ (k, v) _ (pyval_nested v) (go d)
                  end) d)
  end.
End PyvalInd.

(** No dataclass instance among the values. *)
Fixpoint data_free (v : pyval) : bool :=
  match v with
  | PList l | PTuple l => forallb data_free l
  | PDict d => forallb (fun p => data_free (snd p)) d
  | PData _ => false
  | _ => true
  end.

(** Every text value is the result of a redaction, and what is left is
    lists, dictionaries and atoms. *)
Fixpoint clean (v : pyval) : Prop :=
  match v with
  | PStr t => exists t0, t = redact (Some t0) []
  | PList l => foldr (fun v P => clean v /\ P) True l
  | PDict d => foldr (fun p P => clean (snd p) /\ P) True d
  | PTuple _ | PData _ => False
  | _ => True
  end.

Lemma asdict_data_free v : data_free (asdict v) = true.
Proof.
  induction v as [| | | | |l IH|l IH|d IH|d IH] using pyval_nested; cbn; try done.
  - induction IH as [|x l Hx _ IHl]; cbn; [done|]. by rewrite Hx.
  - induction IH as [|x l Hx _ IHl]; cbn; [done|]. by rewrite Hx.
  - induction IH as [|[k x] l [_ Hx] _ IHl]; cbn; [done|]. cbn in Hx. by rewrite Hx.
  - induction IH as [|[k x] l Hx _ IHl]; cbn; [done|]. cbn in Hx. by rewrite Hx.
Qed.

Lemma redact_strings_clean v : data_free v = true -> clean (redact_strings v).
Proof.
  induction v as [| | |t| |l IH|l IH|d IH|d IH] using pyval_nested; cbn; try done.
  - intros _. by exists t.
  - intros Hd. induction IH as [|x l Hx _ IHl]; cbn in *; [done|]. apply andb_true_iff in Hd as [H1 H2].
    split; [by apply Hx|by apply IHl].
  - intros Hd. induction IH as [|x l Hx _ IHl]; cbn in *; [done|]. apply andb_true_iff in Hd as [H1 H2].
    split; [by apply Hx|by apply IHl].
  - intros Hd. induction IH as [|[k x] l [_ Hx] _ IHl]; cbn in *; [done|]. apply andb_true_iff in Hd as [H1 H2].
    split; [by apply Hx|by apply IHl].
Qed.

(** What a receipt may be given: a dataclass, or values without one inside. *)
Definition serializable (v : pyval) : bool :=
  match v with
  | PData _ => true
  | v => data_free v
  end.

Lemma to_serializable_data_free v : serializable v = true -> data_free (to_serializable v) = true.
Proof. destruct v; try done. intros _. apply asdict_data_free. Qed.

Definition doc_data_free (d : list (text * pyval)) : Prop := Forall (fun p => data_free (snd p) = true) d.

Lemma assoc_set_data_free d k v : doc_data_free d -> data_free v = true -> doc_data_free (assoc_set d k v).
Proof.
  intros Hd Hv. induction Hd as [|[k' v'] d Hx Hd IH]; cbn; [by repeat constructor|].
  case_decide; constructor; done.
Qed.

Lemma update_data_free d extra :
  doc_data_free d -> Forall (fun p => serializable (snd p) = true) extra -> doc_data_free (update_document d extra).
Proof.
  intros Hd He. revert d Hd. induction He as [|[k v] extra Hv He IH]; intros d Hd; [done|]. cbn.
  apply IH. apply assoc_set_data_free; [done|]. by apply to_serializable_data_free.
Qed.

Lemma doc_clean d :
  doc_data_free d -> clean (redact_strings (PDict (map (fun p => (PStr (fst p), snd p)) d))).
Proof.
  intros Hd. apply redact_strings_clean. cbn. induction Hd as [|[k v] d Hv Hd IH]; cbn; [done|].
  cbn in Hv. by rewrite Hv.
Qed.

(** ** Properties *)

(** Every receipt is redacted throughout: whatever dataclasses and plain
    values a module reports, each text in the rendered document, at any
    depth, is the result of [redact], and no dataclass or tuple is left. *)
Theorem receipt_redacted r :
  Forall (fun v => serializable v = true) [rc_previous r; rc_desired r; rc_observed r] ->
  Forall (fun p => serializable (snd p) = true) (rc_extra r) ->
  clean (to_dict r).
Proof.
  intros Hv He. apply doc_clean, update_data_free; [|done].
  repeat (apply Forall_cons in Hv as [? Hv]).
  repeat (constructor; [first [done|by apply to_serializable_data_free|by destruct (rc_error_class r)]|]). constructor.
Qed.

(** A JNLP session keeps its secrets out of the open-ended part: the
    arguments kept as extra are exactly those without a field of their own,
    and the port mode is [dedicated_ports] exactly when a device port was
    given, otherwise [single_port] exactly when the flag says so. *)
Theorem jnlp_arguments_sorted arguments :
  let s := from_arguments arguments in
  (forall name, assoc_get (js_extra s) name
     = if decide (name ∈ NAMED_ARGUMENTS) then None else assoc_get arguments name) /\
  (js_port_mode s = DedicatedPorts <-> cd_port s <> None \/ fd_port s <> None \/ hd_port s <> None) /\
  (js_port_mode s = SinglePort <->
     cd_port s = None /\ fd_port s = None /\ hd_port s = None /\ single_port_enabled s = Some true).
Proof.
  cbn zeta. split_and!.
  - intros name. cbn [from_arguments js_extra]. induction arguments as [|[k v] l IH]; cbn.
    { by destruct (decide _). }
    case_bool_decide as Hk; cbn; rewrite ?IH; destruct (decide (name ∈ NAMED_ARGUMENTS)) as [Hn|Hn];
      destruct (decide (name = k)) as [->|]; try done; exfalso; auto.
  - cbn. destruct (optional_bool_flag _) as [[]|], (optional_int _), (optional_int _), (optional_int _); cbn; intuition congruence.
  - cbn. destruct (optional_bool_flag _) as [[]|], (optional_int _), (optional_int _), (optional_int _); cbn; intuition congruence.
Qed.

Lemma receipt_redacted_witness :
  clean (to_dict {| rc_action := $"asmb8_media.attach"; rc_endpoint := $"bmc:5120"; rc_changed := true;
                    rc_previous := PNone; rc_desired := PStr ($"attached");
                    rc_observed := PData [($"token", PStr ($"password: hunter2")); ($"polls", PList [PInt 3])];
                    rc_error_class := None; rc_extra := [($"note", PTuple [PStr ($"STOKEN=abc")])] |}).
Proof. apply receipt_redacted; by repeat constructor. Defined.
