(* ===== verification/PyValue.v ===== *)
(** * Python's dynamic values, as the modules use them

    Reading a parsed record ([dict.get], membership), truth, equality,
    [int], and dictionaries of results.  A value that is neither [None], a
    boolean, an integer, a text nor a container of these is opaque: it is
    known by its [repr] (a float as [1.5] or [0.0]). *)
From Stdlib Require Import ZArith Lia Ascii String.
From stdpp Require Import prelude.
From S2P Require Import Prelude PyBytes PyText Regex Errors Models.

Abbreviation pydict := (list (pyval * pyval)).

(** A text key equals a text key only. *)
Definition is_key (name : text) (k : pyval) : bool :=
  match k with
  | PStr t => text_eqb t name
  | _ => false
  end.

Definition dict_find (d : pydict) (name : text) : option pyval :=
  snd <$> List.find (fun p => is_key name (fst p)) d.

(** [record.get(name)] and [record.get(name, default)] *)
Definition get (d : pydict) (name : text) : pyval := default PNone (dict_find d name).
Definition get_or (d : pydict) (name : text) (v : pyval) : pyval := default v (dict_find d name).

(** [record[name]] *)
Definition index (d : pydict) (name : text) : result exn pyval :=
  match dict_find d name with
  | Some v => Ok v
  | None => Err (KeyError (repr name))
  end.

(** The record a parsed element is. *)
Definition as_dict (v : pyval) : pydict := match v with PDict d => d | _ => [] end.

(** [bool(v)] *)
Definition truthy (v : pyval) : bool :=
  match v with
  | PNone => false
  | PBool b => b
  | PInt z => negb (z =? 0)
  | PStr t => negb (bool_decide (t = []))
  | PList l | PTuple l => negb (bool_decide (length l = 0%nat))
  | PDict d => negb (bool_decide (length d = 0%nat))
  | PData _ => true
  | POpaque r => negb (bool_decide (r ∈ [$"0.0"; $"-0.0"; $"0j"; $"b''"; $"set()"]))
  end.

(** [a or b] *)
Definition py_or (a b : pyval) : pyval := if truthy a then a else b.

(** The number a value is, booleans included. *)
Definition as_int (v : pyval) : option Z :=
  match v with
  | PInt z => Some z
  | PBool b => Some (if b then 1 else 0)
  | _ => None
  end.

(** [a == b] *)
Fixpoint py_eq (a b : pyval) : bool :=
  match a, b with
  | PNone, PNone => true
  | PStr s, PStr t => text_eqb s t
  | PList l, PList m | PTuple l, PTuple m =>
      (fix go (l m : list pyval) : bool :=
         match l, m with
         | [], [] => true
         | x :: l, y :: m => py_eq x y && go l m
         | _, _ => false
         end) l m
  | PDict d, PDict e =>
      (length d =? length e)%nat
      && (fix go (d : pydict) : bool :=
            match d with
            | [] => true
            | (k, v) :: d => existsb (fun p => py_eq k (fst p) && py_eq v (snd p)) e && go d
            end) d
  | PData d, PData e =>
      (fix go (d e : list (text * pyval)) : bool :=
         match d, e with
         | [], [] => true
         | (k, v) :: d, (k', v') :: e => text_eqb k k' && py_eq v v' && go d e
         | _, _ => false
         end) d e
  | POpaque r, POpaque s => text_eqb r s
  | POpaque r, v | v, POpaque r =>
      match as_int v with Some z => text_eqb r (dec z ++ $".0") | None => false end
  | a, b =>
      match as_int a, as_int b with
      | Some x, Some y => x =? y
      | _, _ => false
      end
  end.

(** [int(v)]; of a float, its integer part (a float Python writes without an
    exponent, from 0.0001 up to 10 to the 16th). *)
Definition int_of (v : pyval) : result exn Z :=
  match v with
  | PInt z => Ok z
  | PBool b => Ok (if b then 1 else 0)
  | PStr t =>
      match py_int t with
      | Some z => Ok z
      | None => Err (ValueError ($"invalid literal for int() with base 10: " ++ repr t))
      end
  | POpaque r =>
      match py_int (before_char (ch ".") r) with
      | Some z => Ok z
      | None => Err (TypeError ($"int() argument must be a string, a bytes-like object or a real number"))
      end
  | _ => Err (TypeError ($"int() argument must be a string, a bytes-like object or a real number"))
  end.

(** [int(record.get(name, 0) or 0)] *)
Definition int_field (d : pydict) (name : text) : result exn Z := int_of (py_or (get_or d name (PInt 0)) (PInt 0)).

(** [optional_str(record.get(name)) or ""] and the other coercions of a field *)
Definition str_field (d : pydict) (name : text) : pyval := PStr (default [] (optional_str (get d name))).
Definition opt_int (o : option Z) : pyval := match o with Some z => PInt z | None => PNone end.
Definition opt_bool (o : option bool) : pyval := match o with Some b => PBool b | None => PNone end.
Definition opt_text (o : option text) : pyval := match o with Some t => PStr t | None => PNone end.
Definition int_or_none (d : pydict) (name : text) : pyval := opt_int (optional_int (get d name)).
Definition flag_or_none (d : pydict) (name : text) : pyval := opt_bool (optional_bool_flag (get d name)).

(** Whether a value may be a dictionary key or an element of a set; a set
    itself may not. *)
Fixpoint hashable (v : pyval) : bool :=
  match v with
  | PList _ | PDict _ | PData _ => false
  | PTuple l => (fix go (l : list pyval) : bool := match l with [] => true | x :: l => hashable x && go l end) l
  | POpaque r => negb (startswith ($"{") r || startswith ($"set(") r)
  | _ => true
  end.
Definition unhashable : exn := TypeError ($"unhashable type").

(** [d[key] = value]: the key that is there stays, with its place. *)
Fixpoint dict_put (d : pydict) (k v : pyval) : pydict :=
  match d with
  | [] => [(k, v)]
  | (k', v') :: d => if py_eq k' k then (k', v) :: d else (k', v') :: dict_put d k v
  end.
Definition dict_set (d : pydict) (k v : pyval) : result exn pydict := if hashable k then Ok (dict_put d k v) else Err unhashable.

(** [a < b], for texts and for integers; other kinds do not compare. *)
Definition py_lt (a b : pyval) : option bool :=
  match a, b with
  | PStr s, PStr t => Some (negb (text_leb t s))
  | _, _ =>
      match as_int a, as_int b with
      | Some x, Some y => Some (x <? y)
      | _, _ => None
      end
  end.

(** [sorted(l)] for values that are texts, integers, or single *)
Fixpoint insert_value (x : pyval) (l : list pyval) : result exn (list pyval) :=
  match l with
  | [] => Ok [x]
  | y :: l =>
      match py_lt y x with
      | None => Err (TypeError ($"'<' not supported between these instances"))
      | Some true => let* l := insert_value x l in Ok (y :: l)
      | Some false => Ok (x :: y :: l)
      end
  end.
Fixpoint sorted_values (l : list pyval) : result exn (list pyval) :=
  match l with
  | [] => Ok []
  | x :: l => let* l := sorted_values l in insert_value x l
  end.

(** [set(l)], in the order of first occurrence *)
Fixpoint set_of (l : list pyval) (seen : list pyval) : result exn (list pyval) :=
  match l with
  | [] => Ok (rev seen)
  | x :: l =>
      if negb (hashable x) then Err unhashable
      else set_of l (if existsb (fun y => py_eq y x) seen then seen else x :: seen)
  end.

(** [raw / 1000.0], as the text Python writes it: the quotient has few enough
    digits (for numbers under 10 to the 15th) to be written exactly. *)
Definition frac3 (n : Z) : text :=
  let d := [48 + n / 100; 48 + (n / 10) mod 10; 48 + n mod 10] in
  if n mod 10 =? 0 then (if n mod 100 =? 0 then take 1 d else take 2 d) else d.
Definition thousandths (raw : Z) : text :=
  (if raw <? 0 then $"-" else []) ++ dec (Z.abs raw / 1000) ++ $"." ++ frac3 (Z.abs raw mod 1000).
(** The distinct names, in the order of first occurrence. *)
Fixpoint first_seen (seen names : list text) : list text :=
  match names with
  | [] => []
  | x :: names => if existsb (text_eqb x) seen then first_seen seen names else x :: first_seen (x :: seen) names
  end.

(** A dictionary display with text keys. *)
Definition dict (l : list (text * pyval)) : pyval := PDict (map (fun p => (PStr (fst p), snd p)) l).
Definition str_list (l : list text) : pyval := PList (map PStr l).

(** Mapping a fallible function over a list, left to right. *)
Fixpoint map_result {E A B} (f : A -> result E B) (l : list A) : result E (list B) :=
  match l with
  | [] => Ok []
  | x :: l => let* y := f x in let* ys := map_result f l in Ok (y :: ys)
  end.

(** ** Lemmas *)

Lemma text_eqb_refl t : text_eqb t t = true.
Proof. by apply text_eqb_eq. Qed.

Lemma py_eq_refl v : py_eq v v = true.
Proof.
  induction v as [|b|z|t|r|l IH|l IH|d IH|d IH] using pyval_nested; cbn; try done.
  - apply Z.eqb_refl.
  - apply Z.eqb_refl.
  - apply text_eqb_refl.
  - apply text_eqb_refl.
  - induction IH as [|x l Hx _ IHl]; [done|]. by rewrite Hx.
  - induction IH as [|x l Hx _ IHl]; [done|]. by rewrite Hx.
  - rewrite Nat.eqb_refl. cbn. 
    assert (forall e, (forall p, p ∈ d -> p ∈ e) ->
      (fix go (d : pydict) : bool :=
            match d with
            | [] => true
            | (k, v) :: d => existsb (fun p => py_eq k (fst p) && py_eq v (snd p)) e && go d
            end) d = true) as H; [|by apply H].
    intros e. induction IH as [|[k v] d [Hk Hv] _ IHd]; intros He; [done|]. apply andb_true_intro. split.
    + apply existsb_exists. exists (k, v). split; [apply list_elem_of_In, He; left|]. cbn in *. by rewrite Hk, Hv.
    + apply IHd. intros p Hp. apply He. by right.
  - induction IH as [|[k x] l Hx _ IHl]; [done|]. rewrite text_eqb_refl. cbn in Hx |- *. by rewrite Hx.
Qed.

Lemma py_eq_text v t : py_eq v (PStr t) = true <-> v = PStr t.
Proof.
  destruct v; cbn; try (split; congruence). rewrite text_eqb_eq. split; congruence.
Qed.

Lemma map_result_ok {E A B} (f : A -> result E B) l ys :
  map_result f l = Ok ys <-> Forall2 (fun x y => f x = Ok y) l ys.
Proof.
  revert ys. induction l as [|x l IH]; intros ys; cbn.
  - split; [by intros [= <-]|by inversion 1].
  - destruct (f x) as [y|e] eqn:Hx; cbn.
    + destruct (map_result f l) as [zs|e] eqn:Hl; cbn.
      * split; [intros [= <-]; constructor; [done|by apply IH]|].
        inversion 1 as [|? z ? zs' Hz Hzs]; subst. apply IH in Hzs. congruence.
      * split; [done|]. inversion 1 as [|? z ? zs' Hz Hzs]; subst. apply IH in Hzs. congruence.
    + split; [done|]. inversion 1; congruence.
Qed.

Lemma dict_find_cons k v d name :
  dict_find ((PStr k, v) :: d) name = if text_eqb k name then Some v else dict_find d name.
Proof. unfold dict_find. cbn. by destruct (text_eqb k name). Qed.

Lemma first_seen_spec names seen :
  NoDup (first_seen seen names) /\ forall x, x ∈ first_seen seen names <-> x ∈ names /\ x ∉ seen.
Proof.
  revert seen. induction names as [|y names IH]; intros seen; cbn [first_seen].
  - split; [constructor|]. set_solver.
  - assert (existsb (text_eqb y) seen = true <-> y ∈ seen) as Hy.
    { rewrite existsb_exists. split.
      - intros (z & Hz & E). apply text_eqb_eq in E. subst. by apply list_elem_of_In.
      - intros Hin. exists y. split; [by apply list_elem_of_In|by apply text_eqb_eq]. }
    destruct (existsb (text_eqb y) seen).
    + destruct (IH seen) as [Hn Hx]. split; [done|]. intros x. rewrite Hx. set_solver.
    + destruct (IH (y :: seen)) as [Hn Hx]. split.
      * constructor; [|done]. rewrite Hx. set_solver.
      * intros x. rewrite elem_of_cons, Hx. destruct (decide (x = y)); set_solver.
Qed.
