(* ===== verification/Webvar.v ===== *)
(** * webvar.py: the WEBVAR/JSONVAR response parser

    The three declarations are found with the patterns of the source, the
    array literal with the bracket scanner.  [ast.literal_eval] is a
    parameter: the value of a text, or [None] for the exceptions the parser
    translates. *)
From Stdlib Require Import ZArith Lia Ascii String.
From stdpp Require Import prelude.
From S2P Require Import Prelude PyBytes PyText Regex Errors Models.

(** [WEBVAR_JSONVAR_(\w+)\s*=], [WEBVAR_STRUCTNAME_(\w+)\s*:] and
    [HAPI_STATUS\s*:\s*(-?\d+)] *)
Definition JSONVAR_RE : re := rseq [lit "WEBVAR_JSONVAR_"; RGroup 1 (rplus is_word); spaces; lit "="].
Definition STRUCTNAME_RE : re := rseq [lit "WEBVAR_STRUCTNAME_"; RGroup 1 (rplus is_word); spaces; lit ":"].
Definition HAPI_STATUS_RE : re :=
  rseq [lit "HAPI_STATUS"; spaces; lit ":"; spaces; RGroup 1 (RSeq (ropt (lit "-")) (rplus is_digit))].

(** [pattern.search(body, pos)], from where an earlier match ended. *)
Definition search_on (r : re) (m : mstate) : option mstate := snd <$> re_search_from r (consumed m) (rest m).

Record WebVarResponse : Type := {
  variable_name : text;
  struct_name : text;
  records : list pyval;
  hapi_status : Z;
}.

(** The loop of [_scan_matching_bracket]: how many characters up to and
    including the bracket that closes.  [quote] is the quote of the string
    the scan is in, [skip] the escaped character to pass over. *)
Fixpoint scan_loop (open_char close_char : Z) (depth : Z) (quote : option Z) (skip : bool) (s : text) : option nat :=
  match s with
  | [] => None
  | c :: s' =>
      S <$>
      if skip then scan_loop open_char close_char depth quote false s'
      else match quote with
           | Some q =>
               if c =? ch "\" then scan_loop open_char close_char depth quote true s'
               else if c =? q then scan_loop open_char close_char depth None false s'
               else scan_loop open_char close_char depth quote false s'
           | None =>
               if (c =? 39) || (c =? 34) then scan_loop open_char close_char depth (Some c) false s'
               else if c =? open_char then scan_loop open_char close_char (depth + 1) None false s'
               else if c =? close_char then
                 if depth - 1 =? 0 then Some O
                 else scan_loop open_char close_char (depth - 1) None false s'
               else scan_loop open_char close_char depth None false s'
           end
  end.

(** [_scan_matching_bracket] on the text from [open_pos] on; [None] is
    [ValueError]. *)
Definition scan_matching_bracket (open_char close_char : Z) (s : text) : option nat :=
  match s with
  | c :: _ => if c =? open_char then scan_loop open_char close_char 0 None false s else None
  | [] => None
  end.

Definition is_dict (v : pyval) : bool := match v with PDict _ => true | _ => false end.

(** [records[:-1]] when the last record is the sentinel [{}]. *)
Definition drop_sentinel (l : list pyval) : list pyval :=
  match last l with
  | Some (PDict []) => removelast l
  | _ => l
  end.

Section Parse.
Variable literal_eval : text -> option pyval.

Definition webvar_error (msg : text) (endpoint operation diagnostic : option text) : IkvmError :=
  IkvmError_init PROTOCOL msg endpoint operation diagnostic [] false None.

Definition parse_webvar (body : text) (endpoint operation : option text) : result IkvmError WebVarResponse :=
  let fail msg diagnostic := Err (webvar_error msg endpoint operation diagnostic) in
  match strip body with
  | [] => fail ($"webvar response body is empty") None
  | _ =>
  match search_on JSONVAR_RE (start_at [] body) with
  | None => fail ($"no WEBVAR_JSONVAR_<NAME> assignment found in response body") (Some body)
  | Some name_match =>
  let variable := default [] (group_of name_match 1) in
  match search_on STRUCTNAME_RE name_match with
  | None => fail ($"no WEBVAR_STRUCTNAME_<NAME> array declaration found for WEBVAR_JSONVAR_" ++ variable) (Some body)
  | Some struct_match =>
  let struct := default [] (group_of struct_match 1) in
  let from_array := lstrip (rest struct_match) in
  if negb (startswith ($"[") from_array) then
    fail ($"WEBVAR_STRUCTNAME_" ++ struct ++ $" is not followed by an array literal")
      (Some (take 80 (rest struct_match)))
  else
  match scan_matching_bracket (ch "[") (ch "]") from_array with
  | None => fail ($"WEBVAR_STRUCTNAME_" ++ struct ++ $"'s array literal is never closed") (Some from_array)
  | Some n =>
  let array_text := take n from_array in
  match literal_eval array_text with
  | None => fail ($"WEBVAR_STRUCTNAME_" ++ struct ++ $"'s array literal could not be parsed as a Python literal") (Some array_text)
  | Some value =>
  match value with
  | PList l =>
      if negb (forallb is_dict l) then
        fail ($"WEBVAR_STRUCTNAME_" ++ struct ++ $"'s array literal did not evaluate to a list of objects") (Some array_text)
      else
      let after := drop n from_array in
      match search_on HAPI_STATUS_RE
              (start_at (rev (take (length body - length after) body)) after) with
      | None => fail ($"no HAPI_STATUS field found after WEBVAR_STRUCTNAME_" ++ struct ++ $"'s array") (Some (take 200 after))
      | Some status_match =>
          match py_int (default [] (group_of status_match 1)) with
          | Some status =>
              Ok {| variable_name := variable; struct_name := struct; records := drop_sentinel l; hapi_status := status |}
          | None => fail ($"invalid HAPI_STATUS") None        (* not reached: the group is an integer *)
          end
      end
  | _ => fail ($"WEBVAR_STRUCTNAME_" ++ struct ++ $"'s array literal did not evaluate to a list of objects") (Some array_text)
  end end end end end end.
End Parse.

(** ** What the scanner recognises *)

(** The inside of a quoted string: a backslash hides the next character. *)
Inductive string_body (q : Z) : text -> Prop :=
  | sb_nil : string_body q []
  | sb_char c s : c <> q -> c <> ch "\" -> string_body q s -> string_body q (c :: s)
  | sb_escape c s : string_body q s -> string_body q (ch "\" :: c :: s).

(** Text whose brackets pair up, strings aside. *)
Inductive balanced : text -> Prop :=
  | bal_nil : balanced []
  | bal_char c s : c <> 39 -> c <> 34 -> c <> ch "[" -> c <> ch "]" -> balanced s -> balanced (c :: s)
  | bal_string q b s : q = 39 \/ q = 34 -> string_body q b -> balanced s -> balanced (q :: b ++ q :: s)
  | bal_nest s t : balanced s -> balanced t -> balanced (ch "[" :: s ++ ch "]" :: t).

Abbreviation scan := (scan_loop (ch "[") (ch "]")).

(** ** Lemmas *)

Lemma fmap_add_assoc (a b : nat) (o : option nat) : Nat.add a <$> (Nat.add b <$> o) = Nat.add (a + b) <$> o.
Proof. destruct o; cbn; [|done]. by rewrite Nat.add_assoc. Qed.

Lemma fmap_add_eq (a b : nat) (o : option nat) : a = b -> Nat.add a <$> o = Nat.add b <$> o.
Proof. by intros ->. Qed.

Lemma fmap_S_add (a : nat) (o : option nat) : S <$> (Nat.add a <$> o) = Nat.add (S a) <$> o.
Proof. by destruct o. Qed.

Lemma quotes_not_special q : q = 39 \/ q = 34 -> (q =? ch "\") = false /\ (q =? 39) || (q =? 34) = true.
Proof. by intros [-> | ->]. Qed.

Lemma scan_string d q b s :
  q = 39 \/ q = 34 -> string_body q b ->
  scan d (Some q) false (b ++ q :: s) = Nat.add (S (length b)) <$> scan d None false s.
Proof.
  intros Hq. destruct (quotes_not_special q Hq) as [Hb _].
  induction 1 as [|c b Hc1 Hc2 Hbody IH|c b Hbody IH]; cbn [app scan_loop length].
  - rewrite Hb, Z.eqb_refl. by destruct (scan _ _ _ _).
  - replace (c =? ch "\") with false by (symmetry; by apply Z.eqb_neq).
    replace (c =? q) with false by (symmetry; by apply Z.eqb_neq). rewrite IH. apply fmap_S_add.
  - rewrite Z.eqb_refl. rewrite IH, !fmap_S_add. done.
Qed.

Lemma scan_balanced d s t :
  1 <= d -> balanced s -> scan d None false (s ++ t) = Nat.add (length s) <$> scan d None false t.
Proof.
  intros Hd Hs. revert d t Hd.
  induction Hs as [|c s H1 H2 H3 H4 Hs IH|q b s Hq Hb Hs IH|s u Hs IHs Hu IHu]; intros d t Hd; cbn [app scan_loop].
  - by destruct (scan _ _ _ t).
  - apply Z.eqb_neq in H1, H2, H3, H4. rewrite H1, H2, H3, H4. cbn [orb]. rewrite IH by done. apply fmap_S_add.
  - destruct (quotes_not_special q Hq) as [_ ->]. rewrite <- app_assoc. cbn [app].
    rewrite scan_string, IH by done. rewrite fmap_add_assoc, fmap_S_add.
    apply fmap_add_eq. cbn [length]. rewrite length_app. cbn [length]. lia.
  - change ((ch "[" =? 39) || (ch "[" =? 34)) with false. rewrite Z.eqb_refl. cbn [orb].
    rewrite <- app_assoc. rewrite IHs by lia. cbn [app scan_loop].
    change ((ch "]" =? 39) || (ch "]" =? 34)) with false. change (ch "]" =? ch "[") with false. rewrite Z.eqb_refl.
    replace (d + 1 - 1 =? 0) with false by (symmetry; apply Z.eqb_neq; lia).
    replace (d + 1 - 1) with d by lia. rewrite IHu by done. rewrite !fmap_S_add, fmap_add_assoc.
    apply fmap_add_eq. cbn [length]. rewrite length_app. cbn [length]. lia.
Qed.

Lemma scan_string_inv d q s n :
  q = 39 \/ q = 34 -> scan d (Some q) false s = Some n ->
  exists b t m, s = b ++ q :: t /\ string_body q b /\ scan d None false t = Some m /\ n = (S (length b) + m)%nat.
Proof.
  intros Hq. destruct (quotes_not_special q Hq) as [Hqb _].
  remember (length s) as k eqn:Hk. revert s n Hk. induction (lt_wf k) as [k _ IH]. intros s n -> H.
  destruct s as [|c s]; [done|]. cbn [scan_loop] in H. apply fmap_Some in H as (m & H & ->).
  destruct (c =? ch "\") eqn:E1.
  - destruct s as [|x s]; [done|]. cbn [scan_loop] in H. apply fmap_Some in H as (m' & H & ->).
    destruct (IH (length s) ltac:(cbn; lia) s _ eq_refl H) as (b & t & m & -> & Hb & Ht & ->).
    apply Z.eqb_eq in E1 as ->. exists (ch "\" :: x :: b), t, m. split_and!; [done|by constructor|done|done].
  - destruct (c =? q) eqn:E2.
    + apply Z.eqb_eq in E2 as ->. exists [], s, m. split_and!; [done|constructor|done|done].
    + destruct (IH (length s) ltac:(cbn; lia) s _ eq_refl H) as (b & t & m' & -> & Hb & Ht & ->).
      apply Z.eqb_neq in E1, E2. exists (c :: b), t, m'. split_and!; [done|by constructor|done|done].
Qed.

(** A scan that succeeds at depth [d] has passed balanced text and the
    bracket that leads to depth [d - 1]. *)
Lemma scan_inv d s n :
  1 <= d -> scan d None false s = Some n ->
  exists b t, s = b ++ ch "]" :: t /\ balanced b /\
    if d =? 1 then n = S (length b)
    else exists m, scan (d - 1) None false t = Some m /\ n = (S (length b) + m)%nat.
Proof.
  remember (length s) as k eqn:Hk. revert d s n Hk. induction (lt_wf k) as [k _ IH]. intros d s n -> Hd H.
  destruct s as [|c s]; [done|]. cbn [scan_loop] in H. apply fmap_Some in H as (m & H & ->).
  destruct ((c =? 39) || (c =? 34)) eqn:E1.
  { assert (c = 39 \/ c = 34) as Hc.
    { apply orb_true_iff in E1 as [E1|E1]; apply Z.eqb_eq in E1; auto. }
    apply scan_string_inv in H as (b & t & m' & -> & Hb & Ht & ->); [|done].
    destruct (IH (length t) ltac:(cbn; rewrite length_app; cbn; lia) d t _ eq_refl Hd Ht) as (b2 & t2 & -> & Hb2 & Hr).
    exists (c :: b ++ c :: b2), t2. split_and!; [by cbn; rewrite <- app_assoc|by constructor|].
    cbn [length]. rewrite length_app. cbn [length].
    destruct (d =? 1); [subst m'; lia|]. destruct Hr as (m2 & Hm2 & ->). exists m2. split; [done|lia]. }
  apply orb_false_iff in E1 as [E1 E1']. destruct (c =? ch "[") eqn:E2.
  { apply Z.eqb_eq in E2 as ->. destruct (IH (length s) ltac:(cbn; lia) (d + 1) s _ eq_refl ltac:(lia) H) as (b & t & -> & Hb & Hr).
    replace (d + 1 =? 1) with false in Hr by (symmetry; apply Z.eqb_neq; lia).
    destruct Hr as (m2 & Hm2 & ->). replace (d + 1 - 1) with d in Hm2 by lia.
    destruct (IH (length t) ltac:(cbn; rewrite length_app; cbn; lia) d t _ eq_refl Hd Hm2) as (b2 & t2 & -> & Hb2 & Hr2).
    exists (ch "[" :: b ++ ch "]" :: b2), t2. split_and!; [by cbn; rewrite <- app_assoc|by constructor|].
    cbn [length]. rewrite length_app. cbn [length].
    destruct (d =? 1); [subst m2; lia|]. destruct Hr2 as (m3 & Hm3 & ->). exists m3. split; [done|lia]. }
  destruct (c =? ch "]") eqn:E3.
  { apply Z.eqb_eq in E3 as ->. exists [], s. split_and!; [done|constructor|]. cbn [length].
    replace (d - 1 =? 0) with (d =? 1) in H by (apply eq_true_iff_eq; rewrite !Z.eqb_eq; lia).
    destruct (d =? 1); [by injection H as <-|]. by exists m. }
  destruct (IH (length s) ltac:(cbn; lia) d s _ eq_refl Hd H) as (b & t & -> & Hb & Hr).
  apply Z.eqb_neq in E1, E1', E2, E3. exists (c :: b), t. split_and!; [done|by constructor|].
  destruct (d =? 1); [by subst m|]. destruct Hr as (m2 & Hm2 & ->). by exists m2.
Qed.

Lemma scan_matching_iff s n :
  scan_matching_bracket (ch "[") (ch "]") s = Some n <->
  exists inner after, s = ch "[" :: inner ++ ch "]" :: after /\ balanced inner /\ n = S (S (length inner)).
Proof.
  assert (forall s, scan 0 None false (ch "[" :: s) = S <$> scan 1 None false s) as Hopen by done.
  split.
  - unfold scan_matching_bracket. destruct s as [|c s]; [done|]. destruct (c =? ch "[") eqn:E; [|done].
    apply Z.eqb_eq in E as ->. rewrite Hopen. intros (m & Hm & ->)%fmap_Some.
    apply scan_inv in Hm as (b & t & -> & Hb & Hr); [|lia]. cbn in Hr. subst m. by exists b, t.
  - intros (inner & after & -> & Hb & ->). unfold scan_matching_bracket. rewrite Z.eqb_refl, Hopen.
    rewrite scan_balanced by (done || lia). 
    change (scan 1 None false (ch "]" :: after)) with (Some 1%nat). cbn. f_equal. lia.
Qed.

Lemma search_on_whole r m m' : search_on r m = Some m' -> whole m' = whole m.
Proof. unfold search_on. intros ([a x] & H & ->)%fmap_Some. by apply re_search_whole in H. Qed.

Lemma lstrip_split s : exists ws, s = ws ++ lstrip s.
Proof.
  induction s as [|c s [ws IH]]; [by exists []|]. cbn. destruct (is_space c); [|by exists []].
  exists (c :: ws). cbn. by f_equal.
Qed.

(** ** Properties *)

(** C35: The bracket scanner is exact: it stops after [n] characters exactly
    when they are an opening bracket, text whose brackets pair up outside
    quoted strings (where a backslash hides the next character), and the
    closing bracket; brackets inside strings never end the scan. *)
Theorem scan_bracket_exact s n :
  scan_matching_bracket (ch "[") (ch "]") s = Some n <->
  exists inner after, s = ch "[" :: inner ++ ch "]" :: after /\ balanced inner /\ n = S (S (length inner)).
Proof. apply scan_matching_iff. Qed.

(** C36: A response is never half parsed.  A parse that succeeds has found,
    in the body, one complete array literal with balanced brackets, whose
    value is a list of objects; the records are those objects in order,
    without the closing sentinel, and the status is the integer of the first
    status field after the array.  Anything else is an error of class [protocol] that carries
    the caller's endpoint and operation. *)
Theorem parse_webvar_sound literal_eval body ep op :
  match parse_webvar literal_eval body ep op with
  | Ok r =>
      exists before inner after l,
        body = before ++ (ch "[" :: inner ++ [ch "]"]) ++ after /\ balanced inner /\
        literal_eval (ch "[" :: inner ++ [ch "]"]) = Some (PList l) /\ forallb is_dict l = true /\
        records r = drop_sentinel l /\
        exists m, search_on HAPI_STATUS_RE (start_at (rev (before ++ ch "[" :: inner ++ [ch "]"])) after) = Some m /\
          py_int (default [] (group_of m 1)) = Some (hapi_status r)
  | Err e => error_class e = PROTOCOL /\ endpoint e = ep /\ operation e = op
  end.
Proof.
  unfold parse_webvar. destruct (strip body) as [|c0 r0]; [done|].
  destruct (search_on JSONVAR_RE _) as [m1|] eqn:E1; [|done].
  destruct (search_on STRUCTNAME_RE m1) as [m2|] eqn:E2; [|done].
  destruct (negb _); [done|].
  destruct (scan_matching_bracket _ _ _) as [n|] eqn:Es; [|done].
  apply scan_matching_iff in Es as (inner & after & Ha & Hb & ->).
  assert (take (S (S (length inner))) (lstrip (rest m2)) = ch "[" :: inner ++ [ch "]"]) as Htake.
  { rewrite Ha. cbn. f_equal. rewrite (cons_middle (ch "]") inner after), app_assoc.
    by rewrite take_app_length' by (rewrite length_app; cbn; lia). }
  assert (drop (S (S (length inner))) (lstrip (rest m2)) = after) as Hdrop.
  { rewrite Ha. cbn. rewrite (cons_middle (ch "]") inner after), app_assoc.
    by rewrite drop_app_length' by (rewrite length_app; cbn; lia). }
  apply search_on_whole in E1, E2. rewrite E1 in E2. unfold whole in E2. cbn in E2.
  destruct (lstrip_split (rest m2)) as [ws Hws]. rewrite Hws, Ha in E2.
  set (before := rev (consumed m2) ++ ws). set (array := ch "[" :: inner ++ [ch "]"]) in *.
  assert (body = before ++ array ++ after) as Hbody.
  { rewrite <- E2. unfold before, array. cbn. by rewrite <- !app_assoc. }
  rewrite Htake, Hdrop. destruct (literal_eval _) as [[| | | |l| | | |]|] eqn:El; try done.
  destruct (negb (forallb is_dict l)) eqn:Ed; [done|]. apply negb_false_iff in Ed.
  replace (take (length body - length after) body) with (before ++ array).
  2: { rewrite Hbody, app_assoc, length_app, Nat.add_sub. by rewrite take_app_length. }
  destruct (search_on HAPI_STATUS_RE _) as [m3|] eqn:E3; [|done]. destruct (py_int _) as [st|] eqn:Est; [|done].
  exists before, inner, after, l. split_and!; try done. by exists m3.
Qed.

(** A response with a bracket and a quote inside a string. *)
Definition sample_array : text := $"[ {'ID' : 1, 'LOG' : '[2615 INFO] it\'s up'}, {} ]".
Definition sample_records : list pyval :=
  [PDict [(PStr ($"ID"), PInt 1); (PStr ($"LOG"), PStr ($"[2615 INFO] it's up"))]].
Definition sample_eval (t : text) : option pyval :=
  if text_eqb t sample_array then Some (PList (sample_records ++ [PDict []])) else None.

Example parse_webvar_sample :
  parse_webvar sample_eval
    ($"//Dynamic data WEBVAR_JSONVAR_GETLOG = { WEBVAR_STRUCTNAME_GETLOG : " ++ sample_array ++ $", HAPI_STATUS:0 };")
    None None
  = Ok {| variable_name := $"GETLOG"; struct_name := $"GETLOG"; records := sample_records; hapi_status := 0 |}.
Proof. by vm_compute. Qed.
