(* ===== verification/Asp.v ===== *)
(** * asp.py: the web client

    Trust policy, the JNLP argument scan, session-expiry detection, and
    [AspClient]: one request at a time with bounded retries, login, reads,
    writes and the allocation of a media session.  The HTTP library is
    outside: each attempt consumes the next of the outcomes it will have.
    The client records what it sent and how long it slept. *)
From Stdlib Require Import ZArith Lia Ascii String.
From stdpp Require Import prelude.
From S2P Require Import Prelude PyBytes PyText Regex Errors Models Webvar.

(** ** Fingerprints and trust *)

Definition is_hex_lower (c : Z) : bool := is_digit c || ((97 <=? c) && (c <=? 102)).

(** [re.match("^[0-9a-f]+$", s)]: [$] also matches before one final newline. *)
Definition hex_re_matches (s : text) : bool :=
  let body := match rev s with
              | 10 :: r => rev r
              | _ => s
              end in
  negb (bool_decide (body = [])) && forallb is_hex_lower body.

Definition tls_error (msg : text) : IkvmError := IkvmError_init TLS_VALIDATION msg None None None [] false None.

Definition normalize_fingerprint (raw : text) : result IkvmError text :=
  match strip raw with
  | [] => Err (tls_error ($"tls_fingerprint must be a non-empty string containing a SHA-256 hex digest"))
  | stripped =>
      let candidate := lower stripped in
      let candidate := if startswith ($"sha256:") candidate then drop 7 candidate else candidate in
      let candidate := replace ($" ") [] (replace ($":") [] candidate) in
      if negb (length candidate =? 64)%nat || negb (hex_re_matches candidate) then
        Err (tls_error ($"tls_fingerprint must normalize to exactly 32 bytes of hex (a SHA-256 digest); got "
                        ++ dec (blen candidate)
                        ++ $" hex character(s) after stripping colons/whitespace and any 'sha256:' prefix"))
      else Ok candidate
  end.

(** [class TlsTrustPolicy] *)
Record TlsTrustPolicy : Type := {
  validate_certs : bool;
  ca_path : option text;
  fingerprint : option text;
}.

Definition given (t : option text) : bool := match t with Some (_ :: _) => true | _ => false end.

Definition TlsTrustPolicy_create (validate : bool) (ca tls_fingerprint : option text) : result IkvmError TlsTrustPolicy :=
  if given ca && given tls_fingerprint then
    Err (tls_error ($"ca_path and tls_fingerprint select mutually exclusive TLS trust modes; set only one. tls_fingerprint is the recommended mode for this board: its factory certificate is self-signed and, as of this writing, already past its own expiry date, so chain validation via ca_path cannot succeed against it."))
  else
    let* fp := match tls_fingerprint with
               | Some (c :: t) => let* f := normalize_fingerprint (c :: t) in Ok (Some f)
               | _ => Ok None
               end in
    Ok {| validate_certs := validate; ca_path := ca; fingerprint := fp |}.

Definition pinned (p : TlsTrustPolicy) : bool := match fingerprint p with Some _ => true | None => false end.

(** What [build_ssl_context] sets on the context it creates; the minimum
    version is TLS 1.2 throughout. *)
Record ssl_settings : Type := {
  ciphers : text;
  check_hostname : bool;
  verify_required : bool;                     (* CERT_REQUIRED, otherwise CERT_NONE *)
  verify_locations : option text;
}.

Definition BMC_CIPHERS : text := $"AES256-GCM-SHA384:AES128-GCM-SHA256:AES256-SHA256:AES128-SHA256:AES256-SHA:AES128-SHA".

Definition build_ssl_context (p : TlsTrustPolicy) : ssl_settings :=
  if pinned p || negb (validate_certs p) then
    {| ciphers := BMC_CIPHERS; check_hostname := false; verify_required := false; verify_locations := None |}
  else
    {| ciphers := BMC_CIPHERS; check_hostname := true; verify_required := true;
       verify_locations := if given (ca_path p) then ca_path p else None |}.

(** [class AmiLegacyTlsAdapter]: what the pools of the HTTP library are made
    with, and the [verify] setting it then lets the library apply, which is
    a flag or the path of a CA bundle. *)
Record pool_options : Type := {
  ssl_context : ssl_settings;
  assert_fingerprint : option text;
}.

Definition init_poolmanager (p : TlsTrustPolicy) : pool_options :=
  {| ssl_context := build_ssl_context p;
     assert_fingerprint := if pinned p then fingerprint p else None |}.

Definition cert_verify (p : TlsTrustPolicy) (verify : bool + text) : bool + text :=
  if pinned p || negb (validate_certs p) then inl false
  else match ca_path p with
       | Some (c :: t) => inr (c :: t)
       | _ => verify
       end.

(** [enforce_transport_policy]: plain HTTP only when asked for *)
Definition enforce_transport_policy (use_tls allow_insecure_transport : bool) : result exn unit :=
  if use_tls || allow_insecure_transport then Ok tt
  else raise_ikvm (IkvmError_init TLS_VALIDATION
    ($"use_tls=false requires allow_insecure_transport=true. Without TLS, the BMC session cookie and KVM/media token cross the network in a form an on-path attacker can recover. Set allow_insecure_transport=true only if this endpoint is reachable solely over an isolated management VLAN and cannot be upgraded to TLS.")
    None None None [] false None).

(** ** Recognising responses *)

Definition looks_like_failed_login (session_cookie : text) : bool := startswith ($"Failure_Login") session_cookie.

Definition HTML_TAG_RE : re :=
  RAlt (rseq [iword "<html"; RWordB]) (rseq [iword "<!doctype"; rplus is_space; iword "html"]).
Definition LOGIN_MARKER_RE : re :=
  RAlt (rseq [RWordB; iword "login"; RWordB]) (rseq [RWordB; iword "session"; RWordB]).
Definition found (r : re) (s : text) : bool := match re_search r s with Some _ => true | None => false end.

Definition looks_like_session_expired_html (body : text) : bool :=
  match body with
  | [] => false
  | _ => if contains ($"WEBVAR_JSONVAR_") body then false
         else found HTML_TAG_RE body && found LOGIN_MARKER_RE body
  end.

(** A quoted field name, a colon, and a quoted value, which is group 1. *)
Definition field_re (name : string) : re :=
  rseq [lit "'"; lit name; lit "'"; spaces; lit ":"; spaces; lit "'";
        RGroup 1 (rmany (fun c => negb (c =? 39))); lit "'"].
Definition SESSION_COOKIE_RE : re := field_re "SESSION_COOKIE".
Definition STOKEN_RE : re := field_re "STOKEN".
Definition CSRFTOKEN_RE : re := field_re "CSRFTOKEN".

(** [<argument>\s*(.*?)\s*</argument>] with [DOTALL] *)
Definition ARGUMENT_RE : re :=
  rseq [lit "<argument>"; spaces; RGroup 1 (RStar false (RChar (fun _ => true))); spaces; lit "</argument>"].

Definition unescape_entities (t : text) : text :=
  replace ($"&apos;") [39] (replace ($"&quot;") [34] (replace ($"&gt;") ($">")
    (replace ($"&lt;") ($"<") (replace ($"&amp;") ($"&") t)))).

(** The pairing loop of [parse_jnlp_arguments]. *)
Fixpoint pair_arguments (values : list text) (acc : list (text * text)) : list (text * text) :=
  match values with
  | name :: ((value :: rest) as tail) =>
      if startswith ($"-") name then pair_arguments rest (assoc_set acc (lower (drop 1 name)) value)
      else pair_arguments tail acc
  | _ => acc
  end.

Definition parse_jnlp_arguments (document : text) : list (text * text) :=
  pair_arguments (map unescape_entities (re_findall ARGUMENT_RE 1 document)) [].

(** ** [class AspClient] *)

(** What one attempt of the HTTP library comes to. *)
Inductive http_outcome : Type :=
  | HResponse (body : text)
  | HConnectTimeout
  | HSSLError (msg : text)
  | HReadTimeout
  | HConnectionError (chain : list text)      (* the messages along the exception's chain *)
  | HOtherError (e : exn).                    (* not caught here *)

Record http_request : Type := mkHttp {
  hq_method : text;
  hq_url : text;
  hq_data : list (text * text);
  hq_params : list (text * text);
  hq_headers : list (text * text);
}.

Record AspConfig : Type := {
  ac_host : text;
  ac_port : Z;
  ac_username : text;
  ac_password : text;
  ac_use_tls : bool;
  ac_max_retries : Z;                         (* as given; the client clips it at 0 *)
  ac_retry_backoff : Z;                       (* milliseconds *)
}.

(** The client: its session, the outcomes of the attempts to come, what it
    sent and how it slept. *)
Record asp : Type := mkAsp {
  a_cookie : option text;
  a_csrf : option text;
  a_net : list http_outcome;
  a_sent : list http_request;
  a_slept : list Z;
}.

Section AspClient.
Context (cfg : AspConfig).
Variable literal_eval : text -> option pyval.

Definition asp_endpoint : text := ac_host cfg ++ $":" ++ dec (ac_port cfg).
Definition scheme_of (tls : bool) : text := if tls then $"https" else $"http".
Definition base_url : text := scheme_of (ac_use_tls cfg) ++ $"://" ++ asp_endpoint.
Definition max_retries : Z := Z.max 0 (ac_max_retries cfg).

(** [_known_secrets] *)
Definition some_given (t : option text) : list text := match t with Some (c :: r) => [c :: r] | _ => [] end.
Definition known_secrets (a : asp) : list text :=
  some_given (Some (ac_password cfg)) ++ some_given (a_cookie a) ++ some_given (a_csrf a).

(** Raise an error of class [c] with the client's endpoint. *)
Definition asp_raise {A} (c : ErrorClass) (msg op : text) (diagnostic : option text) (secrets : list text)
    (indeterminate : bool) (rv : option Z) : io asp exn A :=
  io_raise (Ikvm (IkvmError_init c msg (Some asp_endpoint) (Some op) diagnostic (map Some secrets) indeterminate rv)).

(** [AspClient.__init__], of which [cfg] keeps the connection's parameters:
    the trust policy, the adapter's pool options when there is one, and the
    client with no session. *)
Definition AspClient_init (allow_insecure_transport validate : bool) (ca tls_fingerprint : option text)
    (net : list http_outcome) : result exn (TlsTrustPolicy * option pool_options * asp) :=
  let* _ := enforce_transport_policy (ac_use_tls cfg) allow_insecure_transport in
  match TlsTrustPolicy_create validate ca tls_fingerprint with
  | Ok policy =>
      Ok (policy, if ac_use_tls cfg then Some (init_poolmanager policy) else None, mkAsp None None net [] [])
  | Err e => raise_ikvm e
  end.

(** [_headers] *)
Definition headers (url : text) (a : asp) : list (text * text) :=
  match some_given (a_cookie a) with [c] => [($"Cookie", $"SessionCookie=" ++ c)] | _ => [] end
  ++ match some_given (a_csrf a) with
     | [t] => if contains ($"WEBSES") url then [] else [($"CSRFTOKEN", t)]
     | _ => []
     end.

(** [_connection_error_is_post_connect] *)
Definition join_space (l : list text) : text :=
  match l with
  | [] => []
  | x :: l => x ++ List.concat (map (fun y => $" " ++ y) l)
  end.
Definition connection_error_is_post_connect (chain : list text) : bool :=
  let t := lower (join_space chain) in
  existsb (fun marker => contains marker t)
    [$"connection aborted"; $"connection reset"; $"remote end closed connection"; $"broken pipe"].

(** [_send_once]; [None] is the internal [_TransientBusy]. *)
Definition send_once (method url op : text) (data params : list (text * text)) : io asp exn (option text) := fun a =>
  match a_net a with
  | [] => (Blocked, a)
  | o :: net =>
      let a := mkAsp (a_cookie a) (a_csrf a) net
                 (a_sent a ++ [mkHttp method url data params (headers url a)]) (a_slept a) in
      match o with
      | HResponse body => (Ret (Some body), a)
      | HConnectTimeout => asp_raise TIMEOUT ($"Timed out connecting to " ++ url) op None (known_secrets a) false None a
      | HSSLError e =>
          asp_raise TLS_VALIDATION
            ($"TLS handshake with " ++ asp_endpoint ++ $" failed: " ++ e
             ++ $". This BMC's TLS listener has been observed to accept TLS 1.2 only with the single ciphersuite AES256-GCM-SHA384 (static RSA, no forward secrecy) -- if this is a cipher/protocol mismatch rather than a certificate problem, check that nothing overrode this client's TLS context.")
            op None (known_secrets a) false None a
      | HReadTimeout => (Ret None, a)
      | HConnectionError chain =>
          if connection_error_is_post_connect chain then (Ret None, a)
          else asp_raise CONNECTION ($"Could not connect to " ++ url ++ $": " ++ default [] (head chain)) op None
                 (known_secrets a) false None a
      | HOtherError e => (Raise e, a)
      end
  end.

(** The retry loop of [_send_with_retry]; [retries] are still allowed. *)
Fixpoint retry_loop (retries : nat) (attempt : Z) (method url op : text) (data params : list (text * text))
    : io asp exn text :=
  do r <- send_once method url op data params;
  match r with
  | Some body => io_ret body
  | None =>
      let attempt := attempt + 1 in
      match retries with
      | O => fun a =>
          asp_raise BMC_BUSY
            (asp_endpoint ++ $" accepted the connection but never served " ++ op ++ $" (" ++ method ++ $" " ++ url
             ++ $") after " ++ dec attempt
             ++ $" attempt(s). This BMC's web server has a small per-listener worker pool that saturates under concurrent load; wait and retry later rather than immediately, and confirm nothing else is hitting this BMC concurrently.")
            op None (known_secrets a) true None a
      | S retries =>
          run io_modify (fun a => mkAsp (a_cookie a) (a_csrf a) (a_net a) (a_sent a)
                                    (a_slept a ++ [ac_retry_backoff cfg * attempt]));
          retry_loop retries attempt method url op data params
      end
  end.

Definition send_with_retry (method url op : text) (data params : list (text * text)) : io asp exn text :=
  retry_loop (Z.to_nat max_retries) 0 method url op data params.

(** [_request] *)
Definition asp_request (method path op : text) (data : list (text * text)) : io asp exn text :=
  send_with_retry method (base_url ++ path) op data [].

(** The first field the pattern finds. *)
Definition field (r : re) (body : text) : option text :=
  match re_search r body with
  | Some m => Some (default [] (group_of m 1))
  | None => None
  end.

Definition set_session (cookie : text) (csrf : option text) (a : asp) : asp :=
  mkAsp (Some cookie) csrf (a_net a) (a_sent a) (a_slept a).

Definition login : io asp exn text :=
  let op := $"login" in
  do body <- asp_request ($"POST") ($"/rpc/WEBSES/create.asp") op
               [($"WEBVAR_USERNAME", ac_username cfg); ($"WEBVAR_PASSWORD", ac_password cfg)];
  match field SESSION_COOKIE_RE body with
  | None => fun a =>
      asp_raise PROTOCOL ($"create.asp response did not contain a SESSION_COOKIE value") op (Some body) (known_secrets a) false None a
  | Some session_cookie =>
      if bool_decide (session_cookie = []) || looks_like_failed_login session_cookie then
        asp_raise AUTHENTICATION
          ($"The BMC rejected the supplied credentials (create.asp returned a Failure_Login SESSION_COOKIE). See PR #40 (nesvet/nojava-ipmi-kvm) for why this is HTTP 200, not 401.")
          op None [ac_password cfg] false None
      else
        run io_modify (set_session session_cookie (nonempty (default [] (field CSRFTOKEN_RE body))));
        io_ret session_cookie
  end.

Definition get_session_token : io asp exn (option text) :=
  do body <- asp_request ($"GET") ($"/rpc/getsessiontoken.asp") ($"get_session_token") [];
  io_ret (nonempty (default [] (field STOKEN_RE body))).

(** [_raise_if_session_expired] *)
Definition raise_if_session_expired (body op : text) : io asp exn unit :=
  if negb (looks_like_session_expired_html body) then io_ret tt
  else fun a =>
    asp_raise PROTOCOL
      (op ++ $" returned a session-expired-looking HTML page instead of a parseable .asp response body (HTML with login/session markers, no WEBVAR_JSONVAR_ -- see GitHub issue #5). This BMC has been observed answering an authenticated read with exactly this shape when the read was missing something this endpoint enforces: a missing CSRFTOKEN header was the confirmed cause for five other endpoints (getalllancfg, getlanchannelinfo, getdnscfg, getnwbondcfg, checknwbond), which this client now attaches to every non-WEBSES request (see AspClient._headers()); whether this specific endpoint enforces it too is not itself confirmed either way. Reporting success on this body would be a confident wrong answer, which is worse than failing here.")
      op (Some body) (known_secrets a) false None a.

Definition allocate_media_session (client_ip : text) (secure : option bool) : io asp exn JnlpSession :=
  let op := $"allocate_media_session" in
  do a <- io_get;
  match a_cookie a with
  | None =>
      asp_raise AUTHENTICATION ($"allocate_media_session() requires an active session; call login() first") op None [] false None
  | Some _ =>
      let url := scheme_of (default (ac_use_tls cfg) secure) ++ $"://" ++ asp_endpoint ++ $"/Java/jviewer.jnlp" in
      do body <- send_with_retry ($"GET") url op [] [($"EXTRNIP", client_ip); ($"JNLPSTR", $"JViewer")];
      let arguments := parse_jnlp_arguments body in
      let session := from_arguments arguments in
      match kvm_token session with
      | None => fun a =>
          asp_raise PROTOCOL ($"jviewer.jnlp response did not contain a usable -kvmtoken argument") op
            (Some ($"argument names seen: " ++ repr_value (PList (map PStr (sorted_names arguments.*1)))))
            (known_secrets a) false None a
      | Some _ => io_ret session
      end
  end.

Definition webvar_path (endpoint : text) : text :=
  if startswith ($"/") endpoint then endpoint else $"/rpc/" ++ endpoint ++ $".asp".

(** The common part of the three WEBVAR calls. *)
Definition fetch_webvar (method endpoint op : text) (data : list (text * text)) : io asp exn WebVarResponse :=
  do body <- asp_request method (webvar_path endpoint) op data;
  run raise_if_session_expired body op;
  match parse_webvar literal_eval body (Some endpoint) (Some op) with
  | Ok r => io_ret r
  | Err e => io_raise (Ikvm e)
  end.

Definition op_or (operation : option text) (d : text) : text := match operation with Some (c :: t) => c :: t | _ => d end.

Definition get_webvar (endpoint : text) (operation : option text) : io asp exn WebVarResponse :=
  fetch_webvar ($"GET") endpoint (op_or operation ($"get_webvar:" ++ endpoint)) [].
Definition post_webvar (endpoint : text) (data : list (text * text)) (operation : option text) : io asp exn WebVarResponse :=
  fetch_webvar ($"POST") endpoint (op_or operation ($"post_webvar:" ++ endpoint)) data.
Definition set_webvar (endpoint : text) (data : list (text * text)) (operation : option text) : io asp exn WebVarResponse :=
  let op := op_or operation ($"set_webvar:" ++ endpoint) in
  do response <- fetch_webvar ($"POST") endpoint op data;
  if negb (hapi_status response =? 0) then
    asp_raise REMOTE_OPERATION
      (endpoint ++ $".asp reported HAPI_STATUS=" ++ dec (hapi_status response)
       ++ $" for a write -- the BMC accepted the request but reported the operation itself failed. No BMC state should be assumed changed.")
      op (Some ($"records=" ++ repr_value (PList (records response)))) [] false (Some (hapi_status response))
  else io_ret response.

Definition get_host_status : io asp exn text :=
  let op := $"get_host_status" in
  do body <- asp_request ($"GET") ($"/rpc/hoststatus.asp") op [];
  run raise_if_session_expired body op;
  io_ret body.

Definition set_power (command : text) : io asp exn text :=
  asp_request ($"POST") ($"/rpc/hostctl.asp") ($"set_power") [($"WEBVAR_POWER_CMD", command)].
End AspClient.

(** ** Lemmas *)

(** The outcomes that are retried: the request was sent, nothing came back. *)
Definition is_busy (o : http_outcome) : bool :=
  match o with
  | HReadTimeout => true
  | HConnectionError chain => connection_error_is_post_connect chain
  | _ => false
  end.

Section ClientLemmas.
Context (cfg : AspConfig).

Definition push_sent (q : http_request) (net : list http_outcome) (a : asp) : asp :=
  mkAsp (a_cookie a) (a_csrf a) net (a_sent a ++ [q]) (a_slept a).

(** How one attempt that is not retried ends. *)
Definition settle (method url op : text) (o : http_outcome) (a : asp) : outcome exn text :=
  match (send_once cfg method url op [] [] (mkAsp (a_cookie a) (a_csrf a) [o] [] [])).1 with
  | Ret (Some body) => Ret body
  | Ret None => Blocked
  | Raise e => Raise e
  | Blocked => Blocked
  end.

Lemma send_once_busy method url op data params o net a :
  is_busy o = true -> a_net a = o :: net ->
  send_once cfg method url op data params a
  = (Ret None, push_sent (mkHttp method url data params (headers url a)) net a).
Proof.
  intros Hb Hn. unfold send_once. rewrite Hn. destruct o; try done. cbn [is_busy] in Hb. by rewrite Hb.
Qed.

Lemma send_once_settled method url op data params o net a :
  is_busy o = false -> a_net a = o :: net ->
  let a' := push_sent (mkHttp method url data params (headers url a)) net a in
  match settle method url op o a with
  | Ret body => send_once cfg method url op data params a = (Ret (Some body), a')
  | Raise e => send_once cfg method url op data params a = (Raise e, a')
  | Blocked => False
  end.
Proof.
  intros Hb Hn. unfold settle, send_once. rewrite Hn. cbn [a_net].
  destruct o as [body| |m| |chain|e]; try done. cbn [is_busy] in Hb. by rewrite Hb.
Qed.

(** The sleeps before attempts [k + 1], [k + 2], ... *)
Fixpoint backoffs (k : Z) (n : nat) : list Z :=
  match n with
  | O => []
  | S n => ac_retry_backoff cfg * (k + 1) :: backoffs (k + 1) n
  end.

Definition after_attempts (q : http_request) (net : list http_outcome) (sends : nat) (k : Z) (sleeps : nat) (a : asp) : asp :=
  mkAsp (a_cookie a) (a_csrf a) net (a_sent a ++ replicate sends q) (a_slept a ++ backoffs k sleeps).

Lemma retry_loop_settles bs o net retries k method url op data params a :
  Forall (fun o => is_busy o = true) bs -> is_busy o = false -> (length bs <= retries)%nat ->
  a_net a = bs ++ o :: net ->
  retry_loop cfg retries k method url op data params a
  = (settle method url op o a,
     after_attempts (mkHttp method url data params (headers url a)) net (S (length bs)) k (length bs) a).
Proof.
  intros Hbs Ho. revert retries k a. induction Hbs as [|b bs Hb Hbs IH]; intros retries k a Hlen Hn; cbn in Hn.
  - pose proof (send_once_settled method url op data params o net a Ho Hn) as Hs. cbn zeta in Hs.
    unfold after_attempts. cbn. rewrite app_nil_r.
    destruct retries; cbn [retry_loop]; unfold io_bind;
      destruct (settle method url op o a); try done; by rewrite Hs.
  - destruct retries as [|retries]; [cbn in Hlen; lia|]. cbn [retry_loop]. unfold io_bind at 1.
    rewrite (send_once_busy _ _ _ _ _ b (bs ++ o :: net)) by done. unfold io_bind, io_modify.
    rewrite IH; [|cbn in Hlen; lia|done]. unfold after_attempts, push_sent, settle.
    cbn [a_cookie a_csrf a_sent a_slept a_net length replicate backoffs]. f_equal. f_equal.
    + by rewrite <- app_assoc.
    + by rewrite <- app_assoc.
Qed.

Lemma retry_loop_busy bs net retries k method url op data params a :
  Forall (fun o => is_busy o = true) bs -> length bs = S retries -> a_net a = bs ++ net ->
  exists e,
    retry_loop cfg retries k method url op data params a
    = (Raise (Ikvm e), after_attempts (mkHttp method url data params (headers url a)) net (S retries) k retries a) /\
    error_class e = BMC_BUSY /\ indeterminate e = true.
Proof.
  intros Hbs. revert retries k a. induction Hbs as [|b bs Hb Hbs IH]; intros retries k a Hlen Hn; [done|]. cbn in Hlen, Hn.
  destruct retries as [|retries]; cbn [retry_loop]; unfold io_bind at 1;
    rewrite (send_once_busy _ _ _ _ _ b (bs ++ net)) by done.
  - destruct bs; [|done]. unfold after_attempts, push_sent. cbn [replicate backoffs app]. rewrite app_nil_r.
    eexists. split; [reflexivity|done].
  - unfold io_bind, io_modify. destruct (IH retries (k + 1) (mkAsp (a_cookie a) (a_csrf a) (bs ++ net)
        (a_sent a ++ [mkHttp method url data params (headers url a)]) (a_slept a ++ [ac_retry_backoff cfg * (k + 1)])))
      as (e & He & H1); [lia|done|].
    exists e. split; [|done]. cbn [push_sent a_cookie a_csrf a_net a_sent a_slept]. rewrite He.
    unfold after_attempts. cbn [a_cookie a_csrf a_net a_sent a_slept replicate backoffs]. f_equal. f_equal.
    + by rewrite <- app_assoc.
    + by rewrite <- app_assoc.
Qed.
End ClientLemmas.

Section ClientFrame.
Context (cfg : AspConfig).

(** What a request leaves alone, and what it sends. *)
Definition sends_only (q : http_request) (a a' : asp) : Prop :=
  a_cookie a' = a_cookie a /\ a_csrf a' = a_csrf a /\ exists n, a_sent a' = a_sent a ++ replicate n q.

Lemma send_once_frame method url op data params a :
  sends_only (mkHttp method url data params (headers url a)) a (send_once cfg method url op data params a).2.
Proof.
  unfold send_once. destruct (a_net a) as [|o net]; [split_and!; [done|done|exists 0%nat; by rewrite app_nil_r]|].
  destruct o as [body| |m| |chain|e]; try (split_and!; [done|done|by exists 1%nat]).
  destruct (connection_error_is_post_connect chain); split_and!; [done|done|by exists 1%nat|done|done|by exists 1%nat].
Qed.

Lemma retry_loop_frame retries k method url op data params a :
  sends_only (mkHttp method url data params (headers url a)) a (retry_loop cfg retries k method url op data params a).2.
Proof.
  revert k a. induction retries as [|retries IH]; intros k a; cbn [retry_loop]; unfold io_bind at 1;
    pose proof (send_once_frame method url op data params a) as Hf;
    destruct (send_once cfg method url op data params a) as [[[body|]|e|] a1]; cbn [snd] in Hf |- *; try done.
  unfold io_bind, io_modify. set (a2 := mkAsp _ _ _ _ _).
  assert (headers url a2 = headers url a) as Hh.
  { destruct Hf as (H1 & H2 & _). unfold headers. cbn [a_cookie a_csrf a2]. by rewrite H1, H2. }
  specialize (IH (k + 1) a2). rewrite Hh in IH. destruct Hf as (H1 & H2 & n & H3), IH as (I1 & I2 & m & I3).
  split_and!; [by rewrite I1|by rewrite I2|]. exists (n + m)%nat. rewrite I3. cbn [a_sent a2].
  by rewrite H3, <- app_assoc, replicate_add.
Qed.

(** A body that a request returns is one the peer sent. *)
Lemma send_once_response method url op data params a r a' :
  send_once cfg method url op data params a = (Ret r, a') ->
  (forall o, o ∈ a_net a' -> o ∈ a_net a) /\ (forall body, r = Some body -> HResponse body ∈ a_net a).
Proof.
  unfold send_once. destruct (a_net a) as [|o net]; [done|].
  destruct o as [body| |m| |chain|e]; try done; [|..]; [| |destruct (connection_error_is_post_connect chain); [|done]];
    intros [= <- <-]; (split; [intros o Ho; by right|]); intros b [= <-]; left.
Qed.

Lemma retry_loop_response retries k method url op data params a body a' :
  retry_loop cfg retries k method url op data params a = (Ret body, a') -> HResponse body ∈ a_net a.
Proof.
  revert k a. induction retries as [|retries IH]; intros k a; cbn [retry_loop];
    intros (r & a1 & H1 & H2)%io_bind_inv; apply send_once_response in H1 as [Hnet Hr];
    (destruct r as [b|]; [injection H2 as -> _; by apply Hr|]); [done|].
  apply io_bind_inv in H2 as ([] & a2 & [= <-] & H2). apply Hnet. by apply IH in H2.
Qed.

Lemma request_frame method path op data a :
  sends_only (mkHttp method (base_url cfg ++ path) data [] (headers (base_url cfg ++ path) a)) a
    (asp_request cfg method path op data a).2.
Proof. apply retry_loop_frame. Qed.
Lemma sends_only_bind {A B} q (c : io asp exn A) (k : A -> io asp exn B) a :
  sends_only q a (c a).2 -> (forall x a', (k x a').2 = a') -> sends_only q a (io_bind c k a).2.
Proof. intros Hc Hk. unfold io_bind. destruct (c a) as [[x|e|] a1]; try done. by rewrite Hk. Qed.

Lemma fetch_frame le method endpoint op data a :
  let url := base_url cfg ++ webvar_path endpoint in
  sends_only (mkHttp method url data [] (headers url a)) a (fetch_webvar cfg le method endpoint op data a).2.
Proof.
  unfold fetch_webvar. apply sends_only_bind; [apply request_frame|]. intros body a1.
  unfold io_bind, raise_if_session_expired. destruct (negb _); [|done]. by destruct (parse_webvar _ _ _ _).
Qed.

Lemma fetch_parsed le method endpoint op data a r a' :
  fetch_webvar cfg le method endpoint op data a = (Ret r, a') ->
  exists body, HResponse body ∈ a_net a /\ looks_like_session_expired_html body = false /\
    parse_webvar le body (Some endpoint) (Some op) = Ok r.
Proof.
  intros (body & a1 & H1 & H2)%io_bind_inv. apply io_bind_inv in H2 as ([] & a2 & Hx & H2).
  apply retry_loop_response in H1. exists body. split; [done|]. unfold raise_if_session_expired in Hx.
  destruct (looks_like_session_expired_html body); [done|].
  destruct (parse_webvar le body _ _); [|done]. by injection H2 as <- _.
Qed.
End ClientFrame.

(** Only classified errors, when the library raises nothing else. *)
Definition classified (e : exn) : Prop := exists err, e = Ikvm err.
Definition net_classified (a : asp) : Prop := forall e, HOtherError e ∉ a_net a.

Section ClientErrors.
Context (cfg : AspConfig).

Definition client_ok {A} (c : io asp exn A) : Prop :=
  triple net_classified c (fun _ => net_classified) (fun e _ => classified e).

Lemma client_bind {A B} (c : io asp exn A) (k : A -> io asp exn B) :
  client_ok c -> (forall x, client_ok (k x)) -> client_ok (io_bind c k).
Proof. intros Hc Hk. eapply triple_bind; [exact Hc|apply Hk]. Qed.

Lemma client_ret {A} (x : A) : client_ok (io_ret x).
Proof. by apply triple_ret. Qed.

Lemma client_modify g : (forall a, a_net (g a) = a_net a) -> client_ok (io_modify g).
Proof. intros Hg. apply triple_modify. intros a Ha e. rewrite Hg. apply Ha. Qed.

Lemma client_send_once method url op data params : client_ok (send_once cfg method url op data params).
Proof.
  intros a Ha. unfold send_once. destruct (a_net a) as [|o net] eqn:En; [done|].
  assert (forall x, HOtherError x ∉ net) as Hnet.
  { intros x Hx. apply (Ha x). rewrite En. by right. }
  destruct o as [body| |m| |chain|e]; [exact Hnet|by eexists|by eexists|exact Hnet| |].
  - destruct (connection_error_is_post_connect chain); [exact Hnet|by eexists].
  - destruct (Ha e). rewrite En. left.
Qed.

Lemma client_retry retries k method url op data params :
  client_ok (retry_loop cfg retries k method url op data params).
Proof.
  revert k. induction retries as [|retries IH]; intros k; cbn [retry_loop];
    (apply client_bind; [apply client_send_once|]); intros [body|]; try apply client_ret.
  - intros a Ha. eexists. reflexivity.
  - apply client_bind; [by apply client_modify|]. intros _. apply IH.
Qed.

Lemma client_expired body op : client_ok (raise_if_session_expired cfg body op).
Proof.
  unfold raise_if_session_expired. destruct (negb _); [apply client_ret|].
  intros a Ha. eexists. reflexivity.
Qed.

Lemma client_fetch le method endpoint op data : client_ok (fetch_webvar cfg le method endpoint op data).
Proof.
  unfold fetch_webvar. apply client_bind; [apply client_retry|]. intros body.
  apply client_bind; [apply client_expired|]. intros _.
  destruct (parse_webvar _ _ _ _); [apply client_ret|]. intros a Ha. cbn. by eexists.
Qed.
End ClientErrors.

(** *** The trust policy *)

(** The digits of a pin as it is given: trimmed, in lower case, without the
    [sha256:] in front and without colons and blanks. *)
Definition pin_digits (raw : text) : text :=
  let t := lower (strip raw) in
  let t := if startswith ($"sha256:") t then drop 7 t else t in
  List.filter (fun c => negb (c =? 58) && negb (c =? 32)) t.

Lemma replace_char_filter c t : replace [c] [] t = List.filter (fun x => negb (x =? c)) t.
Proof.
  unfold replace. induction t as [|x t IH]; [done|]. cbn [replace_go startswith length Nat.sub List.filter app].
  rewrite andb_true_r, (Z.eqb_sym c x), IH. by destruct (x =? c).
Qed.

Lemma filter_filter_char (t : text) c d :
  List.filter (fun x => negb (x =? d)) (List.filter (fun x => negb (x =? c)) t)
  = List.filter (fun x => negb (x =? c) && negb (x =? d)) t.
Proof.
  induction t as [|x t IH]; [done|]. cbn [List.filter].
  destruct (x =? c); cbn [negb andb List.filter]; [done|]. by destruct (x =? d); cbn [negb]; rewrite IH.
Qed.

Lemma normalize_pin raw f : normalize_fingerprint raw = Ok f -> f = pin_digits raw /\ length f = 64%nat.
Proof.
  unfold normalize_fingerprint, pin_digits. destruct (strip raw) as [|x y]; [done|]. cbv zeta.
  change ($":") with [58]. change ($" ") with [32]. rewrite !replace_char_filter, filter_filter_char.
  destruct (negb _ || _) eqn:E; [done|]. intros [= <-]. split; [done|].
  apply orb_false_iff in E as [E _]. apply negb_false_iff in E. by apply Nat.eqb_eq.
Qed.

Lemma trust_created validate ca fp p :
  TlsTrustPolicy_create validate ca fp = Ok p ->
  validate_certs p = validate /\ ca_path p = ca /\
  (given fp = true -> given ca = false /\
     exists raw, fp = Some raw /\ fingerprint p = Some (pin_digits raw) /\ length (pin_digits raw) = 64%nat) /\
  (given fp = false -> fingerprint p = None).
Proof.
  unfold TlsTrustPolicy_create. destruct (given ca && given fp) eqn:Eg; [done|].
  destruct fp as [[|c t]|]; cbn [rbind given] in *; [by intros [= <-]| |by intros [= <-]].
  destruct (normalize_fingerprint (c :: t)) as [f|] eqn:En; [|done]. cbn [rbind]. intros [= <-].
  rewrite andb_true_r in Eg. apply normalize_pin in En as [-> Hl].
  split_and!; [done|done| |done]. intros _. split; [done|]. by exists (c :: t).
Qed.

(** *** The JNLP document *)

Section Jnlp.
(** One element of the document. *)
Definition argument (v : text) : text := $"<argument>" ++ v ++ $"</argument>".

(** A value that stands there as it is: no markup, no outer white space. *)
Definition trimmed (v : text) : Prop :=
  match v with c :: _ => is_space c = false | [] => True end /\
  match last v with Some c => is_space c = false | None => True end.
Definition plain_value (v : text) : Prop := (ch "<" ∉ v) /\ (ch "&" ∉ v) /\ trimmed v.

Definition close_tag : mstate -> option mstate := match_re (rseq [spaces; lit "</argument>"]) Some.

Lemma close_tag_there s b : rest s = $"</argument>" ++ b -> close_tag s = Some (advance 11 s).
Proof.
  intros Hr. unfold close_tag. cbn [rseq fold_right match_re]. unfold spaces. rewrite match_many, Hr.
  cbn [app]. change (is_space (Z.of_nat (nat_of_ascii "<"))) with false. unfold lit.
  by rewrite (match_lit _ _ _ b).
Qed.

(** No closing tag is found inside a value. *)
Lemma close_tag_fails w s b :
  w <> [] -> ch "<" ∉ w -> match last w with Some c => is_space c = false | None => True end ->
  rest s = w ++ b -> close_tag s = None.
Proof.
  unfold close_tag. cbn [rseq fold_right match_re]. unfold spaces, lit.
  revert s. induction w as [|c w IH]; intros s Hne Hlt Hl Hr; [done|]. rewrite match_many, Hr. cbn [app].
  apply not_elem_of_cons in Hlt as [Hc Hlt].
  assert (forall k, match_re (lit_text false ($"</argument>")) k s = None) as Hlit.
  { intros k. apply match_lit_fails. rewrite Hr. intros ->. by apply Hc. }
  destruct (is_space c) eqn:Es; [|apply Hlit].
  destruct w as [|d w]; [cbn in Hl; congruence|].
  rewrite (IH (advance 1 s)); [apply Hlit|done|done|done|]. by apply (advance_rest 1 s [c]).
Qed.

Lemma lazy_value (K : mstate -> option mstate) w s b :
  (forall s w b, w <> [] -> ch "<" ∉ w -> match last w with Some c => is_space c = false | None => True end ->
     rest s = w ++ b -> K s = None) ->
  (forall s b, rest s = $"</argument>" ++ b -> K s <> None) ->
  ch "<" ∉ w -> match last w with Some c => is_space c = false | None => True end ->
  rest s = w ++ $"</argument>" ++ b ->
  match_re (RStar false (RChar (fun _ => true))) K s = K (advance (length w) s).
Proof.
  intros HK1 HK2. revert s. induction w as [|c w IH]; intros s Hlt Hl Hr; rewrite match_lazy; cbn [length].
  - rewrite advance_0. specialize (HK2 s b Hr). by destruct (K s).
  - rewrite (HK1 s (c :: w) ($"</argument>" ++ b)) by done.
    rewrite Hr. cbn [app]. apply not_elem_of_cons in Hlt as [_ Hlt]. rewrite IH.
    + by rewrite advance_advance.
    + done.
    + destruct w; [done|exact Hl].
    + by apply (advance_rest 1 s [c]).
Qed.

Lemma spaces_none k s : match rest s with c :: _ => is_space c = false | [] => True end -> match_re spaces k s = k s.
Proof. intros H. unfold spaces. rewrite match_many. destruct (rest s) as [|c r]; [done|]. by rewrite H. Qed.

(** The pattern matches one element and captures its value. *)
Lemma match_argument v before b :
  plain_value v ->
  exists m, match_re ARGUMENT_RE Some (start_at before (argument v ++ b)) = Some m /\
    rest m = b /\ group_of m 1 = Some v.
Proof.
  intros (Hlt & _ & Hfirst & Hlast). unfold ARGUMENT_RE, argument. cbn [rseq fold_right].
  set (s0 := start_at before _).
  assert (rest s0 = $"<argument>" ++ v ++ $"</argument>" ++ b) as Hr0 by (unfold s0; cbn [rest start_at]; by rewrite <- !app_assoc).
  rewrite match_seq. unfold lit at 1. rewrite (match_lit _ _ _ _ Hr0).
  set (s1 := advance _ s0). assert (rest s1 = v ++ $"</argument>" ++ b) as Hr1 by (by eapply advance_rest).
  rewrite match_seq, spaces_none.
  2: { rewrite Hr1. destruct v; [by vm_compute|done]. }
  rewrite match_seq, match_group. rewrite (lazy_value _ v s1 b); [| | |done|done|done].
  - set (s2 := advance (length v) s1). assert (rest s2 = $"</argument>" ++ b) as Hr2 by (by eapply advance_rest).
    set (s3 := capture 1 s1 s2).
    change (exists m, close_tag s3 = Some m /\ rest m = b /\ group_of m 1 = Some v).
    rewrite (close_tag_there s3 b) by done. eexists. split_and!; [done| |].
    + by apply (advance_rest 11 s3 ($"</argument>")).
    + change (Some (take (length (rest s1) - length (rest s2)) (rest s1)) = Some v). rewrite Hr1, Hr2.
      rewrite length_app, Nat.add_sub. by rewrite take_app_length.
  - intros s w b' Hw1 Hw2 Hw3 Hw4. by apply (close_tag_fails w (capture 1 s1 s) b').
  - intros s b' Hb'. change (close_tag (capture 1 s1 s) <> None). by rewrite (close_tag_there _ b').
Qed.

(** The scan over a whole document of such elements. *)
Lemma findall_skip r n x before s :
  exists before', re_findall_go r n (length x) before (x ++ s) = re_findall_go r n 0 before' s.
Proof.
  revert before. induction x as [|c x IH]; intros before; [by exists before|]. cbn [length app re_findall_go]. apply IH.
Qed.

Lemma findall_arguments vs before :
  Forall plain_value vs -> re_findall_go ARGUMENT_RE 1 0 before (List.concat (map argument vs)) = vs.
Proof.
  intros Hvs. revert before. induction Hvs as [|v vs Hv Hvs IH]; intros before; [done|]. cbn [map List.concat].
  set (doc := List.concat (map argument vs)) in *.
  destruct (match_argument v before doc Hv) as (m & Hm & Hrest & Hg).
  assert (exists t, argument v = ch "<" :: t) as [t Ht] by (by eexists).
  rewrite Ht in Hm |- *. cbn [app re_findall_go]. cbn [app] in Hm. rewrite Hm, Hg, Hrest. cbn [default]. f_equal.
  replace (length (ch "<" :: t ++ doc) - length doc - 1)%nat with (length t) by (cbn; rewrite length_app; lia).
  destruct (findall_skip ARGUMENT_RE 1 t (ch "<" :: before) doc) as [before' ->]. apply IH.
Qed.

Lemma replace_absent c old new s : c ∉ s -> replace (c :: old) new s = s.
Proof.
  intros Hn. unfold replace. induction s as [|d s IH]; cbn; [done|]. apply not_elem_of_cons in Hn as [Hd Hn].
  replace (c =? d) with false by (symmetry; by apply Z.eqb_neq). cbn. by rewrite IH.
Qed.

Lemma unescape_plain v : plain_value v -> unescape_entities v = v.
Proof.
  intros (_ & Ha & _). unfold unescape_entities.
  assert (forall e new, replace (ch "&" :: e) new v = v) as H by (intros; by apply replace_absent).
  rewrite (H ($"amp;")), (H ($"lt;")), (H ($"gt;")), (H ($"quot;")), (H ($"apos;")). done.
Qed.

(** The document for a list of named arguments. *)
Definition jnlp_document (pairs : list (text * text)) : text :=
  List.concat (map argument (List.concat (map (fun p => [ch "-" :: fst p; snd p]) pairs))).
Definition pair_ok (p : text * text) : Prop := plain_value (ch "-" :: fst p) /\ plain_value (snd p).

Lemma pair_arguments_pairs pairs acc :
  pair_arguments (List.concat (map (fun p => [ch "-" :: fst p; snd p]) pairs)) acc
  = foldl (fun d p => assoc_set d (lower (fst p)) (snd p)) acc pairs.
Proof. revert acc. induction pairs as [|[n v] pairs IH]; intros acc; [done|]. cbn. rewrite drop_0. apply IH. Qed.

Lemma pairs_plain pairs :
  Forall pair_ok pairs -> Forall plain_value (List.concat (map (fun p => [ch "-" :: fst p; snd p]) pairs)).
Proof. induction 1 as [|p pairs [H1 H2] Hps IH]; cbn; [constructor|]. constructor; [done|]. by constructor. Qed.
End Jnlp.

(** ** Properties *)

(** C33: The retry policy.  While the controller takes requests and answers
    nothing, the same request is sent again, with a growing pause, until
    something else happens: that outcome is the result, after one attempt
    more than the busy ones; when the retries are used up the call fails as
    busy and indeterminate.  No other failure is ever retried. *)
Theorem retries_bounded cfg method url op data params bs net a :
  Forall (fun o => is_busy o = true) bs ->
  let q := mkHttp method url data params (headers url a) in
  (forall o, is_busy o = false -> a_net a = bs ++ o :: net -> blen bs <= max_retries cfg ->
     send_with_retry cfg method url op data params a
     = (settle cfg method url op o a, after_attempts cfg q net (S (length bs)) 0 (length bs) a)) /\
  (a_net a = bs ++ net -> blen bs = max_retries cfg + 1 ->
     exists e a', send_with_retry cfg method url op data params a = (Raise (Ikvm e), a') /\
       error_class e = BMC_BUSY /\ indeterminate e = true /\
       a_sent a' = a_sent a ++ replicate (length bs) q /\ a_net a' = net).
Proof.
  intros Hbs q. unfold send_with_retry, blen in *. split.
  - intros o Ho Hn Hlen. apply retry_loop_settles; [done|done|lia|done].
  - intros Hn Hlen. assert (0 <= max_retries cfg) by (unfold max_retries; lia).
    destruct (retry_loop_busy cfg bs net (Z.to_nat (max_retries cfg)) 0 method url op data params a) as (e & He & H1 & H2);
      [done|lia|done|].
    exists e. eexists. split_and!; [exact He|done|done| |done]. unfold after_attempts. cbn [a_sent].
    by replace (S (Z.to_nat (max_retries cfg))) with (length bs) by lia.
Qed.

(** A login is believed only on a genuine cookie.  Success means the
    controller issued a non-empty session cookie that is no failure marker,
    and the client now holds exactly it; in every other case (a rejected
    login is also answered with status 200) the session is as it was.  The
    login request goes to the session page alone and never carries the
    anti-forgery token. *)
Theorem login_sound cfg a :
  let '(r, a') := login cfg a in
  match r with
  | Ret c => a_cookie a' = Some c /\ c <> [] /\ looks_like_failed_login c = false
  | _ => a_cookie a' = a_cookie a /\ a_csrf a' = a_csrf a
  end /\
  exists q n, a_sent a' = a_sent a ++ replicate n q /\
    hq_url q = base_url cfg ++ $"/rpc/WEBSES/create.asp" /\ assoc_get (hq_headers q) ($"CSRFTOKEN") = None.
Proof.
  unfold login, io_bind at 1. set (path := $"/rpc/WEBSES/create.asp"). set (data := [_; _]).
  destruct (request_frame cfg ($"POST") path ($"login") data a) as (H1 & H2 & n & H3).
  assert (assoc_get (headers (base_url cfg ++ path) a) ($"CSRFTOKEN") = None) as Hh.
  { unfold headers. replace (contains ($"WEBSES") (base_url cfg ++ path)) with true.
    - destruct (some_given (a_cookie a)) as [|c [|]], (some_given (a_csrf a)) as [|t [|]]; done.
    - symmetry. apply contains_spec. exists (base_url cfg ++ $"/rpc/"), ($"/create.asp"). by rewrite <- app_assoc. }
  destruct (asp_request cfg _ path _ data a) as [[body|e|] a1]; cbn [snd] in *;
    [|split; [done|by do 2 eexists]|split; [done|by do 2 eexists]].
  destruct (field SESSION_COOKIE_RE body) as [c|]; [|split; [done|by do 2 eexists]].
  destruct (bool_decide (c = []) || looks_like_failed_login c) eqn:E; [split; [done|by do 2 eexists]|].
  apply orb_false_iff in E as [E1 E2]. apply bool_decide_eq_false in E1. cbn.
  split; [done|]. by do 2 eexists.
Qed.

(** C34: A write is reported done only when the controller says so.  The one
    request sent, some number of times, is the POST of the caller's data to
    the page; success means that a body the controller answered was no
    session-expired page, parsed completely, and has status zero; a parsed
    answer with another status is an error of class [remote_operation] that
    carries it. *)
Theorem write_confirmed cfg le endpoint data op a :
  let op' := op_or op ($"set_webvar:" ++ endpoint) in
  let url := base_url cfg ++ webvar_path endpoint in
  let parsed body r := looks_like_session_expired_html body = false /\
                       parse_webvar le body (Some endpoint) (Some op') = Ok r in
  sends_only (mkHttp ($"POST") url data [] (headers url a)) a (set_webvar cfg le endpoint data op a).2 /\
  (forall r a', set_webvar cfg le endpoint data op a = (Ret r, a') ->
     hapi_status r = 0 /\ exists body, HResponse body ∈ a_net a /\ parsed body r) /\
  (forall body r a', asp_request cfg ($"POST") (webvar_path endpoint) op' data a = (Ret body, a') ->
     parsed body r -> hapi_status r <> 0 ->
     exists e, set_webvar cfg le endpoint data op a = (Raise (Ikvm e), a') /\
       error_class e = REMOTE_OPERATION /\ return_value e = Some (hapi_status r)).
Proof.
  cbn zeta. unfold set_webvar. split_and!.
  - apply sends_only_bind; [apply fetch_frame|]. intros r a1. by destruct (negb _).
  - intros r a' (r1 & a1 & H1 & H2)%io_bind_inv. destruct (hapi_status r1 =? 0) eqn:E; [|done].
    injection H2 as -> ->. bool_to_prop. split; [done|]. by apply fetch_parsed in H1.
  - intros body r a' Hq [Hx Hp] Hs. unfold fetch_webvar, io_bind, raise_if_session_expired. rewrite Hq, Hx, Hp. cbn.
    apply Z.eqb_neq in Hs. rewrite Hs. by eexists.
Qed.

(** Failures of the web client are classified.  As long as the HTTP
    library raises only the failures the client names, every WEBVAR call
    returns or raises an error of the collection. *)
Theorem client_faults_classified cfg le method endpoint op data a e a' :
  net_classified a -> fetch_webvar cfg le method endpoint op data a = (Raise e, a') -> classified e.
Proof. intros Ha He. pose proof (client_fetch cfg le method endpoint op data a Ha) as H. by rewrite He in H. Qed.


(** The JNLP scan reads back what a document says: for any list of named
    arguments whose values carry no markup and no outer white space, the
    parsed mapping holds every name in lower case with its last value, in
    order of first appearance, and nothing else. *)
Theorem jnlp_roundtrip pairs :
  Forall pair_ok pairs ->
  parse_jnlp_arguments (jnlp_document pairs)
  = foldl (fun d p => assoc_set d (lower (fst p)) (snd p)) [] pairs.
Proof.
  intros Hp. pose proof (pairs_plain pairs Hp) as Hv. unfold parse_jnlp_arguments, jnlp_document, re_findall.
  rewrite findall_arguments by done. rewrite <- pair_arguments_pairs. f_equal.
  induction Hv as [|v vs Hv Hvs IH]; cbn [map]; [done|]. by rewrite unescape_plain, IH.
Qed.

(** An escaped ampersand is decoded twice: the document text of the token
    [a&lt;b] yields [a<b]. *)
Theorem jnlp_entities_decoded_twice :
  parse_jnlp_arguments ($"<argument>-kvmtoken</argument><argument>a&amp;lt;b</argument>") = [($"kvmtoken", $"a<b")].
Proof. by vm_compute. Qed.

(** A fingerprint of 63 digits, a newline and a colon is accepted. *)
Theorem fingerprint_with_newline :
  normalize_fingerprint (replicate 63 (ch "a") ++ [10; ch ":"]) = Ok (replicate 63 (ch "a") ++ [10]).
Proof. by vm_compute. Qed.

(** ** The properties at concrete clients *)

Definition demo_asp_cfg : AspConfig :=
  {| ac_host := $"bmc"; ac_port := 443; ac_username := $"admin"; ac_password := $"pw";
     ac_use_tls := true; ac_max_retries := 2; ac_retry_backoff := 1000 |}.
Definition demo_body : text :=
  $"WEBVAR_JSONVAR_GETLOG = { WEBVAR_STRUCTNAME_GETLOG : " ++ sample_array ++ $", HAPI_STATUS:0 };".
Definition demo_client (net : list http_outcome) : asp := mkAsp (Some ($"c00kie")) (Some ($"t")) net [] [].

Lemma retries_bounded_witness :
  send_with_retry demo_asp_cfg ($"GET") ($"https://bmc:443/x") ($"x") [] []
    (demo_client [HReadTimeout; HReadTimeout; HResponse ($"hi")])
  = (Ret ($"hi"),
     after_attempts demo_asp_cfg
       (mkHttp ($"GET") ($"https://bmc:443/x") [] [] [($"Cookie", $"SessionCookie=c00kie"); ($"CSRFTOKEN", $"t")])
       [] 3 0 2 (demo_client [HReadTimeout; HReadTimeout; HResponse ($"hi")])).
Proof.
  refine (proj1 (retries_bounded demo_asp_cfg ($"GET") ($"https://bmc:443/x") ($"x") [] []
            [HReadTimeout; HReadTimeout] [] _ _) (HResponse ($"hi")) _ _ _).
  - by repeat constructor.
  - done.
  - done.
  - by vm_compute.
Defined.

Lemma write_confirmed_witness :
  exists r a', set_webvar demo_asp_cfg sample_eval ($"setntpcfg") [] None (demo_client [HResponse demo_body]) = (Ret r, a') /\
    hapi_status r = 0.
Proof.
  eexists _, _. split; [vm_compute; reflexivity|].
  refine (proj1 (proj1 (proj2 (write_confirmed demo_asp_cfg sample_eval ($"setntpcfg") [] None
                                 (demo_client [HResponse demo_body]))) _ _ _)).
  vm_compute. reflexivity.
Defined.

Lemma client_faults_classified_witness :
  exists e a', fetch_webvar demo_asp_cfg sample_eval ($"GET") ($"getlog") ($"x") [] (demo_client [HConnectTimeout]) = (Raise e, a') /\
    classified e.
Proof.
  eexists _, _. split; [vm_compute; reflexivity|].
  refine (client_faults_classified demo_asp_cfg sample_eval ($"GET") ($"getlog") ($"x") [] (demo_client [HConnectTimeout]) _ _ _ _).
  - intros e He. by apply list_elem_of_singleton in He.
  - vm_compute. reflexivity.
Defined.


Lemma jnlp_roundtrip_witness :
  parse_jnlp_arguments (jnlp_document [($"kvmPort", $"5900"); ($"kvmtoken", $"abc def")])
  = [($"kvmport", $"5900"); ($"kvmtoken", $"abc def")].
Proof.
  apply (jnlp_roundtrip [($"kvmPort", $"5900"); ($"kvmtoken", $"abc def")]).
  repeat (apply List.Forall_cons;
    [split; (split; [apply (bool_decide_unpack _); by vm_compute|split; [apply (bool_decide_unpack _); by vm_compute|done]])|]).
  apply List.Forall_nil.
Defined.
