(* ===== verification/AspLock.v ===== *)
(** * asp.AspClient shared by threads: one request on the wire at a time

    Every attempt of [_send_once] holds [self._lock] from before the request
    until its answer; [_send_with_retry] sleeps between attempts without it.
    Threads that share a client are interleaved freely here, at the points
    where they take the lock, get their answer (and release it), and wake
    up: the answer is the [send_once] of [Asp], what follows it is its retry
    loop.  The session does not change while they send. *)
From Stdlib Require Import ZArith Lia Ascii String.
From stdpp Require Import prelude relations.
From S2P Require Import Prelude PyBytes PyText Regex Errors PyValue Models Webvar Asp.

(** One call of [_send_with_retry]. *)
Record call : Type := mkCall {
  q_method : text;
  q_url : text;
  q_op : text;
  q_data : list (text * text);
  q_params : list (text * text);
}.

(** Where a call is: how many attempts have failed and how many retries are
    left. *)
Inductive place : Type :=
  | Wants (attempt : Z) (retries : nat)       (* at [with self._lock] *)
  | OnWire (attempt : Z) (retries : nat)      (* holds the lock, waits for its answer *)
  | Sleeps (attempt : Z) (retries : nat)      (* [time.sleep(backoff * attempt)] *)
  | Returned (o : outcome exn text).

Record system : Type := mkSystem {
  s_client : asp;
  s_lock : option nat;                        (* the thread that holds it *)
  s_threads : list place;
  s_answers : list (nat * http_outcome);      (* which thread got which answer, in order *)
}.

Section Lock.
Context (cfg : AspConfig) (calls : list call).

(** What a call does with its answer: the body, the error, a sleep, or the
    error for a controller that stays busy. *)
Definition busy_error (q : call) (attempt : Z) (a : asp) : outcome exn text :=
  (asp_raise (A := text) cfg BMC_BUSY
     (asp_endpoint cfg ++ $" accepted the connection but never served " ++ q_op q ++ $" (" ++ q_method q ++ $" " ++ q_url q
      ++ $") after " ++ dec attempt
      ++ $" attempt(s). This BMC's web server has a small per-listener worker pool that saturates under concurrent load; wait and retry later rather than immediately, and confirm nothing else is hitting this BMC concurrently.")
     (q_op q) None (known_secrets cfg a) true None a).1.
Definition after_answer (q : call) (attempt : Z) (retries : nat) (o : outcome exn (option text)) (a : asp) : place :=
  match o with
  | Ret (Some body) => Returned (Ret body)
  | Ret None =>
      match retries with
      | O => Returned (busy_error q (attempt + 1) a)
      | S retries => Sleeps (attempt + 1) retries
      end
  | Raise e => Returned (Raise e)
  | Blocked => Returned Blocked
  end.

Definition slept (ms : Z) (a : asp) : asp := mkAsp (a_cookie a) (a_csrf a) (a_net a) (a_sent a) (a_slept a ++ [ms]).

Inductive step : system -> system -> Prop :=
  | step_acquire c ts g i k r :
      ts !! i = Some (Wants k r) ->
      step (mkSystem c None ts g) (mkSystem c (Some i) (<[i := OnWire k r]> ts) g)
  | step_answer c ts g i k r q x net o c' :
      ts !! i = Some (OnWire k r) -> calls !! i = Some q -> a_net c = x :: net ->
      send_once cfg (q_method q) (q_url q) (q_op q) (q_data q) (q_params q) c = (o, c') ->
      step (mkSystem c (Some i) ts g) (mkSystem c' None (<[i := after_answer q k r o c']> ts) (g ++ [(i, x)]))
  | step_wake c l ts g i k r :
      ts !! i = Some (Sleeps k r) ->
      step (mkSystem c l ts g) (mkSystem (slept (ac_retry_backoff cfg * k) c) l (<[i := Wants k r]> ts) g).

Definition begin (a : asp) : system := mkSystem a None (map (fun _ => Wants 0 (Z.to_nat (max_retries cfg))) calls) [].

(** ** Lemmas *)

(** The answers of one thread. *)
Definition answers_of (i : nat) (g : list (nat * http_outcome)) : list http_outcome :=
  map snd (List.filter (fun p => Nat.eqb (fst p) i) g).

Lemma answers_app i g h : answers_of i (g ++ h) = answers_of i g ++ answers_of i h.
Proof. unfold answers_of. by rewrite List.filter_app, map_app. Qed.
Lemma answers_mine i x : answers_of i [(i, x)] = [x].
Proof. unfold answers_of. cbn. by rewrite Nat.eqb_refl. Qed.
Lemma answers_other i j x : j <> i -> answers_of i [(j, x)] = [].
Proof. intros H. unfold answers_of. cbn. apply Nat.eqb_neq in H. by rewrite H. Qed.

(** Clients with the same session and the same answers to come. *)
Definition alike (a b : asp) : Prop := a_cookie a = a_cookie b /\ a_csrf a = a_csrf b /\ a_net a = a_net b.

Lemma alike_send m u op d ps : respects alike (send_once cfg m u op d ps).
Proof.
  intros a b (H1 & H2 & H3). unfold send_once, known_secrets. rewrite <- H3. destruct (a_net a) as [|o net] eqn:En; [unfold alike; split_and!; cbn; congruence|].
  assert (headers u a = headers u b) as -> by (unfold headers; by rewrite H1, H2). unfold alike. rewrite H1, H2.
  destruct o as [| | | |chain|]; try by split. destruct (connection_error_is_post_connect chain); by split.
Qed.

Lemma alike_retry n k m u op d ps : respects alike (retry_loop cfg n k m u op d ps).
Proof.
  revert k. induction n as [|n IH]; intros k; cbn [retry_loop]; (apply respects_bind; [apply alike_send|]); intros [body|];
    try apply respects_ret.
  - intros a b (H1 & H2 & H3). unfold asp_raise, io_raise, known_secrets. rewrite H1, H2. by split.
  - apply respects_bind; [|intros _; apply IH]. apply respects_modify. intros a b (H1 & H2 & H3). by split.
Qed.

(** A client with this session and these answers. *)
Definition client_with (a : asp) (net : list http_outcome) : asp := mkAsp (a_cookie a) (a_csrf a) net [] [].

(** What the call would come to on its own, given the answers [net]. *)
Definition alone (q : call) (a : asp) (r : nat) (k : Z) (net : list http_outcome) : outcome exn text :=
  (retry_loop cfg r k (q_method q) (q_url q) (q_op q) (q_data q) (q_params q) (client_with a net)).1.

(** One answer on its own, and what it leaves to do. *)
Lemma alone_answer q a r k x net c o c' :
  alike a (client_with c (a_net a)) -> a_net c = x :: net ->
  send_once cfg (q_method q) (q_url q) (q_op q) (q_data q) (q_params q) c = (o, c') ->
  forall rest, match after_answer q k r o c' with
               | Returned out => alone q a r k (x :: rest) = out
               | Sleeps k' r' => alone q a r k (x :: rest) = alone q a r' k' rest
               | _ => False
               end.
Proof.
  intros (Hc & Ht & _) Hn Hs rest. cbn in Hc, Ht.
  assert (send_once cfg (q_method q) (q_url q) (q_op q) (q_data q) (q_params q) (client_with a (x :: rest))
          = (o, mkAsp (a_cookie c') (a_csrf c') rest [mkHttp (q_method q) (q_url q) (q_data q) (q_params q) (headers (q_url q) c)] [])) as Hs'.
  { unfold send_once in Hs |- *. rewrite Hn in Hs. cbn [client_with a_net a_cookie a_csrf a_sent a_slept].
    assert (headers (q_url q) (client_with a (x :: rest)) = headers (q_url q) c) as Hh by (unfold headers; cbn; by rewrite Hc, Ht).
    rewrite Hh. unfold asp_raise, io_raise, known_secrets in *. cbn [a_cookie a_csrf a_net] in *. rewrite Hc, Ht.
    destruct x as [| | | |chain|]; try (by injection Hs as <- <-). destruct (connection_error_is_post_connect chain); by injection Hs as <- <-. }
  destruct o as [[body|]|e|]; destruct r as [|r]; cbn [after_answer]; unfold alone at 1; cbn [retry_loop]; unfold io_bind at 1; rewrite Hs'; try done.
  unfold io_bind, io_modify. unfold alone.
    apply (alike_retry r (k + 1) (q_method q) (q_url q) (q_op q) (q_data q) (q_params q)).
    assert (a_cookie c' = a_cookie c /\ a_csrf c' = a_csrf c) as [E1 E2].
    { unfold send_once in Hs. rewrite Hn in Hs. unfold asp_raise, io_raise in Hs.
      repeat case_match; simplify_eq; done. }
    split_and!; cbn; congruence.
Qed.

(** ** The invariant *)
Section Invariant.
Context (a : asp).
Local Abbreviation allowed := (Z.to_nat (max_retries cfg)).

Definition request_of (i : nat) : list http_request :=
  match calls !! i with
  | Some q => [mkHttp (q_method q) (q_url q) (q_data q) (q_params q) (headers (q_url q) a)]
  | None => []
  end.

(** What a call has come to so far is what it would have come to alone with
    the answers it got. *)
Definition on_track (q : call) (mine : list http_outcome) (t : place) : Prop :=
  match t with
  | Wants k r | OnWire k r | Sleeps k r =>
      (length mine + r = allowed)%nat /\ forall rest, alone q a allowed 0 (mine ++ rest) = alone q a r k rest
  | Returned o => (length mine <= S allowed)%nat /\ forall rest, alone q a allowed 0 (mine ++ rest) = o
  end.

Record inv (s : system) : Prop := {
  i_threads : length (s_threads s) = length calls;
  i_cookie : a_cookie (s_client s) = a_cookie a;
  i_csrf : a_csrf (s_client s) = a_csrf a;
  i_lock : forall i, s_lock s = Some i <-> exists k r, s_threads s !! i = Some (OnWire k r);
  i_track : forall i q t, calls !! i = Some q -> s_threads s !! i = Some t -> on_track q (answers_of i (s_answers s)) t;
  i_net : map snd (s_answers s) ++ a_net (s_client s) = a_net a;
  i_sent : a_sent (s_client s) = a_sent a ++ concat (map (fun p => request_of (fst p)) (s_answers s));
}.

Lemma inv_begin : inv (begin a).
Proof.
  split; cbn; try done.
  - apply length_map.
  - intros i. split; [done|]. intros (k & r & H). apply list_lookup_fmap_Some in H as (q & H & _). done.
  - intros i q t Hq Ht. apply list_lookup_fmap_Some in Ht as (q' & -> & _). by split.
  - by rewrite app_nil_r.
Qed.

(** What an attempt leaves of the client. *)
Lemma send_client q c o c' x net :
  a_net c = x :: net -> send_once cfg (q_method q) (q_url q) (q_op q) (q_data q) (q_params q) c = (o, c') ->
  c' = push_sent (mkHttp (q_method q) (q_url q) (q_data q) (q_params q) (headers (q_url q) c)) net c.
Proof.
  intros Hn Hs. unfold send_once, asp_raise, io_raise in Hs. rewrite Hn in Hs. unfold push_sent. repeat case_match; by simplify_eq.
Qed.

Lemma lock_move (ts : list place) i t l :
  (i < length ts)%nat -> (forall j, l = Some j <-> exists k r, ts !! j = Some (OnWire k r)) ->
  forall l', (forall j, j <> i -> l' = Some j <-> l = Some j) -> (l' = Some i <-> exists k r, t = OnWire k r) ->
  forall j, l' = Some j <-> exists k r, <[i := t]> ts !! j = Some (OnWire k r).
Proof.
  intros Hi Hl l' Hne He j. destruct (decide (j = i)) as [->|Hj].
  - rewrite list_lookup_insert_eq by done. rewrite He. split; intros (k & r & H); exists k, r; congruence.
  - rewrite list_lookup_insert_ne by done. rewrite (Hne j Hj). apply Hl.
Qed.

Lemma track_move ts i t g g' :
  (i < length ts)%nat ->
  (forall j q u, calls !! j = Some q -> ts !! j = Some u -> on_track q (answers_of j g) u) ->
  (forall j, j <> i -> answers_of j g' = answers_of j g) ->
  (forall q, calls !! i = Some q -> on_track q (answers_of i g') t) ->
  forall j q u, calls !! j = Some q -> <[i := t]> ts !! j = Some u -> on_track q (answers_of j g') u.
Proof.
  intros Hi Ht Hg Hme j q u Hq Hu. destruct (decide (j = i)) as [->|Hj].
  - rewrite list_lookup_insert_eq in Hu by done. injection Hu as <-. by apply Hme.
  - rewrite list_lookup_insert_ne in Hu by done. rewrite Hg by done. by apply Ht.
Qed.

Lemma lock_inv_step s s' : inv s -> step s s' -> inv s'.
Proof.
  intros [Hlen Hck Hcs Hlk Htr Hnet Hsent] Hst.
  destruct Hst as [c ts g i k r Hi|c ts g i k r q x net o c' Hi Hq Hn Hs|c l ts g i k r Hi]; cbn [s_client s_lock s_threads s_answers] in *;
    pose proof (lookup_lt_Some _ _ _ Hi) as Hlt.
  - split; cbn [s_client s_lock s_threads s_answers]; try done; [by rewrite length_insert| |].
    + apply (lock_move ts i _ None Hlt Hlk); [intros j Hj; split; congruence|]. split; [by intros _; eexists _, _|done].
    + eapply track_move; [done|exact Htr|done|]. intros q Hq. exact (Htr i q _ Hq Hi).
  - pose proof (send_client q c o c' x net Hn Hs) as Hc'.
    split; cbn [s_client s_lock s_threads s_answers].
    + by rewrite length_insert.
    + by rewrite Hc'.
    + by rewrite Hc'.
    + apply (lock_move ts i _ (Some i) Hlt Hlk); [intros j Hj; split; congruence|]. split; [done|]. intros (k' & r' & H).
      unfold after_answer in H. repeat case_match; done.
    + eapply track_move; [done|exact Htr| |].
      * intros j Hj. rewrite answers_app, answers_other by done. apply app_nil_r.
      * intros q' Hq'. rewrite Hq in Hq'. injection Hq' as <-. rewrite answers_app, answers_mine.
        destruct (Htr i q _ Hq Hi) as [Hlen' Hal].
        pose proof (alone_answer q a r k x net c o c' ltac:(by split_and!) Hn Hs) as Ha.
        unfold on_track. rewrite length_app. cbn [length].
        assert (match after_answer q k r o c' with Sleeps _ r' => r = S r' | _ => True end) as Hr
          by (unfold after_answer; repeat case_match; by simplify_eq).
        destruct (after_answer q k r o c') as [k' r'|k' r'|k' r'|out]; try by destruct (Ha []).
        -- split; [lia|]. intros rest. rewrite <- app_assoc. cbn [app]. rewrite Hal. apply Ha.
        -- split; [lia|]. intros rest. rewrite <- app_assoc. cbn [app]. rewrite Hal. apply Ha.
    + rewrite map_app, <- app_assoc, Hc'. cbn. by rewrite <- Hn.
    + rewrite map_app, concat_app, app_assoc, <- Hsent, Hc'. cbn. unfold request_of. rewrite Hq. cbn. unfold headers. by rewrite Hck, Hcs.
  - split; cbn [s_client s_lock s_threads s_answers]; try done; [by rewrite length_insert| |].
    + apply (lock_move ts i _ l Hlt Hlk); [done|]. split; [|by intros (? & ? & ?)]. intros Hl. apply Hlk in Hl as (? & ? & Hl). congruence.
    + eapply track_move; [done|exact Htr|done|]. intros q Hq. exact (Htr i q _ Hq Hi).
Qed.

Lemma lock_reachable_inv s : rtc step (begin a) s -> inv s.
Proof.
  intros H. remember (begin a) as s0 eqn:E. assert (inv s0) as Hi by (rewrite E; apply inv_begin). clear E.
  induction H as [|x y z Hxy _ IH]; [done|]. apply IH. by eapply lock_inv_step.
Qed.

(** ** Progress *)

Definition is_returned (t : place) : bool := match t with Returned _ => true | _ => false end.

Lemma can_move s : inv s -> a_net (s_client s) <> [] -> (exists i t, s_threads s !! i = Some t /\ is_returned t = false) -> exists s', step s s'.
Proof.
  intros Hinv Hn (i & t & Hi & Ht). destruct s as [c l ts g]. cbn in *.
  destruct l as [j|].
  - destruct (proj1 (i_lock _ Hinv j) eq_refl) as (k & r & Hj). cbn in Hj.
    assert (j < length calls)%nat as Hlt.
    { pose proof (i_threads _ Hinv) as Hl. cbn in Hl. rewrite <- Hl. by eapply lookup_lt_Some. }
    destruct (lookup_lt_is_Some_2 calls j Hlt) as [q Hq]. destruct (a_net c) as [|x net] eqn:En; [done|].
    destruct (send_once cfg (q_method q) (q_url q) (q_op q) (q_data q) (q_params q) c) as [o c'] eqn:Es.
    eexists. by eapply step_answer.
  - destruct t as [k r|k r|k r|o]; [| | |done].
    + eexists. by eapply step_acquire.
    + assert (None = Some i) as Hbad by (apply (i_lock _ Hinv i); by exists k, r). done.
    + eexists. by eapply step_wake.
Qed.

Definition work (t : place) : nat :=
  match t with Wants _ r => 3 * r + 2 | OnWire _ r => 3 * r + 1 | Sleeps _ r => 3 * r + 3 | Returned _ => 0 end.
Definition total (s : system) : nat := sum_list_with work (s_threads s).

Lemma step_works s s' : step s s' -> (total s' < total s)%nat.
Proof.
  intros Hst. destruct Hst as [c ts g i k r Hi|c ts g i k r q x net o c' Hi Hq Hn Hs|c l ts g i k r Hi]; unfold total; cbn [s_threads];
    match goal with |- context [<[i := ?u]> ts] => pose proof (sum_with_insert work ts i _ u Hi) as Hw end; cbn [work] in Hw; try lia.
  unfold after_answer in Hw |- *. destruct o as [[body|]|e|], r as [|r]; cbn [work] in Hw |- *; lia.
Qed.
End Invariant.
End Lock.

(** ** The property *)

(** C14: Threads that share a client take turns on the wire.  However the
    threads are scheduled: no two have a request on the wire at once, and a
    thread that sleeps before a retry does not hold the lock; as long as the
    controller answers, some thread that has not returned can go on, and
    every step uses up some of a bounded amount of work, so they all return;
    the requests sent are, in the order of the answers, exactly those of the
    threads that got them, none more than the allowed number of times; and a
    thread's result is what the retry loop gives it when it runs alone with
    the answers it got. *)
Theorem requests_take_turns (cfg : AspConfig) (calls : list call) (a : asp) (s : system) :
  rtc (step cfg calls) (begin cfg calls a) s ->
  (forall i j k r k' r', s_threads s !! i = Some (OnWire k r) -> s_threads s !! j = Some (OnWire k' r') -> i = j) /\
  (forall i k r, s_threads s !! i = Some (Sleeps k r) -> s_lock s <> Some i) /\
  (a_net (s_client s) <> [] -> (exists i t, s_threads s !! i = Some t /\ is_returned t = false) -> exists s', step cfg calls s s') /\
  (forall s', step cfg calls s s' -> (total s' < total s)%nat) /\
  a_sent (s_client s) = a_sent a ++ concat (map (fun p => request_of calls a (fst p)) (s_answers s)) /\
  (forall i q o, calls !! i = Some q -> s_threads s !! i = Some (Returned o) ->
     let mine := answers_of i (s_answers s) in
     (length mine <= S (Z.to_nat (max_retries cfg)))%nat /\
     o = (send_with_retry cfg (q_method q) (q_url q) (q_op q) (q_data q) (q_params q) (client_with a mine)).1).
Proof.
  intros Hr. pose proof (lock_reachable_inv cfg calls a s Hr) as Hi. split_and!.
  - intros i j k r k' r' H1 H2. assert (s_lock s = Some i) as E1 by (apply (i_lock _ _ _ _ Hi); by exists k, r).
    assert (s_lock s = Some j) as E2 by (apply (i_lock _ _ _ _ Hi); by exists k', r'). congruence.
  - intros i k r H Hl. apply (i_lock _ _ _ _ Hi) in Hl as (k' & r' & Hl). congruence.
  - by apply (can_move cfg calls a).
  - apply step_works.
  - apply (i_sent _ _ _ _ Hi).
  - intros i q o Hq Ho mine. destruct (i_track _ _ _ _ Hi i q _ Hq Ho) as [H1 H2]. split; [exact H1|].
    specialize (H2 []). by rewrite app_nil_r in H2.
Qed.

(** Two threads: the first is told to wait, the second is served in between. *)
Definition demo_calls : list call := [mkCall ($"GET") ($"/a") ($"a") [] []; mkCall ($"GET") ($"/b") ($"b") [] []].
Definition demo_shared : asp := demo_client [HReadTimeout; HResponse ($"B"); HResponse ($"A")].

Lemma requests_take_turns_witness :
  exists s, rtc (step demo_asp_cfg demo_calls) (begin demo_asp_cfg demo_calls demo_shared) s /\
    s_threads s = [Returned (Ret ($"A")); Returned (Ret ($"B"))] /\
    answers_of 0 (s_answers s) = [HReadTimeout; HResponse ($"A")] /\
    Ret ($"A") = (send_with_retry demo_asp_cfg ($"GET") ($"/a") ($"a") [] [] (client_with demo_shared [HReadTimeout; HResponse ($"A")])).1.
Proof.
  eassert (rtc (step demo_asp_cfg demo_calls) (begin demo_asp_cfg demo_calls demo_shared) _) as Hr.
  { eapply rtc_l; [apply (step_acquire _ _ _ _ _ 0); reflexivity|]. cbn.
    eapply rtc_l; [eapply (step_answer _ _ _ _ _ 0); reflexivity|]. cbn.
    eapply rtc_l; [apply (step_acquire _ _ _ _ _ 1); reflexivity|]. cbn.
    eapply rtc_l; [apply (step_wake _ _ _ _ _ _ 0); reflexivity|]. cbn.
    eapply rtc_l; [eapply (step_answer _ _ _ _ _ 1); reflexivity|]. cbn.
    eapply rtc_l; [apply (step_acquire _ _ _ _ _ 0); reflexivity|]. cbn.
    eapply rtc_l; [eapply (step_answer _ _ _ _ _ 0); reflexivity|]. cbn. apply rtc_refl. }
  eexists. split; [exact Hr|]. split; [reflexivity|]. split; [reflexivity|].
  exact (proj2 (proj2 (proj2 (proj2 (proj2 (proj2 (requests_take_turns _ _ _ _ Hr))))) 0%nat _ _ eq_refl eq_refl)).
Defined.
