(* ===== verification/Ansible.v ===== *)
(** * The frame of an Ansible module

    What the modules under plugins/modules share: argument specifications,
    connection parameters, how a run ends, the conversion of a classified
    error into a failure result, and the construction of the web client.
    [AnsibleModule] itself is outside: a module is a function of its
    validated parameters, of check mode, and of whether its library could be
    imported. *)
From Stdlib Require Import ZArith Lia Ascii String.
From stdpp Require Import prelude.
From S2P Require Import Prelude PyBytes PyText Regex Errors Models PyValue Webvar Asp.

(** ** Argument specifications *)

Inductive arg_type : Type := TStr | TInt | TBool | TPath | TFloat | TList (elements : arg_type).

Record arg_spec : Type := mkArg {
  as_type : arg_type;
  as_required : bool;
  as_default : pyval;
  as_no_log : bool;
  as_choices : list text;       (* empty: any value *)
}.

Definition arg_opt (t : arg_type) : arg_spec := mkArg t false PNone false [].
Definition arg_req (t : arg_type) : arg_spec := mkArg t true PNone false [].
Definition arg_def (t : arg_type) (v : pyval) : arg_spec := mkArg t false v false [].
Definition arg_choice (choices : list text) : arg_spec := mkArg TStr true PNone false choices.
Definition arg_choice_def (choices : list text) (v : pyval) : arg_spec := mkArg TStr false v false choices.
Definition arg_secret (required : bool) : arg_spec := mkArg TStr required PNone true [].

Abbreviation argspec := (list (text * arg_spec)).

Definition DEFAULT_IPMI_PORT : Z := 623.

(** The connection parameters of a run. *)
Record Connection : Type := {
  c_host : text;
  c_port : Z;
  c_username : text;
  c_password : text;
  c_use_tls : bool;
  c_allow_insecure : bool;
  c_validate_certs : bool;
  c_ca_path : option text;
  c_tls_fingerprint : option text;
  c_ipmi_port : Z;
}.

Definition host_port (host : text) (port : Z) : text := host ++ $":" ++ dec port.

(** ** How a run ends *)

Inductive module_result : Type :=
  | ExitJson (fields : list (text * pyval))
  | FailJson (fields : list (text * pyval)).

Definition result_pyval (v : result_value) : pyval :=
  match v with
  | VText t => PStr t
  | VInt z => PInt z
  | VBool b => PBool b
  end.

(** [module.fail_json] with the fields of [err.to_result()] *)
Definition fail_ikvm (err : IkvmError) : module_result :=
  FailJson (map (fun p => (fst p, result_pyval (snd p))) (to_result err)).
Definition fail_msg (msg : text) : module_result := FailJson [($"msg", PStr msg)].

(** The library a module needs: [None] when it was imported, otherwise the
    message of [missing_required_lib] and that of the import error. *)
Definition library : Type := option (text * text).
Definition with_library {W} (lib : library) (c : io W exn module_result) : io W exn module_result :=
  match lib with
  | None => c
  | Some (msg, import_error) => io_ret (FailJson [($"msg", PStr msg); ($"exception", PStr import_error)])
  end.

(** [try: c except IkvmError as err: fail_json], and the rest of the module *)
Definition try_ikvm {W A} (c : io W exn A) (k : A -> io W exn module_result) : io W exn module_result := fun w =>
  match c w with
  | (Ret a, w') => k a w'
  | (Raise (Ikvm err), w') => (Ret (fail_ikvm err), w')
  | (Raise e, w') => (Raise e, w')
  | (Blocked, w') => (Blocked, w')
  end.

(** A receipt rendered into its document. *)
Definition receipt (action endpoint : text) (changed : bool) (previous desired observed : pyval) : pyval :=
  to_dict {| rc_action := action; rc_endpoint := endpoint; rc_changed := changed; rc_previous := previous;
             rc_desired := desired; rc_observed := observed; rc_error_class := None; rc_extra := [] |}.
Definition receipt_extra (action endpoint : text) (changed : bool) (extra : list (text * pyval)) : pyval :=
  to_dict {| rc_action := action; rc_endpoint := endpoint; rc_changed := changed; rc_previous := PNone;
             rc_desired := PNone; rc_observed := PNone; rc_error_class := None; rc_extra := extra |}.

(** ** [build_asp_client] *)

(** The retry policy is the client's default: two retries, one second. *)
Definition asp_config (p : Connection) : AspConfig :=
  {| ac_host := c_host p; ac_port := c_port p; ac_username := c_username p; ac_password := c_password p;
     ac_use_tls := c_use_tls p; ac_max_retries := 2; ac_retry_backoff := 1000 |}.

(** The world of a module that talks to the web pages is the client's, the
    outcomes to come included; making the client starts a session. *)
Definition build_asp_client (p : Connection) : io asp exn AspConfig := fun a =>
  match AspClient_init (asp_config p) (c_allow_insecure p) (c_validate_certs p) (c_ca_path p) (c_tls_fingerprint p) (a_net a) with
  | Ok (_, _, fresh) => (Ret (asp_config p), mkAsp (a_cookie fresh) (a_csrf fresh) (a_net a) (a_sent a) (a_slept a))
  | Err e => (Raise e, a)
  end.

(** One page read, the records as dictionaries. *)
Definition records_of (r : WebVarResponse) : list pydict := map as_dict (records r).
Definition read_records (le : text -> option pyval) (cfg : AspConfig) (endpoint : text) (operation : option text)
    : io asp exn (list pydict) :=
  do r <- get_webvar cfg le endpoint operation; io_ret (records_of r).
Definition post_records (le : text -> option pyval) (cfg : AspConfig) (endpoint : text) (data : list (text * text))
    : io asp exn (list pydict) :=
  do r <- post_webvar cfg le endpoint data None; io_ret (records_of r).

(** ** Invariants

    [preserves I c]: [c] leads from [I] to [I] however it ends, and what it
    returned from such a state is known to the rest. *)
Section Invariants.
Context {S E : Type} (I : S -> Prop).

Definition preserves {A} (c : io S E A) : Prop := forall s, I s -> I (c s).2.
Definition may_return {A} (c : io S E A) (x : A) : Prop := exists s s', I s /\ c s = (Ret x, s').

Lemma preserves_ret {A} (x : A) : preserves (io_ret x).
Proof. by intros s. Qed.
Lemma preserves_raise {A} e : preserves (io_raise (A := A) e).
Proof. by intros s. Qed.
Lemma preserves_bind {A B} (c : io S E A) (k : A -> io S E B) :
  preserves c -> (forall x, may_return c x -> preserves (k x)) -> preserves (io_bind c k).
Proof.
  intros Hc Hk s Hs. unfold io_bind. pose proof (Hc s Hs) as H. destruct (c s) as [[x|e|] s1] eqn:Ec; [|done..].
  apply Hk; [by exists s, s1|done].
Qed.
Lemma preserves_seq {A B} (c : io S E A) (k : A -> io S E B) :
  preserves c -> (forall x, preserves (k x)) -> preserves (io_bind c k).
Proof. intros Hc Hk. apply preserves_bind; [done|]. intros x _. apply Hk. Qed.
Lemma preserves_lift {A} (c : result E A) : preserves (io_lift c).
Proof. by destruct c; intros s. Qed.
Lemma preserves_try {A} (c : io S E A) h : preserves c -> (forall e, preserves (h e)) -> preserves (io_try c h).
Proof.
  intros Hc Hh s Hs. unfold io_try. pose proof (Hc s Hs) as H. destruct (c s) as [[x|e|] s1]; [done| |done]. by apply Hh.
Qed.
End Invariants.
Lemma preserves_try_ikvm {W A} (I : W -> Prop) (c : io W exn A) k :
  preserves I c -> (forall x, may_return I c x -> preserves I (k x)) -> preserves I (try_ikvm c k).
Proof.
  intros Hc Hk s Hs. unfold try_ikvm. pose proof (Hc s Hs) as H. destruct (c s) as [[x|e|] s1] eqn:Ec.
  - apply Hk; [by exists s, s1|done].
  - by destruct e.
  - done.
Qed.

Lemma preserves_guard {W A} (I : W -> Prop) (c : io W exn A) k :
  preserves I c -> (forall x, preserves I (k x)) -> preserves I (try_ikvm c k).
Proof. intros Hc Hk. apply preserves_try_ikvm; [done|]. intros x _. apply Hk. Qed.
Lemma preserves_library {W} (I : W -> Prop) lib (c : io W exn module_result) : preserves I c -> preserves I (with_library lib c).
Proof. intros Hc. destruct lib as [[m e]|]; [apply preserves_ret|done]. Qed.

(** The client's invariant: what it sent since [s0] satisfies [P], and the
    outcomes to come are among [N]. *)
Definition client_inv (N : list http_outcome) (s0 : list http_request) (P : http_request -> Prop) (a : asp) : Prop :=
  a_net a ⊆ N /\ exists l, a_sent a = s0 ++ l /\ Forall P l.

(** ** Reads

    The requests of a read-only module: a GET, the login, and the two pages
    whose selectors have to be posted. *)
Definition is_read (cfg : AspConfig) (q : http_request) : Prop :=
  hq_method q = $"GET" \/
  hq_method q = $"POST" /\
  exists path, hq_url q = base_url cfg ++ path /\
    path ∈ [$"/rpc/WEBSES/create.asp"; $"/rpc/getselentries.asp"; $"/rpc/getsessioninfo.asp"].

Lemma login_frame cfg a :
  exists q, sends_only q (mkAsp None None (a_net a) (a_sent a) (a_slept a))
              (mkAsp None None (a_net (login cfg a).2) (a_sent (login cfg a).2) (a_slept (login cfg a).2)) /\
            hq_method q = $"POST" /\ hq_url q = base_url cfg ++ $"/rpc/WEBSES/create.asp".
Proof.
  eexists (mkHttp _ _ _ _ _). unfold login, io_bind at 1 2 3.
  match goal with |- context [asp_request cfg ?m ?p ?o ?d a] =>
    destruct (request_frame cfg m p o d a) as (_ & _ & n & Hn); destruct (asp_request cfg m p o d a) as [[body|e|] a1] end;
    cbn [snd] in Hn |- *; (split; [|by split]).
  - split_and!; [done|done|]. exists n. destruct (field SESSION_COOKIE_RE body) as [c|]; [|exact Hn].
    destruct (bool_decide (c = []) || looks_like_failed_login c); exact Hn.
  - split_and!; [done|done|]. by exists n.
  - split_and!; [done|done|]. by exists n.
Qed.

Lemma retry_net cfg retries k method url op data params a : a_net (retry_loop cfg retries k method url op data params a).2 ⊆ a_net a.
Proof.
  assert (forall a, a_net (send_once cfg method url op data params a).2 ⊆ a_net a) as Hs.
  { intros a0. unfold send_once. destruct (a_net a0) as [|o net] eqn:En; [by cbn; rewrite En|].
    destruct o as [body| |m| |chain|e]; try (cbn; set_solver). destruct (connection_error_is_post_connect chain); cbn; set_solver. }
  revert k a. induction retries as [|retries IH]; intros k a; cbn [retry_loop]; unfold io_bind at 1;
    specialize (Hs a); destruct (send_once _ _ _ _ _ _ a) as [[[body|]|e|] a1]; cbn in Hs |- *; try done.
  unfold io_bind, io_modify. set (a2 := mkAsp _ _ _ _ _). etrans; [apply (IH (k + 1) a2)|done].
Qed.

Lemma preserves_frame {A} N s0 (P : http_request -> Prop) (c : io asp exn A) (q : asp -> http_request) :
  (forall a, sends_only (q a) a (c a).2) -> (forall a, a_net (c a).2 ⊆ a_net a) -> (forall a, P (q a)) ->
  preserves (client_inv N s0 P) c.
Proof.
  intros Hq Hn HP a (HN & l & Hl & Hf). destruct (Hq a) as (_ & _ & n & Hs). split; [by etrans; [apply Hn|]|].
  exists (l ++ replicate n (q a)). split; [by rewrite Hs, Hl, app_assoc|]. apply Forall_app. split; [done|]. by apply Forall_replicate.
Qed.

Lemma fetch_net cfg le method endpoint op data a : a_net (fetch_webvar cfg le method endpoint op data a).2 ⊆ a_net a.
Proof.
  unfold fetch_webvar, io_bind at 1, asp_request, send_with_retry.
  match goal with |- context [retry_loop ?c ?r ?k ?m ?u ?o ?d ?p a] => pose proof (retry_net c r k m u o d p a) as H;
    destruct (retry_loop c r k m u o d p a) as [[body|e|] a1] end; try done.
  cbn [snd] in H |- *. unfold io_bind, raise_if_session_expired. destruct (negb _); [|exact H]. destruct (parse_webvar _ _ _ _); exact H.
Qed.

Lemma login_net cfg a : a_net (login cfg a).2 ⊆ a_net a.
Proof.
  unfold login, io_bind at 1, asp_request, send_with_retry.
  match goal with |- context [retry_loop ?c ?r ?k ?m ?u ?o ?d ?p a] => pose proof (retry_net c r k m u o d p a) as H;
    destruct (retry_loop c r k m u o d p a) as [[body|e|] a1] end; try done.
  cbn [snd] in H |- *. destruct (field SESSION_COOKIE_RE body) as [c|]; [|exact H]. destruct (_ || _); exact H.
Qed.

Section ClientInv.
Context (le : text -> option pyval) (p : Connection) (N : list http_outcome) (s0 : list http_request) (P : http_request -> Prop).
Local Abbreviation cfg := (asp_config p).
Local Abbreviation I := (client_inv N s0 P).
Hypothesis reads_ok : forall q, is_read cfg q -> P q.

Lemma inv_build : preserves I (build_asp_client p).
Proof.
  intros a Ha. unfold build_asp_client. by destruct (AspClient_init _ _ _ _ _ _) as [[[pol pool] fresh]|e].
Qed.
Lemma inv_login : preserves I (login cfg).
Proof.
  intros a (HN & l & Hl & Hf). destruct (login_frame cfg a) as (q & (_ & _ & n & Hn) & Hm & Hu). cbn in Hn.
  split; [by etrans; [apply login_net|]|]. exists (l ++ replicate n q). split; [by rewrite Hn, Hl, app_assoc|].
  apply Forall_app. split; [done|]. apply Forall_replicate, reads_ok. right. split; [done|]. eexists. split; [done|]. set_solver.
Qed.
Lemma inv_get endpoint op : preserves I (read_records le cfg endpoint op).
Proof.
  apply preserves_bind; [|intros; apply preserves_ret].
  eapply preserves_frame; [intros a; apply fetch_frame|intros a; apply fetch_net|]. intros a. apply reads_ok. by left.
Qed.
Lemma inv_post endpoint data :
  webvar_path endpoint ∈ [$"/rpc/getselentries.asp"; $"/rpc/getsessioninfo.asp"] ->
  preserves I (post_records le cfg endpoint data).
Proof.
  intros He. apply preserves_bind; [|intros; apply preserves_ret].
  eapply preserves_frame; [intros a; apply fetch_frame|intros a; apply fetch_net|]. intros a. apply reads_ok. right.
  split; [done|]. exists (webvar_path endpoint). split; [done|]. by right.
Qed.
Lemma inv_set endpoint data op :
  (forall q, hq_method q = $"POST" -> hq_url q = base_url cfg ++ webvar_path endpoint -> hq_data q = data -> P q) ->
  preserves I (set_webvar cfg le endpoint data op).
Proof.
  intros HP. apply preserves_bind.
  - eapply preserves_frame; [intros a; apply fetch_frame|intros a; apply fetch_net|]. intros a. by apply HP.
  - intros r _. destruct (negb _); [apply preserves_raise|apply preserves_ret].
Qed.
End ClientInv.

(** A page that was read had been answered. *)
Lemma records_read le cfg endpoint op rs a a' :
  read_records le cfg endpoint op a = (Ret rs, a') ->
  exists body r, HResponse body ∈ a_net a /\ looks_like_session_expired_html body = false /\
    parse_webvar le body (Some endpoint) (Some (op_or op ($"get_webvar:" ++ endpoint))) = Ok r /\ rs = records_of r.
Proof.
  intros H. apply io_bind_inv in H as (r & a1 & H1 & [= <- _]).
  apply fetch_parsed in H1 as (body & Hb & Hx & Hp). by exists body, r.
Qed.
Lemma records_posted le cfg endpoint data rs a a' :
  post_records le cfg endpoint data a = (Ret rs, a') ->
  exists body r, HResponse body ∈ a_net a /\ looks_like_session_expired_html body = false /\
    parse_webvar le body (Some endpoint) (Some ($"post_webvar:" ++ endpoint)) = Ok r /\ rs = records_of r.
Proof.
  intros H. apply io_bind_inv in H as (r & a1 & H1 & [= <- _]).
  apply fetch_parsed in H1 as (body & Hb & Hx & Hp). by exists body, r.
Qed.

Lemma read_answered le cfg N s0 P endpoint op rs :
  may_return (client_inv N s0 P) (read_records le cfg endpoint op) rs ->
  exists body r, HResponse body ∈ N /\ looks_like_session_expired_html body = false /\
    parse_webvar le body (Some endpoint) (Some (op_or op ($"get_webvar:" ++ endpoint))) = Ok r /\ rs = records_of r.
Proof.
  intros (a & a' & (HN & _) & H). apply records_read in H as (body & r & Hb & H). exists body, r. split; [set_solver|done].
Qed.

(** The client that is made is the configured one, and nothing was sent. *)
Lemma build_returns p a client a' :
  build_asp_client p a = (Ret client, a') -> client = asp_config p /\ a_net a' = a_net a /\ a_sent a' = a_sent a.
Proof.
  unfold build_asp_client. destruct (AspClient_init _ _ _ _ _ _) as [[[pol pool] fresh]|e]; [|done]. by intros [= <- <-].
Qed.
Lemma login_returns cfg a t a' : login cfg a = (Ret t, a') -> a_net a' ⊆ a_net a.
Proof. intros H. pose proof (login_net cfg a) as Hn. by rewrite H in Hn. Qed.

(** ** Replies

    [replies n c]: [c] uses at most [n] outcomes of the network, and ends when
    there are as many.  Every request takes at most its attempts. *)
Definition replies {A} (n : nat) (c : io asp exn A) : Prop := forall m a,
  (n + m <= length (a_net a))%nat -> (c a).1 <> Blocked /\ (m <= length (a_net (c a).2))%nat.
Definition attempts (cfg : AspConfig) : nat := S (Z.to_nat (max_retries cfg)).

Lemma replies_ret {A} n (x : A) : replies n (io_ret x).
Proof. intros m a H. split; [done|]. cbn. lia. Qed.
Lemma replies_raise {A} n e : replies n (io_raise (A := A) e).
Proof. intros m a H. split; [done|]. cbn. lia. Qed.
Lemma replies_bind {A B} n1 n2 (c : io asp exn A) (k : A -> io asp exn B) :
  replies n1 c -> (forall x, replies n2 (k x)) -> replies (n1 + n2) (io_bind c k).
Proof.
  intros Hc Hk m a H. unfold io_bind. destruct (Hc (n2 + m)%nat a ltac:(lia)) as [H1 H2].
  destruct (c a) as [[x|e|] a1]; cbn [fst snd] in *; [|split; [done|lia]|done]. by apply Hk.
Qed.
(** What follows a request takes none. *)
Lemma replies_then {A B} n (c : io asp exn A) (k : A -> io asp exn B) :
  replies n c -> (forall x, replies 0 (k x)) -> replies n (io_bind c k).
Proof. intros Hc Hk. replace n with (n + 0)%nat by lia. by apply replies_bind. Qed.

Lemma replies_retry cfg retries k method url op data params : replies (S retries) (retry_loop cfg retries k method url op data params).
Proof.
  revert k. induction retries as [|retries IH]; intros k m a H; cbn [retry_loop]; unfold io_bind, send_once;
    (destruct (a_net a) as [|o net]; [cbn in H; lia|]); cbn [length] in H;
    (destruct o as [body| |e| |chain|e]; [..|destruct (connection_error_is_post_connect chain)|]);
    try (split; [done|]; cbn; lia); (apply IH; cbn; lia).
Qed.
Lemma replies_request cfg method path op data : replies (attempts cfg) (asp_request cfg method path op data).
Proof. apply replies_retry. Qed.

Lemma replies_fetch cfg le method endpoint op data : replies (attempts cfg) (fetch_webvar cfg le method endpoint op data).
Proof.
  apply replies_then; [apply replies_request|]. intros body. apply (replies_then 0); [|intros _; destruct (parse_webvar _ _ _ _)];
    [|apply replies_ret|apply replies_raise].
  unfold raise_if_session_expired. destruct (negb _); [apply replies_ret|]. by intros m a H.
Qed.
Lemma replies_read cfg le endpoint op : replies (attempts cfg) (read_records le cfg endpoint op).
Proof. apply replies_then; [apply replies_fetch|]. intros r. apply replies_ret. Qed.
Lemma replies_login cfg : replies (attempts cfg) (login cfg).
Proof.
  apply replies_then; [apply replies_request|]. intros body. destruct (field SESSION_COOKIE_RE body) as [c|]; [|by intros m a H].
  destruct (_ || _); by intros m a H.
Qed.
Lemma replies_build p : replies 0 (build_asp_client p).
Proof. intros m a H. unfold build_asp_client. by destruct (AspClient_init _ _ _ _ _ _) as [[[pol pool] fresh]|e]. Qed.
Lemma replies_allocate cfg ip secure : replies (attempts cfg) (allocate_media_session cfg ip secure).
Proof.
  apply (replies_bind 0); [by intros m a H|]. intros a0. destruct (a_cookie a0); [|apply replies_raise].
  apply replies_then; [apply replies_retry|]. intros body. cbn zeta. by destruct (kvm_token (from_arguments (parse_jnlp_arguments body))); intros m a H.
Qed.

(** How a guarded part ended that led to a successful exit. *)
Lemma try_ikvm_exit {W A} (c : io W exn A) k w fields w' :
  try_ikvm c k w = (Ret (ExitJson fields), w') -> exists x w1, c w = (Ret x, w1) /\ k x w1 = (Ret (ExitJson fields), w').
Proof. unfold try_ikvm. destruct (c w) as [[x|[]|] w1]; try done. intros H. by exists x, w1. Qed.
Lemma library_exit {W} lib (c : io W exn module_result) w fields w' :
  with_library lib c w = (Ret (ExitJson fields), w') -> c w = (Ret (ExitJson fields), w').
Proof. by destruct lib as [[m e]|]. Qed.

#[export] Hint Resolve preserves_ret preserves_raise preserves_lift preserves_seq preserves_library preserves_guard
  inv_build inv_login inv_get : ikvm.

(** A connection for examples, and a login that succeeds. *)
Definition demo_connection : Connection :=
  {| c_host := $"bmc"; c_port := 443; c_username := $"admin"; c_password := $"pw"; c_use_tls := true; c_allow_insecure := false;
     c_validate_certs := true; c_ca_path := None; c_tls_fingerprint := None; c_ipmi_port := 623 |}.
Definition demo_login : http_outcome := HResponse ($"WEBVAR_JSONVAR_WEB_SESSION = { 'SESSION_COOKIE' : 'abc123', 'CSRFTOKEN' : 'tok' };").
Definition demo_run (pages : list http_outcome) : asp := mkAsp None None (demo_login :: pages) [] [].
