(* ===== verification/MediaStart.v ===== *)
(** * media_session._run_daemon with its web client: an attach from login to eject

    The daemon of [MediaSession] takes the allocation of a token as a
    parameter.  Here that parameter is the client of [Asp]: the daemon logs
    in, finds out its own address towards the controller
    ([iusb.resolve_local_ip]), fetches the launch document and takes the
    token from it.  [media_daemon] is [_run_daemon] with nothing left open
    but the outside world: the files, the clock, the routing table, the
    answers of the web server and the bytes of the media port. *)
From Stdlib Require Import ZArith Lia Ascii String.
From stdpp Require Import prelude.
From S2P Require Import Prelude PyBytes PyText Regex Errors PyValue Models Asp Ansible.
From S2P Require Import IusbFrame IusbCache IusbDevice Transport IusbSession DaemonRuntime MediaSession.

(** ** [resolve_local_ip] *)

(** What connecting a datagram socket says: the address of this side, or the
    message of the [OSError].  Nothing is sent. *)
Definition routing : Type := text -> Z -> result text text.

(** [iusb.resolve_local_ip] *)
Definition iusb_resolve_local_ip (route : routing) (host : text) (port : Z) : result exn text :=
  match route host port with
  | Ok ip => Ok ip
  | Err e => Err (OSError e)
  end.
(** [media_session.resolve_local_ip]: the default port *)
Definition resolve_local_ip (route : routing) (host : text) : result exn text := iusb_resolve_local_ip route host 80.

(** ** The token *)
Section Token.
Variable route : routing.
Variable cfg : SessionConfig.
Variable username password : text.

(** The parameters of the client the daemon makes. *)
Definition session_connection : Connection :=
  {| c_host := cfg_host cfg; c_port := cfg_port cfg; c_username := username; c_password := password;
     c_use_tls := cfg_use_tls cfg; c_allow_insecure := cfg_allow_insecure_transport cfg;
     c_validate_certs := cfg_validate_certs cfg; c_ca_path := cfg_ca_path cfg; c_tls_fingerprint := cfg_tls_fingerprint cfg;
     c_ipmi_port := DEFAULT_IPMI_PORT |}.

(** From [AspClient(...)] to [token = jnlp.kvm_token] *)
Definition allocate_token : io asp exn (option text) :=
  do asp_client <- build_asp_client session_connection;
  run login asp_client;
  do local_ip <- io_lift (resolve_local_ip route (cfg_host cfg));
  do jnlp <- allocate_media_session asp_client local_ip None;
  io_ret (kvm_token jnlp).
End Token.

(** [_run_daemon(config, username, password)] *)
Definition media_daemon (wall : Z -> Z) (sigterm : Z -> bool) (fs : text -> fs_node) (net : text -> Z -> dial)
    (route : routing) (cfg : SessionConfig) (pid : Z) (username password : text) (web : asp) (w : MWorld)
    : outcome exn unit * run_state asp :=
  run_daemon wall sigterm fs net (allocate_token route cfg username password) cfg pid password web w.

(** ** The daemon in two halves

    What it does before its record says attached, and the serving after it;
    the record in between is what the module waits for. *)
Section Halves.
Context {C : Type}.
Variable wall : Z -> Z.
Variable sigterm : Z -> bool.
Variable fs : text -> fs_node.
Variable net : text -> Z -> dial.
Variable allocate : io C exn (option text).
Variable cfg : SessionConfig.
Variable pid : Z.

Definition connect_and_report (token : text) (dev : device) : io (run_state C) exn (Session * device) :=
  do session <- connect_session net cfg token;
  run in_daemon (update_state (set_state STATE_ATTACHED));
  run run_persist wall cfg None;
  io_ret (session, dev).
Definition reach_attached : io (run_state C) exn (Session * device) :=
  do reader <- io_lift (FileReader_open fs (cfg_image cfg));
  let dev : device := CDROMDevice_init (Cache_init reader None WINDOW_SIZE DEFAULT_MAX_WINDOWS) in
  run in_daemon (on_world (open_trace_log cfg));
  run in_daemon (update_state (set_state STATE_CONNECTING));
  run run_persist wall cfg None;
  do token <- in_client allocate;
  match token with
  | None =>
      io_raise (Ikvm (ProtocolError ($"jviewer.jnlp allocation did not yield a usable media token")
                        (Some (run_endpoint cfg)) ($"asmb8_media.attach")))
  | Some token =>
      run io_modify (fun r => mkRun (r_daemon r) (r_conn r) (r_secrets r ++ [token]) (r_client r) (r_lost r));
      connect_and_report token dev
  end.
Definition serve_and_finish (x : Session * device) : io (run_state C) exn unit :=
  do (outcome, dev) <- serve_media wall sigterm cfg (fst x) (snd x);
  in_daemon (finish wall (cfg_session_id cfg) outcome dev).

(** The daemon from its start to its report that it is attached. *)
Definition daemon_until_attached (password : text) (client : C) (w : MWorld) : outcome exn (Session * device) * run_state C :=
  let w := set_files w (assoc_set (w_files w) (log_file_path (cfg_session_id cfg)) Plain) in
  let start := initial_state (cfg_session_id cfg) (run_endpoint cfg) pid (cfg_image cfg) (wall 0) in
  (run run_persist wall cfg None; reach_attached) (mkRun (mkDaemon start w 1 0) None [password] client None).

Lemma io_bind_step {W E A B} (c : io W E A) (k : A -> io W E B) w a w' : c w = (Ret a, w') -> io_bind c k w = k a w'.
Proof. intros H. unfold io_bind. by rewrite H. Qed.
Lemma io_bind_eq {W E A B} (c : io W E A) (k k' : A -> io W E B) w : (forall a w', k a w' = k' a w') -> io_bind c k w = io_bind c k' w.
Proof. intros H. unfold io_bind. by destruct (c w) as [[]]. Qed.

Lemma daemon_body_halves r : daemon_body wall sigterm fs net allocate cfg r = io_bind reach_attached serve_and_finish r.
Proof.
  assert (forall {W E A B D} (c : io W E A) (k : A -> io W E B) (g : B -> io W E D) w,
            io_bind (io_bind c k) g w = io_bind c (fun a => io_bind (k a) g) w) as assoc.
  { intros. unfold io_bind. by destruct (c w) as [[]]. }
  unfold daemon_body, reach_attached. rewrite assoc. apply io_bind_eq. intros reader r1. cbv zeta.
  rewrite assoc. apply io_bind_eq. intros _ r2. rewrite assoc. apply io_bind_eq. intros _ r3. rewrite assoc. apply io_bind_eq. intros _ r4.
  rewrite assoc. apply io_bind_eq. intros [token|] r5; [|done]. rewrite assoc. apply io_bind_eq. intros _ r6.
  unfold connect_and_report. rewrite assoc. apply io_bind_eq. intros session r7. rewrite assoc. apply io_bind_eq. intros _ r8.
  rewrite assoc. apply io_bind_eq. by intros _ r9.
Qed.

(** A daemon whose first half succeeds goes on with the second. *)
Lemma run_daemon_halves password client w x r1 r2 :
  daemon_until_attached password client w = (Ret x, r1) -> serve_and_finish x r1 = (Ret tt, r2) ->
  run_daemon wall sigterm fs net allocate cfg pid password client w = (Ret tt, (close_all (E := exn) r2).2).
Proof.
  unfold daemon_until_attached, run_daemon. set (r0 := mkRun _ _ _ _ _). intros H1 H2. unfold io_bind at 1 in H1. unfold io_bind at 1.
  destruct (run_persist wall cfg None r0) as [[[]|e|] r]; [|done|done]. unfold io_try.
  rewrite daemon_body_halves. unfold io_bind at 1. rewrite H1, H2. done.
Qed.
End Halves.

(** ** Lemmas: the client *)

Lemma send_answered cfg method url op data params a body net :
  a_net a = HResponse body :: net ->
  send_with_retry cfg method url op data params a = (Ret body, push_sent (mkHttp method url data params (headers url a)) net a).
Proof.
  intros Hn. unfold send_with_retry. destruct (Z.to_nat (max_retries cfg)); cbn [retry_loop]; unfold io_bind, send_once; by rewrite Hn.
Qed.

(** The login request, and the request for the launch document. *)
Definition login_request (cfg : AspConfig) (a : asp) : http_request :=
  let url := base_url cfg ++ $"/rpc/WEBSES/create.asp" in
  mkHttp ($"POST") url [($"WEBVAR_USERNAME", ac_username cfg); ($"WEBVAR_PASSWORD", ac_password cfg)] [] (headers url a).
Definition jnlp_request (cfg : AspConfig) (ip : text) (a : asp) : http_request :=
  let url := base_url cfg ++ $"/Java/jviewer.jnlp" in
  mkHttp ($"GET") url [] [($"EXTRNIP", ip); ($"JNLPSTR", $"JViewer")] (headers url a).

Lemma login_answered cfg a page net cookie :
  a_net a = HResponse page :: net -> field SESSION_COOKIE_RE page = Some cookie -> cookie <> [] ->
  looks_like_failed_login cookie = false ->
  login cfg a
  = (Ret cookie, set_session cookie (nonempty (default [] (field CSRFTOKEN_RE page))) (push_sent (login_request cfg a) net a)).
Proof.
  intros Hn Hf Hne Hl. unfold login, asp_request, io_bind at 1. rewrite (send_answered cfg _ _ _ _ _ a page net Hn), Hf, Hl.
  rewrite bool_decide_eq_false_2 by done. done.
Qed.

Lemma allocate_answered cfg a ip doc net cookie token :
  a_cookie a = Some cookie -> a_net a = HResponse doc :: net -> kvm_token (from_arguments (parse_jnlp_arguments doc)) = Some token ->
  allocate_media_session cfg ip None a
  = (Ret (from_arguments (parse_jnlp_arguments doc)), push_sent (jnlp_request cfg ip a) net a).
Proof.
  intros Hc Hn Ht. unfold allocate_media_session, io_bind at 1, io_get. rewrite Hc. cbn [default]. unfold io_bind at 1.
  rewrite (send_answered cfg _ _ _ _ _ a doc net Hn), Ht. unfold jnlp_request, base_url. by rewrite <- !app_assoc.
Qed.

(** The client after a login and a launch document were answered. *)
Definition session_client (cfg : AspConfig) (page : text) (cookie : text) (net : list http_outcome) (a : asp) : asp :=
  set_session cookie (nonempty (default [] (field CSRFTOKEN_RE page))) (push_sent (login_request cfg a) net a).

Lemma token_allocated route cfg username password web page doc net cookie ip token pol :
  let conn := session_connection cfg username password in
  let ac := asp_config conn in
  AspClient_init ac (cfg_allow_insecure_transport cfg) (cfg_validate_certs cfg) (cfg_ca_path cfg) (cfg_tls_fingerprint cfg) (a_net web) = Ok pol ->
  a_net web = HResponse page :: HResponse doc :: net ->
  field SESSION_COOKIE_RE page = Some cookie -> cookie <> [] -> looks_like_failed_login cookie = false ->
  route (cfg_host cfg) 80 = Ok ip ->
  kvm_token (from_arguments (parse_jnlp_arguments doc)) = Some token ->
  let fresh := mkAsp None None (a_net web) (a_sent web) (a_slept web) in
  let a := session_client ac page cookie (HResponse doc :: net) fresh in
  allocate_token route cfg username password web = (Ret (Some token), push_sent (jnlp_request ac ip a) net a).
Proof.
  intros conn ac Hpol Hnet Hf Hne Hl Hr Ht fresh a.
  assert (build_asp_client conn web = (Ret ac, fresh)) as Hb.
  { unfold build_asp_client. fold ac. change (c_allow_insecure conn) with (cfg_allow_insecure_transport cfg).
    change (c_validate_certs conn) with (cfg_validate_certs cfg). change (c_ca_path conn) with (cfg_ca_path cfg).
    change (c_tls_fingerprint conn) with (cfg_tls_fingerprint cfg). rewrite Hpol. destruct pol as [[pol pool] fr].
    revert Hpol. unfold AspClient_init. destruct (enforce_transport_policy _ _); cbn [rbind]; [|done].
    destruct (TlsTrustPolicy_create _ _ _); [|done]. by intros [= _ _ <-]. }
  unfold allocate_token. fold conn. unfold io_bind at 1. rewrite Hb. unfold io_bind at 1.
  rewrite (login_answered ac fresh page (HResponse doc :: net) cookie) by done.
  change (set_session cookie _ _) with a. unfold io_bind at 1, resolve_local_ip, iusb_resolve_local_ip. rewrite Hr. cbn [io_lift].
  unfold io_ret at 1. unfold io_bind at 1. rewrite (allocate_answered ac a ip doc net cookie token) by done. by rewrite Ht.
Qed.

(** ** Lemmas: the daemon *)

Section Plays.
Context {C : Type}.
Variable wall : Z -> Z.
Variable sigterm : Z -> bool.
Variable cfg : SessionConfig.
Variable pid : Z.
Local Abbreviation sid := (cfg_session_id cfg).

(** One step of the daemon inside its run. *)
Lemma in_daemon_step {A B} (f : io daemon exn A) (k : A -> io (run_state C) exn B) r a d :
  f (r_daemon r) = (Ret a, d) -> io_bind (in_daemon f) k r = k a (mkRun d (r_conn r) (r_secrets r) (r_client r) (r_lost r)).
Proof. intros Hf. unfold io_bind, in_daemon. by rewrite Hf. Qed.

(** A daemon on its way to the serve loop: alive, nothing traced or served. *)
Record ready (lines : list TraceLine) (d : daemon) : Prop := {
  rd_alive : alive sid (run_endpoint cfg) pid d;
  rd_lines : trace_lines sid (d_world d) = lines;
  rd_idle : idle_fields (d_state d) = idle_view [];
}.

Lemma ready_persist lines d now : ready lines d ->
  exists d', persist wall sid now d = (Ret tt, d') /\ ready lines d' /\ published sid d' /\ ms_state (d_state d') = ms_state (d_state d).
Proof.
  intros [[Hd Hl] Ht Hi]. destruct (persist_ok wall sid d now Hd) as (d' & H1 & H2 & H3 & H4 & H5 & _).
  exists d'. split; [done|]. split; [|split; [done|by rewrite H4]]. split; [split; [done|]|congruence|by rewrite H4].
  rewrite H4. by apply live_updated.
Qed.

Lemma ready_state lines d st : ready lines d ->
  ready lines (mkDaemon (set_state st (d_state d)) (d_world d) (d_now_calls d) (d_stop_checks d)).
Proof. intros [[Hd Hl] Ht Hi]. split; [split; [done|]|done|done]. by apply live_state. Qed.

Lemma ready_trace lines d : ready lines d -> exists d', on_world (open_trace_log cfg) d = (Ret tt, d') /\ ready lines d'.
Proof.
  intros [[Hd Hl] Ht Hi]. unfold on_world, open_trace_log, io_bind, disk_step, io_modify. unfold disk_ok in Hd. rewrite Hd.
  eexists. split; [done|]. split; [by split|cbn|done]. unfold trace_lines at 1. cbn. rewrite assoc_get_set_eq. exact Ht.
Qed.

(** What the daemon's record says after a disc was played to the end of the
    stream. *)
Record played (m : bytes) (l : list item) (lines : list TraceLine) (d : daemon) : Prop := {
  pl_published : published sid d;
  pl_id : ms_session_id (d_state d) = Some sid;
  pl_pid : ms_pid (d_state d) = Some pid;
  pl_endpoint : ms_endpoint (d_state d) = Some (run_endpoint cfg);
  pl_state : ms_state (d_state d) = STATE_DETACHED;
  pl_error : ms_error (d_state d) = Some ($"connection closed by peer");
  pl_class : ms_error_class (d_state d) = None;
  pl_reason : ms_stop_reason (d_state d) = Some ($"peer_closed");
  pl_bytes : ms_bytes_read (d_state d) = (traffic m l).1;
  pl_blocks : ms_sectors_served (d_state d) = (traffic m l).2;
  pl_idle : ms_idle_polls (d_state d) = blen (List.filter is_idle_item l);
  pl_lines : trace_lines sid (d_world d) = lines ++ concat (map item_lines l);
}.

Lemma close_streak_counters t s :
  ms_idle_polls (close_idle_streak t s) = ms_idle_polls s /\ ms_error_class (close_idle_streak t s) = ms_error_class s.
Proof. unfold close_idle_streak. by destruct (ms_current_idle_streak s). Qed.

(** The end of a session that the peer closed. *)
Lemma finish_played m l lines (d : daemon) (dev : device) :
  alive sid (run_endpoint cfg) pid d -> bytes_served dev = (traffic m l).1 -> blocks_served dev = (traffic m l).2 ->
  ms_idle_polls (d_state d) = blen (List.filter is_idle_item l) ->
  trace_lines sid (d_world d) = lines ++ concat (map item_lines l) ->
  exists d', finish wall sid SERVE_PEER_CLOSED dev d = (Ret tt, d') /\ played m l lines d'.
Proof.
  intros [Hd Hl] Hb Hk Hi Ht. unfold finish, io_bind, now_iso, update_state, io_modify. cbn [d_state d_world d_now_calls d_stop_checks].
  set (t := wall (d_now_calls d)). set (s := set_status _ _ _ _ _).
  destruct (persist_ok wall sid (mkDaemon s (d_world d) (d_now_calls d + 1) (d_stop_checks d)) (Some t) Hd)
    as (d' & H1 & _ & H3 & H4 & H5 & _).
  exists d'. split; [exact H1|]. cbn [d_state d_world] in *.
  destruct (live_close sid (run_endpoint cfg) pid t (d_state d) Hl) as [L1 L2 L3 L4 L5].
  split; rewrite ?H4, ?H5; try done. cbn. by rewrite (proj1 (close_streak_counters t (d_state d))).
Qed.

(** The connection is made and reported. *)
Lemma connect_reported net token lines s h ack auth rest (r : run_state C) (dev : device) :
  net (cfg_host cfg) (cfg_cd_port cfg) = Connected s -> writable (mkConn s None) ->
  build_auth DEVICE_CDROM (cfg_instance cfg) token false = Ok auth ->
  item_wf (Frame h ack) ->
  interpret_ack {| Packet.header := h; Packet.payload := ack |} (Some (run_endpoint cfg)) = Ok tt ->
  atoms (rx s) = item_atoms (Frame h ack) ++ rest -> ready lines (r_daemon r) ->
  exists d c,
    connect_and_report wall net cfg token dev r
    = (Ret ({| s_device_type := DEVICE_CDROM; s_instance := cfg_instance cfg |}, dev), mkRun d (Some c) (r_secrets r) (r_client r) (r_lost r)) /\
    ready lines d /\ published sid d /\ ms_state (d_state d) = STATE_ATTACHED /\
    writable c /\ atoms (rx (c_sock c)) = rest /\ tx (c_sock c) = tx s ++ [auth].
Proof.
  intros Hn Hw Hau Hack Hok Hat Hr.
  destruct (proj1 (authenticate_outcomes DEVICE_CDROM (cfg_instance cfg) token (Some (run_endpoint cfg)) (mkConn s None) auth Hw Hau)
              h ack rest Hack Hat) as (c1 & A1 & A2 & A3 & A4). rewrite Hok in A1.
  unfold connect_and_report, io_bind at 1, connect_session, Session_connect, iusb_connect. rewrite Hn.
  change (Transport.host_port _ _) with (run_endpoint cfg). rewrite A1.
  rewrite (in_daemon_step (update_state (set_state STATE_ATTACHED)) _ _ tt _ eq_refl). cbn [r_daemon r_conn r_secrets r_client r_lost].
  pose proof (ready_state lines (r_daemon r) STATE_ATTACHED Hr) as Hr1.
  destruct (ready_persist lines _ None Hr1) as (d2 & P1 & Hr2 & Hpub & Hst).
  unfold run_persist. erewrite (in_daemon_step (persist wall sid None) _ _ tt d2); [|exact P1]. cbn [r_daemon r_conn r_secrets r_client r_lost].
  exists d2, (set_poll_timeout RECV_POLL_TIMEOUT c1). split; [done|]. by split_and!.
Qed.

(** The serve loop inside the run. *)
Lemma serve_played m l lines (r : run_state C) c (dev : device) :
  (forall n, sigterm n = false) -> Forall item_wf l -> Forall (item_served m) l ->
  r_conn r = Some c -> writable c -> atoms (rx (c_sock c)) = items_atoms l ++ [AEof] ->
  ready lines (r_daemon r) -> published sid (r_daemon r) -> plays (serves := cache_serves (serves := file_serves)) dev m ->
  bytes_served dev = 0 -> blocks_served dev = 0 ->
  exists d c',
    serve_and_finish wall sigterm cfg ({| s_device_type := DEVICE_CDROM; s_instance := cfg_instance cfg |}, dev) r
    = (Ret tt, mkRun d (Some c') (r_secrets r) (r_client r) (r_lost r)) /\
    played m l lines d /\ tx (c_sock c') = tx (c_sock c) ++ concat (map (item_replies m DEVICE_CDROM) l).
Proof.
  intros Hsig Hl Hserved Hc Hw Hat [Hal Hln Hid] Hpub Hp Hb0 Hk0.
  set (session := {| s_device_type := DEVICE_CDROM; s_instance := cfg_instance cfg |}).
  assert (working m (r_daemon r, dev)) as Hwork by (split; [apply Hal|done]).
  destruct (media_session_end_to_end wall sigterm sid m session l c (r_daemon r, dev) [] Hsig Hwork Hpub Hid Hl Hserved Hw Hat)
    as (c3 & [d3 dev3] & S1 & S2 & S3 & S4 & S5 & S6 & S7). cbn [fst snd] in *.
  pose proof (media_serve_alive wall sigterm sid (run_endpoint cfg) pid session (c, (r_daemon r, dev)) Hal) as Hal3.
  rewrite S1 in Hal3. cbn [fst snd] in Hal3.
  unfold serve_and_finish, io_bind, serve_media. rewrite Hc. cbn [fst snd]. rewrite S1.
  assert (ms_idle_polls (d_state (r_daemon r)) = 0) as Hi0 by (unfold idle_fields, idle_view in Hid; by injection Hid).
  destruct (finish_played m l lines d3 dev3 Hal3) as (d4 & F1 & F2);
    [rewrite S4, Hb0; lia|rewrite S5, Hk0; lia|rewrite S6, Hi0; lia|by rewrite S3, Hln|].
  unfold in_daemon. cbn [r_daemon r_conn r_secrets r_client r_lost]. rewrite F1. exists d4, c3. by split_and!.
Qed.
End Plays.

(** What the peer on the media port does: it accepts the session, sends
    well-formed requests and idles in between, and closes. *)
Record peer (net : text -> Z -> dial) (cfg : SessionConfig) (m : bytes) (l : list item) (s : sock) : Prop := {
  pe_net : net (cfg_host cfg) (cfg_cd_port cfg) = Connected s;
  pe_open : writable (mkConn s None);
  pe_wf : Forall item_wf l;
  pe_served : Forall (item_served m) l;
  pe_stream : exists h ack, item_wf (Frame h ack) /\
    interpret_ack {| Packet.header := h; Packet.payload := ack |} (Some (run_endpoint cfg)) = Ok tt /\
    atoms (rx s) = item_atoms (Frame h ack) ++ items_atoms l ++ [AEof];
}.

(** The first half, when the token is allocated and accepted: the record
    published at its end says attached, for this process and endpoint. *)
Lemma daemon_attaches {C : Type} wall fs net (allocate : io C exn (option text)) cfg pid password client client' w m l s token auth :
  w_disk w = [] -> fs (cfg_image cfg) = RegularFile m -> peer net cfg m l s ->
  allocate client = (Ret (Some token), client') -> build_auth DEVICE_CDROM (cfg_instance cfg) token false = Ok auth ->
  exists d c dev,
    daemon_until_attached wall fs net allocate cfg pid password client w
    = (Ret ({| s_device_type := DEVICE_CDROM; s_instance := cfg_instance cfg |}, dev), mkRun d (Some c) [password; token] client' None) /\
    ready cfg pid (trace_lines (cfg_session_id cfg) w) d /\ published (cfg_session_id cfg) d /\ ms_state (d_state d) = STATE_ATTACHED /\
    writable c /\ atoms (rx (c_sock c)) = items_atoms l ++ [AEof] /\ tx (c_sock c) = tx s ++ [auth] /\
    plays (serves := cache_serves (serves := file_serves)) dev m /\ bytes_served dev = 0 /\ blocks_served dev = 0.
Proof.
  intros Hd Hfs [Hn Hw Hl Hserved (h & ack & Hack & Hok & Hat)] Ha Hau.
  set (sid := cfg_session_id cfg). set (lines := trace_lines sid w).
  set (w0 := set_files w (assoc_set (w_files w) (log_file_path sid) Plain)).
  set (d0 := mkDaemon (initial_state sid (run_endpoint cfg) pid (cfg_image cfg) (wall 0)) w0 1 0).
  assert (ready cfg pid lines d0) as R0.
  { split; [by split| |done]. unfold lines, trace_lines. cbn. rewrite assoc_get_set_ne; [done|].
    unfold log_file_path, read_trace_log_path. intros H. apply (f_equal (fun l => last l)) in H.
    rewrite !last_app in H. vm_compute in H. discriminate. }
  unfold daemon_until_attached. fold sid w0 d0.
  destruct (ready_persist wall cfg pid lines d0 None R0) as (d1 & P1 & R1 & _).
  unfold run_persist at 1. erewrite (in_daemon_step (persist wall sid None) _ _ tt d1); [|exact P1]. cbn [r_daemon r_conn r_secrets r_client r_lost].
  destruct (ready_trace cfg pid lines d1 R1) as (d2 & P2 & R2).
  pose proof (ready_state cfg pid lines d2 STATE_CONNECTING R2) as R3.
  destruct (ready_persist wall cfg pid lines _ None R3) as (d4 & P4 & R4 & _).
  set (reader := {| f_content := m; f_size := blen m; f_pos := 0; f_closed := false |}).
  set (dev := CDROMDevice_init (Cache_init reader None WINDOW_SIZE DEFAULT_MAX_WINDOWS) : device).
  destruct (connect_reported wall cfg pid net token lines s h ack auth (items_atoms l ++ [AEof])
              (mkRun d4 None [password; token] client' None) dev Hn Hw Hau Hack Hok Hat R4) as (d & c & S1 & S2 & S3 & S4 & S5 & S6 & S7).
  exists d, c, dev. split.
  { unfold reach_attached. unfold io_bind at 1, FileReader_open. rewrite Hfs. cbn [io_lift]. unfold io_ret at 1.
    fold reader. fold dev. erewrite (in_daemon_step (on_world (open_trace_log cfg)) _ _ tt d2); [|exact P2].
    erewrite (in_daemon_step (update_state (set_state STATE_CONNECTING)) _ _ tt); [|reflexivity]. cbn [r_daemon r_conn r_secrets r_client r_lost].
    unfold run_persist at 1. erewrite (in_daemon_step (persist wall sid None) _ _ tt d4); [|exact P4]. cbn [r_daemon r_conn r_secrets r_client r_lost].
    unfold io_bind at 1, in_client. cbn [r_client]. rewrite Ha. unfold io_bind at 1, io_modify. exact S1. }
  split_and!; try done. apply CDROMDevice_init_plays, Cache_init_serves; done.
Qed.

Lemma daemon_plays {C : Type} wall sigterm fs net (allocate : io C exn (option text)) cfg pid password client client' w m l s token auth :
  (forall n, sigterm n = false) -> w_disk w = [] -> fs (cfg_image cfg) = RegularFile m -> peer net cfg m l s ->
  allocate client = (Ret (Some token), client') -> build_auth DEVICE_CDROM (cfg_instance cfg) token false = Ok auth ->
  exists d c,
    run_daemon wall sigterm fs net allocate cfg pid password client w = (Ret tt, mkRun d (Some c) [password; token] client' None) /\
    played cfg pid m l (trace_lines (cfg_session_id cfg) w) d /\
    closed (c_sock c) = true /\ tx (c_sock c) = tx s ++ auth :: concat (map (item_replies m DEVICE_CDROM) l).
Proof.
  intros Hsig Hd Hfs Hpeer Ha Hau.
  destruct (daemon_attaches wall fs net allocate cfg pid password client client' w m l s token auth Hd Hfs Hpeer Ha Hau)
    as (d1 & c1 & dev & A1 & A2 & A3 & _ & A5 & A6 & A7 & A8 & A9 & A10).
  destruct (serve_played wall sigterm cfg pid m l _ (mkRun d1 (Some c1) [password; token] client' None) c1 dev Hsig
              (pe_wf _ _ _ _ _ Hpeer) (pe_served _ _ _ _ _ Hpeer) eq_refl A5 A6 A2 A3 A8 A9 A10) as (d & c & S1 & S2 & S3).
  exists d, (Session_close c). split; [by rewrite (run_daemon_halves _ _ _ _ _ _ _ _ _ _ _ _ _ A1 S1)|].
  split_and!; [exact S2|done|]. cbn. rewrite S3, A7. by rewrite <- app_assoc.
Qed.

(** The first half, when it raises: the daemon ends normally and leaves a
    record that says error, with the class of the exception and its message
    as [redact] leaves it. *)
Definition failure_message (e : exn) : text :=
  match e with Ikvm err => message err | e => $"unexpected error: " ++ exn_str e end.
Definition failure_class (e : exn) : ErrorClass :=
  match e with Ikvm err => error_class err | _ => PROTOCOL end.

Lemma report_recorded wall sid secrets e d : disk_ok d ->
  exists d', report_exception wall sid secrets e d = (Ret tt, d') /\ published sid d' /\ ms_state (d_state d') = STATE_ERROR /\
    ms_error (d_state d') = Some (redact (Some (failure_message e)) (map Some secrets)) /\
    ms_error_class (d_state d') = Some (error_class_str (failure_class e)) /\ ms_pid (d_state d') = ms_pid (d_state d).
Proof.
  assert (forall msg cls, disk_ok d -> exists d', fail wall sid secrets msg cls d = (Ret tt, d') /\ published sid d' /\
    ms_state (d_state d') = STATE_ERROR /\ ms_error (d_state d') = Some (redact (Some msg) (map Some secrets)) /\
    ms_error_class (d_state d') = Some cls /\ ms_pid (d_state d') = ms_pid (d_state d)) as Hf.
  { intros msg cls Hd. unfold fail, io_bind, update_state, io_modify. set (d1 := mkDaemon (set_status _ _ _ _ _) _ _ _).
    destruct (persist_ok wall sid d1 None Hd) as (d' & P1 & _ & P3 & P4 & _). exists d'. rewrite P4. by split_and!. }
  intros Hd. unfold report_exception. destruct e; by apply Hf.
Qed.

Lemma daemon_fails {C : Type} wall sigterm fs net (allocate : io C exn (option text)) cfg pid password client w e r :
  w_disk w = [] -> daemon_until_attached wall fs net allocate cfg pid password client w = (Raise e, r) ->
  exists d,
    run_daemon wall sigterm fs net allocate cfg pid password client w
    = (Ret tt, mkRun d (option_map Session_close (r_conn r)) (r_secrets r) (r_client r) (r_lost r)) /\
    published (cfg_session_id cfg) d /\ ms_state (d_state d) = STATE_ERROR /\ ms_pid (d_state d) = Some pid /\
    ms_error (d_state d) = Some (redact (Some (failure_message e)) (map Some (r_secrets r))) /\
    ms_error_class (d_state d) = Some (error_class_str (failure_class e)) /\ password ∈ r_secrets r.
Proof.
  intros Hw. unfold daemon_until_attached, run_daemon. set (r0 := mkRun _ _ _ _ _).
  assert (alive (cfg_session_id cfg) (run_endpoint cfg) pid (r_daemon r0)) as H0 by (by split).
  pose proof (persist_alive wall (cfg_session_id cfg) (run_endpoint cfg) pid None (r_daemon r0) H0) as Hp.
  destruct (persist_ok wall (cfg_session_id cfg) (r_daemon r0) None (proj1 H0)) as (d1 & P1 & _).
  unfold io_bind at 1, run_persist at 1, in_daemon at 1. rewrite P1 in Hp |- *. intros H.
  unfold io_bind at 1, run_persist at 1, in_daemon at 1. rewrite P1. cbv iota beta.
  set (r1 := mkRun d1 (r_conn r0) (r_secrets r0) (r_client r0) (r_lost r0)) in *.
  assert (daemon_body wall sigterm fs net allocate cfg r1 = (Raise e, r)) as Hb.
  { rewrite daemon_body_halves. unfold io_bind at 1. by rewrite H. }
  pose proof (daemon_body_triple wall sigterm fs net allocate cfg _ _ [password] (alive_respected wall sigterm cfg pid) r1
                (conj (proj1 Hp) (reflexivity [password]))) as Ht.
  rewrite Hb in Ht. destruct Ht as [[Hd Hl] Hs].
  destruct (report_recorded wall (cfg_session_id cfg) (r_secrets r) e (r_daemon r) Hd) as (d & R1 & R2 & R3 & R4 & R5 & R6).
  exists d. split. { unfold io_try. rewrite Hb. unfold io_bind, io_get, in_daemon. by rewrite R1. }
  split_and!; try done; [by rewrite R6, (lr_pid _ _ _ _ Hl)|apply Hs; left].
Qed.

(** ** The daemon from login to eject *)

(** An attach, from login to eject.  The daemon is started with an image
    it can read; the web server answers the login with a genuine session
    cookie and the launch request with a document that names a token (any
    list of arguments, as the document format writes them); the media port
    acknowledges the token, asks for blocks and closes.  Then the daemon
    ends normally, and: it made exactly two web requests, the login with its
    user name and password and the launch request with its own address,
    which carries the cookie; the first frame on the media port
    authenticates with that very token, and after it every request is
    answered with exactly the frame the disc specification prescribes, in
    order, and nothing else is sent; the connection is closed; the published
    record is detached, names the daemon and the endpoint, the bytes and
    blocks read and the idle polls; the trace log has gained one line per
    READ. *)
Lemma media_attach_end_to_end wall sigterm fs net route cfg pid username password web w
    m l s page cookie pairs answers ip token auth pol :
  let ac := asp_config (session_connection cfg username password) in
  (forall n, sigterm n = false) -> w_disk w = [] -> fs (cfg_image cfg) = RegularFile m -> peer net cfg m l s ->
  AspClient_init ac (cfg_allow_insecure_transport cfg) (cfg_validate_certs cfg) (cfg_ca_path cfg) (cfg_tls_fingerprint cfg) (a_net web) = Ok pol ->
  a_net web = HResponse page :: HResponse (jnlp_document pairs) :: answers ->
  field SESSION_COOKIE_RE page = Some cookie -> cookie <> [] -> looks_like_failed_login cookie = false ->
  route (cfg_host cfg) 80 = Ok ip -> Forall pair_ok pairs ->
  kvm_token (from_arguments (foldl (fun d p => assoc_set d (lower (fst p)) (snd p)) [] pairs)) = Some token ->
  build_auth DEVICE_CDROM (cfg_instance cfg) token false = Ok auth ->
  exists d c web' q1 q2,
    media_daemon wall sigterm fs net route cfg pid username password web w = (Ret tt, mkRun d (Some c) [password; token] web' None) /\
    a_sent web' = a_sent web ++ [q1; q2] /\ a_net web' = answers /\ a_cookie web' = Some cookie /\
    hq_url q1 = base_url ac ++ $"/rpc/WEBSES/create.asp" /\
    hq_data q1 = [($"WEBVAR_USERNAME", username); ($"WEBVAR_PASSWORD", password)] /\
    hq_url q2 = base_url ac ++ $"/Java/jviewer.jnlp" /\ assoc_get (hq_params q2) ($"EXTRNIP") = Some ip /\
    assoc_get (hq_headers q2) ($"Cookie") = Some ($"SessionCookie=" ++ cookie) /\
    closed (c_sock c) = true /\ tx (c_sock c) = tx s ++ auth :: concat (map (item_replies m DEVICE_CDROM) l) /\
    played cfg pid m l (trace_lines (cfg_session_id cfg) w) d.
Proof.
  intros ac Hsig Hd Hfs Hpeer Hpol Hnet Hf Hne Hlf Hr Hpairs Ht Hau.
  rewrite <- (jnlp_roundtrip pairs Hpairs) in Ht.
  pose proof (token_allocated route cfg username password web page (jnlp_document pairs) answers cookie ip token pol
                Hpol Hnet Hf Hne Hlf Hr Ht) as Ha. cbv zeta in Ha. fold ac in Ha.
  destruct (daemon_plays wall sigterm fs net _ cfg pid password web _ w m l s token auth Hsig Hd Hfs Hpeer Ha Hau)
    as (d & c & D1 & D2 & D3 & D4).
  eexists d, c, _, (login_request ac _), (jnlp_request ac ip _). split; [exact D1|].
  split; [cbn; by rewrite <- app_assoc|]. split_and!; try done.
  unfold jnlp_request, headers. cbn [hq_headers a_cookie session_client set_session some_given].
  destruct cookie as [|c0 cookie]; [done|]. done.
Qed.

(** ** A concrete attach *)

Definition demo_item : item := Frame sample_read_header (Packet.payload sample_read10).
Definition demo_sock : sock :=
  mkSock [Arrive (Header.marshal ack_header ++ ack_payload CONN_OK);
          Arrive (Header.marshal sample_read_header ++ Packet.payload sample_read10); Eof] [] [] None false.
Definition demo_pairs : list (text * text) := [($"kvmport", $"5900"); ($"KVMToken", $"t0k3n"); ($"cdport", $"5120")].
Definition demo_page : text := $"WEBVAR_JSONVAR_WEB_SESSION = { 'SESSION_COOKIE' : 'abc123', 'CSRFTOKEN' : 'tok' };".
Definition demo_web : asp := mkAsp None None [HResponse demo_page; HResponse (jnlp_document demo_pairs)] [] [].
Definition demo_auth : bytes := match build_auth DEVICE_CDROM 0 ($"t0k3n") false with Ok a => a | Err _ => [] end.

Lemma demo_peer : peer sample_net sample_config sample_image [demo_item] demo_sock.
Proof.
  pose proof sample_media_items_wf as H1. pose proof sample_media_items_served as H2.
  split; [done|by split| | |].
  - constructor; [|constructor]. rewrite Forall_forall in H1. apply H1. right. left.
  - constructor; [|constructor]. rewrite Forall_forall in H2. apply H2. right. left.
  - exists ack_header, (ack_payload CONN_OK). split_and!; [by repeat split|by vm_compute..].
Qed.

Lemma demo_pairs_ok : Forall pair_ok demo_pairs.
Proof. repeat constructor; cbn; (repeat (apply not_elem_of_cons; split; [done|])); try apply not_elem_of_nil. Qed.
