(* ===== verification/Secrecy.v ===== *)
(** * What the outside gets to read of the secrets

    Two places where a text that somebody else chose is shown to the
    operator: the exceptions of [asp.AspClient], and the record of the media
    daemon.  Both pass the texts through [redact] with the secrets they
    know; [Redaction] says what that is worth.  Here the guarantee is carried
    through the operations: which errors of the client it covers (and which
    it does not), and that no record the daemon publishes, on any path and
    with any disk, shows a secret the daemon held. *)
From Stdlib Require Import ZArith Lia Ascii String.
From stdpp Require Import prelude.
From S2P Require Import Prelude PyBytes PyText Regex Errors Redaction PyValue Models Webvar Asp.
From S2P Require Import IusbFrame IusbCache IusbDevice Transport IusbSession DaemonRuntime MediaSession.

(** ** The web client *)
Section Client.
Context (cfg : AspConfig) (p : text).
Hypothesis ok : redactable p = true.

(** The client knows [p], and the network raises nothing of its own. *)
Definition guarded (a : asp) : Prop := net_classified a /\ p ∈ known_secrets cfg a.
(** Every classified error shows nothing of [p]. *)
Definition hides (e : exn) : Prop := forall err, e = Ikvm err -> error_shows_nothing_of p err.
Definition discreet {A} (c : io asp exn A) : Prop := triple guarded c (fun _ => guarded) (fun e _ => hides e).

Lemma raised_hides c msg ep op diag secrets indet rv :
  p ∈ secrets -> hides (Ikvm (IkvmError_init c msg ep op diag (map Some secrets) indet rv)).
Proof using ok. intros Hp err [= <-]. by apply init_shows_nothing. Qed.

#[local] Opaque IkvmError_init.

Lemma discreet_raise {A} c msg op diag indet rv a :
  guarded a -> match asp_raise (A := A) cfg c msg op diag (known_secrets cfg a) indet rv a with
               | (Raise e, _) => hides e
               | _ => False
               end.
Proof using ok. intros [_ Hp]. by apply raised_hides. Qed.

Lemma guarded_same a a' : a_net a' ⊆ a_net a -> a_cookie a' = a_cookie a -> a_csrf a' = a_csrf a -> guarded a -> guarded a'.
Proof. intros Hn Hc Ht [H1 H2]. split; [intros e He; by apply (H1 e), Hn|]. unfold known_secrets in *. by rewrite Hc, Ht. Qed.

Lemma discreet_ret {A} (x : A) : discreet (io_ret x).
Proof. by apply triple_ret. Qed.
Lemma discreet_bind {A B} (c : io asp exn A) (k : A -> io asp exn B) :
  discreet c -> (forall x, discreet (k x)) -> discreet (io_bind c k).
Proof. intros Hc Hk. eapply triple_bind; [exact Hc|apply Hk]. Qed.

Lemma discreet_send_once method url op data params : discreet (send_once cfg method url op data params).
Proof using ok.
  intros a Ha. unfold send_once. destruct (a_net a) as [|o net] eqn:En; [done|].
  set (a' := mkAsp _ _ _ _ _).
  assert (guarded a') as Ha' by (apply (guarded_same a); [rewrite En; by intros x ?; right|done|done|done]).
  destruct o as [body| |m| |chain|e]; [done|by apply (discreet_raise (A := unit))|by apply (discreet_raise (A := unit))|done| |].
  - destruct (connection_error_is_post_connect chain); [done|by apply (discreet_raise (A := unit))].
  - destruct (proj1 Ha e). rewrite En. left.
Qed.

Lemma discreet_retry retries k method url op data params : discreet (retry_loop cfg retries k method url op data params).
Proof using ok.
  revert k. induction retries as [|retries IH]; intros k; cbn [retry_loop];
    (apply discreet_bind; [apply discreet_send_once|]); intros [body|]; try apply discreet_ret.
  - intros a Ha. by apply (discreet_raise (A := unit)).
  - apply discreet_bind; [|intros _; apply IH]. intros a Ha. by apply (guarded_same a).
Qed.

Lemma discreet_request method path op data : discreet (asp_request cfg method path op data).
Proof using ok. apply discreet_retry. Qed.

Lemma discreet_expired body op : discreet (raise_if_session_expired cfg body op).
Proof using ok.
  unfold raise_if_session_expired. destruct (negb _); [apply discreet_ret|]. intros a Ha. by apply (discreet_raise (A := unit)).
Qed.

(** A page read: what is left over are the errors of the parser. *)
Lemma fetch_hides le method endpoint op data :
  triple guarded (fetch_webvar cfg le method endpoint op data) (fun _ => guarded)
    (fun e _ => hides e \/ exists body err, e = Ikvm err /\ parse_webvar le body (Some endpoint) (Some op) = Err err).
Proof using ok.
  unfold fetch_webvar. eapply triple_bind.
  { eapply triple_conseq; [apply discreet_request|done|done|]. cbn. by left. }
  intros body. eapply triple_bind.
  { eapply triple_conseq; [apply discreet_expired|done|done|]. cbn. by left. }
  intros ?. cbn beta. destruct (parse_webvar _ _ _ _) as [r|err] eqn:E; [by apply triple_ret|]. apply triple_raise. intros ? ?. right. by exists body, err.
Qed.

Lemma allocate_hides ip secure : triple (fun a => guarded a /\ a_cookie a <> None) (allocate_media_session cfg ip secure) (fun _ => guarded) (fun e _ => hides e).
Proof using ok.
  intros a [Ha Hc]. unfold allocate_media_session, io_bind at 1, io_get. destruct (a_cookie a) as [c|]; [|done].
  apply (discreet_bind (send_with_retry _ _ _ _ _ _)); [apply discreet_retry| |exact Ha].
  intros body. destruct (kvm_token _); [apply discreet_ret|]. intros b Hb. by apply (discreet_raise (A := unit)).
Qed.

(** A login speaks of its own password only. *)
Lemma login_hides : p = ac_password cfg -> triple guarded (login cfg) (fun _ _ => True) (fun e _ => hides e).
Proof using ok.
  intros Hpw. unfold login. eapply triple_bind; [apply discreet_request|]. intros body. cbn beta.
  destruct (field SESSION_COOKIE_RE body) as [c|].
  - destruct (_ || _); [|eapply triple_bind; [by apply (triple_modify _ _ (fun _ _ => True))|intros ?; by apply triple_ret]].
    apply triple_raise. intros a _. apply raised_hides. rewrite Hpw. left.
  - intros a Ha. by apply (discreet_raise (A := unit)).
Qed.
End Client.

(** C10: The client's errors show none of its secrets.  For a secret that
    [redact] can remove (see [Redaction.redactable]) and a network whose
    failures are those the client names: a classified error raised by a
    request (through its retries), by the host status page or, once there is
    a session, by the allocation of a media session contains neither in its
    message nor in its diagnostic the password, the session cookie or the
    anti-forgery token the client holds; the login's errors do not contain
    the password (of an older cookie or token nothing is claimed there); of
    the errors of a page read, only those of the response parser are not
    covered. *)
Theorem client_errors_redacted cfg le p a :
  redactable p = true -> net_classified a -> p ∈ known_secrets cfg a ->
  (forall method path op data e a', asp_request cfg method path op data a = (Raise e, a') -> hides p e) /\
  (forall e a', get_host_status cfg a = (Raise e, a') -> hides p e) /\
  (forall ip secure e a', a_cookie a <> None -> allocate_media_session cfg ip secure a = (Raise e, a') -> hides p e) /\
  (forall e a', p = ac_password cfg -> login cfg a = (Raise e, a') -> hides p e) /\
  (forall method endpoint op data e a', fetch_webvar cfg le method endpoint op data a = (Raise e, a') ->
     hides p e \/ exists body err, e = Ikvm err /\ parse_webvar le body (Some endpoint) (Some op) = Err err).
Proof.
  intros Hp Hn Hk. assert (guarded cfg p a) as Ha by done. split_and!.
  - intros method path op data e a' H. pose proof (discreet_request cfg p Hp method path op data a Ha) as Hd. by rewrite H in Hd.
  - intros e a' H. assert (discreet cfg p (get_host_status cfg)) as Hd.
    { apply discreet_bind; [by apply discreet_request|]. intros body. apply discreet_bind; [by apply discreet_expired|]. intros _. apply discreet_ret. }
    specialize (Hd a Ha). by rewrite H in Hd.
  - intros ip secure e a' Hc H. pose proof (allocate_hides cfg p Hp ip secure a (conj Ha Hc)) as Hd. by rewrite H in Hd.
  - intros e a' Hpw H. pose proof (login_hides cfg p Hp Hpw a Ha) as Hd. by rewrite H in Hd.
  - intros method endpoint op data e a' H. pose proof (fetch_hides cfg p Hp le method endpoint op data a Ha) as Hd. by rewrite H in Hd.
Qed.

(** The errors of the parser and of a refused write are made without the
    client's secrets: a page that echoes the password puts it into the
    diagnostic. *)
Example parse_error_echoes_password :
  match fetch_webvar demo_asp_cfg (fun _ => None) ($"GET") ($"getlog") ($"x") [] (demo_client [HResponse ($"denied for pw")]) with
  | (Raise (Ikvm e), _) => diagnostic e = Some ($"denied for pw") /\ ac_password demo_asp_cfg = $"pw"
  | _ => False
  end.
Proof. by vm_compute. Qed.

(** ** The media daemon's record *)
Section Record_.
Variable wall : Z -> Z.
Variable sigterm : Z -> bool.
Variable cfg : SessionConfig.
Local Abbreviation sid := (cfg_session_id cfg).

Definition closed_text : text := $"connection closed by peer".
Definition killed_text : text := $"BMC sent a redirection-terminate (opcode 0xF6)".

(** No error, or one of the two fixed texts. *)
Definition plain (st : MediaState) : Prop := ms_error st = None \/ ms_error st = Some closed_text \/ ms_error st = Some killed_text.
Definition record_of (d : daemon) : option (content MediaState TraceLine) := file_at (d_world d) (state_file_path sid).
Definition plain_file (d : daemon) : Prop := forall st, record_of d = Some (Doc st) -> plain st.
Definition quiet (d : daemon) : Prop := plain (d_state d) /\ plain_file d.

(** What the published record keeps to itself. *)
Definition record_hides (p : text) (d : daemon) : Prop :=
  forall st e, record_of d = Some (Doc st) -> ms_error st = Some e -> shows_nothing_of p e.
Definition sayable (p : text) : Prop := redactable p = true /\ absent p closed_text /\ absent p killed_text.
Definition record_discreet (secrets : list text) (d : daemon) : Prop := forall p, p ∈ secrets -> sayable p -> record_hides p d.

Lemma plain_hides p st e : sayable p -> plain st -> ms_error st = Some e -> shows_nothing_of p e.
Proof.
  intros (_ & H1 & H2) [H|[H|H]] He; [congruence|..]; rewrite H in He; injection He as <-.
  - exists closed_text. split; [done|]. left. split; [done|]. by vm_compute; lia.
  - exists killed_text. split; [done|]. left. split; [done|]. by vm_compute; lia.
Qed.

Lemma plain_file_discreet secrets d : plain_file d -> record_discreet secrets d.
Proof. intros Hf p _ Hp st e Hst He. by apply (plain_hides p st e Hp (Hf st Hst)). Qed.

(** A write of the record: it holds the daemon's own, or is what it was. *)
Lemma persist_writes now d : match persist wall sid now d with
  | (Ret _, d') => ms_error (d_state d') = ms_error (d_state d) /\ record_of d' = Some (Doc (d_state d'))
  | (_, d') => ms_error (d_state d') = ms_error (d_state d) /\ record_of d' = record_of d
  end.
Proof.
  unfold persist, io_bind, update_state, io_modify, io_get, on_world, write_state_atomic, io_bind, disk_step.
  destruct now as [t|]; cbn [io_ret now_iso]; unfold io_ret, now_iso; cbn [d_world d_state];
    destruct (w_disk (d_world d)) as [|[x|] q]; split; try done; unfold record_of, file_at; cbn; by rewrite assoc_get_set_eq.
Qed.

Lemma quiet_step d d' :
  ms_error (d_state d') = ms_error (d_state d) -> (record_of d' = record_of d \/ record_of d' = Some (Doc (d_state d'))) ->
  quiet d -> quiet d'.
Proof.
  intros He Hr [H1 H2]. assert (plain (d_state d')) as H1' by (unfold plain in *; by rewrite He). split; [done|].
  intros st Hst. destruct Hr as [Hr|Hr]; [apply H2; congruence|]. rewrite Hst in Hr. by injection Hr as ->.
Qed.

Lemma quiet_persist now : triple quiet (persist wall sid now) (fun _ => quiet) (fun _ => quiet).
Proof.
  intros d Hd. pose proof (persist_writes now d) as H.
  destruct (persist wall sid now d) as [[u|e|] d']; [..|done]; destruct H as [He Hr]; eapply quiet_step; eauto.
Qed.

(** Changes of other fields, and of other files. *)
Lemma quiet_update f : (forall st, ms_error (f st) = ms_error st) -> triple quiet (update_state (E := exn) f) (fun _ => quiet) (fun _ => quiet).
Proof. intros Hf d Hd. apply (quiet_step d); [apply Hf|by left|done]. Qed.
Lemma quiet_now : triple quiet (now_iso (E := exn) wall) (fun _ => quiet) (fun _ => quiet).
Proof. intros d Hd. by apply (quiet_step d); [|left|]. Qed.
Lemma quiet_world (f : io MWorld exn unit) :
  (forall w, file_at (f w).2 (state_file_path sid) = file_at w (state_file_path sid)) -> triple quiet (on_world f) (fun _ => quiet) (fun _ => quiet).
Proof.
  intros Hf d Hd. specialize (Hf (d_world d)). unfold on_world. destruct (f (d_world d)) as [o w'].
  destruct o; [..|done]; (apply (quiet_step d); [done|by left|done]).
Qed.

Lemma log_keeps_record (lines : MWorld -> list TraceLine) (w : MWorld) :
  file_at ((run disk_step; io_modify (fun w => set_files w (assoc_set (w_files w) (read_trace_log_path sid) (LineLog (lines w))))) w).2
    (state_file_path sid) = file_at w (state_file_path sid).
Proof.
  unfold io_bind, disk_step, io_modify, file_at. destruct (w_disk w) as [|[x|] q]; [..|]; cbn; try done;
    by rewrite assoc_get_set_ne by (apply trace_path_ne).
Qed.

Lemma close_error t st : ms_error (close_idle_streak t st) = ms_error st.
Proof. unfold close_idle_streak. by destruct (ms_current_idle_streak st). Qed.
Lemma idle_error t st : ms_error (note_idle t st) = ms_error st.
Proof. done. Qed.

Lemma quiet_idle : triple quiet (on_idle wall sid) (fun _ => quiet) (fun _ => quiet).
Proof.
  eapply triple_bind; [apply quiet_now|intros t]. eapply triple_bind; [by apply quiet_update|intros ?]. apply quiet_persist.
Qed.

Lemma quiet_request req dev : triple quiet (on_request wall sid req dev) (fun _ => quiet) (fun _ => quiet).
Proof.
  eapply triple_bind; [apply quiet_now|intros t]. eapply triple_bind; [apply quiet_update, close_error|intros ?].
  eapply triple_bind; [by apply quiet_update|intros ?]. eapply triple_bind with (Q := fun _ => quiet).
  { destruct (trace_entry req) as [e|]; [|by apply triple_ret]. apply quiet_world. intros w. apply (log_keeps_record (fun w => trace_lines sid w ++ [Entry e])). }
  intros ?. eapply triple_bind; [by apply quiet_update|intros ?]. apply quiet_persist.
Qed.

Lemma quiet_serve s : triple (fun q : conn * (daemon * device) => quiet q.2.1) (media_serve wall sigterm sid s) (fun _ q => quiet q.2.1) (fun _ q => quiet q.2.1).
Proof.
  assert (forall A (f : io daemon exn A), triple quiet f (fun _ => quiet) (fun _ => quiet) ->
    triple (fun u : daemon * device => quiet u.1) (on_daemon f) (fun _ u => quiet u.1) (fun _ u => quiet u.1)) as Hon.
  { intros A f Hf [d dev] Hd. specialize (Hf d Hd). unfold on_daemon. cbn. by destruct (f d) as [[] d']. }
  intros q Hq. unfold media_serve, serve_forever. apply (serve_loop_keeps (fun u : daemon * device => quiet u.1)); [..|done].
  - intros req [d dev] Hd. unfold media_handle, on_device. cbn in *. by destruct (handle req dev) as [[] ?].
  - apply Hon. intros d Hd. by apply (quiet_step d); [|left|].
  - apply Hon, quiet_idle.
  - intros req [d dev] Hd. by apply (Hon _ (on_request wall sid req dev)); [apply quiet_request|].
Qed.

(** The end of the serve loop writes one of the fixed texts; a failure of
    that write leaves the record as it was. *)
Lemma quiet_finish o dev : triple quiet (finish wall sid o dev) (fun _ => quiet) (fun _ => quiet).
Proof.
  eapply triple_bind; [apply quiet_now|intros t]. eapply triple_bind; [apply quiet_update, close_error|intros ?].
  eapply triple_bind; [by apply quiet_update|intros ?]. eapply triple_bind; [|intros ?; apply quiet_persist].
  intros d [_ H2]. split; [|exact H2]. destruct o; [left|right; left|right; right]; done.
Qed.

(** A report shows nothing of the secrets it was given. *)
Lemma report_discreet secrets e :
  triple quiet (report_exception wall sid secrets e) (fun _ => record_discreet secrets) (fun _ => record_discreet secrets).
Proof.
  assert (forall msg cls, triple quiet (fail wall sid secrets msg cls) (fun _ => record_discreet secrets) (fun _ => record_discreet secrets)) as Hf.
  { intros msg cls d [_ H2]. unfold fail, io_bind, update_state, io_modify.
    set (d1 := mkDaemon (set_status STATE_ERROR _ _ _ _) _ _ _). pose proof (persist_writes None d1) as H.
    destruct (persist wall sid None d1) as [[u|x|] d2]; [| |done]; destruct H as [He Hr].
    - intros p Hp (Hok & _) st t Hst Ht. rewrite Hst in Hr. injection Hr as ->. rewrite He in Ht.
      change (ms_error (d_state d1)) with (Some (redact (Some msg) (map Some secrets))) in Ht. assert (t = redact (Some msg) (map Some secrets)) as -> by congruence.
      apply redact_shows_nothing; [done|]. by apply list_elem_of_fmap_2.
    - apply plain_file_discreet. intros st Hst. apply H2. by rewrite Hr in Hst. }
  unfold report_exception. destruct e; apply Hf.
Qed.

Lemma quiet_respected : respected wall sigterm cfg quiet record_discreet.
Proof.
  split.
  - apply quiet_persist.
  - intros st d Hd. by apply (quiet_step d); [|left|].
  - apply quiet_world. intros w. apply (log_keeps_record (trace_lines sid)).
  - apply quiet_serve.
  - intros l o dev. eapply triple_conseq; [apply quiet_finish|done| |done]. intros _ d [_ Hd]. by apply plain_file_discreet.
Qed.
End Record_.

(** C9: No record of the media daemon shows a secret.  For a session that
    finds no record of its own when it starts: whatever the image, the web
    client, the media port, the signals and the disk do, the state file of
    the session, as it is when the daemon ends or stops at a write that
    fails, shows in its error none of the secrets the daemon knows, as long
    as the secret is one that [redact] can remove (not empty, without
    brackets, slash and greater-than sign, not part of the word of the
    marker) and no part of the two fixed texts for a session that ended.  The
    daemon knows its password, and, once one was allocated, its media
    token. *)
Theorem daemon_record_hides_secrets {C : Type} wall sigterm fs net (allocate : io C exn (option text)) cfg pid password client w :
  (forall st, file_at w (state_file_path (cfg_session_id cfg)) <> Some (Doc st)) ->
  let '(o, r) := run_daemon wall sigterm fs net allocate cfg pid password client w in
  o <> Blocked -> record_discreet cfg (r_secrets r) (r_daemon r) /\ password ∈ r_secrets r /\
  forall token client', w_disk w = [] -> (exists reader, FileReader_open fs (cfg_image cfg) = Ok reader) ->
    allocate client = (Ret (Some token), client') -> token ∈ r_secrets r.
Proof.
  intros Hw. unfold run_daemon. set (r0 := mkRun _ _ _ _ _).
  assert (quiet cfg (r_daemon r0)) as H0.
  { split; [by left|]. intros st Hst. exfalso. apply (Hw st). revert Hst. unfold record_of, file_at. cbn. rewrite assoc_get_set_ne; [done|].
    unfold log_file_path, state_file_path. intros H. apply (f_equal (fun l => last l)) in H. rewrite !last_app in H. vm_compute in H. discriminate. }
  unfold io_bind at 1, run_persist at 1, in_daemon at 1.
  pose proof (quiet_persist wall cfg None (r_daemon r0) H0) as Hp. pose proof (persist_ok wall (cfg_session_id cfg) (r_daemon r0) None) as Hok.
  destruct (persist wall (cfg_session_id cfg) None (r_daemon r0)) as [[[]|e|] d1]; [| |done].
  2: { intros _. split; [apply plain_file_discreet, Hp|]. split; [left|]. intros token client' Hd. by destruct (Hok Hd) as (d' & H & _). }
  change (io_try _ _) with (guarded_body wall sigterm fs net allocate cfg).
  set (r1 := mkRun d1 (r_conn r0) (r_secrets r0) (r_client r0) (r_lost r0)).
  pose proof (guarded_body_triple wall sigterm fs net allocate cfg _ _ [password] (quiet_respected wall sigterm cfg)
                (fun l _ => record_discreet cfg l) (report_discreet wall cfg) r1 (conj Hp (reflexivity [password]))) as Ht.
  assert (w_disk w = [] -> disk_ok d1) as Hd1 by (intros Hd; destruct (Hok Hd) as (d' & H & H' & _); injection H as <-; exact H').
  pose proof (fun token client' Hd Hf Ha => guarded_secret wall sigterm fs net allocate cfg r1 token client' (Hd1 Hd) Hf Ha) as Hs.
  destruct (guarded_body _ _ _ _ _ _ r1) as [[[]|e|] r]; [..|done]; intros _; destruct Ht as [H1 H2]; (split; [done|]; split; [apply H2; left|exact Hs]).
Qed.

(** ** The properties at concrete runs *)

Lemma client_errors_redacted_witness :
  let a := demo_client [HSSLError ($"proxy said c00kie=1")] in
  exists e a', asp_request demo_asp_cfg ($"GET") ($"/x") ($"x") [] a = (Raise (Ikvm e), a') /\ shows_nothing_of ($"c00kie") (message e).
Proof.
  intros a. destruct (asp_request demo_asp_cfg ($"GET") ($"/x") ($"x") [] a) as [[b|x|] a'] eqn:E; [vm_compute in E; discriminate E| |vm_compute in E; discriminate E].
  assert (exists e, x = Ikvm e) as [e ->] by (vm_compute in E; injection E as <- _; eexists; reflexivity).
  exists e, a'. split; [reflexivity|].
  refine (proj1 (proj1 (client_errors_redacted demo_asp_cfg (fun _ => None) ($"c00kie") a _ _ _) _ _ _ _ _ _ E _ eq_refl)).
  - vm_compute. reflexivity.
  - intros x Hx. unfold a, demo_client in Hx. cbn in Hx. apply list_elem_of_singleton in Hx. discriminate Hx.
  - unfold a, known_secrets. cbn. right. left.
Defined.

(** A web client that dies of an error with the password in it. *)
Definition leaky_client : io unit exn (option text) := io_raise (OSError ($"curl --user admin:hunter2 failed")).

Lemma daemon_record_hides_secrets_witness :
  let '(o, r) := run_daemon (fun n => n) (fun _ => false) sample_fs sample_net leaky_client sample_config 40 ($"hunter2") tt
                   (mkWorld [] [] 0 []) in
  o = Ret tt /\ record_hides sample_config ($"hunter2") (r_daemon r) /\
  match record_of sample_config (r_daemon r) with
  | Some (Doc st) => ms_error st = Some ($"unexpected error: curl --user admin:[REDACTED] failed")
  | _ => False
  end.
Proof.
  pose proof (daemon_record_hides_secrets (fun n => n) (fun _ => false) sample_fs sample_net leaky_client sample_config 40 ($"hunter2") tt
                (mkWorld [] [] 0 []) ltac:(intros st; discriminate)) as H.
  destruct (run_daemon _ _ _ _ _ _ _ _ _ _) as [o r] eqn:E.
  assert (o = Ret tt) as Ho by (vm_compute in E; injection E as <- _; reflexivity).
  assert (match record_of sample_config (r_daemon r) with
          | Some (Doc st) => ms_error st = Some ($"unexpected error: curl --user admin:[REDACTED] failed")
          | _ => False end) as Hr by (vm_compute in E; injection E as _ <-; vm_compute; reflexivity).
  split; [exact Ho|]. split; [|exact Hr]. destruct (H ltac:(rewrite Ho; discriminate)) as (H1 & H2 & _).
  apply (H1 ($"hunter2") H2). split; [vm_compute; reflexivity|]. split; vm_compute; reflexivity.
Defined.
