(* ===== verification/Ipmi.v ===== *)
(** * ipmi.py: the classified wrapper over the IPMI library

    The library [pyghmi] is outside: each call consumes the next of the
    replies it will give (a value, one of its exceptions, or an exception of
    another kind), and the calls made are recorded with their arguments. *)
From Stdlib Require Import ZArith Lia Ascii String.
From stdpp Require Import prelude.
From S2P Require Import Prelude PyBytes PyText Regex Errors Models PyValue.

Inductive ipmi_call : Type :=
  | Connect (bmc : text) (port : Z) (userid password : text)
  | GetPower
  | SetPower (state : text) (wait : option Z)          (* [None]: wait=False *)
  | GetBootdev
  | SetBootdev (device : text) (persist uefiboot : bool)
  | GetMci
  | ResetBmc
  | RawCommand (netfn command : Z) (retry : bool)
  | SetIdentify (on : bool) (duration : option Z) (blink : bool).

Inductive ipmi_reply : Type :=
  | RValue (v : pyval)
  | RPyghmi (msg : text)          (* PyghmiException and its subclasses but the next *)
  | RUnsupported (msg : text)     (* UnsupportedFunctionality *)
  | ROther (e : exn).

Record ipmi : Type := mkIpmi {
  i_replies : list ipmi_reply;
  i_calls : list ipmi_call;
}.

(** What a call of the library comes to: a value, the message of a library
    exception with whether it is [UnsupportedFunctionality], or another
    exception. *)
Inductive lib_outcome : Type :=
  | LValue (v : pyval)
  | LError (msg : text) (unsupported : bool).

Definition call_lib (c : ipmi_call) : io ipmi exn lib_outcome := fun i =>
  match i_replies i with
  | [] => (Blocked, i)
  | r :: rs =>
      let i := mkIpmi rs (i_calls i ++ [c]) in
      match r with
      | RValue v => (Ret (LValue v), i)
      | RPyghmi m => (Ret (LError m false), i)
      | RUnsupported m => (Ret (LError m true), i)
      | ROther e => (Raise e, i)
      end
  end.

(** [dict(v)] of what the library returned *)
Definition dict_of (v : pyval) : result exn pydict :=
  match v with
  | PDict d => Ok d
  | _ => Err (TypeError ($"cannot convert dictionary update sequence"))
  end.

Definition SET_POWER_WAIT_TIMEOUT_MESSAGE : text := $"System did not accomplish power state change".
Definition AUTH_FAILURE_MARKERS : list text := [$"password"; $"rakp"; $"unauthorized"; $"wrong kg"].
Definition TIMEOUT_MARKER : text := $"timeout".
Definition RESET_NETFN : Z := 6.
Definition WARM_RESET_COMMAND : Z := 3.
Definition BLINK_UNSUPPORTED_MESSAGE : text := $"Blink not supported with generic IPMI".

(** [_classify_session_error] *)
Definition classify_session_error (message : text) : ErrorClass :=
  let lowered := lower message in
  if existsb (fun marker => contains marker lowered) AUTH_FAILURE_MARKERS then AUTHENTICATION
  else if contains TIMEOUT_MARKER lowered then TIMEOUT
  else CONNECTION.

(** ** [class IpmiClient] *)

Record IpmiClient : Type := mkClient {
  ic_host : text;
  ic_port : Z;
  ic_username : text;
  ic_password : text;
}.

Section IpmiClient.
Context (c : IpmiClient).

Definition ipmi_endpoint : text := ic_host c ++ $":" ++ dec (ic_port c).
Definition ipmi_secrets : list (option text) := match ic_password c with [] => [] | p => [Some p] end.

Definition ipmi_raise {A} (cls : ErrorClass) (msg op : text) (indeterminate : bool) : io ipmi exn A :=
  io_raise (Ikvm (IkvmError_init cls msg (Some ipmi_endpoint) (Some op) None ipmi_secrets indeterminate None)).

(** [_connect], called by the constructor *)
Definition ipmi_connect : io ipmi exn unit :=
  do r <- call_lib (Connect (ic_host c) (ic_port c) (ic_username c) (ic_password c));
  match r with
  | LValue _ => io_ret tt
  | LError m _ =>
      ipmi_raise (classify_session_error m)
        ($"Could not establish an IPMI session with " ++ ipmi_endpoint ++ $": " ++ m) ($"ipmi_connect") false
  end.

Definition get_power_state : io ipmi exn pydict :=
  do r <- call_lib GetPower;
  match r with
  | LValue v => io_lift (dict_of v)
  | LError m _ => ipmi_raise REMOTE_OPERATION ($"IPMI get-power-state failed: " ++ m) ($"get_power") false
  end.

Definition set_power_state (state : text) (wait : option Z) : io ipmi exn pydict :=
  do r <- call_lib (SetPower state wait);
  match r with
  | LValue v => io_lift (dict_of v)
  | LError m _ =>
      if contains SET_POWER_WAIT_TIMEOUT_MESSAGE m then
        ipmi_raise TIMEOUT
          ($"IPMI accepted the '" ++ state ++ $"' power request, but confirmation of it timed out before observing the target state (" ++ m
           ++ $"). The BMC may already have applied the transition -- re-probe (e.g. asmb8_info or asmb8_power with a read) rather than blindly retrying this request.")
          ($"set_power") true
      else
        ipmi_raise REMOTE_OPERATION ($"IPMI set-power-state to '" ++ state ++ $"' failed: " ++ m) ($"set_power") false
  end.

Definition get_boot_device : io ipmi exn pydict :=
  do r <- call_lib GetBootdev;
  match r with
  | LValue v => io_lift (dict_of v)
  | LError m _ => ipmi_raise REMOTE_OPERATION ($"IPMI get-boot-device failed: " ++ m) ($"get_bootdev") false
  end.

Definition set_boot_device (device : text) (persist uefiboot : bool) : io ipmi exn pydict :=
  do r <- call_lib (SetBootdev device persist uefiboot);
  match r with
  | LError m _ =>
      ipmi_raise REMOTE_OPERATION ($"IPMI set-boot-device to '" ++ device ++ $"' failed: " ++ m) ($"set_bootdev") false
  | LValue v =>
      do response <- io_lift (dict_of v);
      match dict_find response ($"error") with
      | Some err =>
          ipmi_raise REMOTE_OPERATION ($"IPMI set-boot-device to '" ++ device ++ $"' was rejected: " ++ str_of err) ($"set_bootdev") false
      | None => io_ret response
      end
  end.

Definition get_mc_info : io ipmi exn pyval :=
  do r <- call_lib GetMci;
  match r with
  | LValue PNone => io_ret PNone
  | LValue v => io_ret (PStr (str_of v))
  | LError m _ => ipmi_raise REMOTE_OPERATION ($"IPMI get-management-controller-info failed: " ++ m) ($"get_mci") false
  end.

(** The dictionary display that puts the mode before the response's keys. *)
Definition with_mode (mode : text) (response : pydict) : pydict :=
  match dict_find response ($"mode") with
  | Some m => (PStr ($"mode"), m) :: List.filter (fun p => negb (is_key ($"mode") (fst p))) response
  | None => (PStr ($"mode"), PStr mode) :: response
  end.

Definition reset_bmc (mode : text) : io ipmi exn pydict :=
  do r <- call_lib (if text_eqb mode ($"cold") then ResetBmc else RawCommand RESET_NETFN WARM_RESET_COMMAND false);
  match r with
  | LError m _ => ipmi_raise REMOTE_OPERATION ($"IPMI " ++ mode ++ $" reset failed: " ++ m) ($"reset_bmc") false
  | LValue v =>
      do response <- if text_eqb mode ($"cold") then io_ret [] else io_lift (dict_of (py_or v (PDict [])));
      match dict_find response ($"error") with
      | Some err => ipmi_raise REMOTE_OPERATION ($"IPMI " ++ mode ++ $" reset was rejected: " ++ str_of err) ($"reset_bmc") false
      | None => io_ret (with_mode mode response)
      end
  end.

Definition set_identify (on : bool) (duration : option Z) : io ipmi exn unit :=
  let op := $"set_identify" in
  do r <- call_lib (SetIdentify on duration false);
  match r with
  | LValue _ => io_ret tt
  | LError m true =>
      ipmi_raise UNSUPPORTED_CAPABILITY ($"IPMI set-identify is not supported by this endpoint: " ++ m) op false
  | LError m false =>
      if contains BLINK_UNSUPPORTED_MESSAGE m then ipmi_raise UNSUPPORTED_CAPABILITY ($"IPMI set-identify failed: " ++ m) op false
      else ipmi_raise REMOTE_OPERATION ($"IPMI set-identify failed: " ++ m) op false
  end.
End IpmiClient.

(** ** Lemmas *)

(** What a computation calls, and only classified errors. *)
Section IpmiLogic.
Context (P : ipmi_call -> Prop).

Definition only_calls {A} (c : io ipmi exn A) : Prop :=
  forall i, exists l, i_calls (c i).2 = i_calls i ++ l /\ Forall P l.

Lemma calls_keep {A} (c : io ipmi exn A) : (forall i, i_calls (c i).2 = i_calls i) -> only_calls c.
Proof. intros H i. exists []. by rewrite H, app_nil_r. Qed.
Lemma calls_ret {A} (x : A) : only_calls (io_ret x).
Proof. by apply calls_keep. Qed.
Lemma calls_raise {A} e : only_calls (io_raise (A := A) e).
Proof. by apply calls_keep. Qed.
Lemma calls_lift {A} (c : result exn A) : only_calls (io_lift c).
Proof. apply calls_keep. by destruct c. Qed.
Lemma calls_bind {A B} (c : io ipmi exn A) (k : A -> io ipmi exn B) :
  only_calls c -> (forall x, only_calls (k x)) -> only_calls (io_bind c k).
Proof.
  intros Hc Hk i. unfold io_bind. destruct (Hc i) as (l & Hl & HP). destruct (c i) as [[x|e|] i1]; cbn in *;
    [|by exists l..]. destruct (Hk x i1) as (l2 & Hl2 & HP2). exists (l ++ l2).
  rewrite Hl2, Hl, <- app_assoc. split; [done|]. by apply Forall_app.
Qed.
Lemma calls_call x : P x -> only_calls (call_lib x).
Proof.
  intros Hx i. unfold call_lib. destruct (i_replies i) as [|r rs]; [exists []; by rewrite app_nil_r|].
  exists [x]. destruct r; (split; [done|by repeat constructor]).
Qed.
End IpmiLogic.
#[export] Hint Resolve calls_ret calls_raise calls_lift calls_bind calls_call : ikvm.


Lemma calls_connect (P : ipmi_call -> Prop) c :
  P (Connect (ic_host c) (ic_port c) (ic_username c) (ic_password c)) -> only_calls P (ipmi_connect c).
Proof. intros H. apply calls_bind; [by apply calls_call|]. intros [v|m u]; [apply calls_ret|apply calls_raise]. Qed.
Lemma calls_get_power P c : P GetPower -> only_calls P (get_power_state c).
Proof. intros H. apply calls_bind; [by apply calls_call|]. intros [v|m u]; [apply calls_lift|apply calls_raise]. Qed.
Lemma calls_set_power (P : ipmi_call -> Prop) c state wait : P (SetPower state wait) -> only_calls P (set_power_state c state wait).
Proof.
  intros H. apply calls_bind; [by apply calls_call|]. intros [v|m u]; [apply calls_lift|].
  destruct (contains _ m); apply calls_raise.
Qed.
Lemma calls_get_bootdev P c : P GetBootdev -> only_calls P (get_boot_device c).
Proof. intros H. apply calls_bind; [by apply calls_call|]. intros [v|m u]; [apply calls_lift|apply calls_raise]. Qed.
Lemma calls_set_bootdev (P : ipmi_call -> Prop) c device persist uefi :
  P (SetBootdev device persist uefi) -> only_calls P (set_boot_device c device persist uefi).
Proof.
  intros H. apply calls_bind; [by apply calls_call|]. intros [v|m u]; [|apply calls_raise].
  apply calls_bind; [apply calls_lift|]. intros d. destruct (dict_find d _); [apply calls_raise|apply calls_ret].
Qed.
Lemma calls_get_mci P c : P GetMci -> only_calls P (get_mc_info c).
Proof. intros H. apply calls_bind; [by apply calls_call|]. intros [[]|m u]; first [apply calls_ret|apply calls_raise]. Qed.
#[export] Hint Resolve calls_connect calls_get_power calls_set_power calls_get_bootdev calls_set_bootdev calls_get_mci : ikvm.
