(* ===== verification/IpmiModules.v ===== *)
(** * modules/asmb8_power.py, asmb8_boot.py, asmb8_identify.py, asmb8_reset.py

    The four modules that act over IPMI: read the state where there is one,
    plan, act unless in check mode, and report with a receipt. *)
From Stdlib Require Import ZArith Lia Ascii String.
From stdpp Require Import prelude.
From S2P Require Import Prelude PyBytes PyText Regex Errors Models PyValue Webvar Asp Ansible Ipmi.

Definition POWER_STATES : list text := [$"on"; $"off"; $"shutdown"; $"reset"; $"boot"].
Definition BOOT_DEVICES : list text := [$"network"; $"floppy"; $"hd"; $"safe"; $"optical"; $"setup"; $"default"].

(** [build_ipmi_client]: the session is opened by the constructor. *)
Definition ipmi_client (p : Connection) : IpmiClient := mkClient (c_host p) (c_ipmi_port p) (c_username p) (c_password p).
Definition build_ipmi_client (p : Connection) : io ipmi exn IpmiClient :=
  run ipmi_connect (ipmi_client p); io_ret (ipmi_client p).

(** An early [exit_json] inside the guarded part, or the values the rest of
    the module needs. *)
Definition settle_or {A} (k : A -> module_result) (r : module_result + A) : io ipmi exn module_result :=
  io_ret match r with
         | inl m => m
         | inr x => k x
         end.

(** ** asmb8_power *)
Module Power.
(** [_connection_argument_spec] of asmb8_power.py *)
Definition connection_argument_spec : argspec :=
  [($"host", arg_req TStr);
   ($"port", arg_def TInt (PInt 443));
   ($"username", arg_def TStr (PStr ($"admin")));
   ($"password", arg_secret true);
   ($"use_tls", arg_def TBool (PBool true));
   ($"allow_insecure_transport", arg_def TBool (PBool false));
   ($"validate_certs", arg_def TBool (PBool true));
   ($"ca_path", arg_opt TPath);
   ($"tls_fingerprint", arg_opt TStr);
   ($"timeout", arg_def TInt (PInt 30));
   ($"connect_timeout", arg_def TInt (PInt 10));
   ($"ipmi_port", arg_def TInt (PInt DEFAULT_IPMI_PORT))].
Definition argument_spec : argspec :=
  connection_argument_spec ++ [($"state", arg_choice POWER_STATES); ($"wait_timeout", arg_def TInt (PInt 60))].

Definition CONFIRMABLE_STATES : list text := [$"on"; $"off"; $"shutdown"].

(** Whether a power command needs to be sent at all. *)
Definition plan (state : text) (previous_powerstate : pyval) : bool := negb (py_eq previous_powerstate (PStr state)).

Definition result_fields (changed : bool) (state : text) (previous observed : pydict) (operation : pyval) : module_result :=
  ExitJson [($"changed", PBool changed); ($"state", PStr state); ($"previous_state", PDict previous);
            ($"desired_state", PStr state); ($"observed", PDict observed); ($"operation", operation)].

Definition main (lib : library) (p : Connection) (check_mode : bool) (state : text) (wait_timeout : Z)
    : io ipmi exn module_result :=
  with_library lib
    (try_ikvm
       (do client <- build_ipmi_client p;
        do previous <- get_power_state client;
        let changed := plan state (get previous ($"powerstate")) in
        if negb changed || check_mode then
          io_ret (inl (result_fields changed state previous previous
                         (receipt ($"asmb8_power." ++ state) (ipmi_endpoint client) changed (PDict previous) (PStr state) (PDict previous))))
        else
          let wait := if bool_decide (state ∈ CONFIRMABLE_STATES) then Some wait_timeout else None in
          do observed <- set_power_state client state wait;
          io_ret (inr (client, previous, observed)))
       (settle_or (fun '(client, previous, observed) =>
          result_fields true state previous observed
            (receipt ($"asmb8_power." ++ state) (ipmi_endpoint client) true (PDict previous) (PStr state) (PDict observed))))).
End Power.

(** ** asmb8_boot *)
Module Boot.
(** [_connection_argument_spec] of asmb8_boot.py *)
Definition connection_argument_spec : argspec :=
  [($"host", arg_req TStr);
   ($"port", arg_def TInt (PInt 443));
   ($"username", arg_def TStr (PStr ($"admin")));
   ($"password", arg_secret true);
   ($"use_tls", arg_def TBool (PBool true));
   ($"allow_insecure_transport", arg_def TBool (PBool false));
   ($"validate_certs", arg_def TBool (PBool true));
   ($"ca_path", arg_opt TPath);
   ($"tls_fingerprint", arg_opt TStr);
   ($"timeout", arg_def TInt (PInt 30));
   ($"connect_timeout", arg_def TInt (PInt 10));
   ($"ipmi_port", arg_def TInt (PInt DEFAULT_IPMI_PORT))].
Definition argument_spec : argspec :=
  connection_argument_spec ++ [($"device", arg_choice BOOT_DEVICES); ($"uefi", arg_def TBool (PBool false));
                         ($"persistent", arg_def TBool (PBool false))].

Definition PERSISTENT_REJECTED_MESSAGE : text :=
  $"asmb8_boot does not support persistent boot-order changes. The lab contract for this hardware permits only one-time IPMI boot overrides; set persistent=false (the default) to arm a single upcoming boot instead.".

Definition reject_persistent (persistent : bool) : result exn unit :=
  if persistent then
    raise_ikvm (IkvmError_init UNSUPPORTED_CAPABILITY PERSISTENT_REJECTED_MESSAGE None (Some ($"asmb8_boot")) None [] false None)
  else Ok tt.

Definition plan (device : text) (uefi : bool) (previous : pydict) : bool :=
  let observed_uefi := get_or previous ($"uefimode") (PBool uefi) in
  negb (py_eq (get previous ($"bootdev")) (PStr device)) || negb (py_eq observed_uefi (PBool uefi)).

(** [{**raw, key: value}] *)
Definition dict_put (d : pydict) (name : text) (v : pyval) : pydict :=
  match dict_find d name with
  | Some _ => map (fun p => if is_key name (fst p) then (fst p, v) else p) d
  | None => d ++ [(PStr name, v)]
  end.

Definition result_fields (changed : bool) (device : text) (uefi : bool) (previous : pydict) (operation : pyval) : module_result :=
  ExitJson [($"changed", PBool changed); ($"device", PStr device); ($"uefi", PBool uefi); ($"previous", PDict previous);
            ($"operation", operation)].

Definition main (lib : library) (p : Connection) (check_mode : bool) (device : text) (uefi persistent : bool)
    : io ipmi exn module_result :=
  let desired := dict [($"bootdev", PStr device); ($"uefiboot", PBool uefi); ($"persist", PBool false)] in
  with_library lib
    (try_ikvm
       (run io_lift (reject_persistent persistent);
        do client <- build_ipmi_client p;
        do previous <- get_boot_device client;
        let changed := plan device uefi previous in
        if negb changed || check_mode then
          io_ret (inl (result_fields changed device uefi previous
                         (receipt ($"asmb8_boot") (ipmi_endpoint client) changed (PDict previous) desired (PDict previous))))
        else
          do raw_observed <- set_boot_device client device false uefi;
          io_ret (inr (client, previous, raw_observed)))
       (settle_or (fun '(client, previous, raw_observed) =>
          let observed := dict_put (dict_put raw_observed ($"persistent") (PBool false)) ($"uefimode") (PBool uefi) in
          result_fields true device uefi previous
            (receipt ($"asmb8_boot") (ipmi_endpoint client) true (PDict previous) desired (PDict observed))))).
End Boot.

(** ** asmb8_identify *)
Module Identify.
Definition IDENTIFY_STATES : list text := [$"on"; $"off"].
(** [_connection_argument_spec] of asmb8_identify.py *)
Definition connection_argument_spec : argspec :=
  [($"host", arg_req TStr);
   ($"port", arg_def TInt (PInt 443));
   ($"username", arg_def TStr (PStr ($"admin")));
   ($"password", arg_secret true);
   ($"use_tls", arg_def TBool (PBool true));
   ($"allow_insecure_transport", arg_def TBool (PBool false));
   ($"validate_certs", arg_def TBool (PBool true));
   ($"ca_path", arg_opt TPath);
   ($"tls_fingerprint", arg_opt TStr);
   ($"timeout", arg_def TInt (PInt 30));
   ($"connect_timeout", arg_def TInt (PInt 10));
   ($"ipmi_port", arg_def TInt (PInt DEFAULT_IPMI_PORT))].
Definition argument_spec : argspec :=
  connection_argument_spec ++ [($"state", arg_choice IDENTIFY_STATES); ($"duration", arg_opt TInt)].

Definition MINIMUM_ON_DURATION : Z := 1.

Definition validate_duration (state : text) (duration : option Z) : option text :=
  match duration with
  | None => None
  | Some d =>
      if text_eqb state ($"off") then
        Some ($"duration is only valid with state=on. asmb8_identify state=off always turns the LED off immediately, unconditionally.")
      else if text_eqb state ($"on") && (d <? MINIMUM_ON_DURATION) then
        Some ($"duration must be at least " ++ dec MINIMUM_ON_DURATION
              ++ $" when state=on. pyghmi's underlying IPMI command treats duration=0 as 'turn off' regardless of state=on, which would silently do the opposite of what was requested. Omit duration entirely to turn the LED on indefinitely instead.")
      else None
  end.

Definition result_fields (state : text) (duration : option Z) (observed operation : pyval) : module_result :=
  ExitJson [($"changed", PBool true); ($"state", PStr state); ($"duration", opt_int duration); ($"observed", observed);
            ($"operation", operation)].

Definition main (lib : library) (p : Connection) (check_mode : bool) (state : text) (duration : option Z)
    : io ipmi exn module_result :=
  with_library lib
    match validate_duration state duration with
    | Some msg => io_ret (fail_msg msg)
    | None =>
        let desired := dict [($"state", PStr state); ($"duration", opt_int duration)] in
        let action := $"asmb8_identify." ++ state in
        if check_mode then
          io_ret (result_fields state duration PNone
                    (receipt action (host_port (c_host p) (c_ipmi_port p)) true PNone desired PNone))
        else
          try_ikvm
            (do client <- build_ipmi_client p;
             run set_identify client (text_eqb state ($"on")) duration;
             io_ret client)
            (fun client => io_ret (result_fields state duration desired
                                     (receipt action (ipmi_endpoint client) true PNone desired desired)))
    end.
End Identify.

(** ** asmb8_reset *)
Module Reset.
Definition RESET_MODES : list text := [$"cold"; $"warm"].
(** [_connection_argument_spec] of asmb8_reset.py *)
Definition connection_argument_spec : argspec :=
  [($"host", arg_req TStr);
   ($"port", arg_def TInt (PInt 443));
   ($"username", arg_def TStr (PStr ($"admin")));
   ($"password", arg_secret true);
   ($"use_tls", arg_def TBool (PBool true));
   ($"allow_insecure_transport", arg_def TBool (PBool false));
   ($"validate_certs", arg_def TBool (PBool true));
   ($"ca_path", arg_opt TPath);
   ($"tls_fingerprint", arg_opt TStr);
   ($"timeout", arg_def TInt (PInt 30));
   ($"connect_timeout", arg_def TInt (PInt 10));
   ($"ipmi_port", arg_def TInt (PInt DEFAULT_IPMI_PORT))].
Definition argument_spec : argspec := connection_argument_spec ++ [($"mode", arg_choice RESET_MODES)].

Definition result_fields (mode : text) (observed operation : pyval) : module_result :=
  ExitJson [($"changed", PBool true); ($"mode", PStr mode); ($"observed", observed); ($"operation", operation)].

Definition main (lib : library) (p : Connection) (check_mode : bool) (mode : text) : io ipmi exn module_result :=
  let endpoint := host_port (c_host p) (c_ipmi_port p) in
  let action := $"asmb8_reset." ++ mode in
  with_library lib
    (if check_mode then io_ret (result_fields mode PNone (receipt action endpoint true PNone (PStr mode) PNone))
     else
       try_ikvm
         (do client <- build_ipmi_client p;
          do observed <- reset_bmc client mode;
          io_ret (client, observed))
         (fun '(client, observed) =>
            io_ret (result_fields mode (PDict observed)
                      (receipt action (ipmi_endpoint client) true PNone (PStr mode) (PDict observed))))).
End Reset.

(** ** The calls a run should make, from the replies it gets

    A call is made when its turn comes, and what follows depends on the reply;
    a call the library never returns from ends the run. *)
Definition calling (x : ipmi_call) (k : pyval -> list ipmi_reply -> list ipmi_call) (replies : list ipmi_reply) : list ipmi_call :=
  match replies with
  | [] => []
  | RValue v :: rs => x :: k v rs
  | _ :: _ => [x]
  end.
Definition finished (_ : list ipmi_reply) : list ipmi_call := [].
Definition connecting (p : Connection) : (pyval -> list ipmi_reply -> list ipmi_call) -> list ipmi_reply -> list ipmi_call :=
  calling (Connect (c_host p) (c_ipmi_port p) (c_username p) (c_password p)).

(** The machine already shows the power state asked for. *)
Definition shows_power (d : pydict) (state : text) : bool :=
  match dict_find d ($"powerstate") with
  | Some (PStr s) => text_eqb s state
  | _ => false
  end.
(** The override asked for is armed already; a missing UEFI flag agrees. *)
Definition shows_override (d : pydict) (device : text) (uefi : bool) : bool :=
  match dict_find d ($"bootdev"), dict_find d ($"uefimode") with
  | Some (PStr s), Some u => text_eqb s device && py_eq u (PBool uefi)
  | Some (PStr s), None => text_eqb s device
  | _, _ => false
  end.
(** Only these three states are waited for. *)
Definition power_wait (state : text) (timeout : Z) : option Z :=
  if text_eqb state ($"on") || text_eqb state ($"off") || text_eqb state ($"shutdown") then Some timeout else None.

Definition power_calls (p : Connection) (check : bool) (state : text) (timeout : Z) : list ipmi_reply -> list ipmi_call :=
  connecting p (fun _ => calling GetPower (fun v =>
    match v with
    | PDict d => if check || shows_power d state then finished
                 else calling (SetPower state (power_wait state timeout)) (fun _ => finished)
    | _ => finished
    end)).
Definition boot_calls (p : Connection) (check : bool) (device : text) (uefi persistent : bool) : list ipmi_reply -> list ipmi_call :=
  if persistent then finished
  else
    connecting p (fun _ => calling GetBootdev (fun v =>
      match v with
      | PDict d => if check || shows_override d device uefi then finished
                   else calling (SetBootdev device false uefi) (fun _ => finished)
      | _ => finished
      end)).
(** A duration goes only with state on, and is at least a second there. *)
Definition duration_fits (state : text) (duration : option Z) : bool :=
  match duration with
  | None => true
  | Some d => negb (text_eqb state ($"off")) && (negb (text_eqb state ($"on")) || (1 <=? d))
  end.
Definition identify_calls (p : Connection) (check : bool) (state : text) (duration : option Z) : list ipmi_reply -> list ipmi_call :=
  if check || negb (duration_fits state duration) then finished
  else connecting p (fun _ => calling (SetIdentify (text_eqb state ($"on")) duration false) (fun _ => finished)).
Definition reset_calls (p : Connection) (check : bool) (mode : text) : list ipmi_reply -> list ipmi_call :=
  if check then finished
  else connecting p (fun _ => calling (if text_eqb mode ($"cold") then ResetBmc else RawCommand 6 3 false) (fun _ => finished)).

(** What a run made when nothing is missing; without the library, nothing. *)
Definition calls_exactly (lib : library) (expected : list ipmi_reply -> list ipmi_call) (c : io ipmi exn module_result) (i : ipmi) : Prop :=
  i_calls (c i).2 = i_calls i ++ match lib with None => expected (i_replies i) | Some _ => [] end.

Lemma plan_power_ok state d : Power.plan state (get d ($"powerstate")) = negb (shows_power d state).
Proof. unfold Power.plan, shows_power, get. by destruct (dict_find d _) as [[]|]. Qed.
Lemma plan_boot_ok device uefi d : Boot.plan device uefi d = negb (shows_override d device uefi).
Proof.
  unfold Boot.plan, shows_override, get, get_or.
  assert (py_eq (PBool uefi) (PBool uefi) = true) as Hu by by destruct uefi.
  destruct (dict_find d ($"bootdev")) as [[]|], (dict_find d ($"uefimode")) as [u|]; cbn [default]; try done.
  - by rewrite negb_andb.
  - rewrite Hu, orb_false_r. done.
Qed.
Lemma power_wait_ok state timeout :
  (if bool_decide (state ∈ Power.CONFIRMABLE_STATES) then Some timeout else None) = power_wait state timeout.
Proof.
  unfold power_wait. destruct (bool_decide _) eqn:E.
  - apply bool_decide_eq_true in E. unfold Power.CONFIRMABLE_STATES in E.
    repeat (apply elem_of_cons in E as [->|E]; [done|]). by apply not_elem_of_nil in E.
  - apply bool_decide_eq_false in E.
    repeat match goal with |- context [text_eqb state ?x] => let H := fresh in destruct (text_eqb state x) eqn:H;
      [apply text_eqb_eq in H as ->; exfalso; apply E; unfold Power.CONFIRMABLE_STATES; first [by left|by right; left|by right; right; left]|] end. done.
Qed.
Lemma duration_fits_ok state duration :
  match Identify.validate_duration state duration with None => true | Some _ => false end = duration_fits state duration.
Proof.
  unfold Identify.validate_duration, duration_fits, Identify.MINIMUM_ON_DURATION. destruct duration as [d|]; [|done].
  rewrite Z.leb_antisym. by destruct (text_eqb state _), (text_eqb state _), (d <? 1).
Qed.

(** The runs unfolded, one reply after the other. *)
Ltac unfold_run :=
  unfold try_ikvm, build_ipmi_client, ipmi_connect, get_power_state, set_power_state, get_boot_device, set_boot_device,
    set_identify, reset_bmc, settle_or, ipmi_raise, io_bind, io_raise, io_lift, io_ret, call_lib, dict_of.
Ltac ran :=
  unfold io_bind, io_raise, io_lift, io_ret; cbn [calling finished fst snd i_replies i_calls]; cbv beta iota zeta;
  repeat match goal with
    | |- context [match dict_find ?d ?k with _ => _ end] => destruct (dict_find d k)
    | |- context [if ?b then _ else _] => destruct b
    end; cbn [calling finished fst snd i_replies i_calls]; rewrite <- ?app_assoc; rewrite ?app_nil_r; done.
(** The next reply: what can be settled without a dictionary is. *)
Ltac next_reply rs :=
  destruct rs as [|[?v|?m|?m|[]] rs]; try ran; cbn [calling i_replies i_calls].

(** The same for how a run ends. *)
Ltac next_reply_of rs :=
  destruct rs as [|[?v|?m|?m|?e] rs]; cbn [i_replies i_calls];
  try match goal with |- _ => by destruct e | |- _ => done end.

Lemma power_exactly lib p check state timeout i :
  calls_exactly lib (power_calls p check state timeout) (Power.main lib p check state timeout) i.
Proof.
  unfold calls_exactly, Power.main. destruct lib as [[m e]|]; [ran|]. unfold with_library, power_calls, connecting.
  destruct i as [rs l]. cbn [i_replies i_calls]. unfold_run. cbn [i_replies].
  next_reply rs. next_reply rs. destruct v0 as [| | | | | |d| |]; try ran.
  rewrite plan_power_ok, power_wait_ok, negb_involutive, orb_comm.
  destruct (check || shows_power d state); [ran|]. next_reply rs. destruct v0; ran.
Qed.

Lemma boot_exactly lib p check device uefi persistent i :
  calls_exactly lib (boot_calls p check device uefi persistent) (Boot.main lib p check device uefi persistent) i.
Proof.
  unfold calls_exactly, Boot.main. destruct lib as [[m e]|]; [ran|]. unfold with_library, boot_calls, connecting.
  destruct i as [rs l]. cbn [i_replies i_calls]. destruct persistent; [ran|]. unfold_run. cbn [i_replies Boot.reject_persistent].
  next_reply rs. next_reply rs. destruct v0 as [| | | | | |d| |]; try ran.
  rewrite plan_boot_ok, negb_involutive, orb_comm.
  destruct (check || shows_override d device uefi); [ran|]. next_reply rs. destruct v0; ran.
Qed.

Lemma identify_exactly lib p check state duration i :
  calls_exactly lib (identify_calls p check state duration) (Identify.main lib p check state duration) i.
Proof.
  unfold calls_exactly, Identify.main. destruct lib as [[m e]|]; [ran|]. unfold with_library, identify_calls, connecting.
  rewrite <- duration_fits_ok. destruct (Identify.validate_duration _ _); [rewrite orb_true_r; ran|].
  destruct i as [rs l]. cbn [negb i_replies i_calls]. rewrite orb_false_r. destruct check; [ran|]. unfold_run. cbn [i_replies].
  next_reply rs. next_reply rs.
Qed.

Lemma reset_exactly lib p check mode i :
  calls_exactly lib (reset_calls p check mode) (Reset.main lib p check mode) i.
Proof.
  unfold calls_exactly, Reset.main. destruct lib as [[m e]|]; [ran|]. unfold with_library, reset_calls, connecting.
  destruct i as [rs l]. cbn [i_replies i_calls]. destruct check; [ran|]. unfold_run. cbn [i_replies].
  next_reply rs. next_reply rs. destruct (text_eqb mode _); [ran|]. destruct (py_or v0 _); ran.
Qed.

(** ** Properties *)

(** C23: The IPMI modules act exactly as planned.  The calls of a run are
    determined by its parameters and the replies: a power run connects, reads
    the power state and sends the state asked for exactly when it is not in
    check mode and the machine does not show that state; a boot run likewise
    with an override that is never persistent, and a request for a persistent
    one makes no call; identify and reset connect and send their one command,
    and nothing in check mode or with a duration that does not fit the state.
    Nothing is sent after a failed call, nor when the library is missing. *)
Theorem acts_only_as_planned lib p (check : bool) state wait_timeout device uefi (persistent : bool) duration mode i :
  calls_exactly lib (power_calls p check state wait_timeout) (Power.main lib p check state wait_timeout) i /\
  calls_exactly lib (boot_calls p check device uefi persistent) (Boot.main lib p check device uefi persistent) i /\
  calls_exactly lib (identify_calls p check state duration) (Identify.main lib p check state duration) i /\
  calls_exactly lib (reset_calls p check mode) (Reset.main lib p check mode) i.
Proof. split_and!; [apply power_exactly|apply boot_exactly|apply identify_exactly|apply reset_exactly]. Qed.

(** How a run ends: with a classified failure; or as one failing reply of the
    library makes it end, given the class of the library's own errors.  A value
    that is no dictionary and an exception the library does not document leave
    the module. *)
Definition fails (class : text) (indeterminate : bool) (o : outcome exn module_result) : Prop :=
  exists fields, o = Ret (FailJson fields) /\
    assoc_get fields ($"error_class") = Some (PStr class) /\
    assoc_get fields ($"indeterminate") = if indeterminate then Some (PBool true) else None.
Definition ends_at (r : ipmi_reply) (class : text -> text * bool) (o : outcome exn module_result) : Prop :=
  match r with
  | RValue _ => exists m, o = Raise (TypeError m)
  | RPyghmi m | RUnsupported m => fails (class m).1 (class m).2 o
  | ROther (Ikvm err) => o = Ret (fail_ikvm err)
  | ROther e => o = Raise e
  end.
(** A session that could not be opened: bad credentials, a timeout, or else no
    connection, by the words of the message. *)
Definition session_failure (m : text) : text * bool :=
  let says words := existsb (fun w => contains w (lower m)) words in
  (if says [$"password"; $"rakp"; $"unauthorized"; $"wrong kg"] then $"authentication"
   else if says [$"timeout"] then $"timeout" else $"connection", false).
Definition read_failure (_ : text) : text * bool := ($"remote_operation", false).
(** A command that was accepted but not confirmed may have taken effect. *)
Definition set_failure (m : text) : text * bool :=
  if contains ($"System did not accomplish power state change") m then ($"timeout", true) else ($"remote_operation", false).

(** What a power run reports. *)
Definition power_report (p : Connection) (changed : bool) (state : text) (previous observed : pydict) : module_result :=
  ExitJson [($"changed", PBool changed); ($"state", PStr state); ($"previous_state", PDict previous);
            ($"desired_state", PStr state); ($"observed", PDict observed);
            ($"operation", receipt ($"asmb8_power." ++ state) (c_host p ++ $":" ++ dec (c_ipmi_port p)) changed
                             (PDict previous) (PStr state) (PDict observed))].

Lemma fails_init cls msg ep op secrets ind :
  fails (error_class_str cls) ind (Ret (fail_ikvm (IkvmError_init cls msg (Some ep) (Some op) None secrets ind None))).
Proof. eexists. split; [done|]. by destruct ind. Qed.

Lemma session_failure_ok m :
  session_failure m = (error_class_str (classify_session_error m), false).
Proof.
  unfold session_failure, classify_session_error, AUTH_FAILURE_MARKERS, TIMEOUT_MARKER. cbv zeta.
  destruct (existsb _ [_; _; _; _]); [done|]. cbn [existsb]. rewrite orb_false_r. by destruct (contains _ _).
Qed.


Lemma identify_calls_command p check state duration rs on d blink :
  SetIdentify on d blink ∈ identify_calls p check state duration rs ->
  on = text_eqb state ($"on") /\ d = duration /\ blink = false /\ duration_fits state duration = true.
Proof.
  unfold identify_calls, connecting. intros Hin. destruct (duration_fits state duration); rewrite ?orb_true_r in Hin;
    [|by apply not_elem_of_nil in Hin]. destruct check; [by apply not_elem_of_nil in Hin|]. cbn [negb orb] in Hin.
  assert (Hin' : SetIdentify on d blink ∈ [Connect (c_host p) (c_ipmi_port p) (c_username p) (c_password p);
                                           SetIdentify (text_eqb state ($"on")) duration false]).
  { destruct rs as [|[] [|[] rs]]; cbn [calling finished] in Hin; set_solver. }
  apply elem_of_cons in Hin' as [|Hin']; [done|]. by apply list_elem_of_singleton in Hin' as [= -> -> ->].
Qed.

(** Identify does what it says.  Whatever the library's identify call
    leaves the light at, given its documented reading of the arguments (no
    duration: as asked; a duration, clipped to a byte: lit unless it is
    zero), every identify command a run with an admitted state sends leaves
    the light on exactly for state [on]. *)
Theorem identify_sets_light (light : bool -> option Z -> bool)
    (light_indefinite : forall on, light on None = on)
    (light_interval : forall on d, light on (Some d) = negb (Z.min 255 (Z.max 0 d) =? 0))
    lib p check state duration i on d blink :
  state ∈ Identify.IDENTIFY_STATES ->
  SetIdentify on d blink ∈ drop (length (i_calls i)) (i_calls (Identify.main lib p check state duration i).2) ->
  light on d = text_eqb state ($"on") /\ blink = false.
Proof.
  intros Hs Hin. pose proof (identify_exactly lib p check state duration i) as He. unfold calls_exactly in He.
  rewrite He, drop_app_length in Hin. destruct lib as [l|]; [by apply not_elem_of_nil in Hin|].
  destruct (identify_calls_command p check state duration (i_replies i) on d blink Hin) as (-> & -> & -> & Hd).
  split; [|done]. destruct duration as [d|]; [|by rewrite light_indefinite].
  rewrite light_interval. cbn [duration_fits] in Hd. apply andb_true_iff in Hd as [Hoff Hon].
  assert (state = $"on") as ->.
  { unfold Identify.IDENTIFY_STATES in Hs. apply elem_of_cons in Hs as [->|Hs]; [done|].
    by apply list_elem_of_singleton in Hs as ->. }
  rewrite text_eqb_refl in Hon |- *. cbn [negb orb] in Hon. apply Z.leb_le in Hon. apply negb_true_iff, Z.eqb_neq. lia.
Qed.

(** *** Always an answer *)

(** The replies the library documents for the calls made here. *)
Definition documented (i : ipmi) : Prop :=
  Forall (fun r => match r with RValue (PDict _) | RPyghmi _ | RUnsupported _ => True | _ => False end) (i_replies i).

(** Given [n] such replies, [c] returns or raises a classified error, having
    used at most [n]. *)
Definition answers {A} (n : nat) (c : io ipmi exn A) : Prop :=
  forall i, documented i -> (n <= length (i_replies i))%nat ->
    documented (c i).2 /\ (length (i_replies i) <= n + length (i_replies (c i).2))%nat /\
    match (c i).1 with
    | Ret _ => True
    | Raise e => classified e
    | Blocked => False
    end.

Lemma answers_ret {A} (x : A) : answers 0 (io_ret x).
Proof. by intros i Hi Hn. Qed.
Lemma answers_ikvm {A} err : answers 0 (io_raise (A := A) (Ikvm err)).
Proof. intros i Hi Hn. split_and!; [done|cbn; lia|by eexists]. Qed.
Lemma answers_bind {A B} n m (c : io ipmi exn A) (k : A -> io ipmi exn B) :
  answers n c -> (forall x, answers m (k x)) -> answers (n + m) (io_bind c k).
Proof.
  intros Hc Hk i Hi Hn. unfold io_bind. destruct (Hc i) as (H1 & H2 & H3); [done|lia|].
  destruct (c i) as [[x|e|] i1]; cbn in *; [|split_and!; [done|lia|done]|done].
  destruct (Hk x i1) as (K1 & K2 & K3); [done|lia|]. split_and!; [done|lia|done].
Qed.
Lemma answers_weaken {A} n m (c : io ipmi exn A) : (n <= m)%nat -> answers n c -> answers m c.
Proof. intros Hnm Hc i Hi Hn. destruct (Hc i) as (H1 & H2 & H3); [done|lia|]. split_and!; [done|lia|done]. Qed.
Lemma answers_call {A} x (k : lib_outcome -> io ipmi exn A) :
  (forall d, answers 0 (k (LValue (PDict d)))) -> (forall m u, answers 0 (k (LError m u))) ->
  answers 1 (io_bind (call_lib x) k).
Proof.
  intros Hv He i Hi Hn. unfold io_bind, call_lib. unfold documented in Hi. destruct (i_replies i) as [|r rs]; [cbn in Hn; lia|].
  apply Forall_cons in Hi as [Hr Hi]. set (i1 := mkIpmi rs (i_calls i ++ [x])).
  assert (documented i1) as Hd by done.
  assert (forall y, answers 0 (k y) -> documented (k y i1).2 /\ (length (r :: rs) <= 1 + length (i_replies (k y i1).2))%nat /\
    match (k y i1).1 with Ret _ => True | Raise e => classified e | Blocked => False end) as H.
  { intros y Hy. destruct (Hy i1) as (K1 & K2 & K3); [done|lia|]. split_and!; [done|cbn in *; lia|done]. }
  destruct r as [[]|m|m|e]; try done; by apply H.
Qed.

Ltac answers_tac :=
  apply answers_call;
  [intros d|intros m u]; unfold ipmi_raise;
  repeat match goal with
    | |- answers 0 (io_bind (io_lift (dict_of (PDict ?d))) ?k) => change (answers 0 (k d)); cbv beta
    | |- context [match dict_find ?d ?k with _ => _ end] => destruct (dict_find d k)
    | |- context [if ?b then _ else _] => destruct b
    end; first [apply answers_ret|apply answers_ikvm].

Section Answers.
Context (c : IpmiClient).
Lemma answers_connect : answers 1 (ipmi_connect c).
Proof. answers_tac. Qed.
Lemma answers_get_power : answers 1 (get_power_state c).
Proof. answers_tac. Qed.
Lemma answers_set_power state wait : answers 1 (set_power_state c state wait).
Proof. answers_tac. Qed.
Lemma answers_get_bootdev : answers 1 (get_boot_device c).
Proof. answers_tac. Qed.
Lemma answers_set_bootdev device persist uefi : answers 1 (set_boot_device c device persist uefi).
Proof. answers_tac. Qed.
Lemma answers_identify on duration : answers 1 (set_identify c on duration).
Proof. answers_tac. Qed.
Lemma answers_reset mode : answers 1 (reset_bmc c mode).
Proof.
  unfold reset_bmc. apply answers_call; [|intros; apply answers_ikvm]. intros d.
  assert (forall r, answers 0 match dict_find r ($"error") with
      | Some err => ipmi_raise c REMOTE_OPERATION ($"IPMI " ++ mode ++ $" reset was rejected: " ++ str_of err) ($"reset_bmc") false
      | None => io_ret (with_mode mode r)
      end) as H by (intros r; destruct (dict_find r _); [apply answers_ikvm|apply answers_ret]).
  destruct (text_eqb mode ($"cold")); [exact (H [])|]. unfold py_or. destruct (truthy (PDict d)); [exact (H d)|exact (H [])].
Qed.
End Answers.

Lemma answers_build p : answers 1 (build_ipmi_client p).
Proof. apply (answers_bind 1 0); [apply answers_connect|intros; apply answers_ret]. Qed.

Lemma answers_try {A} n (c : io ipmi exn A) k i :
  answers n c -> (forall x, exists r, forall i, k x i = (Ret r, i)) -> documented i -> (n <= length (i_replies i))%nat ->
  exists r i', try_ikvm c k i = (Ret r, i').
Proof.
  intros Hc Hk Hi Hn. destruct (Hc i Hi Hn) as (_ & _ & H). unfold try_ikvm.
  destruct (c i) as [[x|e|] i1]; cbn in H; [|destruct H as [err ->]; by do 2 eexists|done].
  destruct (Hk x) as [r ->]. by do 2 eexists.
Qed.

(** The modules always answer.  As long as the library gives three
    replies, each a dictionary or one of its own exceptions, every run of the
    four modules ends with a result, a classified failure at worst. *)
Theorem ipmi_modules_answer lib p check state wait_timeout device uefi persistent duration mode i :
  (3 <= length (i_replies i))%nat ->
  Forall (fun r => match r with RValue (PDict _) | RPyghmi _ | RUnsupported _ => True | _ => False end) (i_replies i) ->
  (exists r i', Power.main lib p check state wait_timeout i = (Ret r, i')) /\
  (exists r i', Boot.main lib p check device uefi persistent i = (Ret r, i')) /\
  (exists r i', Identify.main lib p check state duration i = (Ret r, i')) /\
  (exists r i', Reset.main lib p check mode i = (Ret r, i')).
Proof.
  intros Hn Hd. destruct lib as [[m e]|]; [split_and!; by do 2 eexists|]. split_and!.
  - eapply (answers_try 3); [|intros r; by eexists|done|lia].
    apply (answers_bind 1 2); [apply answers_build|intros client]. apply (answers_bind 1 1); [apply answers_get_power|intros prev].
    cbv zeta. destruct (negb _ || _); [apply (answers_weaken 0 1); [lia|apply answers_ret]|].
    apply (answers_bind 1 0); [apply answers_set_power|intros; apply answers_ret].
  - eapply (answers_try 3); [|intros r; by eexists|done|lia]. apply (answers_bind 0 3).
    { destruct persistent; [apply answers_ikvm|apply answers_ret]. }
    intros _. apply (answers_bind 1 2); [apply answers_build|intros client].
    apply (answers_bind 1 1); [apply answers_get_bootdev|intros prev].
    cbv zeta. destruct (negb _ || _); [apply (answers_weaken 0 1); [lia|apply answers_ret]|].
    apply (answers_bind 1 0); [apply answers_set_bootdev|intros; apply answers_ret].
  - unfold Identify.main, with_library. destruct (Identify.validate_duration _ _); [by do 2 eexists|].
    cbv zeta. destruct check; [by do 2 eexists|]. eapply (answers_try 2); [|intros r; by eexists|done|lia].
    apply (answers_bind 1 1); [apply answers_build|intros client].
    apply (answers_bind 1 0); [apply answers_identify|intros; apply answers_ret].
  - unfold Reset.main, with_library. cbv zeta. destruct check; [by do 2 eexists|].
    eapply (answers_try 2); [|intros []; by eexists|done|lia].
    apply (answers_bind 1 1); [apply answers_build|intros client].
    apply (answers_bind 1 0); [apply answers_reset|intros; apply answers_ret].
Qed.

(** ** The properties at concrete runs *)

Definition power_reply (s : string) : ipmi_reply := RValue (dict [($"powerstate", PStr (str s))]).

Definition demo_light (on : bool) (d : option Z) : bool :=
  match d with
  | None => on
  | Some d => negb (Z.min 255 (Z.max 0 d) =? 0)
  end.

Lemma identify_sets_light_witness : demo_light true (Some 300) = true /\ false = false.
Proof.
  refine (identify_sets_light demo_light (fun on => eq_refl) (fun on d => eq_refl) None demo_connection false ($"on") (Some 300)
            (mkIpmi [RValue (PDict []); RValue PNone] []) true (Some 300) false _ _).
  - left.
  - vm_compute. right. left.
Defined.

Lemma ipmi_modules_answer_witness :
  exists r i', Boot.main None demo_connection false ($"network") true false
                 (mkIpmi [RValue (PDict []); RPyghmi ($"timeout"); RValue (PDict [])] []) = (Ret r, i').
Proof.
  refine (proj1 (proj2 (ipmi_modules_answer None demo_connection false ($"on") 60 ($"network") true false None ($"cold")
            (mkIpmi [RValue (PDict []); RPyghmi ($"timeout"); RValue (PDict [])] []) _ _))).
  - cbn. lia.
  - by repeat constructor.
Defined.
