(* ===== verification/AsmbNtp.v ===== *)
(** * modules/asmb8_ntp.py: the one module that writes configuration pages

    Read the NTP page, merge what was asked for over what is there, and
    resubmit every field when that makes a difference. *)
From Stdlib Require Import ZArith Lia Ascii String.
From stdpp Require Import prelude.
From S2P Require Import Prelude PyBytes PyText Regex Errors Models PyValue Webvar Asp Ansible.

Module Ntp.
(** [_connection_argument_spec] of asmb8_ntp.py *)
Definition connection_argument_spec : argspec :=
  [($"host", arg_req TStr);
   ($"port", arg_def TInt (PInt 443));
   ($"username", arg_def TStr (PStr ($"admin")));
   ($"password", arg_secret true);
   ($"use_tls", arg_def TBool (PBool true));
   ($"allow_insecure_transport", arg_def TBool (PBool false));
   ($"validate_certs", arg_def TBool (PBool true));
   ($"ca_path", arg_opt TPath);
   ($"tls_fingerprint", arg_opt TStr);
   ($"timeout", arg_def TInt (PInt 30));
   ($"connect_timeout", arg_def TInt (PInt 10))].
Definition argument_spec : argspec :=
  connection_argument_spec ++ [($"server1", arg_opt TStr); ($"server2", arg_opt TStr); ($"enabled", arg_opt TBool)].

Record Request : Type := {
  q_server1 : option text;
  q_server2 : option text;
  q_enabled : option bool;
}.

Record State : Type := mkState {
  server1 : pyval;
  server2 : pyval;
  enabled : option bool;
}.

(** The state read also keeps the raw status. *)
Definition decode_ntp_state (record : pydict) : State * pyval :=
  let status_raw := get record ($"NTP_STATUS") in
  (mkState (get record ($"SERVER_NAME1")) (get record ($"SERVER_NAME2"))
     (match status_raw with PNone => None | v => Some (truthy v) end),
   status_raw).

Definition given_or {A} (o : option text) (f : text -> A) (d : A) : A := match o with Some t => f t | None => d end.

Definition plan (current : State) (params : Request) : State * bool :=
  let desired := mkState (given_or (q_server1 params) PStr (server1 current))
                         (given_or (q_server2 params) PStr (server2 current))
                         (match q_enabled params with Some b => Some b | None => enabled current end) in
  let changed := negb (py_eq (server1 desired) (server1 current)) || negb (py_eq (server2 desired) (server2 current))
                 || negb (bool_decide (enabled desired = enabled current)) in
  (desired, changed).

(** The POST body; a value that is no text is sent as its [str]. *)
Definition form (v : pyval) : text := str_of (py_or v (PStr [])).
Definition build_setntpcfg_data (current desired : State) : list (text * text) :=
  [($"NEW_NTPSERVER_NAME1", form (server1 desired)); ($"OLD_NTPSERVER_NAME1", form (server1 current));
   ($"NEW_NTPSERVER_NAME2", form (server2 desired));
   ($"ISNTPENABLE", match enabled desired with Some true => $"1" | _ => $"0" end)].

Definition state_fields (s : State) : list (text * pyval) :=
  [($"server1", server1 s); ($"server2", server2 s); ($"enabled", opt_bool (enabled s))].
Definition read_fields (s : State * pyval) : pyval := dict (state_fields (fst s) ++ [($"ntp_status_raw", snd s)]).

Section Main.
Context (le : text -> option pyval) (p : Connection).

Definition read_ntp (cfg : AspConfig) : io asp exn (State * pyval) :=
  do rs <- read_records le cfg ($"getntpcfg") None;
  io_ret (decode_ntp_state (match rs with r :: _ => r | [] => [] end)).

Definition result_fields (changed : bool) (previous : State * pyval) (desired : State) (observed : State * pyval) : module_result :=
  ExitJson [($"changed", PBool changed); ($"previous_state", read_fields previous); ($"desired_state", dict (state_fields desired));
            ($"observed", read_fields observed);
            ($"operation", receipt ($"asmb8_ntp.apply") (asp_endpoint (asp_config p)) changed
                             (read_fields previous) (dict (state_fields desired)) (read_fields observed))].

Definition main (lib : library) (check_mode : bool) (params : Request) : io asp exn module_result :=
  with_library lib
    (try_ikvm
       (do client <- build_asp_client p;
        run login client;
        do current <- read_ntp client;
        let '(desired, changed) := plan (fst current) params in
        if negb changed || check_mode then io_ret (result_fields changed current desired current)
        else
          match enabled desired with
          | None =>
              io_raise (Ikvm (ProtocolError
                ($"getntpcfg.asp did not report NTP_STATUS, so this module cannot determine the current NTP enable state and will not guess an ISNTPENABLE value for an unrelated server change. Set `enabled` explicitly to proceed.")
                (Some (asp_endpoint client)) ($"asmb8_ntp.apply")))
          | Some _ =>
              run set_webvar client le ($"setntpcfg") (build_setntpcfg_data (fst current) desired) None;
              do observed <- read_ntp client;
              io_ret (result_fields true current desired observed)
          end)
       io_ret).
End Main.

(** ** Properties *)

Definition same_state (a b : State) : bool :=
  py_eq (server1 a) (server1 b) && py_eq (server2 a) (server2 b) && bool_decide (enabled a = enabled b).

(** The plan converges and touches nothing else.  What was asked for is
    in the desired state, what was not is as read; a change is planned
    exactly when the two states differ; from the desired state, the same
    request plans no change; and the form carries every field, with the old
    first server, and an enable flag only when it is known. *)
Theorem ntp_plan_converges current params :
  let '(desired, changed) := plan current params in
  server1 desired = given_or (q_server1 params) PStr (server1 current) /\
  server2 desired = given_or (q_server2 params) PStr (server2 current) /\
  enabled desired = match q_enabled params with Some b => Some b | None => enabled current end /\
  changed = negb (same_state desired current) /\
  plan desired params = (desired, false) /\
  assoc_get (build_setntpcfg_data current desired) ($"NEW_NTPSERVER_NAME2") = Some (form (server2 desired)) /\
  (forall b, enabled desired = Some b ->
     assoc_get (build_setntpcfg_data current desired) ($"ISNTPENABLE") = Some (if b then $"1" else $"0")).
Proof.
  unfold plan. cbn [server1 server2 enabled]. split_and!; try done.
  - unfold same_state. cbn [server1 server2 enabled]. by rewrite !negb_andb.
  - destruct params as [[t1|] [t2|] [b|]]; cbn [q_server1 q_server2 q_enabled given_or];
      rewrite !py_eq_refl, bool_decide_eq_true_2 by done; done.
  - cbn. intros b. destruct (match q_enabled params with Some b => _ | None => _ end) as [[]|]; by intros [= <-].
Qed.

(** C24: An NTP run writes only its plan.  Whatever the controller answers,
    every request of a run is a read, or, outside check mode, the one form
    for a plan that changes something, computed from a page that was read in
    this run, and with a known enable flag. *)
Theorem ntp_writes_only_its_plan le p lib check params a :
  exists l, a_sent (main le p lib check params a).2 = a_sent a ++ l /\
  Forall (fun q =>
    is_read (asp_config p) q \/
    check = false /\ hq_method q = $"POST" /\ hq_url q = base_url (asp_config p) ++ $"/rpc/setntpcfg.asp" /\
    exists body r desired,
      HResponse body ∈ a_net a /\
      parse_webvar le body (Some ($"getntpcfg")) (Some ($"get_webvar:getntpcfg")) = Ok r /\
      let current := (decode_ntp_state (match records_of r with r :: _ => r | [] => [] end)).1 in
      plan current params = (desired, true) /\ enabled desired <> None /\
      hq_data q = build_setntpcfg_data current desired) l.
Proof.
  set (P := fun q => is_read _ _ \/ _).
  assert (preserves (client_inv (a_net a) (a_sent a) P) (main le p lib check params)) as H.
  2: { destruct (H a) as [_ Hl]; [|exact Hl]. split; [done|]. exists []. by rewrite app_nil_r. }
  assert (forall q, is_read (asp_config p) q -> P q) as Hr by (by left).
  apply preserves_library, preserves_guard; [|intros; apply preserves_ret].
  apply preserves_bind; [apply inv_build|]. intros client (a0 & a1 & _ & Hb).
  assert (client = asp_config p) as ->.
  { unfold build_asp_client in Hb. destruct (AspClient_init _ _ _ _ _ _) as [[[pol pool] fresh]|e]; congruence. }
  apply preserves_seq; [by apply inv_login|]. intros _.
  assert (preserves (client_inv (a_net a) (a_sent a) P) (read_ntp le (asp_config p))) as Hread.
  { apply preserves_seq; [by apply inv_get|]. intros; apply preserves_ret. }
  apply preserves_bind; [done|]. intros current Hc. unfold read_ntp in Hc.
  destruct Hc as (s & s' & Hs & Hc). apply io_bind_inv in Hc as (rs & s1 & Hrs & [= <- _]).
  destruct (read_answered le (asp_config p) (a_net a) (a_sent a) P ($"getntpcfg") None rs) as (body & r & Hbody & _ & Hparse & ->).
  { by exists s, s1. }
  destruct (plan _ params) as [desired changed] eqn:Ep.
  destruct (negb changed || check) eqn:E; [apply preserves_ret|]. apply orb_false_iff in E as [E ->]. apply negb_false_iff in E as ->.
  destruct (enabled desired) as [b|] eqn:Een; [|apply preserves_raise].
  apply preserves_seq; [|intros _; apply preserves_seq; [done|intros; apply preserves_ret]].
  apply inv_set. intros q Hm Hu Hd. right. split_and!; [done..|]. exists body, r, desired. split_and!; [done..| |done].
  by rewrite Een.
Qed.
End Ntp.
