(* ===== verification/AsmbReports.v ===== *)
(** * The reporting modules: users, network, alerts, audit log

    modules/asmb8_users.py, asmb8_network.py, asmb8_alerts.py and
    asmb8_auditlog.py: log in, read a fixed list of pages, and map their
    records field by field.  Credential fields are reduced to whether they
    are set.  The last two degrade a page that cannot be read to [None] and
    say so. *)
From Stdlib Require Import ZArith Lia Ascii String.
From stdpp Require Import prelude.
From S2P Require Import Prelude PyBytes PyText Regex Errors Models PyValue Webvar Asp Ansible.

(** [bool(record.get(name))] *)
Definition bool_field (d : pydict) (name : text) : pyval := PBool (truthy (get d name)).
(** [record.get(name) or None] *)
Definition or_none (d : pydict) (name : text) : pyval := py_or (get d name) PNone.

(** Whether a secret is on file: a flag of its own, or text that is neither
    empty nor the firmware's placeholder. *)
Definition secret_configured (flag value : pyval) : bool :=
  let v := py_or value (PStr []) in
  truthy flag || (negb (py_eq v (PStr [])) && negb (py_eq v (PStr ($"Not Available")))).

Definition first_or {A} (f : pydict -> A) (d : A) (rs : list pydict) : A := match rs with r :: _ => f r | [] => d end.

Module Users.
(** [_connection_argument_spec] of asmb8_users.py *)
Definition connection_argument_spec : argspec :=
  [($"host", arg_req TStr);
   ($"port", arg_def TInt (PInt 443));
   ($"username", arg_def TStr (PStr ($"admin")));
   ($"password", arg_secret true);
   ($"use_tls", arg_def TBool (PBool true));
   ($"allow_insecure_transport", arg_def TBool (PBool false));
   ($"validate_certs", arg_def TBool (PBool true));
   ($"ca_path", arg_opt TPath);
   ($"tls_fingerprint", arg_opt TStr);
   ($"timeout", arg_def TInt (PInt 30));
   ($"connect_timeout", arg_def TInt (PInt 10))].
Definition argument_spec : argspec := connection_argument_spec.

Definition is_configured_slot (record : pydict) : bool := truthy (get record ($"UserName")).

Definition decode_user_slot (r : pydict) : pyval :=
  dict [($"username", get r ($"UserName"));
        ($"enabled", bool_field r ($"UserStatus"));
        ($"user_status_raw", get r ($"UserStatus"));
        ($"kvm_privilege", bool_field r ($"KVMPriv"));
        ($"vmedia_privilege", bool_field r ($"VMediaPriv"));
        ($"network_privilege_limit_raw", get r ($"PrivLimit_Network"));
        ($"serial_privilege_limit_raw", get r ($"PrivLimit_Serial"));
        ($"snmp", dict [($"status_raw", get r ($"SNMPStatus")); ($"access_raw", get r ($"SNMPAccess"));
                        ($"auth_protocol_raw", get r ($"AUTHProtocol")); ($"priv_protocol_raw", get r ($"PrivProtocol"))]);
        ($"email_configured", PBool (truthy (py_or (get r ($"EmailID")) (PStr []))));
        ($"email_format", or_none r ($"EmailFormat"));
        ($"serial_over_lan_status_raw", get r ($"SOL_Status"));
        ($"ssh_key_configured", PBool (secret_configured (get r ($"SSHKeyStatus")) (get r ($"SSHKeyInfo"))));
        ($"ssh_key_status_raw", get r ($"SSHKeyStatus"));
        ($"fixed_user_count", get r ($"FixedUserCount"))].

(** The users and the slot counts. *)
Definition build_users_report (rs : list pydict) : pyval * pyval :=
  let configured := List.filter is_configured_slot rs in
  (PList (map decode_user_slot configured),
   dict [($"total", PInt (blen rs)); ($"configured", PInt (blen configured)); ($"empty", PInt (blen rs - blen configured))]).

Definition build_current_session_report (rs : list pydict) : pyval :=
  first_or (fun r => dict [($"username", get r ($"CURUSERNAME")); ($"privilege_raw", get r ($"CURPRIV"));
                           ($"extended_privilege_raw", get r ($"EXTENDED_PRIV"))]) PNone rs.

Definition decode_role_group (r : pydict) : pyval :=
  let name := or_none r ($"ROLEGROUP_NAME") in
  dict [($"id", get r ($"ROLEGROUP_ID")); ($"configured", PBool (truthy name)); ($"name", name);
        ($"domain", or_none r ($"ROLEGROUP_DOMAIN")); ($"privilege_raw", get r ($"ROLEGROUP_PRIVILEGE"));
        ($"kvm_privilege_raw", get r ($"ROLEGROUP_KVM")); ($"vmedia_privilege_raw", get r ($"ROLEGROUP_VMEDIA"))].
Definition build_role_groups_report (rs : list pydict) : pyval := PList (map decode_role_group rs).

Definition gather_report (le : text -> option pyval) (cfg : AspConfig) : io asp exn (list (text * pyval)) :=
  run login cfg;
  do users <- read_records le cfg ($"getalluserinfo") None;
  do role <- read_records le cfg ($"getrole") None;
  do groups <- read_records le cfg ($"getallrolegroupcfg") None;
  let '(users, slots) := build_users_report users in
  io_ret [($"users", users); ($"slots", slots); ($"current_session", build_current_session_report role);
          ($"role_groups", build_role_groups_report groups)].
End Users.

Module Network.
(** [_connection_argument_spec] of asmb8_network.py *)
Definition connection_argument_spec : argspec :=
  [($"host", arg_req TStr);
   ($"port", arg_def TInt (PInt 443));
   ($"username", arg_def TStr (PStr ($"admin")));
   ($"password", arg_secret true);
   ($"use_tls", arg_def TBool (PBool true));
   ($"allow_insecure_transport", arg_def TBool (PBool false));
   ($"validate_certs", arg_def TBool (PBool true));
   ($"ca_path", arg_opt TPath);
   ($"tls_fingerprint", arg_opt TStr);
   ($"timeout", arg_def TInt (PInt 30));
   ($"connect_timeout", arg_def TInt (PInt 10))].
Definition argument_spec : argspec := connection_argument_spec.

Definition decode_lan_channel (r : pydict) : pyval :=
  dict [($"channel", get r ($"channelNum")); ($"enabled", bool_field r ($"lanEnable")); ($"mac_address", get r ($"macAddress"));
        ($"ipv4", dict [($"source_raw", get r ($"v4IPSource")); ($"address", get r ($"v4IPAddr"));
                        ($"subnet_mask", get r ($"v4Subnet")); ($"gateway", get r ($"v4Gateway"))]);
        ($"ipv6", dict [($"enabled", bool_field r ($"v6Enable")); ($"source_raw", get r ($"v6IPSource"));
                        ($"address", get r ($"v6IPAddr")); ($"prefix_length", get r ($"v6Prefix")); ($"gateway", get r ($"v6Gateway"))]);
        ($"vlan", dict [($"enabled", bool_field r ($"vlanEnable")); ($"id", get r ($"vlanID")); ($"priority", get r ($"vlanPriority"))])].

Definition decode_interface (r : pydict) : pyval :=
  dict [($"index", get r ($"ETH_INDEX")); ($"name", get r ($"INTERFACE_NAME")); ($"channel", get r ($"CHANNEL_NUM"));
        ($"enabled", bool_field r ($"INTERFACE_ENABLE"))].

Definition decode_dns_entry (r : pydict) : pyval :=
  dict [($"enabled", bool_field r ($"DNS_ENABLE")); ($"mdns_enabled", bool_field r ($"MDNS"));
        ($"hostname_source_raw", get r ($"HOST_CFG")); ($"hostname", get r ($"HOST_NAME"));
        ($"register_with_bmc", bool_field r ($"REG_BMC")); ($"register_with_dhcp", bool_field r ($"REG_DHCP"));
        ($"tsig_enabled", bool_field r ($"TSIG_ENABLE"));
        ($"tsig_key_configured", PBool (secret_configured (get r ($"TSIG_EXISTS")) (get r ($"TSIG_PRIVATE"))));
        ($"domain_source", get r ($"DOMAIN_CFG")); ($"domain_name", get r ($"DOMAIN_NAME"));
        ($"dns_source_raw", get r ($"DNS_CFG")); ($"dns_priority", get r ($"DNS_PRIORITY")); ($"dns_server", get r ($"DNS_IP"))].

Definition decode_bonding (r : pydict) : pyval :=
  dict [($"enabled", bool_field r ($"BOND_ENABLE")); ($"mode_raw", get r ($"BOND_MODE")); ($"interface_raw", get r ($"BOND_IFC"));
        ($"vlan_enabled", bool_field r ($"VLAN_ENABLE")); ($"auto_configured", bool_field r ($"AUTO_CONF"))].
Definition decode_bond_support (r : pydict) : pyval := dict [($"nic_count", get r ($"NIC_COUNT"))].

Definition build_network_report (lan interfaces dns bond bond_support : list pydict) : list (text * pyval) :=
  [($"lan_channels", PList (map decode_lan_channel lan)); ($"interfaces", PList (map decode_interface interfaces));
   ($"dns_entries", PList (map decode_dns_entry dns)); ($"bonding", first_or decode_bonding PNone bond);
   ($"bond_support", first_or decode_bond_support PNone bond_support)].

Definition gather_report (le : text -> option pyval) (cfg : AspConfig) : io asp exn (list (text * pyval)) :=
  run login cfg;
  do lan <- read_records le cfg ($"getalllancfg") None;
  do interfaces <- read_records le cfg ($"getlanchannelinfo") None;
  do dns <- read_records le cfg ($"getdnscfg") None;
  do bond <- read_records le cfg ($"getnwbondcfg") None;
  do bond_support <- read_records le cfg ($"checknwbond") None;
  io_ret (build_network_report lan interfaces dns bond bond_support).
End Network.

(** ** The two [main]s: nothing is contacted in check mode; otherwise the
    report's fields, and a receipt that observes it. *)
Definition users_main (le : text -> option pyval) (p : Connection) (lib : library) (check_mode : bool) : io asp exn module_result :=
  with_library lib
    (if check_mode then
       io_ret (ExitJson [($"changed", PBool false); ($"users", PNone); ($"slots", PNone); ($"current_session", PNone); ($"role_groups", PNone);
                         ($"operation", receipt ($"asmb8_users.report") (host_port (c_host p) (c_port p)) false PNone PNone PNone)])
     else
       try_ikvm
         (do client <- build_asp_client p;
          do report <- Users.gather_report le client;
          io_ret (client, report))
         (fun '(client, report) =>
            io_ret (ExitJson ([($"changed", PBool false)] ++ report
                              ++ [($"operation", receipt ($"asmb8_users.report") (asp_endpoint client) false PNone PNone (dict report))])))).

Definition network_main (le : text -> option pyval) (p : Connection) (lib : library) (check_mode : bool) : io asp exn module_result :=
  with_library lib
    (if check_mode then
       io_ret (ExitJson [($"changed", PBool false); ($"lan_channels", PNone); ($"interfaces", PNone); ($"dns_entries", PNone); ($"bonding", PNone); ($"bond_support", PNone);
                         ($"operation", receipt ($"asmb8_network.report") (host_port (c_host p) (c_port p)) false PNone PNone PNone)])
     else
       try_ikvm
         (do client <- build_asp_client p;
          do report <- Network.gather_report le client;
          io_ret (client, report))
         (fun '(client, report) =>
            io_ret (ExitJson ([($"changed", PBool false)] ++ report
                              ++ [($"operation", receipt ($"asmb8_network.report") (asp_endpoint client) false PNone PNone (dict report))])))).

(** ** Degrading reads *)

(** The outcome kept for each page, in order. *)
Definition read_outcome (cls : option ErrorClass) (ok : bool) : pyval :=
  dict [($"outcome", PStr (if ok then $"read" else $"failed"));
        ($"error_class", match cls with Some c => PStr (error_class_str c) | None => PNone end)].

(** [_read_endpoint]: the value, or [None] with the class of the failure *)
Definition read_endpoint (le : text -> option pyval) (cfg : AspConfig) (field endpoint : text) (transform : list pydict -> pyval)
    : io asp exn (pyval * (text * pyval)) := fun a =>
  match read_records le cfg endpoint None a with
  | (Ret rs, a') => (Ret (transform rs, (field, read_outcome None true)), a')
  | (Raise (Ikvm err), a') => (Ret (PNone, (field, read_outcome (Some (error_class err)) false)), a')
  | (Raise e, a') => (Raise e, a')
  | (Blocked, a') => (Blocked, a')
  end.

Module Alerts.
(** [_connection_argument_spec] of asmb8_alerts.py *)
Definition connection_argument_spec : argspec :=
  [($"host", arg_req TStr);
   ($"port", arg_def TInt (PInt 443));
   ($"username", arg_def TStr (PStr ($"admin")));
   ($"password", arg_secret true);
   ($"use_tls", arg_def TBool (PBool true));
   ($"allow_insecure_transport", arg_def TBool (PBool false));
   ($"validate_certs", arg_def TBool (PBool true));
   ($"ca_path", arg_opt TPath);
   ($"tls_fingerprint", arg_opt TStr);
   ($"timeout", arg_def TInt (PInt 30));
   ($"connect_timeout", arg_def TInt (PInt 10))].
Definition argument_spec : argspec := connection_argument_spec.

Definition smtp_relay (r : pydict) (suffix : text) : pyval :=
  dict [($"enabled", flag_or_none r ($"SMTPENABLE" ++ suffix)); ($"port", int_or_none r ($"SMTPPORT" ++ suffix));
        ($"server", str_field r ($"SMTPSERVER" ++ suffix)); ($"auth_enabled", flag_or_none r ($"SMTPAUTHENABLE" ++ suffix));
        ($"username", str_field r ($"USERNAME" ++ suffix))].
Definition smtp_channel (r : pydict) : pyval :=
  dict [($"channel", int_or_none r ($"CHANNEL_NUM")); ($"sender_address", str_field r ($"SENDERADDR"));
        ($"machine_name", str_field r ($"MACHINENAME")); ($"primary", smtp_relay r ($"1")); ($"secondary", smtp_relay r ($"2"))].
Definition lan_destination (r : pydict) : pyval :=
  dict [($"channel", int_or_none r ($"CHANNEL_NUM")); ($"destination_id", int_or_none r ($"LANDestID"));
        ($"destination_type", int_or_none r ($"DestType")); ($"address_format", int_or_none r ($"AddrFormat"));
        ($"address", str_field r ($"DestAddr")); ($"user_id", int_or_none r ($"UserID"));
        ($"subject", str_field r ($"Subject")); ($"message", str_field r ($"Message"))].
Definition event_filter (r : pydict) : pyval :=
  dict [($"filter_config", int_or_none r ($"FilterConfig")); ($"filter_action", int_or_none r ($"EvtFilterAction"));
        ($"alert_policy_num", int_or_none r ($"AlertPolicyNum")); ($"event_severity", int_or_none r ($"EventSeverity"));
        ($"generator_byte_1", int_or_none r ($"GeneratorByte1")); ($"generator_byte_2", int_or_none r ($"GeneratorByte2"));
        ($"sensor_type", int_or_none r ($"SensorType")); ($"sensor_name", str_field r ($"SensorName"));
        ($"event_trigger", int_or_none r ($"EventTrigger"));
        ($"event_data1_offset_mask", int_or_none r ($"EventData1OffsetMask"));
        ($"event_data1_and_mask", int_or_none r ($"EventData1ANDMask"));
        ($"event_data1_cmp1", int_or_none r ($"EventData1Cmp1")); ($"event_data1_cmp2", int_or_none r ($"EventData1Cmp2"));
        ($"event_data2_and_mask", int_or_none r ($"EventData2ANDMask"));
        ($"event_data2_cmp1", int_or_none r ($"EventData2Cmp1")); ($"event_data2_cmp2", int_or_none r ($"EventData2Cmp2"));
        ($"event_data3_and_mask", int_or_none r ($"EventData3ANDMask"));
        ($"event_data3_cmp1", int_or_none r ($"EventData3Cmp1")); ($"event_data3_cmp2", int_or_none r ($"EventData3Cmp2"))].
Definition alert_policy (r : pydict) : pyval :=
  dict [($"entry_number", int_or_none r ($"PolicyEntryNumber")); ($"policy_number", int_or_none r ($"PolicyNumber"));
        ($"enabled", flag_or_none r ($"EnablePolicy")); ($"policy_set", int_or_none r ($"PolicySet"));
        ($"channel_number", int_or_none r ($"ChannelNumber")); ($"destination_selector", int_or_none r ($"DestSelector"));
        ($"event_specific", int_or_none r ($"EventSpecific")); ($"alert_string", int_or_none r ($"AlertString"))].
Definition trigger (r : pydict) : pyval :=
  dict [($"enabled", flag_or_none r ($"ENABLE")); ($"timestamp", PInt (default 0 (optional_int (get r ($"TIMESTAMP")))))].
Definition email_formats (rs : list pydict) : pyval :=
  str_list (omap (fun r => optional_str (get r ($"EMAIL_FORMAT"))) rs).
Definition adviser (r : pydict) : pyval :=
  dict [($"kvm_license_status", int_or_none r ($"V_STR_KVM_LICENSE_STATUS")); ($"kvm_status", int_or_none r ($"V_STR_KVM_STATUS"));
        ($"secure_channel", int_or_none r ($"V_STR_SECURE_CHANNEL")); ($"kvm_port", int_or_none r ($"V_STR_KVM_PORT"));
        ($"mouse_mode", int_or_none r ($"V_STR_MOUSE_MODE")); ($"keyboard_layout", str_field r ($"V_STR_KEYBOARD_LAYOUT"));
        ($"web_port", int_or_none r ($"V_STR_WEB_PORT")); ($"singleport_status", int_or_none r ($"V_STR_SINGLEPORT_STATUS"));
        ($"oem_feature_status", int_or_none r ($"V_STR_OEM_FEATURE_STATUS"))].

Definition each (f : pydict -> pyval) (rs : list pydict) : pyval := PList (map f rs).

(** The page behind each field, and how its records are mapped. *)
Definition pages : list (text * text * (list pydict -> pyval)) :=
  [($"smtp", $"getsmtpcfg", each smtp_channel); ($"lan", $"getlandeststable", each lan_destination);
   ($"event_filters", $"getallpefcfg", each event_filter); ($"policies", $"getallpolicycfg", each alert_policy);
   ($"triggers", $"gettriggercfg", each trigger); ($"email_format", $"getemailformat", email_formats);
   ($"adviser", $"getadvisercfg", first_or adviser PNone)].
End Alerts.

Module AuditLog.
(** [_connection_argument_spec] of asmb8_auditlog.py *)
Definition connection_argument_spec : argspec :=
  [($"host", arg_req TStr);
   ($"port", arg_def TInt (PInt 443));
   ($"username", arg_def TStr (PStr ($"admin")));
   ($"password", arg_secret true);
   ($"use_tls", arg_def TBool (PBool true));
   ($"allow_insecure_transport", arg_def TBool (PBool false));
   ($"validate_certs", arg_def TBool (PBool true));
   ($"ca_path", arg_opt TPath);
   ($"tls_fingerprint", arg_opt TStr);
   ($"timeout", arg_def TInt (PInt 30));
   ($"connect_timeout", arg_def TInt (PInt 10))].
Definition argument_spec : argspec := connection_argument_spec.

Definition extract_entries (rs : list pydict) : pyval :=
  str_list (omap (fun r => match get r ($"AUDIT_LOG") with PNone => None | v => Some (str_of v) end) rs).

Definition build_remote_storage (r : pydict) : pyval :=
  dict [($"remote_enabled", flag_or_none r ($"RM_ENABLE")); ($"sd_card_enabled", flag_or_none r ($"SD_ENABLE"));
        ($"remote_status", int_or_none r ($"REMOTE_STATUS")); ($"sd_card_status", int_or_none r ($"SDCARD_STATUS"));
        ($"address", str_field r ($"IP_ADDR")); ($"remote_path", str_field r ($"REMOTE_PATH"));
        ($"share_type", int_or_none r ($"SHR_TYPE")); ($"username", str_field r ($"UNAME"));
        ($"password_configured", PBool (match optional_str (get r ($"PWORD")) with Some _ => true | None => false end));
        ($"domain_name", str_field r ($"DOMAIN_NAME"))].
Definition build_logging (r : pydict) : pyval :=
  dict [($"audit_enabled", flag_or_none r ($"AUDITENABLE")); ($"syslog_enabled", flag_or_none r ($"SYSLOGENABLE"));
        ($"file_size", int_or_none r ($"FILESIZE")); ($"rotate_count", int_or_none r ($"ROTATECNT"));
        ($"remote_syslog_address", str_field r ($"SERVERADDR"))].
Definition build_sel_policy (r : pydict) : pyval := int_or_none r ($"SEL_POLICY").

Definition pages : list (text * text * (list pydict -> pyval)) :=
  [($"entries", $"getauditlog", extract_entries); ($"remote_storage", $"getauditlogcfg", first_or build_remote_storage PNone);
   ($"logging", $"getlogcfg", first_or build_logging PNone); ($"sel_policy", $"getselcfg", first_or build_sel_policy PNone)].
End AuditLog.

(** [gather_alerts] and [gather_auditlog]: every page in turn *)
Fixpoint gather_pages (le : text -> option pyval) (cfg : AspConfig) (pages : list (text * text * (list pydict -> pyval)))
    : io asp exn (list (text * pyval) * list (text * pyval)) :=
  match pages with
  | [] => io_ret ([], [])
  | (field, endpoint, transform) :: pages =>
      do v <- read_endpoint le cfg field endpoint transform;
      do rest <- gather_pages le cfg pages;
      io_ret ((field, fst v) :: fst rest, snd v :: snd rest)
  end.

(** The module's result from the values: audit log as they are, alerts
    grouped. *)
Definition value_of (values : list (text * pyval)) (name : text) : pyval := default PNone (assoc_get values name).
Definition alerts_fields (v : list (text * pyval)) : list (text * pyval) :=
  [($"destinations", dict [($"smtp", value_of v ($"smtp")); ($"lan", value_of v ($"lan"))]);
   ($"filtering", dict [($"event_filters", value_of v ($"event_filters")); ($"policies", value_of v ($"policies"));
                        ($"triggers", value_of v ($"triggers"))]);
   ($"email_format", dict [($"available", value_of v ($"email_format"))]);
   ($"adviser", value_of v ($"adviser"))].

(** [main] of alerts and audit log; the client is made before the guarded
    part begins. *)
Definition pages_main (le : text -> option pyval) (p : Connection) (lib : library) (action : text)
    (pages : list (text * text * (list pydict -> pyval))) (fields : list (text * pyval) -> list (text * pyval))
    : io asp exn module_result :=
  with_library lib
    (do client <- build_asp_client p;
     try_ikvm
       (run login client; gather_pages le client pages)
       (fun '(values, reads) =>
          io_ret (ExitJson ([($"changed", PBool false)] ++ fields values
                            ++ [($"operation", receipt_extra action (asp_endpoint client) false [($"endpoint_reads", dict reads)])])))).

Definition alerts_main (le : text -> option pyval) (p : Connection) (lib : library) : io asp exn module_result :=
  pages_main le p lib ($"asmb8_alerts.read") Alerts.pages alerts_fields.
Definition auditlog_main (le : text -> option pyval) (p : Connection) (lib : library) : io asp exn module_result :=
  pages_main le p lib ($"asmb8_auditlog.read") AuditLog.pages (fun v => v).

(** ** Lemmas *)

(** Two records with the same fields but for the values under [secrets]. *)
Definition agree_except (secrets : list text) (r r' : pydict) : Prop :=
  forall name, name ∉ secrets -> get r name = get r' name.

(** Two values that are both set or both not, by every test the modules
    make of one. *)
Definition same_presence (v v' : pyval) : Prop :=
  truthy v = truthy v' /\ secret_configured PNone v = secret_configured PNone v' /\
  (optional_str v = None <-> optional_str v' = None).

Definition SECRET_FIELDS : list text := [$"EmailID"; $"SSHKeyInfo"; $"TSIG_PRIVATE"; $"PWORD"].

(** Records that differ only in what those fields hold. *)
Definition same_but_secrets (r r' : pydict) : Prop :=
  agree_except SECRET_FIELDS r r' /\ forall name, name ∈ SECRET_FIELDS -> same_presence (get r name) (get r' name).

Lemma agree_get r r' name : same_but_secrets r r' -> bool_decide (name ∈ SECRET_FIELDS) = false -> get r name = get r' name.
Proof. intros [H _] Hn. apply H. by apply bool_decide_eq_false in Hn. Qed.

Lemma presence_at r r' name : same_but_secrets r r' -> bool_decide (name ∈ SECRET_FIELDS) = true -> same_presence (get r name) (get r' name).
Proof. intros [_ H] Hn. apply H. by apply bool_decide_eq_true in Hn. Qed.

Lemma configured_split flag v : secret_configured flag v = truthy flag || secret_configured PNone v.
Proof. done. Qed.

(** Rewrite every field but the secret ones. *)
Ltac same_fields H :=
  repeat match goal with
    | |- context [get ?r (str ?s)] =>
        match type of H with
        | same_but_secrets r ?r' =>
            lazymatch s with
            | "EmailID"%string => fail
            | "SSHKeyInfo"%string => fail
            | "TSIG_PRIVATE"%string => fail
            | "PWORD"%string => fail
            | _ => rewrite (agree_get r r' (str s) H eq_refl)
            end
        end
    end.

Lemma user_slot_secrets r r' : same_but_secrets r r' -> Users.decode_user_slot r = Users.decode_user_slot r'.
Proof.
  intros H. destruct (presence_at r r' ($"EmailID") H eq_refl) as (He & _ & _).
  destruct (presence_at r r' ($"SSHKeyInfo") H eq_refl) as (_ & Hk & _).
  unfold Users.decode_user_slot, bool_field, or_none. rewrite (configured_split _ (get r ($"SSHKeyInfo"))), Hk, <- configured_split.
  assert (truthy (py_or (get r ($"EmailID")) (PStr [])) = truthy (py_or (get r' ($"EmailID")) (PStr []))) as ->.
  { unfold py_or. rewrite He. by destruct (truthy (get r' ($"EmailID"))) eqn:E; rewrite ?He, ?E. }
  same_fields H. done.
Qed.

Lemma dns_secrets r r' : same_but_secrets r r' -> Network.decode_dns_entry r = Network.decode_dns_entry r'.
Proof.
  intros H. destruct (presence_at r r' ($"TSIG_PRIVATE") H eq_refl) as (_ & Hk & _).
  unfold Network.decode_dns_entry, bool_field. rewrite (configured_split _ (get r ($"TSIG_PRIVATE"))), Hk, <- configured_split.
  same_fields H. done.
Qed.

Lemma storage_secrets r r' : same_but_secrets r r' -> AuditLog.build_remote_storage r = AuditLog.build_remote_storage r'.
Proof.
  intros H. destruct (presence_at r r' ($"PWORD") H eq_refl) as (_ & _ & Hk).
  unfold AuditLog.build_remote_storage, flag_or_none, int_or_none, str_field.
  replace (match optional_str (get r ($"PWORD")) with Some _ => true | None => false end)
    with (match optional_str (get r' ($"PWORD")) with Some _ => true | None => false end).
  - same_fields H. done.
  - destruct (optional_str (get r ($"PWORD"))), (optional_str (get r' ($"PWORD"))); naive_solver.
Qed.

Lemma slot_secrets r r' : same_but_secrets r r' -> Users.is_configured_slot r = Users.is_configured_slot r'.
Proof. intros H. unfold Users.is_configured_slot. same_fields H. done. Qed.
Lemma lan_secrets r r' : same_but_secrets r r' -> Network.decode_lan_channel r = Network.decode_lan_channel r'.
Proof. intros H. unfold Network.decode_lan_channel, bool_field. same_fields H. done. Qed.
Lemma interface_secrets r r' : same_but_secrets r r' -> Network.decode_interface r = Network.decode_interface r'.
Proof. intros H. unfold Network.decode_interface, bool_field. same_fields H. done. Qed.
Lemma bonding_secrets r r' : same_but_secrets r r' -> Network.decode_bonding r = Network.decode_bonding r'.
Proof. intros H. unfold Network.decode_bonding, bool_field. same_fields H. done. Qed.
Lemma bond_support_secrets r r' : same_but_secrets r r' -> Network.decode_bond_support r = Network.decode_bond_support r'.
Proof. intros H. unfold Network.decode_bond_support. same_fields H. done. Qed.

Lemma map_secrets (f : pydict -> pyval) rs rs' :
  (forall r r', same_but_secrets r r' -> f r = f r') -> Forall2 same_but_secrets rs rs' -> map f rs = map f rs'.
Proof. intros Hf. induction 1 as [|r r' rs rs' Hr Hrs IH]; [done|]. cbn. by rewrite (Hf r r'), IH. Qed.
Lemma first_secrets (f : pydict -> pyval) d rs rs' :
  (forall r r', same_but_secrets r r' -> f r = f r') -> Forall2 same_but_secrets rs rs' -> first_or f d rs = first_or f d rs'.
Proof. intros Hf. inversion 1; [done|]. by apply Hf. Qed.
Lemma configured_secrets rs rs' :
  Forall2 same_but_secrets rs rs' ->
  Forall2 same_but_secrets (List.filter Users.is_configured_slot rs) (List.filter Users.is_configured_slot rs').
Proof.
  induction 1 as [|r r' rs rs' Hr Hrs IH]; [constructor|]. cbn. rewrite (slot_secrets r r' Hr).
  destruct (Users.is_configured_slot r'); [by constructor|done].
Qed.

Lemma preserves_net le cfg endpoint a : net_classified a -> net_classified (read_records le cfg endpoint None a).2.
Proof.
  intros Ha e He. apply (Ha e). unfold read_records, io_bind in He.
  pose proof (fetch_net cfg le ($"GET") endpoint (op_or None ($"get_webvar:" ++ endpoint)) [] a) as Hn.
  unfold get_webvar in He. destruct (fetch_webvar cfg le _ _ _ _ a) as [[r|x|] a1]; cbn in Hn, He; set_solver.
Qed.

(** A page that cannot be read is [None], and the next one is read. *)
Lemma read_endpoint_spec le cfg field endpoint transform a :
  net_classified a ->
  match read_endpoint le cfg field endpoint transform a with
  | (Ret (v, (f, o)), a') =>
      net_classified a' /\ f = field /\
      ((exists rs, read_records le cfg endpoint None a = (Ret rs, a') /\ v = transform rs /\ o = read_outcome None true) \/
       (exists err, read_records le cfg endpoint None a = (Raise (Ikvm err), a') /\ v = PNone /\
          o = read_outcome (Some (error_class err)) false))
  | (Raise _, _) => False
  | (Blocked, _) => True
  end.
Proof.
  intros Ha. unfold read_endpoint.
  pose proof (client_bind (get_webvar cfg le endpoint None) (fun r => io_ret (records_of r))
                (client_fetch cfg le _ _ _ _) (fun r => client_ret _) a Ha) as H.
  change (io_bind (get_webvar cfg le endpoint None) (fun r => io_ret (records_of r))) with (read_records le cfg endpoint None) in H.
  pose proof (preserves_net le cfg endpoint a Ha) as Hn.
  destruct (read_records le cfg endpoint None a) as [[rs|e|] a'] eqn:E; cbn in Hn; [|destruct H as [err ->]|done].
  - split_and!; [done|done|]. left. by exists rs.
  - split_and!; [done|done|]. right. by exists err.
Qed.

(** ** Properties *)

(** C25: Credentials reach no report.  Two controllers whose pages differ
    only in what their secret fields hold (mail address, SSH key, TSIG key,
    share password), present or absent in both, get the same report from the
    users, network and audit log modules: of each secret nothing is reported
    but whether it is set. *)
Theorem secrets_reduced_to_presence rs rs' lan lan' ifs ifs' dns dns' bond bond' sup sup' :
  Forall2 same_but_secrets rs rs' -> Forall2 same_but_secrets lan lan' -> Forall2 same_but_secrets ifs ifs' ->
  Forall2 same_but_secrets dns dns' -> Forall2 same_but_secrets bond bond' -> Forall2 same_but_secrets sup sup' ->
  Users.build_users_report rs = Users.build_users_report rs' /\
  Network.build_network_report lan ifs dns bond sup = Network.build_network_report lan' ifs' dns' bond' sup' /\
  first_or AuditLog.build_remote_storage PNone rs = first_or AuditLog.build_remote_storage PNone rs'.
Proof.
  intros Hrs Hlan Hifs Hdns Hbond Hsup. split_and!.
  - pose proof (configured_secrets rs rs' Hrs) as Hc. unfold Users.build_users_report.
    rewrite (map_secrets _ _ _ user_slot_secrets Hc). unfold blen.
    by rewrite (Forall2_length _ _ _ Hrs), (Forall2_length _ _ _ Hc).
  - unfold Network.build_network_report.
    by rewrite (map_secrets _ _ _ lan_secrets Hlan), (map_secrets _ _ _ interface_secrets Hifs),
      (map_secrets _ _ _ dns_secrets Hdns), (first_secrets _ _ _ _ bonding_secrets Hbond),
      (first_secrets _ _ _ _ bond_support_secrets Hsup).
  - by apply first_secrets; [apply storage_secrets|].
Qed.

(** What was kept of one page: what its records give, when one of the
    answers [N] was that page, or nothing. *)
Definition page_outcome (le : text -> option pyval) (N : list http_outcome) (endpoint : text) (transform : list pydict -> pyval)
    (v o : pyval) : Prop :=
  (exists body r, HResponse body ∈ N /\ parse_webvar le body (Some endpoint) (Some ($"get_webvar:" ++ endpoint)) = Ok r /\
     v = transform (records_of r) /\ o = read_outcome None true) \/
  (v = PNone /\ exists c, o = read_outcome (Some c) false).

Lemma page_read le cfg field endpoint transform N a v f o a' :
  net_classified a -> a_net a ⊆ N -> read_endpoint le cfg field endpoint transform a = (Ret (v, (f, o)), a') ->
  net_classified a' /\ a_net a' ⊆ N /\ f = field /\ page_outcome le N endpoint transform v o.
Proof.
  intros Ha HN E. pose proof (read_endpoint_spec le cfg field endpoint transform a Ha) as H. rewrite E in H.
  destruct H as (Ha' & -> & Hv). split_and!; [done| |done|].
  - assert (a_net (read_records le cfg endpoint None a).2 ⊆ a_net a) as Hn.
    { unfold read_records, io_bind. pose proof (fetch_net cfg le ($"GET") endpoint (op_or None ($"get_webvar:" ++ endpoint)) [] a) as Hn.
      unfold get_webvar. by destruct (fetch_webvar cfg le _ _ _ _ a) as [[r|x|] a1]. }
    destruct Hv as [(rs & Hr & _)|(err & Hr & _)]; rewrite Hr in Hn; by etrans.
  - destruct Hv as [(rs & Hr & -> & ->)|(err & _ & -> & ->)]; [left|right; split; [done|by eexists]].
    apply records_read in Hr as (body & r & Hb & _ & Hp & ->). exists body, r. split_and!; [by apply HN|done..].
Qed.

Lemma endpoint_replies le cfg field endpoint transform : replies (attempts cfg) (read_endpoint le cfg field endpoint transform).
Proof.
  intros m a H. unfold read_endpoint. destruct (replies_read cfg le endpoint None m a H) as [H1 H2].
  by destruct (read_records le cfg endpoint None a) as [[rs|[]|] a'].
Qed.
Lemma pages_replies le cfg pages : replies (length pages * attempts cfg) (gather_pages le cfg pages).
Proof.
  induction pages as [|[[field endpoint] transform] pages IH]; [apply replies_ret|]. cbn [gather_pages length Nat.mul].
  apply replies_bind; [apply endpoint_replies|]. intros [v [f o]]. apply replies_then; [exact IH|]. intros [values reads]. apply replies_ret.
Qed.

Lemma pages_read le cfg pages N a :
  net_classified a -> a_net a ⊆ N ->
  match gather_pages le cfg pages a with
  | (Ret (values, reads), _) =>
      Forall2 (fun '(field, endpoint, transform) '((f, v), (g, o)) => f = field /\ g = field /\ page_outcome le N endpoint transform v o)
        pages (zip values reads) /\ length values = length reads
  | (Raise _, _) => False
  | (Blocked, _) => True
  end.
Proof.
  revert a. induction pages as [|[[field endpoint] transform] pages IH]; intros a Ha HN; [by repeat constructor|].
  cbn [gather_pages]. unfold io_bind at 1. pose proof (read_endpoint_spec le cfg field endpoint transform a Ha) as H.
  destruct (read_endpoint le cfg field endpoint transform a) as [[[v [f o]]|e|] a1] eqn:E; [|done..]. clear H.
  destruct (page_read le cfg field endpoint transform N a v f o a1 Ha HN E) as (Ha1 & HN1 & -> & Hv). unfold io_bind. specialize (IH a1 Ha1 HN1).
  destruct (gather_pages le cfg pages a1) as [[[values reads]|e|] a2]; [|done..].
  destruct IH as [IH Hlen]. cbn. split; [|by rewrite Hlen]. by constructor.
Qed.

(** One page never spoils the others.  As long as the HTTP library
    raises only the failures the client names, and gives every attempt some
    outcome, reading the pages of the alerts and audit log modules always
    succeeds: every page, in order, is either reported from the records of
    its own page as a response of this run gave it, and marked read, or is
    [None] and marked failed with the class of its error. *)
Theorem pages_degrade_independently le cfg pages a :
  net_classified a ->
  match gather_pages le cfg pages a with
  | (Ret (values, reads), _) =>
      Forall2 (fun '(field, endpoint, transform) '((f, v), (g, o)) =>
                 f = field /\ g = field /\ page_outcome le (a_net a) endpoint transform v o)
        pages (zip values reads) /\ length values = length reads
  | (Raise _, _) => False
  | (Blocked, _) => blen (a_net a) < blen pages * (max_retries cfg + 1)
  end.
Proof.
  intros Ha. pose proof (pages_read le cfg pages (a_net a) a Ha ltac:(done)) as H.
  destruct (gather_pages le cfg pages a) as [[[values reads]|e|] a1] eqn:E; [done..|].
  apply Znot_ge_lt. intros Hge. assert (0 <= max_retries cfg) by (unfold max_retries; lia).
  destruct (pages_replies le cfg pages 0%nat a) as [Hb _]; [|by rewrite E in Hb].
  unfold attempts, blen in *. nia.
Qed.

(** The client of these two modules is made outside their [try]: a refusal
    to speak plain HTTP leaves the module as an exception, where the users
    module turns it into a failure result. *)
Theorem insecure_transport_escapes le p a :
  c_use_tls p = false -> c_allow_insecure p = false ->
  (exists e, (alerts_main le p None a).1 = Raise (Ikvm e) /\ error_class e = TLS_VALIDATION) /\
  (exists e, (auditlog_main le p None a).1 = Raise (Ikvm e) /\ error_class e = TLS_VALIDATION) /\
  (exists fields, (users_main le p None false a).1 = Ret (FailJson fields)).
Proof.
  intros Ht Hi. unfold alerts_main, auditlog_main, users_main, pages_main, with_library, try_ikvm, io_bind, build_asp_client,
    AspClient_init, asp_config, enforce_transport_policy. cbn [ac_use_tls]. rewrite Ht, Hi. cbn [orb rbind raise_ikvm fst].
  split_and!; by eexists.
Qed.

(** ** The properties at concrete pages *)

Definition demo_user (key : string) : pydict :=
  [(PStr ($"UserName"), PStr ($"admin")); (PStr ($"UserStatus"), PInt 1); (PStr ($"SSHKeyInfo"), PStr (str key))].

Lemma secrets_reduced_to_presence_witness :
  Users.build_users_report [demo_user "ssh-rsa AAAA"] = Users.build_users_report [demo_user "ssh-ed25519 BBBB"].
Proof.
  refine (proj1 (secrets_reduced_to_presence [demo_user "ssh-rsa AAAA"] [demo_user "ssh-ed25519 BBBB"] [] [] [] [] [] [] [] [] [] [] _ _ _ _ _ _));
    [|constructor..].
  constructor; [|constructor]. split.
  - intros name Hn. unfold get, demo_user. rewrite !dict_find_cons.
    destruct (text_eqb ($"UserName") name); [done|]. destruct (text_eqb ($"UserStatus") name); [done|].
    destruct (text_eqb ($"SSHKeyInfo") name) eqn:E; [|done]. apply text_eqb_eq in E. subst name.
    exfalso. apply Hn. apply (bool_decide_unpack _). by vm_compute.
  - intros name Hn. repeat (apply elem_of_cons in Hn as [->|Hn]; [by vm_compute|]). by apply not_elem_of_nil in Hn.
Defined.

Definition demo_pages : asp :=
  demo_client [HResponse ($"<html>login</html>"); HResponse demo_body; HConnectTimeout; HResponse demo_body].

Lemma pages_degrade_independently_witness :
  exists values reads a', gather_pages sample_eval demo_asp_cfg AuditLog.pages demo_pages = (Ret (values, reads), a') /\
    length values = length reads.
Proof.
  assert (net_classified demo_pages) as Hn by (intros e He; repeat (apply elem_of_cons in He as [?|He]; [done|]); by apply not_elem_of_nil in He).
  pose proof (pages_degrade_independently sample_eval demo_asp_cfg AuditLog.pages demo_pages Hn) as H.
  destruct (gather_pages sample_eval demo_asp_cfg AuditLog.pages demo_pages) as [[[values reads]|e|] a'] eqn:E.
  - exists values, reads, a'. split; [done|]. exact (proj2 H).
  - destruct H.
  - exfalso. vm_compute in E. discriminate E.
Defined.
