(* ===== verification/AsmbSel.v ===== *)
(** * The system event log module

    modules/asmb8_sel.py: read the event log, whole or after a record, with
    the capacity and the policy of the log.  A time stamp that cannot be
    read costs its own field only. *)
From Stdlib Require Import ZArith Lia Ascii String.
From stdpp Require Import prelude.
From S2P Require Import Prelude PyBytes PyText PyDate Regex Errors Models PyValue Webvar Asp Ansible.

Module Sel.
Definition KNOWN_ENTRY_FIELDS : list text :=
  [$"RecordID"; $"RecordType"; $"TimeStamp"; $"GenID1"; $"GenID2"; $"EvmRev"; $"SensorType"; $"SensorName";
   $"EventDirType"; $"EventData1"; $"EventData2"; $"EventData3"].

(** [_connection_argument_spec] of asmb8_sel.py *)
Definition connection_argument_spec : argspec :=
  [($"host", arg_req TStr);
   ($"port", arg_def TInt (PInt 443));
   ($"username", arg_def TStr (PStr ($"admin")));
   ($"password", arg_secret true);
   ($"use_tls", arg_def TBool (PBool true));
   ($"allow_insecure_transport", arg_def TBool (PBool false));
   ($"validate_certs", arg_def TBool (PBool true));
   ($"ca_path", arg_opt TPath);
   ($"tls_fingerprint", arg_opt TStr);
   ($"timeout", arg_def TInt (PInt 30));
   ($"connect_timeout", arg_def TInt (PInt 10))].
Definition argument_spec : argspec :=
  connection_argument_spec ++ [($"limit", arg_opt TInt); ($"after_event_id", arg_opt TInt)].

Definition epoch_to_iso (epoch : pyval) : option text :=
  match int_of epoch with
  | Ok z => iso_of_epoch z
  | Err _ => None
  end.

(** [key not in _KNOWN_ENTRY_FIELDS] *)
Definition is_extra (p : pyval * pyval) : bool := negb (existsb (fun name => is_key name (fst p)) KNOWN_ENTRY_FIELDS).

Definition parse_entry (r : pydict) : pyval :=
  let timestamp_epoch := get r ($"TimeStamp") in
  dict [($"record_id", get r ($"RecordID")); ($"record_type", get r ($"RecordType"));
        ($"timestamp_epoch", timestamp_epoch);
        ($"timestamp", match timestamp_epoch with PNone => PNone | v => opt_text (epoch_to_iso v) end);
        ($"generator_id_1", get r ($"GenID1")); ($"generator_id_2", get r ($"GenID2"));
        ($"event_message_format_version", get r ($"EvmRev")); ($"sensor_type", get r ($"SensorType"));
        ($"sensor_name", get r ($"SensorName")); ($"event_dir_type", get r ($"EventDirType"));
        ($"event_data_1", get r ($"EventData1")); ($"event_data_2", get r ($"EventData2"));
        ($"event_data_3", get r ($"EventData3")); ($"extra", PDict (List.filter is_extra r))].

(** [entries[:limit]] for a limit that is not negative *)
Definition limited {A} (limit : option Z) (l : list A) : list A :=
  match limit with Some n => take (Z.to_nat n) l | None => l end.

Section Main.
Context (le : text -> option pyval) (p : Connection).

Definition read_entries (client : AspConfig) (limit : option Z) : io asp exn (list pyval * Z) :=
  do rs <- read_records le client ($"getallselentries") None;
  let entries := map parse_entry rs in
  io_ret (limited limit entries, blen entries).

Definition read_paged_entries (client : AspConfig) (after_event_id : Z) (limit : option Z) : io asp exn (list pyval * Z) :=
  do rs <- post_records le client ($"getselentries") [($"WEBVAR_LASTEVENTID", dec after_event_id)];
  let entries := map parse_entry rs in
  io_ret (limited limit entries, blen entries).

(** The required number of a page's first record. *)
Definition read_number (client : AspConfig) (endpoint name : text) : io asp exn Z :=
  do rs <- read_records le client endpoint None;
  match match rs with r :: _ => dict_find r name | [] => None end with
  | None =>
      io_raise (Ikvm (ProtocolError (endpoint ++ $".asp did not return a " ++ name ++ $" field")
                        (Some (asp_endpoint client)) ($"asmb8_sel.read")))
  | Some v => io_lift (int_of v)
  end.
Definition read_max_entries (client : AspConfig) : io asp exn Z := read_number client ($"getmaxselentries") ($"COUNT").
Definition read_sel_policy (client : AspConfig) : io asp exn Z := read_number client ($"getselcfg") ($"SEL_POLICY").

Definition is_negative (v : option Z) : bool := match v with Some n => n <? 0 | None => false end.

Definition main (lib : library) (limit after_event_id : option Z) : io asp exn module_result :=
  with_library lib
    (if is_negative limit then io_ret (fail_msg ($"limit must not be negative; got " ++ dec (default 0 limit)))
     else if is_negative after_event_id then
       io_ret (fail_msg ($"after_event_id must not be negative; got " ++ dec (default 0 after_event_id)))
     else
       do client <- build_asp_client p;
       try_ikvm
         (run login client;
          do read <- (match after_event_id with
                      | Some id => read_paged_entries client id limit
                      | None => read_entries client limit
                      end);
          do max_entries <- read_max_entries client;
          do sel_policy <- read_sel_policy client;
          io_ret (read, max_entries, sel_policy))
         (fun '(entries, available, max_entries, sel_policy) =>
            let observed := dict [($"entries_available", PInt available); ($"max_entries", PInt max_entries);
                                  ($"sel_policy", PInt sel_policy)] in
            io_ret (ExitJson
              [($"changed", PBool false); ($"entries", PList entries); ($"entries_available", PInt available);
               ($"entries_returned", PInt (blen entries)); ($"max_entries", PInt max_entries); ($"sel_policy", PInt sel_policy);
               ($"operation", receipt ($"asmb8_sel.read") (asp_endpoint client) false PNone PNone observed)]))).
End Main.

(** ** Lemmas *)

(** Fields outside the known ones are kept by the filter. *)
Lemma extra_find r name : name ∉ KNOWN_ENTRY_FIELDS -> dict_find (List.filter is_extra r) name = dict_find r name.
Proof.
  intros Hn. unfold dict_find. f_equal. induction r as [|[k v] r IH]; [done|]. cbn.
  destruct (is_extra (k, v)) eqn:Ex; cbn.
  - by destruct (is_key name k).
  - destruct (is_key name k) eqn:Ek; [|done]. exfalso. apply Hn. destruct k; try done. cbn in Ek. apply text_eqb_eq in Ek. subst.
    unfold is_extra in Ex. apply negb_false_iff, existsb_exists in Ex as (x & Hx & Hk). cbn in Hk. apply text_eqb_eq in Hk. subst.
    by apply list_elem_of_In.
Qed.

(** The bounds of a time stamp are those of its ISO form. *)
Lemma iso_defined e : iso_of_epoch e = None <-> e < MIN_EPOCH \/ MAX_EPOCH < e.
Proof.
  unfold iso_of_epoch. destruct (Z.ltb_spec e MIN_EPOCH), (Z.ltb_spec MAX_EPOCH e); cbn; split; try done; lia.
Qed.

Lemma limited_length {A} limit (l : list A) :
  is_negative limit = false ->
  blen (limited limit l) = match limit with Some n => Z.min n (blen l) | None => blen l end.
Proof.
  unfold blen. destruct limit as [n|]; cbn; [|done]. intros Hn. apply Z.ltb_ge in Hn. rewrite length_take. lia.
Qed.

(** The page the entries come from, and the name the client gives its reading. *)
Definition entries_page (after_event_id : option Z) : text * text :=
  match after_event_id with
  | Some _ => ($"getselentries", $"post_webvar:getselentries")
  | None => ($"getallselentries", $"get_webvar:getallselentries")
  end.

(** ** Properties *)

(** An entry loses nothing of its record.  Two records that are reported
    alike agree in every field, the known ones and those that land in
    [extra]. *)
Theorem sel_entry_lossless r r' name : parse_entry r = parse_entry r' -> get r name = get r' name.
Proof.
  unfold parse_entry, dict. cbn [map fst snd]. intros [=].
  destruct (decide (name ∈ KNOWN_ENTRY_FIELDS)) as [Hk|Hk].
  - repeat (apply elem_of_cons in Hk as [->|Hk]; [done|]). by apply not_elem_of_nil in Hk.
  - unfold get. rewrite <- (extra_find r), <- (extra_find r') by done. congruence.
Qed.

(** C30: Time stamps are exact and bounded.  A record stamped with an integer
    reports the UTC date and time of that second, from which the integer can
    be read back, for the years 1 to 9999; outside them the time is [None].
    The other fields are reported either way. *)
Theorem sel_timestamp_exact r e :
  get r ($"TimeStamp") = PInt e ->
  let entry := as_dict (parse_entry r) in
  get entry ($"timestamp_epoch") = PInt e /\
  (MIN_EPOCH <= e <= MAX_EPOCH -> exists t, get entry ($"timestamp") = PStr t /\ epoch_of_iso t = Some e) /\
  (e < MIN_EPOCH \/ MAX_EPOCH < e -> get entry ($"timestamp") = PNone) /\
  get entry ($"record_id") = get r ($"RecordID") /\ get entry ($"sensor_name") = get r ($"SensorName").
Proof.
  intros He entry. assert (get entry ($"timestamp") = opt_text (iso_of_epoch e)) as Ht.
  { unfold entry, parse_entry. cbn -[iso_of_epoch]. by rewrite He. }
  rewrite Ht. split_and!; [exact He| | |done|done].
  - intros Hr. destruct (iso_of_epoch e) as [t|] eqn:E; [|apply iso_defined in E; lia]. exists t. split; [done|]. by apply iso_roundtrip.
  - intros Hr. apply iso_defined in Hr. by rewrite Hr.
Qed.

(** The log is reported as read, up to the limit.  A negative limit or
    record number is refused before anything is sent.  A run that succeeds
    reports the entries of a page that was answered in this run, the first
    ones up to the limit, with the number there were. *)
Theorem sel_outcome le p lib limit after_event_id a :
  (is_negative limit || is_negative after_event_id = true -> exists f, main le p lib limit after_event_id a = (Ret (FailJson f), a)) /\
  forall fields a', main le p lib limit after_event_id a = (Ret (ExitJson fields), a') ->
    exists body r, HResponse body ∈ a_net a /\
      parse_webvar le body (Some (entries_page after_event_id).1) (Some (entries_page after_event_id).2) = Ok r /\
      let entries := map parse_entry (records_of r) in
      assoc_get fields ($"entries") = Some (PList (limited limit entries)) /\
      assoc_get fields ($"entries_available") = Some (PInt (blen entries)) /\
      assoc_get fields ($"entries_returned")
      = Some (PInt (match limit with Some n => Z.min n (blen entries) | None => blen entries end)).
Proof.
  split.
  - intros Hn. unfold main, with_library. destruct lib as [[m e]|]; [by eexists|].
    destruct (is_negative limit); [by eexists|]. cbn in Hn. rewrite Hn. by eexists.
  - intros fields a' H. apply library_exit in H. destruct (is_negative limit) eqn:Hl; [done|].
    destruct (is_negative after_event_id); [done|]. apply io_bind_inv in H as (client & a1 & H1 & H).
    apply build_returns in H1 as (-> & Hn & _). apply try_ikvm_exit in H as ([[[entries available] m] pol] & a2 & H & [= <- _]).
    apply io_bind_inv in H as (t & a3 & Hlogin & H). apply login_returns in Hlogin. rewrite Hn in Hlogin.
    apply io_bind_inv in H as ([es n] & a4 & Hread & H). apply io_bind_inv in H as (m' & a5 & _ & H).
    apply io_bind_inv in H as (pol' & a6 & _ & H). injection H as -> -> -> -> _.
    destruct after_event_id as [id|]; apply io_bind_inv in Hread as (rs & a7 & Hrs & [= <- <- _]);
      [apply records_posted in Hrs as (body & r & Hb & _ & Hp & ->)|apply records_read in Hrs as (body & r & Hb & _ & Hp & ->)];
      exists body, r; (split_and!; [set_solver|done|]); cbv zeta; cbn; by rewrite limited_length.
Qed.

(** ** The properties at a concrete record *)

Definition demo_record : pydict :=
  [(PStr ($"RecordID"), PInt 7); (PStr ($"TimeStamp"), PInt 1700000000); (PStr ($"Vendor"), PStr ($"x"))].
Example demo_entry : get (as_dict (parse_entry demo_record)) ($"timestamp") = PStr ($"2023-11-14T22:13:20+00:00").
Proof. by vm_compute. Qed.

Lemma sel_timestamp_exact_witness :
  exists t, get (as_dict (parse_entry demo_record)) ($"timestamp") = PStr t /\ epoch_of_iso t = Some 1700000000.
Proof. apply (sel_timestamp_exact demo_record 1700000000 eq_refl). by vm_compute. Defined.

Lemma sel_entry_lossless_witness : get demo_record ($"Vendor") = get (rev demo_record) ($"Vendor").
Proof. apply sel_entry_lossless. by vm_compute. Defined.
End Sel.
