(* ===== verification/AsmbSessions.v ===== *)
(** * The services and sessions module

    modules/asmb8_sessions.py: the services of the controller with their
    session counts, the remote session settings (whose page may fail on its
    own), and, on request, who is connected to which service.  The services
    asked for are resolved against the names this run read. *)
From Stdlib Require Import ZArith Lia Ascii String.
From stdpp Require Import prelude.
From S2P Require Import Prelude PyBytes PyText Regex Errors Models PyValue Webvar Asp Ansible AsmbReports.

Module Sessions.
Definition SESSION_COUNT_OFFSET : Z := 128.
Definition SESSION_COUNT_SENTINEL : Z := 255.
Definition UINT32_NOT_APPLICABLE : Z := 4294967295.
Definition SESSION_INFO_ENDPOINT : text := $"getsessioninfo".
Definition ALL_SERVICES_SENTINEL : text := $"all".

(** [_connection_argument_spec] of asmb8_sessions.py *)
Definition connection_argument_spec : argspec :=
  [($"host", arg_req TStr);
   ($"port", arg_def TInt (PInt 443));
   ($"username", arg_def TStr (PStr ($"admin")));
   ($"password", arg_secret true);
   ($"use_tls", arg_def TBool (PBool true));
   ($"allow_insecure_transport", arg_def TBool (PBool false));
   ($"validate_certs", arg_def TBool (PBool true));
   ($"ca_path", arg_opt TPath);
   ($"tls_fingerprint", arg_opt TStr);
   ($"timeout", arg_def TInt (PInt 30));
   ($"connect_timeout", arg_def TInt (PInt 10))].
Definition argument_spec : argspec := connection_argument_spec ++ [($"active_session_services", arg_opt (TList TStr))].

(** [raw - n]; the difference of a float is kept as written. *)
Definition minus (raw : pyval) (n : Z) : result exn pyval :=
  match as_int raw, raw with
  | Some z, _ => Ok (PInt (z - n))
  | None, POpaque (c :: r) =>
      if is_digit c || (c =? ch "-") then Ok (POpaque (c :: r ++ $" - " ++ dec n))
      else Err (TypeError ($"unsupported operand type(s) for -"))
  | None, _ => Err (TypeError ($"unsupported operand type(s) for -"))
  end.

Definition decode_session_count (raw : pyval) : result exn pyval :=
  match raw with
  | PNone => Ok PNone
  | _ => if py_eq raw (PInt SESSION_COUNT_SENTINEL) then Ok PNone else minus raw SESSION_COUNT_OFFSET
  end.

Definition decode_uint32_or_none (raw : pyval) : pyval :=
  if py_eq raw (PInt UINT32_NOT_APPLICABLE) then PNone else raw.

Definition decode_service (r : pydict) : result exn pyval :=
  let* max := decode_session_count (get r ($"MAXSESS")) in
  let* current := decode_session_count (get r ($"CURSESS")) in
  Ok (dict [($"id", get r ($"SERVICEID")); ($"name", get r ($"SERVICENAME")); ($"enabled", bool_field r ($"STATE"));
            ($"interface_scope_raw", get r ($"IFCNAME"));
            ($"port", dict [($"plain", decode_uint32_or_none (get r ($"NSPORT")));
                            ($"secure", decode_uint32_or_none (get r ($"SECPORT")))]);
            ($"timeout_seconds", decode_uint32_or_none (get r ($"SERVICE_TIMEOUT")));
            ($"sessions", dict [($"max", max); ($"current", current)]);
            ($"single_port_status_raw", get r ($"SINGLEPORT_STATUS"))]).

Fixpoint services_from (services : pydict) (rs : list pydict) : result exn pydict :=
  match rs with
  | [] => Ok services
  | r :: rs =>
      let name := get r ($"SERVICENAME") in
      if negb (truthy name) then services_from services rs
      else
        let* service := decode_service r in
        let* services := dict_set services name service in
        services_from services rs
  end.
Definition build_services_report (rs : list pydict) : result exn pydict := services_from [] rs.

Fixpoint ids_from (ids : pydict) (rs : list pydict) : result exn pydict :=
  match rs with
  | [] => Ok ids
  | r :: rs =>
      let name := get r ($"SERVICENAME") in
      if negb (truthy name) then ids_from ids rs
      else
        let* id := index r ($"SERVICEID") in
        let* ids := dict_set ids name id in
        ids_from ids rs
  end.
Definition known_service_ids (rs : list pydict) : result exn pydict := ids_from [] rs.

(** [name in known_ids] *)
Definition known (ids : pydict) (name : text) : bool := existsb (fun p => is_key name (fst p)) ids.

Definition resolve_requested_session_services (requested : option (list text)) (known_ids : pydict) : result exn (list pyval) :=
  match requested with
  | None | Some [] => Ok []
  | Some names =>
      if existsb (text_eqb ALL_SERVICES_SENTINEL) names then Ok (map fst known_ids)
      else
        let unknown := List.filter (fun name => negb (known known_ids name)) names in
        match unknown with
        | [] => Ok (map PStr (first_seen [] names))
        | _ =>
            let* sorted := sorted_values (map fst known_ids) in
            Err (ValueError
              ($"active_session_services named " ++ repr_value (str_list unknown)
               ++ $", which getallservicescfg.asp did not report this run (known this run: " ++ repr_value (PList sorted)
               ++ $"). This module derives the SERVICEBIT mapping live from getallservicescfg.asp rather than a hardcoded copy -- see the module description -- so an unknown name here means the BMC's own service list does not currently include it, not a bug in this module."))
        end
  end.

Definition decode_session_record (r : pydict) (service_name : pyval) : pyval :=
  dict [($"service", service_name); ($"session_id_raw", get r ($"SID")); ($"session_type_raw", get r ($"STYPE"));
        ($"user_id_raw", get r ($"UID")); ($"username", or_none r ($"UNAME")); ($"ip_address", or_none r ($"IPADDRESS"));
        ($"privilege_raw", get r ($"UPRIV"))].

Definition decode_remote_session_config (r : pydict) : pyval :=
  dict [($"kvm_encryption_enabled", bool_field r ($"KVMENCRYPTION")); ($"media_encryption_enabled", bool_field r ($"MEDIAENCRYPTION"));
        ($"single_port_enabled", bool_field r ($"SINGLEPORT")); ($"keyboard_language", get r ($"KEYBOARDLANG"));
        ($"local_media_enabled", bool_field r ($"LMEDIAENABLE")); ($"remote_media_enabled", bool_field r ($"RMEDIAENABLE"));
        ($"vmedia_attach_raw", get r ($"VMEDIAATTACH")); ($"host_lock_enabled", bool_field r ($"HOSTLOCK"));
        ($"host_lock_auto_enabled", bool_field r ($"HOSTLOCKAUTO")); ($"sd_card_status_raw", get r ($"SDCARD_STATUS"))].

Section Main.
Context (le : text -> option pyval) (p : Connection).

(** [service_ids[name]] for a name of the resolved list *)
Definition id_of (ids : pydict) (name : pyval) : result exn pyval :=
  match List.find (fun q => py_eq (fst q) name) ids with
  | Some q => Ok (snd q)
  | None => Err (KeyError (repr_value name))
  end.

Fixpoint fetch_active_sessions (client : AspConfig) (names : list pyval) (ids : pydict) : io asp exn (list pyval) :=
  match names with
  | [] => io_ret []
  | name :: names =>
      do id <- io_lift (id_of ids name);
      do rs <- post_records le client SESSION_INFO_ENDPOINT [($"SERVICEBIT", str_of id)];
      do rest <- fetch_active_sessions client names ids;
      io_ret (map (fun r => decode_session_record r name) rs ++ rest)
  end.

Definition page_read (outcome : text) (error_class : option ErrorClass) : pyval :=
  dict [($"outcome", PStr outcome); ($"error_class", opt_text (error_class_str <$> error_class))].

(** [except ProtocolError]: the class is that of the error *)
Definition is_protocol (e : exn) : option ErrorClass :=
  match e with
  | Ikvm err => if bool_decide (error_class err = PROTOCOL) then Some PROTOCOL else None
  | _ => None
  end.

Definition fetch_remote_session_config (client : AspConfig) : io asp exn (pyval * pyval) :=
  io_try
    (do rs <- read_records le client ($"getremotesession") None;
     io_ret (match rs with
             | [] => (PNone, page_read ($"failed") None)
             | r :: _ => (decode_remote_session_config r, page_read ($"read") None)
             end))
    (fun e => match is_protocol e with
              | Some c => io_ret (PNone, page_read ($"failed") (Some c))
              | None => io_raise e
              end).

Record Report : Type := {
  services : pydict;
  remote_session : pyval;
  remote_session_read : pyval;
  active_sessions : option (list pyval);
  active_sessions_queried : list pyval;
}.

Definition gather_report (client : AspConfig) (requested : option (list text)) : io asp exn Report :=
  run login client;
  do rs <- read_records le client ($"getallservicescfg") None;
  do service_ids <- io_lift (known_service_ids rs);
  do remote <- fetch_remote_session_config client;
  do queried <- io_lift (resolve_requested_session_services requested service_ids);
  do active <- (match queried with
                | [] => io_ret None
                | _ => do l <- fetch_active_sessions client queried service_ids; io_ret (Some l)
                end);
  do report <- io_lift (build_services_report rs);
  io_ret {| services := report; remote_session := fst remote; remote_session_read := snd remote;
            active_sessions := active; active_sessions_queried := queried |}.

(** [except ValueError], its subclasses included *)
Definition value_error (e : exn) : option text :=
  match e with
  | ValueError m | UnicodeEncodeError m | UnicodeDecodeError m => Some m
  | _ => None
  end.

Definition active_value (o : option (list pyval)) : pyval := match o with Some l => PList l | None => PNone end.
Definition report_fields (r : Report) : list (text * pyval) :=
  [($"services", PDict (services r)); ($"remote_session", remote_session r); ($"remote_session_read", remote_session_read r);
   ($"active_sessions", active_value (active_sessions r)); ($"active_sessions_queried", PList (active_sessions_queried r))].
Definition success (client : AspConfig) (r : Report) : module_result :=
  ExitJson ([($"changed", PBool false)] ++ report_fields r
            ++ [($"operation", receipt ($"asmb8_sessions.report") (asp_endpoint client) false PNone PNone
                   (dict [($"services", PDict (services r)); ($"remote_session", remote_session r);
                          ($"active_sessions", active_value (active_sessions r))]))]).
Definition nothing_read : module_result :=
  ExitJson [($"changed", PBool false); ($"services", PNone); ($"remote_session", PNone); ($"remote_session_read", PNone);
            ($"active_sessions", PNone); ($"active_sessions_queried", PNone);
            ($"operation", receipt ($"asmb8_sessions.report") (host_port (c_host p) (c_port p)) false PNone PNone PNone)].

Definition main (lib : library) (check_mode : bool) (requested : option (list text)) : io asp exn module_result :=
  with_library lib
    (if check_mode then io_ret nothing_read
     else
       try_ikvm
         (io_try
            (do client <- build_asp_client p;
             do report <- gather_report client requested;
             io_ret (success client report))
            (fun e => match value_error e with Some m => io_ret (fail_msg m) | None => io_raise e end))
         io_ret).
End Main.

(** ** Lemmas *)

Lemma count_decoded z : decode_session_count (PInt z) = Ok (if z =? SESSION_COUNT_SENTINEL then PNone else PInt (z - SESSION_COUNT_OFFSET)).
Proof. unfold decode_session_count. cbn. by destruct (z =? SESSION_COUNT_SENTINEL). Qed.

Lemma find_app {A} (f : A -> bool) l l' :
  List.find f (l ++ l') = match List.find f l with Some x => Some x | None => List.find f l' end.
Proof. induction l as [|x l IH]; [done|]. cbn. by destruct (f x). Qed.

(** A table after one insertion under a text key. *)
Lemma dict_put_find d k v name : dict_find (dict_put d (PStr k) v) name = if text_eqb k name then Some v else dict_find d name.
Proof.
  induction d as [|[k' v'] d IH]; cbn [dict_put]; [by rewrite dict_find_cons|]. destruct (py_eq k' (PStr k)) eqn:E.
  - apply py_eq_text in E as ->. rewrite !dict_find_cons. by destruct (text_eqb k name).
  - unfold dict_find in *. cbn. destruct (is_key name k') eqn:Ek; [|done]. cbn.
    destruct k'; try done. cbn in Ek. apply text_eqb_eq in Ek. subst. cbn in E.
    destruct (text_eqb k name) eqn:E2; [|done]. apply text_eqb_eq in E2. subst. by rewrite text_eqb_refl in E.
Qed.

Lemma known_has_id ids name : known ids name = true -> exists id, id_of ids (PStr name) = Ok id.
Proof.
  intros H. apply existsb_exists in H as ([k v] & Hin & Hk). unfold id_of.
  destruct (List.find _ ids) as [q|] eqn:E; [by eexists|]. eapply find_none in E; [|exact Hin]. cbn in E, Hk.
  destruct k; try done. cbn in Hk. apply text_eqb_eq in Hk as ->. cbn in E. by rewrite text_eqb_refl in E.
Qed.
Lemma key_has_id ids k : k ∈ map fst ids -> exists id, id_of ids k = Ok id.
Proof.
  intros (q & -> & Hq)%list_elem_of_fmap. unfold id_of. destruct (List.find _ ids) as [q'|] eqn:E; [by eexists|].
  eapply find_none in E; [|by apply list_elem_of_In]. by rewrite py_eq_refl in E.
Qed.

(** A count as the firmware reports it: absent or an integer. *)
Definition is_count (v : pyval) : Prop := v = PNone \/ exists z, v = PInt z.
Definition count_of (v : pyval) : pyval :=
  match v with
  | PInt z => if z =? SESSION_COUNT_SENTINEL then PNone else PInt (z - SESSION_COUNT_OFFSET)
  | _ => PNone
  end.
Lemma count_total v : is_count v -> decode_session_count v = Ok (count_of v).
Proof. intros [->|[z ->]]; [done|apply count_decoded]. Qed.

(** A record of a service: its name a text, its counts counts. *)
Definition service_record (r : pydict) : Prop :=
  (exists name, get r ($"SERVICENAME") = PStr name) /\ is_count (get r ($"MAXSESS")) /\ is_count (get r ($"CURSESS")).

Definition service_named (name : text) (r : pydict) : bool := is_key name (get r ($"SERVICENAME")).

Lemma decode_service_total r :
  service_record r -> exists v, decode_service r = Ok v /\
    get (as_dict (get (as_dict v) ($"sessions"))) ($"max") = count_of (get r ($"MAXSESS")) /\
    get (as_dict (get (as_dict v) ($"sessions"))) ($"current") = count_of (get r ($"CURSESS")).
Proof. intros (_ & Hm & Hc). unfold decode_service. rewrite (count_total _ Hm), (count_total _ Hc). by eexists. Qed.

Lemma services_from_total rs d :
  Forall service_record rs ->
  exists d', services_from d rs = Ok d' /\
    forall name, name <> [] ->
      match List.find (service_named name) (rev rs) with
      | Some r => exists v, decode_service r = Ok v /\ dict_find d' name = Some v
      | None => dict_find d' name = dict_find d name
      end.
Proof.
  intros Hrs. revert d. induction Hrs as [|r rs Hr Hrs IH]; intros d; [by eexists|].
  cbn [services_from]. destruct Hr as [[n Hn] Hc]. rewrite Hn. destruct (decide (n = [])) as [->|Hne].
  - cbn. destruct (IH d) as (d' & Hd & Hl). exists d'. split; [done|]. intros name Hname. specialize (Hl name Hname).
    cbn [rev]. rewrite find_app. destruct (List.find _ (rev rs)); [done|]. cbn. unfold service_named. rewrite Hn. cbn.
    by destruct (text_eqb [] name) eqn:E; [apply text_eqb_eq in E|].
  - assert (truthy (PStr n) = true) as -> by (cbn; by rewrite bool_decide_eq_false_2).
    destruct (decode_service_total r) as (v & Hv & _); [by split; [exists n|]|]. rewrite Hv. cbn.
    destruct (IH (dict_put d (PStr n) v)) as (d' & Hd & Hl). exists d'. split; [done|]. intros name Hname.
    specialize (Hl name Hname). rewrite find_app. destruct (List.find _ (rev rs)); [done|]. cbn. unfold service_named. rewrite Hn. cbn.
    rewrite dict_put_find in Hl. destruct (text_eqb n name); [by exists v|done].
Qed.

(** ** Properties *)

(** The services are reported whole, and counts are decoded.  When every
    record names its service with a text and has integer counts, or none,
    the report is built without error; the entry of each service is that of
    its last record; its counts are 128 less than the raw numbers, or [None]
    where the firmware says 255 or nothing; a name no record has is not in
    the report. *)
Theorem services_report_total rs :
  Forall service_record rs ->
  exists d, build_services_report rs = Ok d /\
    forall name, name <> [] ->
      match List.find (service_named name) (rev rs) with
      | Some r => exists v, dict_find d name = Some v /\ get (as_dict v) ($"id") = get r ($"SERVICEID") /\
          get (as_dict (get (as_dict v) ($"sessions"))) ($"max") = count_of (get r ($"MAXSESS")) /\
          get (as_dict (get (as_dict v) ($"sessions"))) ($"current") = count_of (get r ($"CURSESS"))
      | None => dict_find d name = None
      end.
Proof.
  intros Hrs. destruct (services_from_total rs [] Hrs) as (d & Hd & Hl). exists d. split; [done|]. intros name Hname.
  specialize (Hl name Hname). destruct (List.find _ (rev rs)) as [r|] eqn:E; [|done]. destruct Hl as (v & Hv & Hf). exists v.
  apply find_some in E as [Hin _]. rewrite Forall_forall in Hrs.
  destruct (decode_service_total r) as (v' & Hv' & Hm & Hc); [by apply Hrs, list_elem_of_In, in_rev|].
  rewrite Hv' in Hv. injection Hv as ->. split_and!; [done| |done|done].
  unfold decode_service in Hv'. destruct (decode_session_count _); [|done]. cbn in Hv'.
  destruct (decode_session_count _); [|done]. by injection Hv' as <-.
Qed.

(** The services to query are ones this run read.  Nothing requested
    queries nothing; [all] queries every service the controller named, in
    its order; otherwise each requested name is queried once, in the order
    first given.  Every name that is queried has an identifier in the
    table.  It is an error exactly when, without [all], a name is requested
    that the controller did not report. *)
Theorem session_services_resolved requested ids :
  let names := default [] requested in
  match resolve_requested_session_services requested ids with
  | Ok queried =>
      (forall q, q ∈ queried -> exists id, id_of ids q = Ok id) /\
      (names = [] /\ queried = [] \/
       ALL_SERVICES_SENTINEL ∈ names /\ queried = map fst ids \/
       exists l, queried = map PStr l /\ l = first_seen [] names /\ NoDup l /\ forall x, x ∈ l <-> x ∈ names)
  | Err e => ALL_SERVICES_SENTINEL ∉ names /\ exists name, name ∈ names /\ known ids name = false
  end.
Proof.
  unfold resolve_requested_session_services. destruct requested as [[|n names]|].
  1, 3: split; [intros q Hq; by apply not_elem_of_nil in Hq|by left].
  cbn [default id]. set (req := n :: names). destruct (existsb (text_eqb ALL_SERVICES_SENTINEL) req) eqn:Eall.
  { apply existsb_exists in Eall as (x & Hx & E). apply text_eqb_eq in E as <-. split; [intros q; apply key_has_id|].
    right. left. split; [by apply list_elem_of_In|done]. }
  assert (ALL_SERVICES_SENTINEL ∉ req) as Hall.
  { intros Hin. rewrite <- not_true_iff_false in Eall. apply Eall, existsb_exists. exists ALL_SERVICES_SENTINEL.
    split; [by apply list_elem_of_In|apply text_eqb_refl]. }
  destruct (List.filter _ req) as [|u us] eqn:Eu.
  - destruct (first_seen_spec req []) as [Hnd Hx]. split.
    + intros q (x & -> & Hin)%list_elem_of_fmap. apply known_has_id. apply Hx in Hin as [Hin _].
      destruct (known ids x) eqn:Ek; [done|]. exfalso. apply (in_nil (a := x)). rewrite <- Eu. apply filter_In.
      split; [by apply list_elem_of_In|]. by rewrite Ek.
    + right. right. exists (first_seen [] req). split_and!; [done..|]. intros x. rewrite Hx. set_solver.
  - assert (u ∈ req /\ known ids u = false) as Hu.
    { assert (In u (u :: us)) as H by (by left). rewrite <- Eu in H. apply filter_In in H as [H1 H2].
      split; [by apply list_elem_of_In|by apply negb_true_iff]. }
    destruct (sorted_values _); cbn; split; try done; by exists u.
Qed.

(** ** The properties at concrete records *)

Definition demo_services : list pydict :=
  [[(PStr ($"SERVICENAME"), PStr ($"web")); (PStr ($"SERVICEID"), PInt 1); (PStr ($"MAXSESS"), PInt 148); (PStr ($"CURSESS"), PInt 129)];
   [(PStr ($"SERVICENAME"), PStr ($"ssh")); (PStr ($"SERVICEID"), PInt 2); (PStr ($"MAXSESS"), PInt 255)]].

Lemma services_report_total_witness : exists d, build_services_report demo_services = Ok d.
Proof.
  destruct (services_report_total demo_services) as (d & Hd & _); [|by exists d].
  repeat constructor; try (by eexists); try (by left); right; by eexists.
Defined.
End Sessions.
