(* ===== verification/AsmbSensors.v ===== *)
(** * The sensors module

    modules/asmb8_sensors.py: one page, normalised sensor by sensor, filtered
    by name and type, and grouped by type.  A reading is in thousandths of
    its unit. *)
From Stdlib Require Import ZArith Lia Ascii String.
From stdpp Require Import prelude.
From S2P Require Import Prelude PyBytes PyText Regex Errors Models PyValue Webvar Asp Ansible.

Module Sensors.
Definition SENSOR_TYPE_NAMES : list (Z * text) :=
  [(1, $"Temperature"); (2, $"Voltage"); (3, $"Current"); (4, $"Fan"); (5, $"Physical Security");
   (6, $"Platform Security Violation Attempt"); (7, $"Processor"); (8, $"Power Supply"); (9, $"Power Unit");
   (10, $"Cooling Device"); (12, $"Memory"); (15, $"System Firmware Progress"); (16, $"Event Logging Disabled");
   (17, $"Watchdog 1"); (18, $"System Event"); (19, $"Critical Interrupt"); (20, $"Button/Switch"); (33, $"Slot/Connector");
   (34, $"System ACPI Power State"); (35, $"Watchdog 2")].
Definition SENSOR_UNIT_NAMES : list (Z * text) :=
  [(0, $"none"); (1, $"degrees C"); (2, $"degrees F"); (3, $"Kelvin"); (4, $"Volts"); (5, $"Amps"); (6, $"Watts"); (18, $"RPM"); (19, $"Hz")].
Definition THRESHOLD_FIELDS : list (text * text) :=
  [($"low_non_recoverable", $"LowNRThresh"); ($"low_critical", $"LowCTThresh"); ($"low_non_critical", $"LowNCThresh");
   ($"high_non_critical", $"HighNCThresh"); ($"high_critical", $"HighCTThresh"); ($"high_non_recoverable", $"HighNRThresh")].

Definition sensor_type_name (sensor_type : Z) : text :=
  default ($"unknown(" ++ dec sensor_type ++ $")") (assoc_get SENSOR_TYPE_NAMES sensor_type).
Definition sensor_unit_name (unit_code : Z) : option text := assoc_get SENSOR_UNIT_NAMES unit_code.

(** [_connection_argument_spec] of asmb8_sensors.py *)
Definition connection_argument_spec : argspec :=
  [($"host", arg_req TStr);
   ($"port", arg_def TInt (PInt 443));
   ($"username", arg_def TStr (PStr ($"admin")));
   ($"password", arg_secret true);
   ($"use_tls", arg_def TBool (PBool true));
   ($"allow_insecure_transport", arg_def TBool (PBool false));
   ($"validate_certs", arg_def TBool (PBool true));
   ($"ca_path", arg_opt TPath);
   ($"tls_fingerprint", arg_opt TStr);
   ($"timeout", arg_def TInt (PInt 30));
   ($"connect_timeout", arg_def TInt (PInt 10))].
Definition argument_spec : argspec :=
  connection_argument_spec ++ [($"sensor_names", arg_opt (TList TStr)); ($"sensor_types", arg_opt (TList TInt))].

(** [raw / _READING_SCALE], of a threshold sensor *)
Definition scaled (threshold : bool) (raw : Z) : pyval := if threshold then POpaque (thousandths raw) else PNone.

(** A normalised sensor: the fields the module itself reads again, and the
    whole document. *)
Record Sensor : Type := mkSensor { s_name : pyval; s_number : Z; s_type : Z; s_type_name : text; s_doc : pyval }.

Definition threshold_of (threshold : bool) (r : pydict) (key_field : text * text) : result exn (text * pyval) :=
  let* raw := int_field r (snd key_field) in
  Ok (fst key_field, dict [($"raw", PInt raw); ($"scaled", scaled threshold raw)]).

Definition normalize_sensor (r : pydict) : result exn Sensor :=
  let* settable_readable := int_field r ($"SettableReadableFlags") in
  let threshold := negb (settable_readable =? 0) in
  let* scaled_raw := int_field r ($"SensorReading") in
  let* unit_code := int_field r ($"SensorUnit2") in
  let* thresholds := map_result (threshold_of threshold r) THRESHOLD_FIELDS in
  let* sensor_type := int_field r ($"SensorType") in
  let* number := int_field r ($"SensorNumber") in
  let* owner_id := int_field r ($"OwnerID") in
  let* owner_lun := int_field r ($"OwnerLUN") in
  let* raw := int_field r ($"RawReading") in
  let* sensor_state := int_field r ($"SensorState") in
  let* discrete_state := int_field r ($"DiscreteState") in
  let* accessible := int_field r ($"SensorAccessibleFlags") in
  let name := get r ($"SensorName") in
  let type_name := sensor_type_name sensor_type in
  Ok (mkSensor name number sensor_type type_name
    (dict [($"number", PInt number); ($"name", name); ($"owner_id", PInt owner_id); ($"owner_lun", PInt owner_lun);
           ($"sensor_type", PInt sensor_type); ($"sensor_type_name", PStr type_name);
           ($"kind", PStr (if threshold then $"threshold" else $"discrete"));
           ($"reading", dict [($"raw", PInt raw); ($"scaled_raw", PInt scaled_raw); ($"value", scaled threshold scaled_raw);
                              ($"unit", opt_text (sensor_unit_name unit_code)); ($"unit_code", PInt unit_code)]);
           ($"thresholds", dict thresholds);
           ($"state", dict [($"sensor_state", PInt sensor_state); ($"discrete_state", PInt discrete_state)]);
           ($"flags", dict [($"accessible", PInt accessible); ($"settable_readable", PInt settable_readable)])])).

(** [s["name"] in wanted_names] hashes the name. *)
Definition name_wanted (names : list text) (s : Sensor) : result exn bool :=
  if hashable (s_name s) then Ok (existsb (fun n => is_key n (s_name s)) names) else Err unhashable.
Fixpoint filter_result {A} (f : A -> result exn bool) (l : list A) : result exn (list A) :=
  match l with
  | [] => Ok []
  | x :: l => let* b := f x in let* l := filter_result f l in Ok (if b then x :: l else l)
  end.

Definition filter_sensors (sensors : list Sensor) (sensor_names : option (list text)) (sensor_types : option (list Z))
    : result exn (list Sensor) :=
  let* named := match sensor_names with
                | None => Ok sensors
                | Some names => filter_result (name_wanted names) sensors
                end in
  Ok (match sensor_types with
      | None => named
      | Some types => List.filter (fun s => existsb (Z.eqb (s_type s)) types) named
      end).

(** [groups.setdefault(type, []).append(number)] *)
Fixpoint group_from (groups : list (text * list Z)) (sensors : list Sensor) : list (text * list Z) :=
  match sensors with
  | [] => groups
  | s :: sensors =>
      group_from (assoc_set groups (s_type_name s) (default [] (assoc_get groups (s_type_name s)) ++ [s_number s])) sensors
  end.
Definition group_by_type (sensors : list Sensor) : list (text * list Z) := group_from [] sensors.

Definition main (le : text -> option pyval) (p : Connection) (lib : library)
    (sensor_names : option (list text)) (sensor_types : option (list Z)) : io asp exn module_result :=
  with_library lib
    (try_ikvm
       (do client <- build_asp_client p;
        run login client;
        do rs <- read_records le client ($"getallsensors") (Some ($"get_sensors"));
        io_ret (client, rs))
       (fun '(client, rs) =>
          do sensors <- io_lift (map_result normalize_sensor rs);
          do sensors <- io_lift (filter_sensors sensors sensor_names sensor_types);
          io_ret (ExitJson
            [($"changed", PBool false); ($"sensors", PList (map s_doc sensors)); ($"sensor_count", PInt (blen sensors));
             ($"by_type", dict (map (fun g => (fst g, PList (map PInt (snd g)))) (group_by_type sensors)));
             ($"operation", receipt ($"get_sensors") (asp_endpoint client) false PNone PNone PNone)]))).

(** ** Lemmas *)

Definition numbers_of (name : text) (sensors : list Sensor) : list Z :=
  map s_number (List.filter (fun s => text_eqb (s_type_name s) name) sensors).

Lemma group_from_spec groups sensors name :
  assoc_get (group_from groups sensors) name
  = match assoc_get groups name, numbers_of name sensors with
    | None, [] => None
    | o, l => Some (default [] o ++ l)
    end.
Proof.
  revert groups. induction sensors as [|s sensors IH]; intros groups; cbn [group_from].
  - unfold numbers_of. cbn. destruct (assoc_get groups name); [by rewrite app_nil_r|done].
  - rewrite IH. unfold numbers_of. cbn. destruct (text_eqb (s_type_name s) name) eqn:E.
    + apply text_eqb_eq in E as ->. rewrite assoc_get_set_eq. cbn. destruct (assoc_get groups name) as [l|]; cbn; by rewrite <- ?app_assoc.
    + rewrite assoc_get_set_ne; [done|]. intros <-. by rewrite text_eqb_refl in E.
Qed.

Definition wanted (sensor_names : option (list text)) (sensor_types : option (list Z)) (s : Sensor) : bool :=
  match sensor_names with Some names => existsb (fun n => is_key n (s_name s)) names | None => true end
  && match sensor_types with Some types => existsb (Z.eqb (s_type s)) types | None => true end.

Lemma filter_result_ok {A} (f : A -> result exn bool) (g : A -> bool) l l' :
  (forall x b, f x = Ok b -> b = g x) -> filter_result f l = Ok l' -> l' = List.filter g l.
Proof.
  intros Hf. revert l'. induction l as [|x l IH]; intros l'; cbn; [by intros [= <-]|].
  destruct (f x) as [b|] eqn:E; [|done]. cbn. destruct (filter_result f l) as [l1|]; [|done]. cbn. intros [= <-].
  apply Hf in E as ->. rewrite <- (IH l1 eq_refl). by destruct (g x).
Qed.

Lemma filter_filter {A} (f g : A -> bool) l : List.filter g (List.filter f l) = List.filter (fun x => f x && g x) l.
Proof. induction l as [|x l IH]; [done|]. cbn. destruct (f x); cbn; [destruct (g x); by rewrite IH|done]. Qed.
Lemma filter_all {A} (l : list A) : List.filter (fun _ => true) l = l.
Proof. induction l as [|x l IH]; [done|]. cbn. by rewrite IH. Qed.

Lemma filter_sensors_ok sensors names types l :
  filter_sensors sensors names types = Ok l -> l = List.filter (wanted names types) sensors.
Proof.
  intros H. assert (exists m, m = List.filter (fun s => match names with Some ns => existsb (fun n => is_key n (s_name s)) ns | None => true end) sensors /\
    l = List.filter (fun s => match types with Some ts => existsb (Z.eqb (s_type s)) ts | None => true end) m) as (m & -> & ->).
  { unfold filter_sensors in H. destruct names as [names|]; cbn in H.
    - destruct (filter_result (name_wanted names) sensors) as [m|] eqn:E; [|done]. cbn in H. injection H as <-. exists m. split.
      + eapply filter_result_ok; [|exact E]. intros x b. unfold name_wanted. destruct (hashable (s_name x)); [|done]. by intros [= <-].
      + destruct types; [done|by rewrite filter_all].
    - injection H as <-. exists sensors. split; [by rewrite filter_all|]. destruct types; [done|by rewrite filter_all]. }
  apply filter_filter.
Qed.

(** ** Properties *)

(** The sensors are the wanted ones, and the groups partition them.  A
    run that succeeds reports, in the order of an answered page, every
    sensor whose name and type are both among those asked for, where any
    were; the group of each type holds the numbers of the reported sensors
    of that type, in order, and a type without sensors has no group. *)
Theorem sensors_outcome le p lib names types a fields a' :
  main le p lib names types a = (Ret (ExitJson fields), a') ->
  exists body r sensors, HResponse body ∈ a_net a /\
    parse_webvar le body (Some ($"getallsensors")) (Some ($"get_sensors")) = Ok r /\
    Forall2 (fun rec s => normalize_sensor rec = Ok s) (records_of r) sensors /\
    let kept := List.filter (wanted names types) sensors in
    assoc_get fields ($"sensors") = Some (PList (map s_doc kept)) /\
    assoc_get fields ($"sensor_count") = Some (PInt (blen kept)) /\
    exists groups, assoc_get fields ($"by_type") = Some (dict (map (fun g => (fst g, PList (map PInt (snd g)))) groups)) /\
      forall name, assoc_get groups name = match numbers_of name kept with [] => None | l => Some l end.
Proof.
  intros H. apply library_exit, try_ikvm_exit in H as ([client rs] & a1 & H & Hk).
  apply io_bind_inv in H as (c & a2 & Hb & H). apply build_returns in Hb as (-> & Hn & _).
  apply io_bind_inv in H as (t & a3 & Hlogin & H). apply login_returns in Hlogin. rewrite Hn in Hlogin.
  apply io_bind_inv in H as (rs' & a4 & Hrs & [= <- -> _]). apply records_read in Hrs as (body & r & Hb & _ & Hp & ->).
  apply io_bind_inv in Hk as (sensors & a5 & Hs & Hk). unfold io_lift in Hs.
  destruct (map_result normalize_sensor (records_of r)) as [ss|] eqn:Em; [|done]. injection Hs as -> <-.
  apply io_bind_inv in Hk as (kept & a6 & Hf & [= <- _]). unfold io_lift in Hf.
  destruct (filter_sensors sensors names types) as [k|] eqn:Ef; [|done]. injection Hf as -> _. apply filter_sensors_ok in Ef as ->.
  exists body, r, sensors. split_and!; [set_solver|done|by apply map_result_ok|]. cbv zeta. split_and!; [done|done|].
  eexists. split; [done|]. intros name. unfold group_by_type. by rewrite group_from_spec.
Qed.

(** A number the firmware writes as other text is not a number: [int] raises,
    outside the module's [try]. *)
Example reading_not_a_number : normalize_sensor [(PStr ($"SensorReading"), PStr ($"na"))]
  = Err (ValueError ($"invalid literal for int() with base 10: 'na'")).
Proof. by vm_compute. Qed.

Example reading_scaled :
  (fun s => get (as_dict (get (as_dict (s_doc s)) ($"reading"))) ($"value"))
    <$> (match normalize_sensor [(PStr ($"SettableReadableFlags"), PInt 63); (PStr ($"SensorReading"), PInt 12096)] with
         | Ok s => Some s | Err _ => None end)
  = Some (POpaque ($"12.096")).
Proof. by vm_compute. Qed.

Lemma sensors_outcome_witness :
  exists fields sensors, (main sample_eval demo_connection None None (Some [1; 2]) (demo_run [HResponse demo_body])).1 = Ret (ExitJson fields) /\
    assoc_get fields ($"sensors") = Some (PList (map s_doc (List.filter (wanted None (Some [1; 2])) sensors))).
Proof.
  destruct (main sample_eval demo_connection None None (Some [1; 2]) (demo_run [HResponse demo_body])) as [[[fields|f]|e|] a'] eqn:E;
    [|vm_compute in E; discriminate E..].
  destruct (sensors_outcome sample_eval demo_connection None None (Some [1; 2]) (demo_run [HResponse demo_body]) fields a' E)
    as (body & r & sensors & _ & _ & _ & H & _).
  by exists fields, sensors.
Defined.
End Sensors.
