(* ===== verification/AsmbInventory.v ===== *)
(** * The inventory module

    modules/asmb8_inventory.py: the sections asked for, one page each: FRU
    records as they are, the firmware revision with its packed decimal byte,
    and the features the firmware was built with. *)
From Stdlib Require Import ZArith Lia Ascii String.
From stdpp Require Import prelude.
From S2P Require Import Prelude PyBytes PyText Regex Errors Models PyValue Webvar Asp Ansible.

Module Inventory.
(** The choices of [sections]. *)
Inductive section : Type := SECTION_FRU | SECTION_FIRMWARE | SECTION_PROJECT_FEATURES.
#[export] Instance section_eq_dec : EqDecision section.
Proof. solve_decision. Defined.
Definition ALL_SECTIONS : list section := [SECTION_FRU; SECTION_FIRMWARE; SECTION_PROJECT_FEATURES].
Definition section_name (s : section) : text :=
  match s with SECTION_FRU => $"fru" | SECTION_FIRMWARE => $"firmware" | SECTION_PROJECT_FEATURES => $"project_features" end.
Definition section_endpoint (s : section) : text :=
  match s with SECTION_FRU => $"getfruinfo" | SECTION_FIRMWARE => $"getfwinfo" | SECTION_PROJECT_FEATURES => $"getprojectcfg" end.
Definition BCD_DIGIT_MAX : Z := 9.

(** [_connection_argument_spec] of asmb8_inventory.py *)
Definition connection_argument_spec : argspec :=
  [($"host", arg_req TStr);
   ($"port", arg_def TInt (PInt 443));
   ($"username", arg_def TStr (PStr ($"admin")));
   ($"password", arg_secret true);
   ($"use_tls", arg_def TBool (PBool true));
   ($"allow_insecure_transport", arg_def TBool (PBool false));
   ($"validate_certs", arg_def TBool (PBool true));
   ($"ca_path", arg_opt TPath);
   ($"tls_fingerprint", arg_opt TStr);
   ($"timeout", arg_def TInt (PInt 30));
   ($"connect_timeout", arg_def TInt (PInt 10))].
Definition argument_spec : argspec :=
  connection_argument_spec
  ++ [($"sections", mkArg (TList TStr) false (str_list (map section_name ALL_SECTIONS)) false (map section_name ALL_SECTIONS))].

Definition decode_bcd_byte (value : Z) : option text :=
  let hi := Z.land (Z.shiftr value 4) 15 in
  let lo := Z.land value 15 in
  if (BCD_DIGIT_MAX <? hi) || (BCD_DIGIT_MAX <? lo) then None else Some (dec hi ++ dec lo).

Definition parse_firmware (rs : list pydict) : result exn pyval :=
  match rs with
  | [] => Err (Ikvm (ProtocolError ($"getfwinfo.asp returned no records") None ($"get_inventory:firmware")))
  | r :: _ =>
      let* firmware_revision_1 := int_field r ($"FirmwareRevision1") in
      let* firmware_revision_2_raw := int_field r ($"FirmwareRevision2") in
      let* aux_firmware_revision := int_field r ($"AuxFirmwareRevision") in
      let bcd := decode_bcd_byte firmware_revision_2_raw in
      let firmware_version := match bcd with Some b => Some (dec firmware_revision_1 ++ $"." ++ b) | None => None end in
      let firmware_version_full :=
        match firmware_version with Some v => Some (v ++ $"." ++ dec aux_firmware_revision) | None => None end in
      let* device_id := int_field r ($"DeviceID") in
      let* device_revision := int_field r ($"DevRevision") in
      let* ipmi_version := int_field r ($"IPMIVersion") in
      let* device_support := int_field r ($"DevSupport") in
      let* byte_0 := int_field r ($"MfgID_0") in
      let* byte_1 := int_field r ($"MfgID_1") in
      let* byte_2 := int_field r ($"MfgID_2") in
      let* product_id := int_field r ($"ProdID") in
      let* completion_code := int_field r ($"CompletionCode") in
      Ok (dict [($"device_id", PInt device_id); ($"device_revision", PInt device_revision); ($"ipmi_version", PInt ipmi_version);
                ($"device_support", PInt device_support); ($"firmware_revision_1", PInt firmware_revision_1);
                ($"firmware_revision_2_raw", PInt firmware_revision_2_raw); ($"firmware_revision_2_bcd", opt_text bcd);
                ($"firmware_version", opt_text firmware_version); ($"aux_firmware_revision", PInt aux_firmware_revision);
                ($"firmware_version_full", opt_text firmware_version_full);
                ($"firmware_build_date", get r ($"FirmwareBuildDate")); ($"firmware_build_time", get r ($"FirmwareBuildTime"));
                ($"manufacturer_id",
                 dict [($"byte_0", PInt byte_0); ($"byte_1", PInt byte_1); ($"byte_2", PInt byte_2);
                       ($"combined", PInt (Z.lor (Z.lor byte_0 (Z.shiftl byte_1 8)) (Z.shiftl byte_2 16)))]);
                ($"product_id", PInt product_id); ($"completion_code", PInt completion_code)])
  end.

Definition parse_project_features (rs : list pydict) : result exn pyval :=
  let features := omap (fun r => dict_find r ($"FEATURES")) rs in
  let* distinct := set_of features [] in
  let* feature_set := sorted_values distinct in
  Ok (dict [($"features", PList features); ($"feature_set", PList feature_set); ($"feature_count", PInt (blen features))]).

Definition parse_fru (rs : list pydict) : result exn pyval :=
  Ok (dict [($"populated", PBool (negb (bool_decide (length rs = 0%nat)))); ($"entries", PList (map PDict rs))]).

Definition section_parser (s : section) : list pydict -> result exn pyval :=
  match s with
  | SECTION_FRU => parse_fru
  | SECTION_FIRMWARE => parse_firmware
  | SECTION_PROJECT_FEATURES => parse_project_features
  end.

Section Main.
Context (le : text -> option pyval) (p : Connection).

Fixpoint read_sections (client : AspConfig) (requested : list section) (found : list (section * pyval))
    : io asp exn (list (section * pyval)) :=
  match requested with
  | [] => io_ret found
  | s :: requested =>
      do rs <- read_records le client (section_endpoint s) (Some ($"get_inventory:" ++ section_name s));
      do v <- io_lift (section_parser s rs);
      read_sections client requested (assoc_set found s v)
  end.

Definition main (lib : library) (requested : list section) : io asp exn module_result :=
  with_library lib
    (try_ikvm
       (do client <- build_asp_client p;
        run login client;
        do found <- read_sections client requested (map (fun s => (s, PNone)) ALL_SECTIONS);
        io_ret (client, found))
       (fun '(client, found) =>
          let value s := default PNone (assoc_get found s) in
          io_ret (ExitJson
            [($"changed", PBool false); ($"fru", value SECTION_FRU); ($"firmware", value SECTION_FIRMWARE);
             ($"project_features", value SECTION_PROJECT_FEATURES);
             ($"operation", receipt ($"get_inventory") (asp_endpoint client) false PNone PNone PNone)]))).
End Main.

(** ** Lemmas *)

Lemma nibbles value : Z.land (Z.shiftr value 4) 15 = (value / 16) mod 16 /\ Z.land value 15 = value mod 16.
Proof.
  change 15 with (Z.ones 4). rewrite !Z.land_ones by lia. rewrite Z.shiftr_div_pow2 by lia. by change (2 ^ 4) with 16.
Qed.

Lemma dec_digit d : 0 <= d <= 9 -> dec d = [48 + d].
Proof.
  intros Hd. assert (d = 0 \/ d = 1 \/ d = 2 \/ d = 3 \/ d = 4 \/ d = 5 \/ d = 6 \/ d = 7 \/ d = 8 \/ d = 9) as H by lia.
  repeat (destruct H as [->|H]; [done|]). by subst.
Qed.

(** Bytes side by side. *)
Lemma lor_add x y n : 0 <= n -> 0 <= x < 2 ^ n -> Z.lor x (Z.shiftl y n) = x + y * 2 ^ n.
Proof.
  intros Hn Hx. rewrite Z.shiftl_mul_pow2 by done. rewrite <- Z.add_lor_land.
  assert (Z.land x (y * 2 ^ n) = 0) as ->; [|lia].
  apply Z.bits_inj'. intros i Hi. rewrite Z.land_spec, Z.bits_0. destruct (Z.lt_ge_cases i n) as [Hin|Hin].
  - rewrite Z.mul_pow2_bits_low by done. by rewrite andb_false_r.
  - assert (Z.testbit x i = false) as ->; [|done]. rewrite <- (Z.mod_small x (2 ^ n)) by done. by apply Z.mod_pow2_bits_high.
Qed.

(** ** Properties *)

(** The packed decimal byte.  The low byte of the revision is read as
    two decimal digits, and always as exactly two characters, so a leading
    zero is kept; a half byte above 9 is refused rather than guessed.  The
    two characters read back as the number of the digits. *)
Theorem bcd_exact value :
  let hi := (value / 16) mod 16 in
  let lo := value mod 16 in
  match decode_bcd_byte value with
  | Some t => hi <= 9 /\ lo <= 9 /\ t = [48 + hi; 48 + lo] /\ py_int t = Some (10 * hi + lo)
  | None => 9 < hi \/ 9 < lo
  end.
Proof.
  cbv zeta. unfold decode_bcd_byte, BCD_DIGIT_MAX. destruct (nibbles value) as [-> ->].
  pose proof (Z.mod_pos_bound (value / 16) 16 eq_refl). pose proof (Z.mod_pos_bound value 16 eq_refl).
  destruct (Z.ltb_spec 9 ((value / 16) mod 16)) as [|Hh]; [by left|].
  destruct (Z.ltb_spec 9 (value mod 16)) as [|Hl]; [by right|]. cbn [orb].
  rewrite !dec_digit by lia. split_and!; [done|done|done|].
  generalize dependent ((value / 16) mod 16). generalize dependent (value mod 16). intros lo H0 Hl hi H1 Hh.
  assert (forallb (fun h => forallb (fun l => bool_decide (py_int [48 + Z.of_nat h; 48 + Z.of_nat l] = Some (10 * Z.of_nat h + Z.of_nat l))) (seq 0 10)) (seq 0 10) = true) as Hall by by vm_compute.
  rewrite forallb_forall in Hall. specialize (Hall (Z.to_nat hi)). rewrite forallb_forall in Hall.
  specialize (Hall ltac:(apply in_seq; lia) (Z.to_nat lo) ltac:(apply in_seq; lia)).
  rewrite !Z2Nat.id in Hall by lia. by apply bool_decide_eq_true in Hall.
Qed.

(** The manufacturer identifier.  Three bytes are packed, the first
    lowest, into one number under 2^24, from which each can be read back. *)
Theorem manufacturer_id_packed r rs v b0 b1 b2 :
  parse_firmware (r :: rs) = Ok v ->
  int_field r ($"MfgID_0") = Ok b0 -> int_field r ($"MfgID_1") = Ok b1 -> int_field r ($"MfgID_2") = Ok b2 ->
  0 <= b0 < 256 -> 0 <= b1 < 256 -> 0 <= b2 < 256 ->
  exists c, get (as_dict (get (as_dict v) ($"manufacturer_id"))) ($"combined") = PInt c /\ 0 <= c < 2 ^ 24 /\
    b0 = c mod 256 /\ b1 = (c / 256) mod 256 /\ b2 = c / 65536.
Proof.
  intros H H0 H1 H2 Hb0 Hb1 Hb2. exists (b0 + b1 * 256 + b2 * 65536).
  assert (Z.lor (Z.lor b0 (Z.shiftl b1 8)) (Z.shiftl b2 16) = b0 + b1 * 256 + b2 * 65536) as Hc.
  { rewrite (lor_add b0 b1 8) by lia. rewrite lor_add by lia. lia. }
  split; [|Z.div_mod_to_equations; lia]. unfold parse_firmware in H. rewrite H0, H1, H2, ?rbind_ok in H.
  repeat match type of H with
  | rbind (int_field r ?name) _ = _ => destruct (int_field r name); cbn [rbind] in H; [|done]
  | rbind (Ok _) _ = _ => cbn [rbind] in H
  end.
  injection H as <-. rewrite Hc. reflexivity.
Qed.

(** Reading the sections leaves the others alone. *)
Lemma read_sections_spec le client requested found a result a' s :
  read_sections le client requested found a = (Ret result, a') ->
  a_net a' ⊆ a_net a /\
  (s ∉ requested -> assoc_get result s = assoc_get found s) /\
  (s ∈ requested -> exists body r v, HResponse body ∈ a_net a /\
     parse_webvar le body (Some (section_endpoint s)) (Some ($"get_inventory:" ++ section_name s)) = Ok r /\
     section_parser s (records_of r) = Ok v /\ assoc_get result s = Some v).
Proof.
  revert found a. induction requested as [|x requested IH]; intros found a; cbn [read_sections].
  - intros [= <- <-]. split_and!; [done|done|set_solver].
  - intros H. apply io_bind_inv in H as (rs & a1 & Hrs & H). apply io_bind_inv in H as (v & a2 & Hv & H).
    assert (a_net a1 ⊆ a_net a) as Hn.
    { unfold read_records in Hrs. apply io_bind_inv in Hrs as (w & a3 & Hw & [= _ <-]).
      pose proof (fetch_net client le ($"GET") (section_endpoint x)
        (op_or (Some ($"get_inventory:" ++ section_name x)) ($"get_webvar:" ++ section_endpoint x)) [] a) as Hf.
      unfold get_webvar in Hw. by rewrite Hw in Hf. }
    apply records_read in Hrs as (body & r & Hb & _ & Hp & ->). unfold io_lift in Hv.
    destruct (section_parser x (records_of r)) as [v'|] eqn:Ev; [|done]. injection Hv as -> <-.
    apply IH in H as (Hn' & Hout & Hin). split_and!; [set_solver| |].
    + intros Hs. apply not_elem_of_cons in Hs as [Hx Hs]. rewrite Hout by done. by apply assoc_get_set_ne.
    + intros Hs. destruct (decide (s ∈ requested)) as [Hr|Hr].
      * destruct (Hin Hr) as (body' & r' & v' & Hb' & H'). exists body', r', v'. split; [set_solver|done].
      * assert (s = x) as -> by set_solver. exists body, r, v. split_and!; [done|by destruct x|done|].
        rewrite Hout by done. apply assoc_get_set_eq.
Qed.

(** Only the sections asked for are read.  A run that succeeds reports
    each requested section from a page answered in this run, and [None] for
    every other. *)
Theorem inventory_outcome le p lib requested a fields a' s :
  main le p lib requested a = (Ret (ExitJson fields), a') ->
  (s ∉ requested -> assoc_get fields (section_name s) = Some PNone) /\
  (s ∈ requested -> exists body r v, HResponse body ∈ a_net a /\
     parse_webvar le body (Some (section_endpoint s)) (Some ($"get_inventory:" ++ section_name s)) = Ok r /\
     section_parser s (records_of r) = Ok v /\ assoc_get fields (section_name s) = Some v).
Proof.
  intros H. apply library_exit, try_ikvm_exit in H as ([client found] & a1 & H & [= <- _]).
  apply io_bind_inv in H as (c & a2 & Hb & H). apply build_returns in Hb as (-> & Hn & _).
  apply io_bind_inv in H as (t & a3 & Hlogin & H). apply login_returns in Hlogin. rewrite Hn in Hlogin.
  apply io_bind_inv in H as (found' & a4 & Hs & [= <- -> _]).
  apply (read_sections_spec _ _ _ _ _ _ _ s) in Hs as (_ & Hout & Hin). split.
  - intros Hr. specialize (Hout Hr). destruct s; cbn in Hout |- *; by rewrite Hout.
  - intros Hr. destruct (Hin Hr) as (body & r & v & Hb & Hp & Hv & Hf). exists body, r, v.
    split_and!; [set_solver|done|done|]. by destruct s; cbn in Hf |- *; rewrite Hf.
Qed.

(** ** The properties at concrete pages *)

Example demo_firmware_version :
  match parse_firmware [[(PStr ($"FirmwareRevision1"), PInt 1); (PStr ($"FirmwareRevision2"), PInt 20); (PStr ($"AuxFirmwareRevision"), PInt 3)]] with
  | Ok v => get (as_dict v) ($"firmware_version_full") = PStr ($"1.14.3")
  | Err _ => False
  end.
Proof. by vm_compute. Qed.

Definition demo_mfg : pydict := [(PStr ($"MfgID_0"), PInt 63); (PStr ($"MfgID_1"), PInt 10); (PStr ($"MfgID_2"), PInt 0)].
Lemma manufacturer_id_packed_witness : exists v c, parse_firmware [demo_mfg] = Ok v /\ 63 = c mod 256 /\ 10 = (c / 256) mod 256.
Proof.
  destruct (parse_firmware [demo_mfg]) as [v|e] eqn:E; [|vm_compute in E; discriminate E].
  destruct (manufacturer_id_packed demo_mfg [] v 63 10 0 E eq_refl eq_refl eq_refl) as (c & _ & _ & H0 & H1 & _); [lia..|].
  by exists v, c.
Defined.

Lemma inventory_outcome_witness :
  exists fields, (main sample_eval demo_connection None [SECTION_FRU] (demo_run [HResponse demo_body])).1 = Ret (ExitJson fields) /\
    assoc_get fields (section_name SECTION_FIRMWARE) = Some PNone.
Proof.
  destruct (main sample_eval demo_connection None [SECTION_FRU] (demo_run [HResponse demo_body])) as [[[fields|f]|e|] a'] eqn:E;
    [|vm_compute in E; discriminate E..].
  destruct (inventory_outcome sample_eval demo_connection None [SECTION_FRU] (demo_run [HResponse demo_body]) fields a' SECTION_FIRMWARE E)
    as [H _].
  exists fields. split; [done|]. apply H. by intros Hs%list_elem_of_singleton.
Defined.
End Inventory.
