(* ===== verification/AsmbPostcode.v ===== *)
(** * The POST code module

    modules/asmb8_postcode.py: the code on the diagnostic port, once, or
    polled at an interval for a bounded time.  The clock is in milliseconds;
    each read and each sleep takes some further time of its own. *)
From Stdlib Require Import ZArith Lia Ascii String.
From stdpp Require Import prelude.
From S2P Require Import Prelude PyBytes PyText Regex Errors Models PyValue Webvar Asp Ansible.

Module Postcode.
Definition ENDPOINT : text := $"getpostcode".
Definition MIN_POLL_INTERVAL_SECONDS : Z := 2.
Definition MAX_POLL_INTERVAL_SECONDS : Z := 300.
Definition MIN_MAX_DURATION_SECONDS : Z := 1.
Definition MAX_MAX_DURATION_SECONDS : Z := 900.

(** [_connection_argument_spec] of asmb8_postcode.py *)
Definition connection_argument_spec : argspec :=
  [($"host", arg_req TStr);
   ($"port", arg_def TInt (PInt 443));
   ($"username", arg_def TStr (PStr ($"admin")));
   ($"password", arg_secret true);
   ($"use_tls", arg_def TBool (PBool true));
   ($"allow_insecure_transport", arg_def TBool (PBool false));
   ($"validate_certs", arg_def TBool (PBool true));
   ($"ca_path", arg_opt TPath);
   ($"tls_fingerprint", arg_opt TStr);
   ($"timeout", arg_def TInt (PInt 30));
   ($"connect_timeout", arg_def TInt (PInt 10))].
Definition argument_spec : argspec :=
  connection_argument_spec
  ++ [($"sample", arg_def TBool (PBool false)); ($"poll_interval_seconds", arg_def TInt (PInt 5));
      ($"max_duration_seconds", arg_def TInt (PInt 60))].

(** [int(s, 16)]: white space around, a sign, [0x], digits with single
    underscores between them (one may follow the prefix). *)
Definition hex_value (c : Z) : option Z :=
  if is_digit c then Some (c - 48)
  else let l := lower_char c in if (97 <=? l) && (l <=? 102) then Some (l - 87) else None.
Fixpoint hex_digits (acc : Z) (s : text) : option Z :=
  match s with
  | [] => Some acc
  | c :: s =>
      match hex_value c with
      | Some d => hex_digits (16 * acc + d) s
      | None =>
          if c =? ch "_" then
            match s with
            | d :: s' => match hex_value d with Some d => hex_digits (16 * acc + d) s' | None => None end
            | [] => None
            end
          else None
      end
  end.
Definition hex_unsigned (s : text) : option Z :=
  match s with
  | c :: s => match hex_value c with Some d => hex_digits d s | None => None end
  | [] => None
  end.
Definition without_prefix (s : text) : text :=
  match s with
  | z :: x :: r =>
      if (z =? ch "0") && (lower_char x =? ch "x") then (match r with u :: r' => if u =? ch "_" then r' else r | [] => [] end) else s
  | _ => s
  end.
Definition int16 (s : text) : option Z :=
  match strip s with
  | c :: r =>
      if c =? ch "-" then Z.opp <$> hex_unsigned (without_prefix r)
      else if c =? ch "+" then hex_unsigned (without_prefix r)
      else hex_unsigned (without_prefix (c :: r))
  | [] => None
  end.

Definition parse_post_code_hex (raw : pyval) : option Z := int16 (str_of raw).

Section Main.
Context (le : text -> option pyval) (p : Connection) (lag : nat -> Z) (wall_clock : Z -> text).

Definition read_post_code (client : AspConfig) : io asp exn (text * option Z) :=
  do rs <- read_records le client ENDPOINT None;
  match rs with
  | [] => io_raise (Ikvm (ProtocolError (ENDPOINT ++ $".asp returned no records") (Some (asp_endpoint client)) ($"asmb8_postcode.read")))
  | record :: _ =>
      match dict_find record ($"CurrPostCode") with
      | None =>
          io_raise (Ikvm (ProtocolError (ENDPOINT ++ $".asp's record did not contain CurrPostCode: " ++ repr_value (PDict record))
                            (Some (asp_endpoint client)) ($"asmb8_postcode.read")))
      | Some raw => io_ret (str_of raw, parse_post_code_hex raw)
      end
  end.

(** The client, the monotonic clock, and how many operations took time. *)
Record sampler : Type := mkSampler { sp_asp : asp; sp_clock : Z; sp_step : nat }.

Definition on_client {A} (c : io asp exn A) : io sampler exn A := fun s =>
  let '(o, a) := c (sp_asp s) in (o, mkSampler a (sp_clock s + lag (sp_step s)) (S (sp_step s))).
Definition sleep (seconds : Z) : io sampler exn unit := fun s =>
  (Ret tt, mkSampler (sp_asp s) (sp_clock s + 1000 * seconds + lag (sp_step s)) (S (sp_step s))).
Definition monotonic : io sampler exn Z := fun s => (Ret (sp_clock s), s).

Record Observation : Type := mkObservation { o_code : text; o_int : option Z; o_elapsed : Z; o_timestamp : text }.

(** The loop of [sample_post_codes]; the fuel bounds the polls. *)
Fixpoint sample_loop (fuel : nat) (client : AspConfig) (poll_interval_seconds max_duration_seconds start : Z)
    (observations : list Observation) : io sampler exn (list Observation) :=
  match fuel with
  | O => fun s => (Blocked, s)
  | S fuel =>
      do now <- monotonic;
      do reading <- on_client (read_post_code client);
      do now' <- monotonic;
      let observations := observations ++ [mkObservation (fst reading) (snd reading) (now - start) (wall_clock now')] in
      if 1000 * max_duration_seconds <? now' - start + 1000 * poll_interval_seconds then io_ret observations
      else
        run sleep poll_interval_seconds;
        sample_loop fuel client poll_interval_seconds max_duration_seconds start observations
  end.

Definition sample_fuel (poll_interval_seconds max_duration_seconds : Z) : nat :=
  S (Z.to_nat (max_duration_seconds / poll_interval_seconds)).
Definition sample_post_codes (client : AspConfig) (poll_interval_seconds max_duration_seconds : Z)
    : io sampler exn (list Observation) :=
  do start <- monotonic;
  sample_loop (sample_fuel poll_interval_seconds max_duration_seconds) client poll_interval_seconds max_duration_seconds start [].

Definition distinct_post_codes_in_order (observations : list Observation) : list text := first_seen [] (map o_code observations).

Definition between (lo v hi : Z) : bool := (lo <=? v) && (v <=? hi).
Definition validate_sampling_bounds (poll_interval_seconds max_duration_seconds : Z) : option text :=
  if negb (between MIN_POLL_INTERVAL_SECONDS poll_interval_seconds MAX_POLL_INTERVAL_SECONDS) then
    Some ($"poll_interval_seconds must be between 2 and 300 seconds inclusive; got " ++ dec poll_interval_seconds)
  else if negb (between MIN_MAX_DURATION_SECONDS max_duration_seconds MAX_MAX_DURATION_SECONDS) then
    Some ($"max_duration_seconds must be between 1 and 900 seconds inclusive; got " ++ dec max_duration_seconds)
  else None.

Definition observation_doc (o : Observation) : pyval :=
  dict [($"post_code", PStr (o_code o)); ($"post_code_int", opt_int (o_int o));
        ($"elapsed_seconds", POpaque (thousandths (o_elapsed o))); ($"timestamp", PStr (o_timestamp o))].

(** What [main] reads: the code, its number, and the sample. *)
Definition read_mode (client : AspConfig) (sample : bool) (poll_interval_seconds max_duration_seconds : Z)
    : io sampler exn (text * option Z * pyval) :=
  if sample then
    do observations <- sample_post_codes client poll_interval_seconds max_duration_seconds;
    match List.last (map Some observations) None with
    | None => io_raise (IndexError ($"list index out of range"))
    | Some latest =>
        io_ret (o_code latest, o_int latest,
          dict [($"observations", PList (map observation_doc observations));
                ($"distinct_post_codes", str_list (distinct_post_codes_in_order observations));
                ($"poll_interval_seconds", PInt poll_interval_seconds); ($"max_duration_seconds", PInt max_duration_seconds);
                ($"sample_count", PInt (blen observations))])
    end
  else
    do reading <- on_client (read_post_code client);
    io_ret (reading, PNone).

Definition main (lib : library) (sample : bool) (poll_interval_seconds max_duration_seconds : Z) : io sampler exn module_result :=
  with_library lib
    (match (if sample then validate_sampling_bounds poll_interval_seconds max_duration_seconds else None) with
     | Some error => io_ret (fail_msg error)
     | None =>
         do client <- on_client (build_asp_client p);
         try_ikvm
           (run on_client (login client); read_mode client sample poll_interval_seconds max_duration_seconds)
           (fun '(post_code, post_code_int, sample_result) =>
              let observed := dict [($"post_code", PStr post_code); ($"post_code_int", opt_int post_code_int)] in
              io_ret (ExitJson
                [($"changed", PBool false); ($"post_code", PStr post_code); ($"post_code_int", opt_int post_code_int);
                 ($"sample", sample_result);
                 ($"operation", receipt ($"asmb8_postcode.read") (asp_endpoint client) false PNone PNone observed)]))
     end).
End Main.

(** ** Lemmas *)

Section Sampling.
Context (le : text -> option pyval) (lag : nat -> Z) (wall_clock : Z -> text) (client : AspConfig).
Context (i d start L : Z).
Hypothesis lag_bounds : forall n, 0 <= lag n <= L.
Hypothesis interval_positive : 0 < i.
Local Abbreviation loop := (sample_loop le lag wall_clock).

(** Observations so far: one per interval at most, none after the end. *)
Definition spaced (observations : list Observation) : Prop :=
  forall j o, observations !! j = Some o -> 1000 * i * Z.of_nat j <= o_elapsed o <= 1000 * d + L.

(** The state before a poll, after [k] of them. *)
Definition polling (k : nat) (s : sampler) : Prop :=
  Z.of_nat k * i <= d /\ 1000 * i * Z.of_nat k <= sp_clock s - start <= 1000 * d + L.

Lemma on_client_state {A} (c : io asp exn A) s o s' :
  on_client lag c s = (o, s') -> sp_clock s' = sp_clock s + lag (sp_step s).
Proof. unfold on_client. destruct (c (sp_asp s)). by intros [= _ <-]. Qed.

Lemma polling_next k s : polling k s -> 1000 * d <? sp_clock s + lag (sp_step s) - start + 1000 * i = false ->
  forall a, polling (S k) (mkSampler a (sp_clock s + lag (sp_step s) + 1000 * i + lag (S (sp_step s))) (S (S (sp_step s)))).
Proof.
  intros [Hk Hc] E a. apply Z.ltb_ge in E. pose proof (lag_bounds (sp_step s)). pose proof (lag_bounds (S (sp_step s))).
  split; cbn [sp_clock]; nia.
Qed.

Lemma spaced_snoc observations o s :
  spaced observations -> polling (length observations) s -> o_elapsed o = sp_clock s - start -> spaced (observations ++ [o]).
Proof.
  intros Ho [_ Hc] He j o' Hj. apply lookup_app_Some in Hj as [Hj|[Hj Hl]]; [by apply Ho|].
  apply list_lookup_singleton_Some in Hl as [Hl <-]. replace j with (length observations) by lia. lia.
Qed.

Lemma post_code_replies m s : (attempts client + m <= length (a_net (sp_asp s)))%nat ->
  (on_client lag (read_post_code le client) s).1 <> Blocked /\
  (m <= length (a_net (sp_asp (on_client lag (read_post_code le client) s).2)))%nat.
Proof.
  intros H. assert (replies (attempts client) (read_post_code le client)) as Hr.
  { apply replies_then; [apply replies_read|]. intros [|record rs]; [apply replies_raise|].
    destruct (dict_find record ($"CurrPostCode")); [apply replies_ret|apply replies_raise]. }
  specialize (Hr m (sp_asp s) H). unfold on_client. by destruct (read_post_code le client (sp_asp s)).
Qed.

(** The whole loop: it does not run out of fuel, and what it returns is
    spaced. *)
Lemma sample_loop_spec fuel k observations s :
  polling k s -> length observations = k -> spaced observations -> d / i < Z.of_nat (fuel + k) ->
  (forall extra, loop (fuel + extra) client i d start observations s = loop fuel client i d start observations s) /\
  ((fuel * attempts client <= length (a_net (sp_asp s)))%nat -> (loop fuel client i d start observations s).1 <> Blocked) /\
  match loop fuel client i d start observations s with
  | (Ret l, _) => (k < length l)%nat /\ Z.of_nat (length l) <= d / i + 1 /\ spaced l /\ observations `prefix_of` l
  | _ => True
  end.
Proof.
  revert k observations s. induction fuel as [|fuel IH]; intros k observations s Hp Hl Hs Hf.
  { exfalso. destruct Hp as [Hk _]. assert (Z.of_nat k <= d / i) by (apply Z.div_le_lower_bound; lia). lia. }
  cbn [Nat.add sample_loop]. unfold io_bind, monotonic.
  pose proof (post_code_replies (fuel * attempts client) s) as Hn.
  destruct (on_client lag (read_post_code le client) s) as [[reading|e|] s1] eqn:Er; [|done|by split_and!; [|intros []%Hn|]].
  apply on_client_state in Er as Hs1. set (o := mkObservation _ _ _ _).
  assert (spaced (observations ++ [o])) as Hs' by (apply (spaced_snoc _ _ s); [done|by rewrite Hl|done]).
  assert (Z.of_nat k <= d / i) as Hk by (apply Z.div_le_lower_bound; [lia|destruct Hp; lia]).
  destruct (1000 * d <? sp_clock s1 - start + 1000 * i) eqn:E.
  - split_and!; [done|done|]. cbn. rewrite length_app. cbn. split_and!; [lia|lia|done|by apply prefix_app_r].
  - unfold sleep. rewrite Hs1 in E |- *. pose proof (polling_next k s Hp E (sp_asp s1)) as Hp'.
    assert (sp_step s1 = S (sp_step s)) as ->.
    { clear -Er. unfold on_client in Er. destruct (read_post_code le client (sp_asp s)). by injection Er as _ <-. }
    destruct (IH (S k) (observations ++ [o]) _ Hp') as (Hx & Hb & Hy); [rewrite length_app; cbn; lia|done|lia|].
    split_and!; [exact Hx|intros H; apply Hb; by apply Hn|]. destruct (loop fuel client i d start (observations ++ [o]) _) as [[l|e|] s2]; [|done..].
    destruct Hy as (H1 & H2 & H3 & H4). split_and!; [lia|done|done|]. etrans; [|exact H4]. by apply prefix_app_r.
Qed.
End Sampling.

Lemma bounds_valid i d : validate_sampling_bounds i d = None -> 2 <= i <= 300 /\ 1 <= d <= 900.
Proof.
  unfold validate_sampling_bounds, between, MIN_POLL_INTERVAL_SECONDS, MAX_POLL_INTERVAL_SECONDS, MIN_MAX_DURATION_SECONDS, MAX_MAX_DURATION_SECONDS.
  destruct ((2 <=? i) && (i <=? 300)) eqn:E1, ((1 <=? d) && (d <=? 900)) eqn:E2; cbn; try done. bool_to_prop. lia.
Qed.

(** ** Properties *)

(** C28: Sampling is bounded.  With bounds the module accepts, however long
    each read and each sleep takes (up to [L] milliseconds more), the loop
    ends by itself: it never waits for ever while the network gives every
    attempt some outcome, and giving it more iterations changes nothing.  A
    sample holds at least one observation and at most one per interval that
    fits the duration, plus the first; at most 451.  Observation [j] was not
    polled before [j] intervals had passed, and none after the duration, but
    for the delay of one sleep. *)
Theorem sampling_bounded le lag wall_clock client i d L s :
  (forall n, 0 <= lag n <= L) -> validate_sampling_bounds i d = None ->
  ((d / i + 1) * (max_retries client + 1) <= blen (a_net (sp_asp s)) ->
     (sample_post_codes le lag wall_clock client i d s).1 <> Blocked) /\
  (forall extra, sample_loop le lag wall_clock (sample_fuel i d + extra) client i d (sp_clock s) [] s
                 = sample_post_codes le lag wall_clock client i d s) /\
  match sample_post_codes le lag wall_clock client i d s with
  | (Ret l, _) =>
      1 <= blen l <= d / i + 1 /\ blen l <= 451 /\
      forall j o, l !! j = Some o -> 1000 * i * Z.of_nat j <= o_elapsed o <= 1000 * d + L
  | _ => True
  end.
Proof.
  intros Hlag Hb. apply bounds_valid in Hb as [Hi Hd]. pose proof (Hlag 0%nat).
  unfold sample_post_codes, io_bind, monotonic.
  destruct (sample_loop_spec le lag wall_clock client i d (sp_clock s) L Hlag ltac:(lia) (sample_fuel i d) 0 [] s) as (Hx & Hn & Hy).
  - split; lia.
  - done.
  - intros j o Hj. by rewrite lookup_nil in Hj.
  - unfold sample_fuel. assert (0 <= d / i) by (apply Z.div_pos; lia). lia.
  - split_and!; [|exact Hx|].
    { intros H'. apply Hn. unfold sample_fuel, attempts. assert (0 <= max_retries client) by (unfold max_retries; lia).
      assert (0 <= d / i) by (apply Z.div_pos; lia). unfold blen in H'. nia. }
    destruct (sample_loop _ _ _ _ _ _ _ _ _ _) as [[l|e|] s1]; [|done..].
    destruct Hy as (H1 & H2 & H3 & _). unfold blen.
    assert (d / i <= 450) by (apply Z.div_le_upper_bound; nia).
    split_and!; [lia|lia|lia|exact H3].
Qed.

(** A POST code is read as the byte it is.  The two hexadecimal digits of
    a byte, in either case, parse to that byte, which is below 256; and the
    codes of a sample are listed each once, those and no others. *)
Theorem post_code_bytes upper b observations :
  0 <= b < 256 ->
  parse_post_code_hex (PStr (hex02 upper b)) = Some b /\
  NoDup (distinct_post_codes_in_order observations) /\
  forall c, c ∈ distinct_post_codes_in_order observations <-> exists o, o ∈ observations /\ o_code o = c.
Proof.
  intros Hb. split_and!.
  - assert (forallb (fun u => forallb (fun n => bool_decide (parse_post_code_hex (PStr (hex02 u (Z.of_nat n))) = Some (Z.of_nat n))) (seq 0 256)) [true; false] = true)
      as H by by vm_compute.
    rewrite forallb_forall in H. specialize (H upper ltac:(destruct upper; cbn; auto)). rewrite forallb_forall in H.
    specialize (H (Z.to_nat b) ltac:(apply in_seq; lia)). rewrite Z2Nat.id in H by lia. by apply bool_decide_eq_true in H.
  - apply first_seen_spec.
  - intros c. unfold distinct_post_codes_in_order. rewrite (proj2 (first_seen_spec _ _) c), list_elem_of_fmap. split.
    + intros [(o & -> & Ho) _]. by exists o.
    + intros (o & Ho & <-). split; [by exists o|apply not_elem_of_nil].
Qed.

Example post_code_forms :
  map (fun s => parse_post_code_hex (PStr (str s))) ["00"; "b2"; "0xB2"; "zz"; ""; "0x_1f"]%string
  = [Some 0; Some 178; Some 178; None; None; Some 31].
Proof. by vm_compute. Qed.

(** ** The properties at concrete runs *)

Definition demo_code (_ : text) : option pyval := Some (PList [PDict [(PStr ($"CurrPostCode"), PStr ($"b2"))]; PDict []]).
Definition demo_sampler : sampler := mkSampler (demo_client (replicate 9 (HResponse demo_body))) 0 0.
Example demo_sample :
  (fun l => map o_elapsed l) <$> (match (sample_post_codes demo_code (fun _ => 150) (fun _ => []) demo_asp_cfg 25 60 demo_sampler).1 with
                                  | Ret l => Some l | _ => None end)
  = Some [0; 25300; 50600].
Proof. by vm_compute. Qed.

Lemma sampling_bounded_witness :
  exists l s', sample_post_codes demo_code (fun _ => 150) (fun _ => []) demo_asp_cfg 25 60 demo_sampler = (Ret l, s') /\
    1 <= blen l <= 60 / 25 + 1.
Proof.
  destruct (sampling_bounded demo_code (fun _ => 150) (fun _ => []) demo_asp_cfg 25 60 150 demo_sampler) as (Hn & _ & H).
  - intros n. lia.
  - by vm_compute.
  - specialize (Hn ltac:(by vm_compute)).
    destruct (sample_post_codes demo_code (fun _ => 150) (fun _ => []) demo_asp_cfg 25 60 demo_sampler) as [[l|e|] s'] eqn:E;
      [|vm_compute in E; discriminate E|by destruct Hn].
    exists l, s'. split; [done|]. exact (proj1 H).
Defined.

Lemma post_code_bytes_witness : parse_post_code_hex (PStr (hex02 true 178)) = Some 178.
Proof. apply (post_code_bytes true 178 []). lia. Defined.
End Postcode.
