(* ===== verification/AsmbRedirection.v ===== *)
(** * The redirection services module

    modules/asmb8_redirection.py: the catalogue of the controller's services
    with a live reachability probe of each port.  Opening a connection takes
    the next of the outcomes the network will give; the ports tried are
    recorded. *)
From Stdlib Require Import ZArith Lia Ascii String.
From stdpp Require Import prelude.
From S2P Require Import Prelude PyBytes PyText Regex Errors Models PyValue Webvar Asp Ansible.

Module Redirection.
Record ServiceCapacity : Type := mkCapacity {
  nonsecure_port : option Z;
  secure_port : option Z;
  timeout_seconds : option Z;
  max_sessions : option Z;
  on_demand : bool;
  known_active : bool;
}.

Definition SERVICE_CATALOG : list (text * ServiceCapacity) :=
  [($"web", mkCapacity (Some 80) (Some 443) (Some 1800) (Some 20) false true);
   ($"kvm", mkCapacity (Some 7578) (Some 7582) (Some 1800) (Some 4) true true);
   ($"cd-media", mkCapacity (Some 5120) (Some 5124) None (Some 1) true true);
   ($"fd-media", mkCapacity (Some 5122) (Some 5126) None (Some 1) true true);
   ($"hd-media", mkCapacity (Some 5123) (Some 5127) None (Some 1) true true);
   ($"ssh", mkCapacity None (Some 22) (Some 600) None false true);
   ($"telnet", mkCapacity (Some 23) None (Some 600) None false false)].
Definition SERVICE_NAMES : list text := map fst SERVICE_CATALOG.

(** [_connection_argument_spec] of asmb8_redirection.py *)
Definition connection_argument_spec : argspec :=
  [($"host", arg_req TStr);
   ($"port", arg_def TInt (PInt 443));
   ($"username", arg_def TStr (PStr ($"admin")));
   ($"password", arg_secret true);
   ($"use_tls", arg_def TBool (PBool true));
   ($"allow_insecure_transport", arg_def TBool (PBool false));
   ($"validate_certs", arg_def TBool (PBool true));
   ($"ca_path", arg_opt TPath);
   ($"tls_fingerprint", arg_opt TStr);
   ($"timeout", arg_def TInt (PInt 30));
   ($"connect_timeout", arg_def TInt (PInt 10))].
Definition argument_spec : argspec :=
  connection_argument_spec
  ++ [($"services", mkArg (TList TStr) false (str_list SERVICE_NAMES) false SERVICE_NAMES);
      ($"service", mkArg TStr false PNone false SERVICE_NAMES);
      ($"state", mkArg TStr false PNone false [$"enabled"; $"disabled"]);
      ($"probe_timeout", arg_def TFloat (POpaque ($"2.0")))].

(** What opening a connection comes to. *)
Inductive connection : Type := Connected | Refused | Failed (e : exn).
Record prober : Type := mkProber { pr_net : list connection; pr_tried : list (text * Z) }.

(** A connection that opens is closed again; an [OSError] is a [False]. *)
Definition probe_port (host : text) (port : Z) : io prober exn bool := fun w =>
  match pr_net w with
  | [] => (Blocked, w)
  | o :: net =>
      let w := mkProber net (pr_tried w ++ [(host, port)]) in
      match o with
      | Connected => (Ret true, w)
      | Refused => (Ret false, w)
      | Failed e => (Raise e, w)
      end
  end.

Definition reachable_entry (host : text) (port : option Z) : io prober exn pyval :=
  match port with
  | None => io_ret PNone
  | Some port => do b <- probe_port host port; io_ret (dict [($"port", PInt port); ($"reachable", PBool b)])
  end.

Definition build_service_report (name host : text) : io prober exn pyval :=
  match assoc_get SERVICE_CATALOG name with
  | None => io_raise (KeyError (repr name))
  | Some capacity =>
      do nonsecure <- reachable_entry host (nonsecure_port capacity);
      do secure <- reachable_entry host (secure_port capacity);
      io_ret (dict
        [($"known", PBool true); ($"on_demand", PBool (on_demand capacity)); ($"enabled", PBool (known_active capacity));
         ($"capacity", dict [($"nonsecure_port", opt_int (nonsecure_port capacity)); ($"secure_port", opt_int (secure_port capacity));
                             ($"timeout_seconds", opt_int (timeout_seconds capacity)); ($"max_sessions", opt_int (max_sessions capacity))]);
         ($"reachable", dict [($"nonsecure", nonsecure); ($"secure", secure)])])
  end.

Fixpoint services_from (report : list (text * pyval)) (names : list text) (host : text) : io prober exn (list (text * pyval)) :=
  match names with
  | [] => io_ret report
  | name :: names => do r <- build_service_report name host; services_from (assoc_set report name r) names host
  end.
Definition build_services_report (names : list text) (host : text) : io prober exn (list (text * pyval)) := services_from [] names host.

Definition repr_opt (t : option text) : text := match t with Some t => repr t | None => $"None" end.

Definition main (p : Connection) (services : list text) (service state : option text) : io prober exn module_result :=
  try_ikvm
    (match state with
     | Some _ =>
         io_raise (Ikvm (UnsupportedCapabilityError
           ($"asmb8_redirection cannot set state=" ++ repr_opt state ++ $" for service=" ++ repr_opt service
            ++ $": no documented RPC exists on this BMC's .asp surface for toggling a service's enablement (see plugins/module_utils/asp.py). Change this from the BMC's own web UI (its Services configuration page) instead; a future release can add this once a real RPC is confirmed.")
           (Some (c_host p)) ($"asmb8_redirection.report")))
     | None => build_services_report services (c_host p)
     end)
    (fun report =>
       io_ret (ExitJson
         [($"changed", PBool false); ($"services", dict report);
          ($"operation", receipt ($"asmb8_redirection.report") (c_host p) false PNone PNone (dict report))])).

(** ** Lemmas *)

(** The ports of a service, in the order they are tried. *)
Definition ports (name : text) : list Z :=
  match assoc_get SERVICE_CATALOG name with
  | Some c => option_list (nonsecure_port c) ++ option_list (secure_port c)
  | None => []
  end.

Definition is_open (o : connection) : bool := match o with Connected => true | _ => false end.
Definition ordinary (o : connection) : Prop := match o with Failed _ => False | _ => True end.

(** Probing consumes an outcome for each port, in order. *)
Lemma entry_tries host port net tried :
  Forall ordinary net -> (length (option_list port) <= length net)%nat ->
  exists v, reachable_entry host port (mkProber net tried)
    = (Ret v, mkProber (drop (length (option_list port)) net) (tried ++ map (pair host) (option_list port))) /\
    v = match port, net with Some q, o :: _ => dict [($"port", PInt q); ($"reachable", PBool (is_open o))] | _, _ => PNone end.
Proof.
  intros Hn Hl. destruct port as [q|]; cbn in *.
  - destruct net as [|o net]; [cbn in Hl; lia|]. inversion Hn; subst. destruct o; [..|done]; by eexists.
  - eexists. by rewrite app_nil_r.
Qed.

Lemma service_tries name host net tried :
  name ∈ SERVICE_NAMES -> Forall ordinary net -> (length (ports name) <= length net)%nat ->
  exists v, build_service_report name host (mkProber net tried)
    = (Ret v, mkProber (drop (length (ports name)) net) (tried ++ map (pair host) (ports name))).
Proof.
  intros Hname Hn Hl. unfold build_service_report, ports in *.
  destruct (assoc_get SERVICE_CATALOG name) as [c|] eqn:E; [|by apply assoc_get_none in E].
  rewrite length_app in Hl. unfold io_bind.
  destruct (entry_tries host (nonsecure_port c) net tried Hn) as (v1 & -> & _); [lia|].
  destruct (entry_tries host (secure_port c) (drop (length (option_list (nonsecure_port c))) net)
              (tried ++ map (pair host) (option_list (nonsecure_port c)))) as (v2 & -> & _).
  - by apply Forall_drop.
  - rewrite length_drop. lia.
  - eexists. unfold io_ret. f_equal. rewrite drop_drop, length_app, map_app, app_assoc. done.
Qed.

Lemma services_try names host net tried report :
  Forall (fun n => n ∈ SERVICE_NAMES) names -> Forall ordinary net -> (length (concat (map ports names)) <= length net)%nat ->
  exists r, services_from report names host (mkProber net tried)
    = (Ret r, mkProber (drop (length (concat (map ports names))) net) (tried ++ map (pair host) (concat (map ports names)))).
Proof.
  intros Hnames. revert report net tried. induction Hnames as [|n names Hname Hnames IH]; intros report net tried Hn Hl; cbn [services_from map concat].
  - exists report. by rewrite app_nil_r.
  - cbn in Hl. rewrite length_app in Hl. unfold io_bind. destruct (service_tries n host net tried Hname Hn) as (v & ->); [lia|].
    destruct (IH (assoc_set report n v) (drop (length (ports n)) net) (tried ++ map (pair host) (ports n))) as (r & ->).
    + by apply Forall_drop.
    + rewrite length_drop. lia.
    + exists r. rewrite drop_drop, length_app, map_app, app_assoc. done.
Qed.

(** ** Properties *)

(** Changing a service is refused, and probing touches only its ports.
    A run with [state] set fails as unsupported before anything is
    contacted.  Otherwise, when each connection opens or is refused, the
    module reports unchanged, having tried each listed port of each
    requested service once, in order, on the one host. *)
Theorem redirection_probes_only p services service state net tried :
  Forall (fun n => n ∈ SERVICE_NAMES) services -> Forall ordinary net -> (length (concat (map ports services)) <= length net)%nat ->
  match state with
  | Some _ => exists fields, main p services service state (mkProber net tried) = (Ret (FailJson fields), mkProber net tried) /\
      assoc_get fields ($"error_class") = Some (PStr ($"unsupported_capability"))
  | None => exists fields,
      main p services service state (mkProber net tried)
      = (Ret (ExitJson fields), mkProber (drop (length (concat (map ports services))) net)
                                         (tried ++ map (pair (c_host p)) (concat (map ports services)))) /\
      assoc_get fields ($"changed") = Some (PBool false)
  end.
Proof.
  intros Hs Hn Hl. destruct state as [st|]; [by eexists|]. unfold main, try_ikvm, build_services_report.
  destruct (services_try services (c_host p) net tried [] Hs Hn Hl) as (r & ->). by eexists.
Qed.

Lemma redirection_probes_only_witness :
  exists fields,
    main demo_connection [$"kvm"; $"ssh"] None None (mkProber [Connected; Refused; Connected] [])
    = (Ret (ExitJson fields), mkProber [] [($"bmc", 7578); ($"bmc", 7582); ($"bmc", 22)]) /\
    assoc_get fields ($"changed") = Some (PBool false).
Proof.
  refine (redirection_probes_only demo_connection [$"kvm"; $"ssh"] None None [Connected; Refused; Connected] [] _ _ _).
  - repeat constructor; apply (bool_decide_unpack _); by vm_compute.
  - by repeat constructor.
  - vm_compute. lia.
Defined.
End Redirection.
