(* ===== verification/AsmbInfo.v ===== *)
(** * The facts module

    modules/asmb8_info.py: three IPMI reads, each of which may fail on its
    own, and, only on request, a web session for the host status and for the
    settings that decide whether media can be attached. *)
From Stdlib Require Import ZArith Lia Ascii String.
From stdpp Require Import prelude.
From S2P Require Import Prelude PyBytes PyText Regex Errors Models PyValue Webvar Asp Ansible Ipmi IpmiModules AsmbReports AsmbSessions.

Module Info.
Definition HOST_STATUS_DIAGNOSTIC_LIMIT : nat := 2048.
Definition MEDIA_SESSION_COUNT_OFFSET : Z := 128.
Definition MEDIA_SESSION_COUNT_SENTINEL : Z := 255.

(** [_connection_argument_spec] of asmb8_info.py *)
Definition connection_argument_spec : argspec :=
  [($"host", arg_req TStr);
   ($"port", arg_def TInt (PInt 443));
   ($"username", arg_def TStr (PStr ($"admin")));
   ($"password", arg_secret true);
   ($"use_tls", arg_def TBool (PBool true));
   ($"allow_insecure_transport", arg_def TBool (PBool false));
   ($"validate_certs", arg_def TBool (PBool true));
   ($"ca_path", arg_opt TPath);
   ($"tls_fingerprint", arg_opt TStr);
   ($"timeout", arg_def TInt (PInt 30));
   ($"connect_timeout", arg_def TInt (PInt 10));
   ($"ipmi_port", arg_def TInt (PInt DEFAULT_IPMI_PORT))].
Definition argument_spec : argspec :=
  connection_argument_spec ++ [($"include_web_session", arg_def TBool (PBool false)); ($"include_media_preconditions", arg_def TBool (PBool false))].

(** Both clients' worlds. *)
Record world : Type := mkWorld { w_ipmi : ipmi; w_asp : asp }.
Definition on_ipmi {A} (c : io ipmi exn A) : io world exn A := fun w => let '(o, i) := c (w_ipmi w) in (o, mkWorld i (w_asp w)).
Definition on_asp {A} (c : io asp exn A) : io world exn A := fun w => let '(o, a) := c (w_asp w) in (o, mkWorld (w_ipmi w) a).

(** [_read_ipmi_field]: the fact, and what is recorded of its reading *)
Definition read_ipmi_field (field : text) (getter : io ipmi exn pyval) : io ipmi exn (pyval * (text * pyval)) := fun i =>
  match getter i with
  | (Ret v, i') => (Ret (v, (field, read_outcome None true)), i')
  | (Raise (Ikvm err), i') => (Ret (PNone, (field, read_outcome (Some (error_class err)) false)), i')
  | (Raise e, i') => (Raise e, i')
  | (Blocked, i') => (Blocked, i')
  end.

Definition gather_ipmi_facts (client : IpmiClient) : io ipmi exn (pyval * pyval) :=
  do power <- read_ipmi_field ($"power_state") (do d <- get_power_state client; io_ret (PDict d));
  do boot <- read_ipmi_field ($"boot_device") (do d <- get_boot_device client; io_ret (PDict d));
  do mci <- read_ipmi_field ($"mc_info") (get_mc_info client);
  io_ret (dict [($"power_state", fst power); ($"boot_device", fst boot); ($"mc_info", fst mci)], dict [snd power; snd boot; snd mci]).

Definition gather_web_management_facts (client : AspConfig) : io asp exn pyval :=
  do host_status_raw <- get_host_status client;
  io_ret (dict [($"logged_in", PBool true); ($"host_status_raw", PStr (take HOST_STATUS_DIAGNOSTIC_LIMIT host_status_raw))]).

Definition decode_media_session_count (raw : pyval) : result exn pyval :=
  match raw with
  | PNone => Ok PNone
  | _ => if py_eq raw (PInt MEDIA_SESSION_COUNT_SENTINEL) then Ok PNone else Sessions.minus raw MEDIA_SESSION_COUNT_OFFSET
  end.

(** The two fields of getremotesession.asp: encryption and attach mode. *)
Definition decode_remote_session_preconditions (r : pydict) : pyval * pyval :=
  (bool_field r ($"MEDIAENCRYPTION"), get r ($"VMEDIAATTACH")).

Definition fetch_remote_session_preconditions (le : text -> option pyval) (client : AspConfig)
    : io asp exn (option (pyval * pyval) * pyval) :=
  io_try
    (do rs <- read_records le client ($"getremotesession") None;
     io_ret (match rs with
             | [] => (None, Sessions.page_read ($"failed") None)
             | r :: _ => (Some (decode_remote_session_preconditions r), Sessions.page_read ($"read") None)
             end))
    (fun e => match Sessions.is_protocol e with
              | Some c => io_ret (None, Sessions.page_read ($"failed") (Some c))
              | None => io_raise e
              end).

Record VmediaFields : Type := {
  vf_secure_channel : pyval;
  vf_license_status : pyval;
  vf_device_counts : pyval;
  vf_sessions : pyval;
  vf_status : pyval;
}.

Definition decode_vmediacfg_preconditions (r : pydict) : result exn VmediaFields :=
  let* max := decode_media_session_count (get r ($"V_MAX_CD_SESSIONS")) in
  let* current := decode_media_session_count (get r ($"V_ACTIVE_CD_SESSIONS")) in
  Ok {| vf_secure_channel := bool_field r ($"V_STR_SECURE_CHANNEL");
        vf_license_status := get r ($"V_MEDIA_LICENSE_STATUS");
        vf_device_counts := dict [($"cd", get r ($"V_NUM_CD")); ($"fd", get r ($"V_NUM_FD")); ($"hd", get r ($"V_NUM_HD"))];
        vf_sessions := dict [($"cd", dict [($"max", max); ($"current", current)])];
        vf_status := get r ($"V_MEDIA_STATUS") |}.

Definition fetch_vmediacfg_preconditions (le : text -> option pyval) (client : AspConfig) : io asp exn VmediaFields :=
  do rs <- read_records le client ($"getvmediacfg") None;
  match rs with
  | [] => io_raise (Ikvm (ProtocolError ($"getvmediacfg.asp returned no records") (Some (asp_endpoint client)) ($"get_webvar:getvmediacfg")))
  | r :: _ => io_lift (decode_vmediacfg_preconditions r)
  end.

Definition gather_media_preconditions (le : text -> option pyval) (client : AspConfig) : io asp exn pyval :=
  do remote <- fetch_remote_session_preconditions le client;
  do v <- fetch_vmediacfg_preconditions le client;
  io_ret (dict
    [($"encryption", dict [($"media_encryption_enabled", match fst remote with Some f => fst f | None => PNone end);
                           ($"secure_channel_enabled", vf_secure_channel v)]);
     ($"licensing", dict [($"license_status_raw", vf_license_status v)]);
     ($"attach", dict [($"attach_raw", match fst remote with Some f => snd f | None => PNone end)]);
     ($"device_counts", vf_device_counts v); ($"sessions", vf_sessions v); ($"status_raw", vf_status v);
     ($"remote_session_read", snd remote)]).

Definition capability (supported : pyval) (proven : bool) (note : text) : pyval :=
  dict [($"supported", supported); ($"proven", PBool proven); ($"note", PStr note)].

Definition build_capabilities (web_management : option pyval) (include_web_session : bool) : pyval :=
  dict
    [($"ipmi_power", capability (PBool true) true ($"Verified live against the target board: get_power() returned {'powerstate': 'on'}."));
     ($"ipmi_boot_device", capability (PBool true) true ($"Verified live against the target board: get_bootdev() returned a real override dict."));
     ($"ipmi_mc_info", capability (PBool true) true ($"Verified live: get_mci() returns a bare string, not a dict -- see module_utils/ipmi.py."));
     ($"web_management",
      capability (PBool true) (include_web_session && match web_management with Some _ => true | None => false end)
        (if negb include_web_session
         then $"Proven for this run only when include_web_session=true and the login succeeded; not attempted otherwise."
         else $"Login succeeded this run."));
     ($"virtual_media",
      capability PNone false
        ($"Not yet proven against this hardware. A null (not false) 'supported' value means unknown, not unsupported. See asmb8.media.preconditions (include_media_preconditions=true) for the settings that gate whether an attach could succeed, read without attempting one."));
     ($"remote_console",
      capability PNone false ($"Not yet proven against this hardware. A null (not false) 'supported' value means unknown, not unsupported."));
     ($"redfish",
      capability (PBool false) true ($"ASPEED AST2400 (this board's generation) predates Redfish support, which arrived with AST2500/ASMB9."))].

Definition MEDIA_NEEDS_WEB : text :=
  $"include_media_preconditions=true requires include_web_session=true: media preconditions are read over the same authenticated .asp session include_web_session creates, and this module never creates that session implicitly.".

(** The web part: host status, and the media settings when asked for. *)
Definition gather_web (le : text -> option pyval) (p : Connection) (include_media_preconditions : bool) : io asp exn (pyval * option pyval) :=
  do client <- build_asp_client p;
  run login client;
  do web <- gather_web_management_facts client;
  if include_media_preconditions then do media <- gather_media_preconditions le client; io_ret (web, Some media)
  else io_ret (web, None).

Definition opt_value (o : option pyval) : pyval := default PNone o.

Definition main (le : text -> option pyval) (p : Connection) (pyghmi requests : library)
    (include_web_session include_media_preconditions : bool) : io world exn module_result :=
  with_library pyghmi
    (with_library (if include_web_session then requests else None)
       (if include_media_preconditions && negb include_web_session then io_ret (fail_msg MEDIA_NEEDS_WEB)
        else
          try_ikvm
            (do client <- on_ipmi (build_ipmi_client p);
             do facts <- on_ipmi (gather_ipmi_facts client);
             do web <- (if include_web_session
                        then do w <- on_asp (gather_web le p include_media_preconditions); io_ret (Some (fst w), snd w)
                        else io_ret (None, None));
             io_ret (client, facts, web))
            (fun '(client, (facts, reads), (web, media)) =>
               io_ret (ExitJson
                 [($"changed", PBool false);
                  ($"asmb8", dict [($"reachable", PBool true); ($"ipmi", facts); ($"web_management", opt_value web);
                                   ($"capabilities", build_capabilities web include_web_session);
                                   ($"media", dict [($"port_mode", PStr ($"unknown")); ($"preconditions", opt_value media)])]);
                  ($"operation", receipt_extra ($"get_facts") (ipmi_endpoint client) false [($"ipmi_reads", reads)])])))).
End Info.
