(* ===== verification/AsmbConsole.v ===== *)
(** * modules/asmb8_console.py: the KVM handshake and one raw frame

    Resolve a token (given, or minted through the web pages), dial the KVM
    port, open the channel, optionally capture one frame into a file, and
    always send the stop packet and close.  The network ([net], [wrap]), the
    routing table ([local_ip]), the name of the local user and the
    directories are the environment's. *)
From Stdlib Require Import ZArith Lia Ascii String.
From stdpp Require Import prelude.
From S2P Require Import Prelude PyBytes PyText PyPath Regex Errors Transport Ivtp Models PyValue Webvar Asp Ansible.

Module Console.
Definition CAPTURE_HANDSHAKE_ONLY : text := $"handshake_only".
Definition CAPTURE_RAW_FRAME : text := $"raw_frame".
Definition CAPTURE_DECODED_FRAME : text := $"decoded_frame".
Definition OPERATION : text := $"asmb8_console.capture".

(** [_connection_argument_spec] of asmb8_console.py *)
Definition connection_argument_spec : argspec :=
  [($"host", arg_req TStr);
   ($"port", arg_def TInt (PInt 443));
   ($"username", arg_def TStr (PStr ($"admin")));
   ($"password", arg_secret true);
   ($"use_tls", arg_def TBool (PBool true));
   ($"allow_insecure_transport", arg_def TBool (PBool false));
   ($"validate_certs", arg_def TBool (PBool true));
   ($"ca_path", arg_opt TPath);
   ($"tls_fingerprint", arg_opt TStr);
   ($"timeout", arg_def TInt (PInt 30));
   ($"connect_timeout", arg_def TInt (PInt 10))].
Definition argument_spec : argspec :=
  connection_argument_spec
  ++ [($"kvm_port", arg_def TInt (PInt 7578)); ($"kvm_secure", arg_opt TBool); ($"token", arg_secret false);
      ($"client_username", arg_opt TStr); ($"send_get_web_token", arg_def TBool (PBool true));
      ($"capture", arg_choice_def [CAPTURE_HANDSHAKE_ONLY; CAPTURE_RAW_FRAME; CAPTURE_DECODED_FRAME] (PStr CAPTURE_HANDSHAKE_ONLY));
      ($"output_path", arg_opt TPath); ($"handshake_timeout", arg_def TInt (PInt 15)); ($"frame_timeout", arg_def TInt (PInt 20))].

(** The values [capture] may have. *)
Inductive capture_mode : Type := HandshakeOnly | RawFrame | DecodedFrame.
Definition capture_name (c : capture_mode) : text :=
  match c with HandshakeOnly => CAPTURE_HANDSHAKE_ONLY | RawFrame => CAPTURE_RAW_FRAME | DecodedFrame => CAPTURE_DECODED_FRAME end.

Record Params : Type := {
  q_conn : Connection;
  q_kvm_port : Z;
  q_kvm_secure : option bool;
  q_token : option text;
  q_client_username : option text;
  q_send_get_web_token : bool;
  q_capture : capture_mode;
  q_output_path : option text;
  q_handshake_timeout : Z;         (* in seconds *)
  q_frame_timeout : Z;
}.

(** The web client, the KVM socket once dialled (with TLS: once wrapped), the
    raw socket of a TLS handshake that failed, the files written, and the
    faults of the next writes. *)
Record world : Type := mkWorld {
  k_asp : asp;
  k_kvm : option sock;
  k_raw : option sock;
  k_files : list (text * bytes);
  k_faults : list (option text);
}.

Definition on_asp {A} (c : io asp exn A) : io world exn A := fun w =>
  let '(o, a) := c (k_asp w) in (o, mkWorld a (k_kvm w) (k_raw w) (k_files w) (k_faults w)).
Definition set_kvm (s : sock) (w : world) : world := mkWorld (k_asp w) (Some s) (k_raw w) (k_files w) (k_faults w).
(** On the dialled socket. *)
Definition on_kvm {A} (c : io sock exn A) : io world exn A := fun w =>
  match k_kvm w with
  | Some s => let '(o, s') := c s in (o, set_kvm s' w)
  | None => (Blocked, w)
  end.

Section Module.
Context (local_ip : text -> result exn text) (getuser : result exn text) (is_dir : text -> bool).
Context (net : text -> Z -> dial) (wrap : ssl_settings -> sock -> handshake).

Definition default_client_username : result exn text :=
  match getuser with
  | Ok t => Ok t
  | Err e => if is_os_error e then Ok ($"ansible") else Err e
  end.

Definition validate_output_path (output_path : option text) : result exn unit :=
  match output_path with
  | Some (c :: t) =>
      let parent := path_parent (c :: t) in
      if is_dir parent then Ok tt
      else raise_ikvm (ProtocolError ($"asmb8_console: output_path's parent directory PosixPath(" ++ repr parent ++ $") does not exist") None OPERATION)
  | _ => raise_ikvm (ProtocolError ($"asmb8_console capture=raw_frame requires output_path to be set") None OPERATION)
  end.

Definition resolve_token_and_security (params : Params) : io world exn (text * bool * text) :=
  do client_ip <- io_lift (local_ip (c_host (q_conn params)));
  match q_token params, q_kvm_secure params with
  | Some token, Some secure => io_ret (token, secure, client_ip)
  | Some _, None =>
      io_raise (Ikvm (ProtocolError ($"asmb8_console: kvm_secure must be set explicitly when token is supplied") None OPERATION))
  | None, kvm_secure =>
      do client <- on_asp (build_asp_client (q_conn params));
      run on_asp (login client);
      do jnlp <- on_asp (allocate_media_session client client_ip kvm_secure);
      match kvm_token jnlp with
      | None =>
          io_raise (Ikvm (ProtocolError ($"jviewer.jnlp allocation did not yield a usable KVM token") (Some (asp_endpoint client)) OPERATION))
      | Some token => io_ret (token, default (default false (Models.kvm_secure jnlp)) kvm_secure, client_ip)
      end
  end.

Definition build_kvm_transport (params : Params) (kvm_secure : bool) : io world exn sock := fun w =>
  let c := q_conn params in
  let connect wrap :=
    let '(r, raw) := ivtp_connect net wrap (c_host c) (q_kvm_port params) in
    io_lift r (mkWorld (k_asp w) (k_kvm w) raw (k_files w) (k_faults w)) in
  if kvm_secure then
    match TlsTrustPolicy_create (c_validate_certs c) (c_ca_path c) (c_tls_fingerprint c) with
    | Err e => (Raise (Ikvm e), w)
    | Ok policy => connect (Some (wrap (build_ssl_context policy)))
    end
  else connect None.

Definition channel_facts (f : ChannelFacts) : list (text * pyval) :=
  [($"session_accepted", PBool (session_accepted f)); ($"greeting_body_len", PInt (greeting_body_len f));
   ($"validate_status", PInt (validate_status f)); ($"validate_status_name", PStr (validate_status_name_ f));
   ($"validate_sub_status", opt_int (validate_sub_status f)); ($"resumed", PBool (resumed f))].

(** [write_frame]: created or truncated, then written *)
Definition write_frame (output_path : text) (frame : bytes) : io world exn unit := fun w =>
  match k_faults w with
  | Some m :: faults => (Raise (OSError m), mkWorld (k_asp w) (k_kvm w) (k_raw w) (k_files w) faults)
  | None :: faults => (Ret tt, mkWorld (k_asp w) (k_kvm w) (k_raw w) (assoc_set (k_files w) output_path frame) faults)
  | [] => (Ret tt, mkWorld (k_asp w) (k_kvm w) (k_raw w) (assoc_set (k_files w) output_path frame) [])
  end.

(** [finally]: the stop packet, any error of its sending suppressed, and the
    close *)
Definition finish (s : sock) : sock := close (ivtp_send_all (build_stop_session 0) s).2.
Definition closing {A} (body : io world exn A) : io world exn A := fun w =>
  match body w with
  | (Blocked, w') => (Blocked, w')
  | (o, w') => (o, match k_kvm w' with Some s => set_kvm (finish s) w' | None => w' end)
  end.

(** The part inside [try]. *)
Definition session (params : Params) (token client_ip : text) : io world exn (ChannelFacts * option Z) :=
  do username <- io_lift (match q_client_username params with
                          | Some (c :: t) => Ok (c :: t)
                          | _ => default_client_username
                          end);
  do facts <- on_kvm (open_channel token client_ip username (1000 * q_handshake_timeout params) (q_send_get_web_token params));
  match q_capture params with
  | RawFrame =>
      do frame <- on_kvm (capture_one_frame (1000 * q_frame_timeout params) true);
      run write_frame (default [] (q_output_path params)) frame;
      io_ret (facts, Some (blen frame))
  | _ => io_ret (facts, None)
  end.

Definition success (params : Params) (facts : ChannelFacts) (written : option Z) : module_result :=
  let endpoint := Transport.host_port (c_host (q_conn params)) (q_kvm_port params) in
  ExitJson
    [($"changed", PBool false); ($"capture", PStr (capture_name (q_capture params))); ($"channel", dict (channel_facts facts));
     ($"frame", match written with
                | Some n => dict [($"decoded", PBool false); ($"bytes_written", PInt n);
                                  ($"output_path", PStr (default [] (q_output_path params)))]
                | None => PNone
                end);
     ($"operation", receipt OPERATION endpoint false PNone (PStr (capture_name (q_capture params))) (PData (channel_facts facts)))].

Definition run_capture (params : Params) : io world exn module_result :=
  do resolved <- resolve_token_and_security params;
  let '(token, secure, client_ip) := resolved in
  do transport <- build_kvm_transport params secure;
  run io_modify (set_kvm transport);
  do r <- closing (session params token client_ip);
  io_ret (success params (fst r) (snd r)).

Definition main (lib : library) (check_mode : bool) (params : Params) : io world exn module_result :=
  let endpoint := Transport.host_port (c_host (q_conn params)) (q_kvm_port params) in
  with_library lib
    (try_ikvm
       (match q_capture params with
        | DecodedFrame =>
            io_raise (Ikvm (UnsupportedCapabilityError
              ($"capture=decoded_frame is not implemented. Decoding the AMI/ASPEED VQ+JPEG(DCT), optionally RC4-obfuscated, video codec into pixels is a large separate undertaking this collection has not completed; use capture=raw_frame to save the raw, still-encoded frame bytes instead, or capture=handshake_only to confirm the channel is live without saving anything.")
              (Some endpoint) OPERATION))
        | mode =>
            run io_lift (match mode with RawFrame => validate_output_path (q_output_path params) | _ => Ok tt end);
            if check_mode then
              io_ret (ExitJson [($"changed", PBool false); ($"capture", PStr (capture_name mode)); ($"channel", PNone); ($"frame", PNone);
                                ($"operation", receipt OPERATION endpoint false PNone (PStr (capture_name mode)) PNone)])
            else run_capture params
        end)
       io_ret).
End Module.

(** ** Lemmas *)

(** A socket [s0] as the module should leave it: closed, and after whatever
    else was written the stop packet (type 8, no body), which went out unless
    that very write failed. *)
Definition stop_packet : bytes := [8; 0; 0; 0; 0; 0; 0; 0].
Definition left_closed (s0 s' : sock) : Prop :=
  closed s' = true /\
  exists l, tx s' = tx s0 ++ delivered (l ++ [stop_packet]) (send s0) /\ send s' = drop (length l + 1) (send s0).

Lemma finish_closes s0 s l : wrote s0 s l -> left_closed s0 (finish s).
Proof.
  intros Hw. split; [done|]. exists l.
  destruct (wrote_trans _ _ _ _ _ Hw (wrote_packet s (build_stop_session 0) (proj1 Hw))) as (_ & H1 & H2).
  rewrite length_app in H2. by split.
Qed.

(** A channel that opened was validated. *)
Lemma open_validated token ip user t web s facts s' :
  open_channel token ip user t web s = (Ret facts, s') -> validate_status facts = SESSION_VALID /\ session_accepted facts = true /\ resumed facts = true.
Proof.
  intros H. unfold open_channel in H. apply io_bind_inv in H as ([] & s1 & _ & H). apply io_bind_inv in H as ([header body] & s2 & _ & H).
  destruct (negb (Header.type header =? OP_SESSION_ACCEPTED)); [done|]. apply io_bind_inv in H as ([] & s3 & _ & H).
  apply io_bind_inv in H as (pkt & s4 & _ & H). apply io_bind_inv in H as ([] & s5 & _ & H). apply io_bind_inv in H as (s6 & s7 & _ & H).
  apply io_bind_inv in H as ([status sub] & s8 & _ & H). destruct (status =? SESSION_VALID) eqn:E; [|done]. cbn [negb] in H.
  apply io_bind_inv in H as ([] & s9 & _ & [= <- _]). apply Z.eqb_eq in E. by subst.
Qed.

Section Lemmas.
Context (local_ip : text -> result exn text) (getuser : result exn text) (is_dir : text -> bool).
Context (net : text -> Z -> dial) (wrap : ssl_settings -> sock -> handshake).

Lemma resolve_kvm params k r :
  preserves (fun w => k_kvm w = k /\ k_raw w = r) (resolve_token_and_security local_ip params).
Proof.
  assert (forall A (c : io asp exn A), preserves (fun w => k_kvm w = k /\ k_raw w = r) (on_asp c)) as Ha.
  { intros A c w0 H0. unfold on_asp. by destruct (c (k_asp w0)). }
  apply preserves_seq; [apply preserves_lift|]. intros ip.
  destruct (q_token params) as [token|]; [destruct (q_kvm_secure params); [apply preserves_ret|apply preserves_raise]|].
  apply preserves_seq; [apply Ha|]. intros client. apply preserves_seq; [apply Ha|]. intros _.
  apply preserves_seq; [apply Ha|]. intros jnlp. destruct (kvm_token jnlp); [apply preserves_ret|apply preserves_raise].
Qed.

(** A part of the run that works on the dialled socket only by writing to it
    and reading from it. *)
Definition on_channel {A} (c : io world exn A) : Prop :=
  forall w s, k_kvm w = Some s -> closed s = false ->
    k_raw (c w).2 = k_raw w /\ exists s' l, k_kvm (c w).2 = Some s' /\ wrote s s' l.

Lemma channel_ret {A} (x : A) : on_channel (io_ret x).
Proof. intros w s Hw Hc. split; [done|]. destruct (wrote_nothing s s) as [l Hl]; [done..|]. by exists s, l. Qed.
Lemma channel_lift {A} (r : result exn A) : on_channel (io_lift r).
Proof.
  destruct r; intros w s Hw Hc; (split; [done|]); (destruct (wrote_nothing s s) as [l Hl]; [done..|]); by exists s, l.
Qed.
Lemma channel_bind {A B} (c : io world exn A) (k : A -> io world exn B) :
  on_channel c -> (forall x, on_channel (k x)) -> on_channel (io_bind c k).
Proof.
  intros Hc Hk w s Hw Hs. unfold io_bind. destruct (Hc w s Hw Hs) as (Hr & s1 & a & Hw1 & Ha).
  destruct (c w) as [[x|e|] w1]; cbn [snd] in *; [|split; [done|]; by exists s1, a..].
  destruct (Hk x w1 s1 Hw1 (proj1 Ha)) as (Hr2 & s2 & b & Hw2 & Hb). split; [congruence|].
  exists s2, (a ++ b). split; [done|]. by eapply wrote_trans.
Qed.
Lemma channel_kvm {A} (c : io sock exn A) : writes c -> on_channel (on_kvm c).
Proof.
  intros Hc w s Hw Hs. unfold on_kvm. rewrite Hw. destruct (Hc s Hs) as (l & Hl). destruct (c s) as [o s'].
  split; [done|]. by exists s', l.
Qed.
Lemma channel_file path frame : on_channel (write_frame path frame).
Proof.
  intros w s Hw Hs. destruct (wrote_nothing s s) as [l Hl]; [done..|].
  unfold write_frame. destruct (k_faults w) as [|[m|] q]; (split; [done|]); by exists s, l.
Qed.

Lemma session_channel params token ip : on_channel (session getuser params token ip).
Proof.
  apply channel_bind; [apply channel_lift|]. intros user. apply channel_bind; [apply channel_kvm, writes_open|]. intros facts.
  destruct (q_capture params); try apply channel_ret. apply channel_bind; [apply channel_kvm, writes_capture|]. intros frame.
  apply channel_bind; [apply channel_file|]. intros _. apply channel_ret.
Qed.

Lemma closing_closes {A} (body : io world exn A) w s :
  on_channel body -> k_kvm w = Some s -> closed s = false ->
  match closing body w with
  | (Blocked, _) => True
  | (_, w') => k_raw w' = k_raw w /\ exists s', k_kvm w' = Some s' /\ left_closed s s'
  end.
Proof.
  intros Hb Hw Hs. unfold closing. destruct (Hb w s Hw Hs) as (Hr & s' & l & Hw' & Hl).
  destruct (body w) as [[x|e|] w']; cbn [snd] in *; [..|done]; rewrite Hw'; (split; [done|]); eexists; (split; [done|]);
    by eapply finish_closes.
Qed.

(** The socket the KVM port was dialled to: as connected, or as wrapped. *)
Definition dialled_kvm (params : Params) (s : sock) : Prop :=
  exists raw, net (c_host (q_conn params)) (q_kvm_port params) = Connected raw /\
    (s = raw \/ exists settings, wrap settings raw = Wrapped s).

Definition raw_closed (w : world) : Prop := match k_raw w with Some s => closed s = true | None => True end.

Lemma transport_cases params secure w :
  match build_kvm_transport net wrap params secure w with
  | (Ret t, w') => dialled_kvm params t /\ raw_closed w'
  | (Raise e, w') => k_kvm w' = k_kvm w /\ (raw_closed w -> raw_closed w')
  | (Blocked, _) => False
  end.
Proof.
  unfold build_kvm_transport, ivtp_connect, dialled_kvm.
  destruct secure; [destruct (TlsTrustPolicy_create _ _ _) as [policy|e]; [|done]|];
    (destruct (net _ _) as [raw| |m] eqn:En; cbn; [|done..]).
  - destruct (wrap _ raw) as [s'|m|m] eqn:Ew; cbn; [|done..]. split; [|done]. exists raw. split; [done|]. right. by eexists.
  - split; [|done]. exists raw. by split; [|left].
Qed.

(** The channel's part of a run ends when its stream does. *)
Lemma session_prompt params token ip w s : k_kvm w = Some s -> stream_ends s -> (session getuser params token ip w).1 <> Blocked.
Proof.
  assert (forall A (c : io sock exn A) w s, prompt c -> k_kvm w = Some s -> stream_ends s ->
            (on_kvm c w).1 <> Blocked /\ exists s', k_kvm (on_kvm c w).2 = Some s' /\ stream_ends s') as Hk.
  { intros A c w0 s0 Hc H0 Hs0. unfold on_kvm. rewrite H0. destruct (Hc s0 Hs0) as (H1 & H2 & _). destruct (c s0) as [o s'].
    split; [done|]. by exists s'. }
  intros Hw Hs. unfold session, io_bind at 1. destruct (match q_client_username params with Some (c :: t) => _ | _ => _ end) as [u|e]; [|done].
  cbn [io_lift]. unfold io_ret at 1, io_bind at 1.
  destruct (Hk _ _ w s (open_channel_prompt token ip u (1000 * q_handshake_timeout params) (q_send_get_web_token params)) Hw Hs)
    as (H1 & s1 & Hw1 & Hs1).
  destruct (on_kvm _ w) as [[f|e|] w1]; [|done..]. destruct (q_capture params); try done. unfold io_bind.
  destruct (Hk _ _ w1 s1 (capture_frame_prompt (1000 * q_frame_timeout params) true) Hw1 Hs1) as (H2 & _).
  destruct (on_kvm _ w1) as [[frame|e|] w2]; [|done..]. unfold write_frame. by destruct (k_faults w2) as [|[m|] q].
Qed.

Lemma resolve_replies params w :
  (2 * attempts (asp_config (q_conn params)) <= length (a_net (k_asp w)))%nat ->
  (resolve_token_and_security local_ip params w).1 <> Blocked.
Proof.
  intros Hn. unfold resolve_token_and_security, io_bind at 1. destruct (local_ip _) as [ip|e]; [|done]. cbn [io_lift]. unfold io_ret at 1.
  destruct (q_token params) as [token|]; [by destruct (q_kvm_secure params)|].
  set (cfg := asp_config (q_conn params)) in *. unfold io_bind, on_asp.
  destruct (replies_build (q_conn params) (2 * attempts cfg)%nat (k_asp w) ltac:(lia)) as [H1 H2].
  destruct (build_asp_client (q_conn params) (k_asp w)) as [[client|e|] a1] eqn:Eb; cbn [fst snd] in *; [|done..].
  apply build_returns in Eb as (-> & _). fold cfg. cbn [k_asp].
  destruct (replies_login cfg (attempts cfg) a1 ltac:(lia)) as [H3 H4]. destruct (login cfg a1) as [[t|e|] a2]; cbn [fst snd] in *; [|done..].
  destruct (replies_allocate cfg ip (q_kvm_secure params) 0%nat a2 ltac:(lia)) as [H5 _]. cbn [k_asp].
  destruct (allocate_media_session cfg ip (q_kvm_secure params) a2) as [[jnlp|e|] a3]; cbn [fst snd] in *; [|done..].
  by destruct (kvm_token jnlp).
Qed.
End Lemmas.

(** ** Properties *)

Section Properties.
Context (local_ip : text -> result exn text) (getuser : result exn text) (is_dir : text -> bool).
Context (net : text -> Z -> dial) (wrap : ssl_settings -> sock -> handshake).

Lemma transport_ends params t :
  (forall host port s, net host port = Connected s -> stream_ends s) ->
  (forall settings s s', wrap settings s = Wrapped s' -> stream_ends s -> stream_ends s') ->
  dialled_kvm net wrap params t -> stream_ends t.
Proof. intros Hnet Hwrap (raw & Hn & [->|[settings Hw]]); [by eapply Hnet|]. eapply Hwrap; [exact Hw|]. by eapply Hnet. Qed.

Lemma main_ends lib check params w :
  2 * (max_retries (asp_config (q_conn params)) + 1) <= blen (a_net (k_asp w)) ->
  (forall host port s, net host port = Connected s -> stream_ends s) ->
  (forall settings s s', wrap settings s = Wrapped s' -> stream_ends s -> stream_ends s') ->
  (main local_ip getuser is_dir net wrap lib check params w).1 <> Blocked.
Proof.
  intros Hn Hnet Hwrap. unfold main, with_library. destruct lib as [[m e]|]; [done|].
  assert ((run_capture local_ip getuser net wrap params w).1 <> Blocked) as Hr.
  { pose proof (resolve_replies local_ip params w) as Hr. unfold run_capture, io_bind at 1.
    destruct (resolve_token_and_security local_ip params w) as [[[[token sec] ip]|e|] w1]; [|done|].
    2: { unfold blen, attempts in *. assert (0 <= max_retries (asp_config (q_conn params))) by (unfold max_retries; lia).
         exfalso. apply Hr; [lia|done]. }
    unfold io_bind at 1. pose proof (transport_cases net wrap params sec w1) as Ht.
    destruct (build_kvm_transport net wrap params sec w1) as [[t|e|] w2]; [|done..]. destruct Ht as [Hd _].
    unfold io_bind, io_modify, closing.
    pose proof (session_prompt getuser params token ip (set_kvm t w2) t eq_refl (transport_ends params t Hnet Hwrap Hd)) as Hs.
    by destruct (session getuser params token ip (set_kvm t w2)) as [[[f n]|e|] w3]. }
  unfold try_ikvm, io_bind. destruct (q_capture params); [|destruct (validate_output_path _ _) as [[]|[]]; try done|done];
    cbn [io_lift io_ret]; unfold io_ret at 1; (destruct check; [done|]);
    by destruct (run_capture local_ip getuser net wrap params w) as [[r|[]|] w'].
Qed.

Lemma run_capture_closes params w :
  k_kvm w = None -> k_raw w = None -> (forall s, dialled_kvm net wrap params s -> closed s = false) ->
  match run_capture local_ip getuser net wrap params w with
  | (Blocked, _) => True
  | (o, w') =>
      (forall s', k_kvm w' = Some s' -> exists s0, dialled_kvm net wrap params s0 /\ left_closed s0 s') /\
      (forall s, k_raw w' = Some s -> closed s = true) /\
      (forall r, o = Ret r -> k_kvm w' <> None)
  end.
Proof.
  intros Hk Hr Hopen. unfold run_capture, io_bind at 1.
  destruct (resolve_kvm local_ip params None None w (conj Hk Hr)) as [Hk1 Hr1].
  destruct (resolve_token_and_security local_ip params w) as [[[[token sec] ip]|e|] w1]; cbn [snd] in *;
    [|rewrite Hk1, Hr1; by split_and!|done].
  unfold io_bind at 1. pose proof (transport_cases net wrap params sec w1) as Ht.
  destruct (build_kvm_transport net wrap params sec w1) as [[t|e|] w2]; [| |done]; destruct Ht as [Ht Hraw].
  2: { rewrite Ht, Hk1. split_and!; [done| |done]. unfold raw_closed in Hraw. rewrite Hr1 in Hraw. intros s Hs.
       rewrite Hs in Hraw. by apply Hraw. }
  unfold io_bind, io_modify.
  pose proof (closing_closes _ (set_kvm t w2) t (session_channel getuser params token ip) eq_refl (Hopen t Ht)) as Hc.
  destruct (closing (session getuser params token ip) (set_kvm t w2)) as [[r|e|] w3]; [| |done];
    destruct Hc as (Hr3 & s' & Hs & Hl); cbn in Hr3; unfold raw_closed in Hraw; rewrite <- Hr3 in Hraw; cbn;
    rewrite Hs; (split_and!; [intros ? [= <-]; by exists t| |done]); intros s2 E2; by rewrite E2 in Hraw.
Qed.

(** C26: The KVM session is always given back.  However a run of the console
    module ends, the socket it dialled is left closed, and the stop packet was
    the last thing written on it; the packet went out unless that write
    failed.  A run that succeeded outside check mode did dial, and the raw
    socket of a TLS handshake that failed is closed too.  In check mode, and
    for a capture that is not supported, nothing is contacted.  The network
    hands over open sockets.  And a run does end, whenever every attempt of
    the two web requests has some outcome and the stream of the dialled peer
    ends. *)
Theorem console_always_closes lib check params w :
  k_kvm w = None -> k_raw w = None ->
  (forall s, dialled_kvm net wrap params s -> closed s = false) ->
  (2 * (max_retries (asp_config (q_conn params)) + 1) <= blen (a_net (k_asp w)) ->
   (forall host port s, net host port = Connected s -> stream_ends s) ->
   (forall settings s s', wrap settings s = Wrapped s' -> stream_ends s -> stream_ends s') ->
   (main local_ip getuser is_dir net wrap lib check params w).1 <> Blocked) /\
  match main local_ip getuser is_dir net wrap lib check params w with
  | (Blocked, _) => True
  | (o, w') =>
      (forall s', k_kvm w' = Some s' -> exists s0, dialled_kvm net wrap params s0 /\ left_closed s0 s') /\
      (forall s, k_raw w' = Some s -> closed s = true) /\
      (forall fields, o = Ret (ExitJson fields) -> check = false -> k_kvm w' <> None) /\
      (check = true \/ q_capture params = DecodedFrame -> w' = w)
  end.
Proof.
  intros Hk Hr Hopen. split; [by apply main_ends|].
  pose proof (run_capture_closes params w Hk Hr Hopen) as Hc. unfold main, with_library.
  destruct lib as [[m e]|]; [cbn; rewrite Hk, Hr; by split_and!|]. unfold try_ikvm.
  destruct (q_capture params) eqn:Ecap; [..|cbn; rewrite Hk, Hr; by split_and!]; unfold io_bind; cbn [io_lift];
    [|destruct (validate_output_path is_dir (q_output_path params)) as [[]|e]; cbn [io_lift];
      [|unfold io_raise; destruct e; rewrite Hk, Hr; by split_and!]];
    unfold io_ret at 1; (destruct check; [cbn; rewrite Hk, Hr; by split_and!|]);
    (destruct (run_capture local_ip getuser net wrap params w) as [[r|e|] w']; [| |done]);
    destruct Hc as (H1 & H2 & H3); [|destruct e| |destruct e]; cbn [io_ret]; (split_and!; [done|done| |by intros [?|?]]); try done.
  all: intros fields [= ->] _; by eapply H3.
Qed.

(** What is reported was confirmed.  A run outside check mode that
    succeeds went through a validated, resumed session; and for a raw frame
    capture the output file holds a frame of exactly the reported length. *)
Theorem console_reports_confirmed lib params w fields w' :
  main local_ip getuser is_dir net wrap lib false params w = (Ret (ExitJson fields), w') ->
  exists facts, assoc_get fields ($"channel") = Some (dict (channel_facts facts)) /\
    validate_status facts = SESSION_VALID /\ resumed facts = true /\
    (q_capture params = RawFrame ->
       exists path frame, q_output_path params = Some path /\ assoc_get (k_files w') path = Some frame /\
         assoc_get fields ($"frame")
         = Some (dict [($"decoded", PBool false); ($"bytes_written", PInt (blen frame)); ($"output_path", PStr path)])).
Proof.
  intros H. apply library_exit, try_ikvm_exit in H as (r & w1 & H & [= -> ->]).
  assert ((run io_lift (match q_capture params with RawFrame => validate_output_path is_dir (q_output_path params) | _ => Ok tt end);
           run_capture local_ip getuser net wrap params) w = (Ret (ExitJson fields), w')) as H'.
  { destruct (q_capture params); [exact H|exact H|done]. }
  clear H. apply io_bind_inv in H' as ([] & w0 & Hv & H). apply io_bind_inv in H as ([[token sec] ip] & w2 & _ & H).
  apply io_bind_inv in H as (t & w3 & _ & H). apply io_bind_inv in H as ([] & w4 & _ & H).
  apply io_bind_inv in H as ([facts written] & w5 & Hc & [= <- <-]). unfold closing in Hc.
  destruct (session getuser params token ip w4) as [[r|e|] w6] eqn:Es; [|done..]. injection Hc as -> Hw5.
  apply io_bind_inv in Es as (user & w7 & _ & Es). apply io_bind_inv in Es as (f & w8 & Ho & Es).
  assert (validate_status f = SESSION_VALID /\ resumed f = true) as [Hvs Hre].
  { unfold on_kvm in Ho. destruct (k_kvm w7) as [s|]; [|done]. destruct (open_channel _ _ _ _ _ s) as [o s'] eqn:Eo.
    injection Ho as -> _. apply open_validated in Eo. naive_solver. }
  exists f. destruct (q_capture params) eqn:Ec.
  - injection Es as <- <- <-. by split_and!.
  - apply io_bind_inv in Es as (frame & w9 & _ & Es). apply io_bind_inv in Es as ([] & w10 & Hwf & [= <- <- <-]).
    split_and!; [done..|]. intros _. destruct (q_output_path params) as [path|] eqn:Ep; [|done]. exists path, frame.
    assert (assoc_get (k_files w10) path = Some frame) as Hf.
    { unfold write_frame in Hwf. cbn in Hwf. destruct (k_faults w9) as [|[m|] q]; try done; injection Hwf as <-; apply assoc_get_set_eq. }
    split_and!; [done| |done]. subst w5. by destruct (k_kvm w10).
  - injection Es as <- <- <-. by split_and!.
Qed.
End Properties.

(** With a pinned fingerprint the KVM channel verifies nothing: the context
    has verification off, and the fingerprint reaches no one who would
    compare it. *)
Theorem kvm_tls_ignores_fingerprint net wrap params c t policy w :
  c_tls_fingerprint (q_conn params) = Some (c :: t) ->
  TlsTrustPolicy_create (c_validate_certs (q_conn params)) (c_ca_path (q_conn params)) (Some (c :: t)) = Ok policy ->
  let '(r, raw) :=
    ivtp_connect net
      (Some (wrap {| ciphers := BMC_CIPHERS; check_hostname := false; verify_required := false; verify_locations := None |}))
      (c_host (q_conn params)) (q_kvm_port params) in
  build_kvm_transport net wrap params true w = io_lift r (mkWorld (k_asp w) (k_kvm w) raw (k_files w) (k_faults w)).
Proof.
  intros Hf Hp. unfold build_kvm_transport. rewrite Hf, Hp. unfold build_ssl_context.
  assert (pinned policy = true) as ->; [|by destruct (ivtp_connect _ _ _ _)]. unfold TlsTrustPolicy_create in Hp. destruct (_ && _); [done|].
  destruct (normalize_fingerprint (c :: t)); [|done]. by injection Hp as <-.
Qed.

(** A host that does not resolve, and a peer that hangs up during the
    handshake, end the module with a traceback instead of a failure result. *)
Theorem console_faults_escape getuser is_dir net wrap params w m :
  q_capture params = HandshakeOnly ->
  (main (fun _ => Err (OSError m)) getuser is_dir net wrap None false params w).1 = Raise (OSError m) /\
  forall token ip user s, q_token params = Some token -> q_kvm_secure params = Some false -> q_client_username params = Some user ->
    user <> [] -> net (c_host (q_conn params)) (q_kvm_port params) = Connected s -> rx s = [Eof] -> closed s = false ->
    exists e, (main (fun _ => Ok ip) getuser is_dir net wrap None false params w).1 = Raise (EOFError e).
Proof.
  intros Hc. split.
  - unfold main, with_library, try_ikvm. by rewrite Hc.
  - intros token ip user s Ht Hs Hu Hne Hn Hr Hcl. unfold main, with_library, try_ikvm. rewrite Hc. cbn [io_lift].
    unfold io_bind at 1, io_ret at 1. unfold run_capture, resolve_token_and_security, io_bind at 1 2. cbn [io_lift]. unfold io_ret at 1.
    rewrite Ht, Hs. unfold io_ret at 1, io_bind at 1, build_kvm_transport, ivtp_connect. rewrite Hn. cbn [io_lift io_ret].
    unfold io_bind at 1, io_modify, io_bind at 1, closing, session. rewrite Hu. destruct user as [|u user]; [done|].
    unfold io_bind at 1. cbn [io_lift]. unfold io_ret at 1, io_bind at 1, on_kvm. cbn [k_kvm set_kvm].
    assert (exists s', open_channel token ip (u :: user) (1000 * q_handshake_timeout params) (q_send_get_web_token params) s
                       = (Raise ivtp_on_eof, s')) as (s' & ->); [|by eexists].
    unfold open_channel, io_bind at 1, io_modify, io_bind at 1, read_packet, io_bind at 1, ivtp_recv_exact, recv_exact.
    destruct s as [r sd x pl cl]. cbn in Hr, Hcl. subst. cbn. by eexists.
Qed.

(** ** The properties at a concrete session *)

Definition demo_params : Params :=
  {| q_conn := demo_connection; q_kvm_port := 7578; q_kvm_secure := Some false; q_token := Some ($"tok"); q_client_username := Some ($"me");
     q_send_get_web_token := true; q_capture := HandshakeOnly; q_output_path := None; q_handshake_timeout := 15; q_frame_timeout := 20 |}.
Definition demo_kvm : sock := set_rx sample_kvm (rx sample_kvm ++ [Eof]).
Definition demo_world : world := mkWorld (demo_run (replicate 5 HReadTimeout)) None None [] [].
Definition demo_main : world -> outcome exn module_result * world :=
  main (fun _ => Ok ($"10.0.0.2")) (Ok ($"me")) (fun _ => true) (fun _ _ => Connected demo_kvm) (fun _ s => Wrapped s) None false demo_params.

Lemma console_always_closes_witness :
  exists s', k_kvm (demo_main demo_world).2 = Some s' /\ left_closed demo_kvm s' /\ last (tx s') = Some stop_packet.
Proof.
  pose proof (console_always_closes (fun _ => Ok ($"10.0.0.2")) (Ok ($"me")) (fun _ => true) (fun _ _ => Connected demo_kvm)
                (fun _ s => Wrapped s) None false demo_params demo_world eq_refl eq_refl) as H.
  assert (forall s, dialled_kvm (fun _ _ => Connected demo_kvm) (fun _ s => Wrapped s) demo_params s -> s = demo_kvm) as Hd.
  { intros s (raw & [= <-] & [->|[settings [= <-]]]); done. }
  destruct H as [Hn H]; [intros s Hs; by rewrite (Hd s Hs)|].
  fold (demo_main demo_world) in Hn, H.
  destruct (demo_main demo_world) as [[[fields|fields]|e|] w'] eqn:E;
    [|vm_compute in E; discriminate E|vm_compute in E; discriminate E|vm_compute in E; discriminate E].
  destruct H as (H1 & _ & H3 & _). specialize (H3 fields eq_refl eq_refl). cbn [snd].
  destruct (k_kvm w') as [s'|] eqn:Ek; [|done]. exists s'. split; [done|].
  destruct (H1 s' eq_refl) as (s0 & Hs0 & Hl). rewrite (Hd s0 Hs0) in Hl. split; [done|].
  destruct Hl as (_ & l & -> & _). change (send demo_kvm) with (@nil (option text)). change (tx demo_kvm) with (@nil bytes).
  clear. induction l as [|x l IH]; [done|]. cbn [app delivered] in *. by rewrite last_cons, IH.
Defined.

Lemma console_reports_confirmed_witness :
  exists fields w' facts, demo_main demo_world = (Ret (ExitJson fields), w') /\
    assoc_get fields ($"channel") = Some (dict (channel_facts facts)) /\ validate_status facts = SESSION_VALID.
Proof.
  destruct (demo_main demo_world) as [[[fields|f]|e|] w'] eqn:E; [|vm_compute in E; discriminate E..].
  unfold demo_main in E.
  destruct (console_reports_confirmed _ _ _ _ _ _ _ _ _ _ E) as (facts & H1 & H2 & _). by exists fields, w', facts.
Defined.
End Console.
