(* ===== verification/AsmbMedia.v ===== *)
(** * modules/asmb8_media.py: attaching and detaching an image

    The module's two operations over the runtime directory: [_attach] (live
    session, stale session, check mode, reclamation, spawning the daemon,
    waiting for its verdict) and [_detach], with [main]'s gate on the
    transport policy, and the parent's half of [media_session.spawn_session].
    [fork] is what forking the daemon does: the pid reported over the pipe, if
    any ([DaemonSpawn] has the processes that report it), and the world
    afterwards; [fresh_id] is the generated session id.  A call of
    [fail_json] ends the module, so it is a result. *)
From Stdlib Require Import ZArith Lia Ascii String.
From stdpp Require Import prelude.
From S2P Require Import Models PyValue Ansible.
From S2P Require Import Prelude PyBytes PyText Regex Errors Asp IusbFrame IusbCache IusbDevice Transport IusbSession DaemonRuntime MediaSession.

(** ** Parameters and results *)

(** The option table, [_argument_spec] *)
Module MediaSpec.
Definition DEFAULT_RUNTIME_DIR : text := $"~/.ansible/asmb8_ikvm/media-sessions".
Definition argument_spec : argspec :=
  [($"host", arg_req TStr);
   ($"port", arg_def TInt (PInt 443));
   ($"username", arg_def TStr (PStr ($"admin")));
   ($"password", arg_secret true);
   ($"use_tls", arg_def TBool (PBool true));
   ($"allow_insecure_transport", arg_def TBool (PBool false));
   ($"validate_certs", arg_def TBool (PBool true));
   ($"ca_path", arg_opt TPath);
   ($"tls_fingerprint", arg_opt TStr);
   ($"timeout", arg_def TInt (PInt 30));
   ($"connect_timeout", arg_def TInt (PInt 10));
   ($"state", arg_choice [$"attached"; $"detached"]); ($"image", arg_opt TPath); ($"session_id", arg_opt TStr);
      ($"runtime_dir", arg_def TPath (PStr DEFAULT_RUNTIME_DIR)); ($"cd_port", arg_def TInt (PInt 5120));
      ($"instance", arg_def TInt (PInt 0)); ($"attach_timeout", arg_def TInt (PInt 10)); ($"detach_timeout", arg_def TInt (PInt 15))].
End MediaSpec.

Inductive desired_state : Type := Attached | Detached.

Record Params : Type := {
  p_host : text;
  p_port : Z;
  p_username : text;
  p_password : text;
  p_use_tls : bool;
  p_allow_insecure_transport : bool;
  p_validate_certs : bool;
  p_ca_path : option text;
  p_tls_fingerprint : option text;
  p_timeout : Z;
  p_connect_timeout : Z;
  p_runtime_dir : text;
  p_cd_port : Z;
  p_instance : Z;
  p_state : desired_state;
  p_image : option text;
  p_session_id : option text;
  p_attach_timeout : Z;          (* seconds, like every time-out here *)
  p_detach_timeout : Z;
  p_check_mode : bool;
}.

(** [x or y] on an optional string. *)
Definition or_text (x y : option text) : option text :=
  match x with Some (c :: t) => Some (c :: t) | _ => y end.
Definition truthy (x : option text) : bool :=
  match x with Some (_ :: _) => true | _ => false end.

(** [build_session_config] *)
Definition build_session_config (params : Params) (image session_id : text) : SessionConfig :=
  {| cfg_session_id := session_id; cfg_host := p_host params; cfg_port := p_port params; cfg_use_tls := p_use_tls params;
     cfg_allow_insecure_transport := p_allow_insecure_transport params; cfg_validate_certs := p_validate_certs params;
     cfg_ca_path := p_ca_path params; cfg_tls_fingerprint := p_tls_fingerprint params; cfg_timeout := p_timeout params;
     cfg_connect_timeout := p_connect_timeout params; cfg_cd_port := p_cd_port params; cfg_instance := p_instance params;
     cfg_image := image; cfg_runtime_dir := p_runtime_dir params |}.

Definition EMPTY_READ_TRACE : TraceSummary :=
  {| read_trace_head := []; read_trace_tail := []; read_trace_dropped := 0 |}.

(** [_status_fields]; [sf_state] is [None] for "unknown". *)
Record StatusFields : Type := {
  sf_state : option SessionState;
  sf_pid : option Z;
  sf_bytes_read : Z;
  sf_sectors_served : Z;
  sf_last_request_at : option Z;
  sf_updated_at : option Z;
  sf_error : option text;
  sf_idle_polls : Z;
  sf_current_idle_streak : option IdleStreak;
  sf_last_idle_streak : option IdleStreak;
  sf_stop_reason : option text;
  sf_trace : TraceSummary;
}.

Definition status_fields (state : option MediaState) (trace : option TraceSummary) : StatusFields :=
  let trace := match trace with Some t => t | None => EMPTY_READ_TRACE end in
  match state with
  | None =>
      {| sf_state := None; sf_pid := None; sf_bytes_read := 0; sf_sectors_served := 0;
         sf_last_request_at := None; sf_updated_at := None; sf_error := None; sf_idle_polls := 0;
         sf_current_idle_streak := None; sf_last_idle_streak := None; sf_stop_reason := None; sf_trace := trace |}
  | Some s =>
      {| sf_state := Some (ms_state s); sf_pid := ms_pid s; sf_bytes_read := ms_bytes_read s;
         sf_sectors_served := ms_sectors_served s; sf_last_request_at := ms_last_request_at s;
         sf_updated_at := Some (ms_updated_at s); sf_error := ms_error s; sf_idle_polls := ms_idle_polls s;
         sf_current_idle_streak := ms_current_idle_streak s; sf_last_idle_streak := ms_last_idle_streak s;
         sf_stop_reason := ms_stop_reason s; sf_trace := trace |}
  end.

(** [_error_class_of] *)
Definition error_class_of (state : option MediaState) : text :=
  match or_text (match state with Some s => ms_error_class s | None => None end) None with
  | Some c => c
  | None => error_class_str PROTOCOL
  end.

(** [_with_trace]: the record together with the trace that is kept beside it. *)
Definition with_trace (state : option MediaState) (trace : TraceSummary) : option (MediaState * TraceSummary) :=
  match state with Some s => Some (s, trace) | None => None end.

(** The result of a module run that did not raise: the receipt, and what
    [_finalize] puts beside it.  A key that only some results have is an
    option. *)
Record MediaResult : Type := {
  r_action : text;
  r_endpoint : text;
  r_changed : bool;
  r_previous : option MediaState;
  r_desired : option text;
  r_observed : option (MediaState * TraceSummary);
  r_session_id : text;
  r_state : option SessionState;
  r_pid : option Z;
  r_bytes_read : Z;
  r_error : option text;
  r_recovered_stale : option bool;
  r_reclaimed : option (list (option text));
  r_exited_cleanly : option bool;
  r_warning : option text;
}.

(** A call of [fail_json]; [fl_error] is the exception of the result, when
    there is one, whose keys come first. *)
Record Failure : Type := {
  fl_error : option IkvmError;
  fl_msg : text;
  fl_error_class : text;
  fl_session_id : text;
  fl_reclaimed : list text;
  fl_fields : StatusFields;
}.

Inductive module_exit : Type :=
  | ExitJson (r : MediaResult)
  | FailJson (f : Failure).

(** [_finalize] with the receipt it is given *)
Definition finalize (action endpoint : text) (changed : bool) (previous : option MediaState) (desired : option text)
    (observed : option (MediaState * TraceSummary)) (sid : text) (fields : StatusFields) (recovered : option bool)
    (reclaimed : option (list (option text))) (exited : option bool) (warning : option text) : module_exit :=
  ExitJson {| r_action := action; r_endpoint := endpoint; r_changed := changed; r_previous := previous; r_desired := desired;
              r_observed := observed; r_session_id := sid; r_state := sf_state fields; r_pid := sf_pid fields;
              r_bytes_read := sf_bytes_read fields; r_error := sf_error fields; r_recovered_stale := recovered;
              r_reclaimed := reclaimed; r_exited_cleanly := exited; r_warning := warning |}.

Definition opt_dec (o : option Z) : text := match o with Some z => dec z | None => $"None" end.
Definition fail_with_fields (msg cls sid : text) (reclaimed : list text) (fields : StatusFields) : module_exit :=
  FailJson {| fl_error := None; fl_msg := msg; fl_error_class := cls; fl_session_id := sid; fl_reclaimed := reclaimed;
              fl_fields := fields |}.

Definition state_name (s : option SessionState) : text :=
  match s with
  | None => $"unknown"
  | Some STATE_STARTING => $"starting"
  | Some STATE_CONNECTING => $"connecting"
  | Some STATE_ATTACHED => $"attached"
  | Some STATE_DETACHED => $"detached"
  | Some STATE_ERROR => $"error"
  end.

(** ** The parent's half of [spawn_session] *)
Section Spawn.
Variable has_fork : bool.
Variable fork : SessionConfig -> MWorld -> option Z * MWorld.
Variable now : Z.

Definition spawn_session (cfg : SessionConfig) : io MWorld exn Z :=
  if negb has_fork then
    io_raise (Ikvm (UnsupportedCapabilityError
      ($"asmb8_media's background-session mechanism requires a POSIX controller with os.fork() (Linux/macOS). It is not available when the Ansible controller itself runs on Windows.")
      None ($"asmb8_media.spawn_session")))
  else
    do reported <- (fun w => let '(p, w) := fork cfg w in (Ret p, w));
    match reported with
    | None =>
        io_raise (Ikvm (ProtocolError
          ($"asmb8_media background daemon did not report a pid; it likely failed during os.setsid()/fork() before it could start the iUSB session -- check the session log")
          None ($"asmb8_media.spawn_session")))
    | Some pid =>
        run write_state_if_absent (cfg_session_id cfg)
              (initial_state (cfg_session_id cfg) (host_port (cfg_host cfg) (cfg_cd_port cfg)) pid (cfg_image cfg) now);
        io_ret pid
    end.
End Spawn.

(** ** [_attach] *)
Section Module.
Variable env : MWorld -> MWorld.
Variable fs : text -> fs_node.
Variable has_fork : bool.
Variable fork : SessionConfig -> MWorld -> option Z * MWorld.
Variable now : Z.
Variable fresh_id : text.

Definition trace_of (sid : text) : io MWorld exn TraceSummary :=
  read_trace_summary sid READ_TRACE_HEAD_LIMIT READ_TRACE_TAIL_LIMIT.

(** The guard of the idempotent branch. *)
Definition is_live (existing : MediaState) (w : MWorld) : bool :=
  is_pid_alive (ms_pid existing) w && negb (is_terminal (ms_state existing)).

(** The fields a check-mode attach reports. *)
Definition check_mode_fields : StatusFields :=
  {| sf_state := Some STATE_STARTING; sf_pid := None; sf_bytes_read := 0; sf_sectors_served := 0;
     sf_last_request_at := None; sf_updated_at := None; sf_error := None; sf_idle_polls := 0;
     sf_current_idle_streak := None; sf_last_idle_streak := None; sf_stop_reason := None;
     sf_trace := EMPTY_READ_TRACE |}.

(** The states that end the wait of an attach. *)
Definition settled (s : MediaState) : bool :=
  match ms_state s with STATE_ATTACHED | STATE_ERROR | STATE_DETACHED => true | _ => false end.

(** From the spawned daemon's verdict to the module's result. *)
Definition attach_verdict (params : Params) (endpoint sid : text) (existing : option MediaState) (reclaimed : list text)
    (observed : option MediaState) : io MWorld exn module_exit :=
  do trace <- trace_of sid;
  let fields := status_fields observed (Some trace) in
  let failed := $"asmb8_media attach failed: " in
  if bool_decide (sf_state fields = Some STATE_ERROR) then
    io_ret (fail_with_fields (failed ++ default ($"None") (sf_error fields)) (error_class_of observed) sid reclaimed fields)
  else if negb (bool_decide (sf_state fields = Some STATE_ATTACHED)) then
    do w <- io_get;
    if negb (is_pid_alive (match observed with Some s => ms_pid s | None => None end) w) then
      do final <- read_state sid;
      let final := match final with Some s => Some s | None => observed end in
      do final_trace <- trace_of sid;
      let final_fields := status_fields final (Some final_trace) in
      let msg := match or_text (sf_error final_fields) (or_text (sf_error fields) None) with
                 | Some reported => failed ++ reported
                 | None =>
                     failed ++ $"the session process exited without reporting 'attached' (last observed state "
                     ++ repr (state_name (sf_state final_fields))
                     ++ $"). Check the BMC credentials and that the iUSB port is reachable."
                 end in
      io_ret (fail_with_fields msg (error_class_of final) sid reclaimed final_fields)
    else if match sf_state fields with Some s => is_terminal s | None => false end then
      io_ret (fail_with_fields
                (failed ++ $"the session reached terminal state " ++ repr (state_name (sf_state fields))
                 ++ $" without ever reporting 'attached'"
                 ++ match or_text (sf_error fields) None with Some reported => $": " ++ reported | None => [] end)
                (error_class_of observed) sid reclaimed fields)
    else
      let err := IkvmError_init TIMEOUT
        ($"asmb8_media attach did not confirm within attach_timeout=" ++ dec (p_attach_timeout params)
         ++ $"s: the session process (pid " ++ opt_dec (sf_pid fields)
         ++ $") is still running but its last reported state is " ++ repr (state_name (sf_state fields))
         ++ $", not 'attached', so it is not established that the ISO is being served. The session was not detached and is still running as session_id "
         ++ repr sid
         ++ $". Re-probe it with another state=attached call for that same session_id rather than retrying the attach -- this BMC's media slot is single-occupancy, so a second attach would collide with this one. Detach that session_id if you do not intend to wait, and raise attach_timeout if slow attaches are normal for this endpoint.")
        (Some endpoint) None None [] true None in
      io_ret (FailJson {| fl_error := Some err; fl_msg := message err; fl_error_class := error_class_str (error_class err);
                          fl_session_id := sid; fl_reclaimed := reclaimed; fl_fields := fields |})
  else
    io_ret (finalize ($"asmb8_media.attach") endpoint true existing (Some ($"attached")) (with_trace observed trace) sid fields
              (Some (bool_decide (is_Some existing))) (Some (map Some reclaimed)) None None).

Definition attach (params : Params) (endpoint : text) : io MWorld exn module_exit :=
  let sid := match p_session_id params with Some (c :: t) => c :: t | _ => fresh_id end in
  do existing <- read_state sid;
  do w <- io_get;
  if match existing with Some s => is_live s w | None => false end then
    do trace <- trace_of sid;
    io_ret (finalize ($"asmb8_media.attach") endpoint false existing None (with_trace existing trace) sid
              (status_fields existing (Some trace)) None (Some []) None None)
  else
    let recovered_stale := match existing with Some _ => true | None => false end in
    run (if recovered_stale then io_modify (remove_state sid) else io_ret tt);
    match or_text (p_image params) None with
    | None =>
        io_raise (Ikvm (ProtocolError ($"asmb8_media state=attached requires image to be set")
                          None ($"asmb8_media.attach")))
    | Some image =>
        run io_lift (validate_image fs image);
        if p_check_mode params then
          do conflicts <- find_conflicting_sessions endpoint (Some sid);
          io_ret (finalize ($"asmb8_media.attach") endpoint true existing (Some ($"attached")) None sid check_mode_fields
                    (Some recovered_stale) (Some (map ms_session_id conflicts)) None None)
        else
          do reclaimed <- reclaim_conflicting_sessions env endpoint (Some sid);
          run spawn_session has_fork fork now (build_session_config params image sid);
          do observed <- wait_for_state env sid settled (1000 * p_attach_timeout params);
          attach_verdict params endpoint sid existing reclaimed observed
    end.

(** ** [_detach] *)
Definition detach_result (endpoint sid : text) (changed : bool) (previous : option MediaState)
    (observed : option (MediaState * TraceSummary)) (fields : StatusFields) (stale exited : option bool)
    (warning : option text) : module_exit :=
  finalize ($"asmb8_media.detach") endpoint changed previous (Some ($"detached")) observed sid fields stale None exited warning.

Definition detach (params : Params) (endpoint sid : text) : io MWorld exn module_exit :=
  do existing <- read_state sid;
  match existing with
  | None => io_ret (detach_result endpoint sid false None None (status_fields None None) None None None)
  | Some s =>
      do w <- io_get;
      let live := is_pid_alive (ms_pid s) w in
      if p_check_mode params then
        do trace <- trace_of sid;
        io_ret (detach_result endpoint sid live existing (with_trace existing trace) (status_fields existing (Some trace)) None None None)
      else if negb live then
        do trace <- trace_of sid;
        run io_modify (remove_state sid);
        io_ret (detach_result endpoint sid false existing (with_trace existing trace) (status_fields existing (Some trace))
                  (Some true) None None)
      else
        run request_stop (ms_pid s);
        do exited <- wait_for_exit env (ms_pid s) (1000 * p_detach_timeout params);
        do final <- read_state sid;
        let final_state := match final with Some f => Some f | None => existing end in
        do trace <- trace_of sid;
        run io_modify (remove_state sid);
        let warning :=
          $"asmb8_media session " ++ sid ++ $" (pid " ++ opt_dec (ms_pid s) ++ $") did not exit within detach_timeout="
          ++ dec (p_detach_timeout params) ++ $"s after being signalled; it may still be shutting down." in
        io_ret (detach_result endpoint sid true existing (with_trace final_state trace) (status_fields final_state (Some trace))
                  None (Some exited) (if exited : bool then None else Some warning))
  end.

(** [main] after parameter validation: without the HTTP library the module
    fails, classified errors become [fail_json], anything else leaves it. *)
Definition main (lib : library) (params : Params) : io MWorld exn (module_exit + module_result) :=
  match lib with
  | Some (msg, import_error) => io_ret (inr (Ansible.FailJson [($"msg", PStr msg); ($"exception", PStr import_error)]))
  | None =>
      let endpoint := host_port (p_host params) (p_cd_port params) in
      io_try
        (do r <- match p_state params with
                 | Attached =>
                     run io_lift (enforce_transport_policy (p_use_tls params) (p_allow_insecure_transport params));
                     attach params endpoint
                 | Detached => detach params endpoint (match p_session_id params with Some sid => sid | None => [] end)
                 end;
         io_ret (inl r))
        (fun e => match e with
                  | Ikvm err => io_ret (inr (fail_ikvm err))
                  | e => io_raise e
                  end)
  end.
End Module.

(** ** Lemmas *)

Ltac bind_inv H :=
  let a := fresh "a" in let w := fresh "w" in let E := fresh "E" in
  apply io_bind_inv in H as (a & w & E & H).

Lemma read_state_pure sid (w : MWorld) : (read_state sid w).2 = w.
Proof. unfold read_state. by destruct (assoc_get _ _) as [[]|]. Qed.

Lemma read_state_some_fst sid (w : MWorld) s :
  (read_state sid w).1 = Ret (Some s) -> file_at w (state_file_path sid) = Some (Doc s).
Proof.
  unfold read_state, file_at.
  destruct (assoc_get (w_files w) (state_file_path sid)) as [[]|]; cbn; try done. by intros [= ->].
Qed.
Lemma read_state_some sid (w w' : MWorld) s :
  read_state sid w = (Ret (Some s), w') -> file_at w (state_file_path sid) = Some (Doc s).
Proof. intros H. apply read_state_some_fst. by rewrite H. Qed.

Lemma trace_of_pure sid w : (trace_of sid w).2 = w.
Proof. unfold trace_of, read_trace_summary. by destruct (assoc_get _ _) as [[]|]. Qed.

Lemma find_conflicts_pure ids ep ex w : (find_conflicts ids ep ex w).2 = w.
Proof.
  induction ids as [|sid ids IH]; [done|]. cbn [find_conflicts]. case_bool_decide; [done|].
  unfold io_bind. pose proof (read_state_pure sid w) as Hr.
  destruct (read_state sid w) as [[o|e|] w1]; cbn [snd] in Hr; subst w1; [|done|done].
  destruct (find_conflicts ids ep ex w) as [[r|e|] w2]; cbn [snd] in IH; subst w2; [|done|done].
  destruct o as [s|]; [|done]. by case_bool_decide.
Qed.

(** Reads leave the world alone. *)
Lemma pure_step {A} (f : io MWorld exn A) w a w1 : (f w).2 = w -> f w = (Ret a, w1) -> w1 = w.
Proof. intros Hp Hf. rewrite Hf in Hp. by subst. Qed.

(** The trace log can be read. *)
Definition readable_trace (sid : text) (w : MWorld) : Prop :=
  match file_at w (read_trace_log_path sid) with
  | Some (Denied _) | Some NotUtf8 => False
  | _ => True
  end.

Lemma trace_of_readable sid w : readable_trace sid w -> exists t, trace_of sid w = (Ret t, w).
Proof.
  unfold readable_trace, trace_of, read_trace_summary, file_at.
  destruct (assoc_get _ _) as [[]|]; intros H; try done; by eexists.
Qed.

(** Files that can be read stay so, whatever else happens to them. *)
Definition can_read (c : option (content MediaState TraceLine)) : Prop :=
  match c with
  | Some (Denied _) | Some NotUtf8 => False
  | _ => True
  end.

Lemma read_state_can_read sid w : can_read (file_at w (state_file_path sid)) -> exists o, read_state sid w = (Ret o, w).
Proof. unfold read_state, file_at. destruct (assoc_get _ _) as [[]|]; intros H; try done; by eexists. Qed.

Lemma remove_state_gone sid w name : name ∈ session_files sid -> file_at (remove_state sid w) name = None.
Proof. intros H. unfold file_at, remove_state. rewrite remove_paths_get. by rewrite decide_True. Qed.

Lemma remove_state_other sid k w :
  k <> sid -> file_at (remove_state sid w) (state_file_path k) = file_at w (state_file_path k).
Proof.
  intros H. unfold file_at, remove_state. rewrite remove_paths_get. rewrite decide_False; [done|].
  fold (session_files sid). by rewrite state_path_in_session.
Qed.

(** The wait for a process says whether it is gone. *)
Lemma wait_for_exit_result env pid timeout (w : MWorld) :
  (forall w, w_clock w <= w_clock (env w)) ->
  match wait_for_exit env pid timeout w with
  | (Ret b, w') => is_pid_alive pid w' = negb b
  | _ => False
  end.
Proof.
  intros He. unfold wait_for_exit, io_bind, io_get.
  pose proof (wait_fuel_steps timeout STATE_POLL_INTERVAL _ ltac:(unfold STATE_POLL_INTERVAL; lia)
                (le_n (wait_fuel timeout STATE_POLL_INTERVAL))) as Hf.
  destruct (wait_for_exit_loop_ok env He (wait_fuel timeout STATE_POLL_INTERVAL) pid
              (w_clock w + timeout) STATE_POLL_INTERVAL w) as (b & w' & -> & Hb & _);
    [unfold STATE_POLL_INTERVAL; lia|lia|unfold wait_fuel; lia|done].
Qed.

(** What a world keeps in check mode: processes, clock, disk and every file
    but those of the session. *)
Definition only_forgets (sid : text) (w w' : MWorld) : Prop :=
  w_procs w' = w_procs w /\ w_clock w' = w_clock w /\ w_disk w' = w_disk w /\
  forall name, file_at w' name = file_at w name \/ (name ∈ session_files sid /\ file_at w' name = None).

Lemma only_forgets_refl sid w : only_forgets sid w w.
Proof. split_and!; [done..|]. by left. Qed.

Lemma only_forgets_remove sid w : only_forgets sid w (remove_state sid w).
Proof.
  split_and!; [done..|]. intros name. unfold file_at, remove_state. rewrite remove_paths_get.
  case_decide; [by right|by left].
Qed.

(** The session an attach is about. *)
Definition attach_sid (fresh_id : text) (params : Params) : text :=
  match p_session_id params with Some (c :: t) => c :: t | _ => fresh_id end.

Section AttachLemmas.
Variable env : MWorld -> MWorld.
Variable fs : text -> fs_node.
Variable has_fork : bool.
Variable fork : SessionConfig -> MWorld -> option Z * MWorld.
Variable now : Z.
Variable fresh_id : text.
Local Abbreviation do_attach := (attach env fs has_fork fork now fresh_id).

(** The verdict of an attach succeeds only on an attached record. *)
Lemma attach_verdict_exit params ep sid existing reclaimed observed w r w' :
  attach_verdict params ep sid existing reclaimed observed w = (Ret (ExitJson r), w') ->
  w' = w /\ r_changed r = true /\ r_state r = Some STATE_ATTACHED /\
  exists s, observed = Some s /\ fst <$> r_observed r = Some s /\ ms_state s = STATE_ATTACHED.
Proof.
  unfold attach_verdict. intros H. bind_inv H. apply (pure_step _ _ _ _ (trace_of_pure sid w)) in E as ->.
  case_bool_decide as H1; [done|]. case_bool_decide as H2; cbn [negb] in H.
  - injection H as <- <-. split_and!; [done..|].
    destruct observed as [s|]; [|done]. exists s. split_and!; [done..|]. by injection H2.
  - exfalso. bind_inv H. injection E as <- <-. destruct (negb (is_pid_alive _ _)).
    + bind_inv H. bind_inv H. done.
    + destruct (match sf_state _ with Some _ => _ | None => _ end); done.
Qed.
End AttachLemmas.

(** ** Properties *)

Section MediaProperties.
Variable env : MWorld -> MWorld.
Variable fs : text -> fs_node.
Variable has_fork : bool.
Variable fork : SessionConfig -> MWorld -> option Z * MWorld.
Variable now : Z.
Variable fresh_id : text.

(** C17: a reported attach is an attached session.  Outside check mode, when
    attaching exits successfully, either the session was live before (and
    nothing was changed: same world, [changed] false), or the state file of
    the session holds, at that moment, exactly the record that is reported,
    in the state "attached"; every other verdict of the daemon is a failure.
    Of the other processes only that the clock does not go back is assumed. *)
Theorem attach_success_sound (params : Params) (ep : text) (w w' : MWorld) (r : MediaResult) :
  (forall w, w_clock w <= w_clock (env w)) -> p_check_mode params = false ->
  attach env fs has_fork fork now fresh_id params ep w = (Ret (ExitJson r), w') ->
  (r_changed r = false /\ w' = w /\
     exists s, file_at w (state_file_path (attach_sid fresh_id params)) = Some (Doc s) /\ is_live s w = true) \/
  (r_changed r = true /\ r_state r = Some STATE_ATTACHED /\
     exists s, fst <$> r_observed r = Some s /\ ms_state s = STATE_ATTACHED /\
       file_at w' (state_file_path (attach_sid fresh_id params)) = Some (Doc s)).
Proof.
  intros He Hcm H. unfold attach in H. fold (attach_sid fresh_id params) in H.
  set (sid := attach_sid fresh_id params) in *.
  bind_inv H. pose proof (pure_step _ _ _ _ (read_state_pure sid w) E) as ->.
  bind_inv H. injection E0 as <- <-.
  destruct (match a with Some s => is_live s w | None => false end) eqn:Hlive.
  - bind_inv H. apply (pure_step _ _ _ _ (trace_of_pure sid w)) in E0 as ->. injection H as <- <-.
    left. split; [done|]. split; [done|]. destruct a as [s|]; [|done]. exists s. split; [|done].
    apply read_state_some in E. exact E.
  - bind_inv H. destruct (or_text (p_image params) None) as [image|]; [|done].
    bind_inv H. rewrite Hcm in H. bind_inv H. bind_inv H. bind_inv H. right.
    destruct (wait_for_state_loop_ok env He (wait_fuel (1000 * p_attach_timeout params) STATE_POLL_INTERVAL) sid settled
                (w_clock w3 + 1000 * p_attach_timeout params) STATE_POLL_INTERVAL w3) as (w5 & [Hw1 Hw2] & _).
    { unfold STATE_POLL_INTERVAL. lia. }
    { pose proof (wait_fuel_steps (1000 * p_attach_timeout params) STATE_POLL_INTERVAL _ ltac:(unfold STATE_POLL_INTERVAL; lia)
                    (le_n (wait_fuel (1000 * p_attach_timeout params) STATE_POLL_INTERVAL))). lia. }
    { unfold wait_fuel. lia. }
    unfold wait_for_state, io_bind, io_get in E4. rewrite E4 in Hw1, Hw2. cbn [fst snd] in Hw1, Hw2. subst w5.
    apply attach_verdict_exit in H as (-> & Hch & Hs & s & -> & Ho & Hst).
    split; [done|]. split; [done|]. exists s. split_and!; [done..|].
    by apply (read_state_some_fst sid).
Qed.

(** Check mode touches no process.  A check-mode attach, however it ends,
    signals nobody, starts nothing, writes nothing and waits for nothing: it
    can at most delete files of its own session; a check-mode detach leaves
    the world exactly as it was. *)
Theorem check_mode_signals_nobody (params : Params) (ep sid : text) (w : MWorld) :
  p_check_mode params = true ->
  only_forgets (attach_sid fresh_id params) w (attach env fs has_fork fork now fresh_id params ep w).2 /\
  (detach env params ep sid w).2 = w.
Proof.
  intros Hcm. split.
  - unfold attach. fold (attach_sid fresh_id params). set (k := attach_sid fresh_id params).
    unfold io_bind at 1. pose proof (read_state_pure k w) as Hr.
    destruct (read_state k w) as [[a|e|] w1]; cbn [snd] in Hr; subst w1; [|apply only_forgets_refl..].
    unfold io_bind at 1, io_get. cbn [fst snd].
    destruct (match a with Some s => is_live s w | None => false end).
    + unfold io_bind. pose proof (trace_of_pure k w) as Ht.
      destruct (trace_of k w) as [[t|e|] w1]; cbn [snd] in Ht; subst w1; apply only_forgets_refl.
    + unfold io_bind at 1. set (w1 := match a with Some _ => remove_state k w | None => w end).
      assert (only_forgets k w w1) as H1.
      { unfold w1. destruct a; [apply only_forgets_remove|apply only_forgets_refl]. }
      assert ((if match a with Some _ => true | None => false end then io_modify (remove_state k) else io_ret tt) w
              = (@Ret exn unit tt, w1)) as -> by (unfold w1; by destruct a).
      destruct (or_text (p_image params) None) as [image|]; [|exact H1].
      unfold io_bind at 1. destruct (validate_image fs image) as [[]|e]; [|exact H1]. cbn [io_lift]. unfold io_ret at 1.
      rewrite Hcm. unfold io_bind, find_conflicting_sessions, io_bind, io_get.
      pose proof (find_conflicts_pure (list_session_ids w1) ep (Some k) w1) as Hf.
      destruct (find_conflicts _ ep (Some k) w1) as [[l|e|] w2]; cbn [snd] in Hf; subst w2; exact H1.
  - unfold detach, io_bind. pose proof (read_state_pure sid w) as Hr.
    destruct (read_state sid w) as [[[s|]|e|] w1]; cbn [snd] in Hr; subst w1; [|done..].
    unfold io_get. cbn [fst snd]. rewrite Hcm. pose proof (trace_of_pure sid w) as Ht.
    destruct (trace_of sid w) as [[t|e|] w1]; cbn [snd] in Ht; by subst w1.
Qed.

(** C39: detaching always ends and forgets the session.  Outside check mode,
    for a session that has a record and a trace log that can be read, with
    processes this user may signal, and other processes that keep readable
    files readable and do not turn back the clock, a detach returns;
    afterwards the session has no files left; of every other session's record
    it keeps whatever the other processes keep (any preorder [rel] they
    respect: equality, when they leave the files alone); [changed] says
    whether its process was alive, and when it was, the exit is reported clean
    exactly when the process is gone at the end, and otherwise the operator is
    warned. *)
Theorem detach_forgets_session (rel : file_relation) (params : Params) (ep sid : text) (w : MWorld) (s : MediaState) :
  PreOrder rel -> (forall a b, rel a b -> can_read a -> can_read b) ->
  fair_env rel env -> all_mine w -> p_check_mode params = false ->
  readable_trace sid w ->
  file_at w (state_file_path sid) = Some (Doc s) ->
  exists r w', detach env params ep sid w = (Ret (ExitJson r), w') /\
    (forall name, name ∈ session_files sid -> file_at w' name = None) /\
    (forall k, k <> sid -> rel (file_at w (state_file_path k)) (file_at w' (state_file_path k))) /\
    r_changed r = is_pid_alive (ms_pid s) w /\
    (is_pid_alive (ms_pid s) w = true ->
       r_exited_cleanly r = Some (negb (is_pid_alive (ms_pid s) w')) /\
       (is_Some (r_warning r) <-> is_pid_alive (ms_pid s) w' = true)).
Proof.
  intros Hpre Hread He Hm Hcm Ht Hs. unfold detach, io_bind.
  assert (read_state sid w = (Ret (Some s), w)) as Hr by (unfold read_state; unfold file_at in Hs; by rewrite Hs).
  rewrite Hr. unfold io_get. cbn [fst snd]. rewrite Hcm.
  destruct (is_pid_alive (ms_pid s) w) eqn:Ha; cbn [negb].
  - destruct (request_stop_mine (ms_pid s) w Hm) as (w1 & R1 & R2 & R3). rewrite R1.
    destruct (wait_for_exit_evolves rel env (ms_pid s) (1000 * p_detach_timeout params) w1 He R2) as (b & w2 & E1 & E2 & E3).
    pose proof (wait_for_exit_result env (ms_pid s) (1000 * p_detach_timeout params) w1 (fe_clock rel env He)) as Hb.
    rewrite E1 in Hb |- *. cbn [fst snd] in Hb.
    assert (forall name, rel (file_at w name) (file_at w2 name)) as Hrel
      by (intros name; specialize (E3 name); unfold file_at in *; by rewrite R3 in E3).
    destruct (read_state_can_read sid w2) as [o ->].
    { eapply Hread; [apply Hrel|]. by rewrite Hs. }
    destruct (trace_of_readable sid w2 (Hread _ _ (Hrel _) Ht)) as [t ->]. unfold io_modify, io_ret, detach_result, finalize.
    eexists _, (remove_state sid w2). split; [done|]. split_and!.
    + apply remove_state_gone.
    + intros k Hk. rewrite remove_state_other by done. apply Hrel.
    + done.
    + intros _. change (is_pid_alive (ms_pid s) (remove_state sid w2)) with (is_pid_alive (ms_pid s) w2).
      cbn [r_exited_cleanly r_warning finalize]. rewrite Hb, negb_involutive. split; [done|].
      by destruct b.
  - destruct (trace_of_readable sid w Ht) as [t ->]. unfold io_modify, io_ret, detach_result, finalize.
    eexists _, (remove_state sid w). split; [done|]. split_and!; [apply remove_state_gone| |done|done].
    intros k Hk. rewrite remove_state_other by done. reflexivity.
Qed.
End MediaProperties.

(** Check mode deletes a stale record.  A check-mode attach for a session
    whose process is gone removes the session's state file, although check
    mode is meant to change nothing. *)
Theorem check_mode_deletes_stale_record :
  exists (params : Params) (w : MWorld) (s : MediaState),
    p_check_mode params = true /\
    file_at w (state_file_path ($"s1")) = Some (Doc s) /\
    (exists r, (attach (fun w => w) sample_fs true (fun _ w => (None, w)) 0 ($"f") params ($"bmc:5120") w).1 = Ret (ExitJson r)) /\
    file_at (attach (fun w => w) sample_fs true (fun _ w => (None, w)) 0 ($"f") params ($"bmc:5120") w).2
      (state_file_path ($"s1")) = None.
Proof.
  exists {| p_host := $"bmc"; p_port := 443; p_username := $"admin"; p_password := $"pw"; p_use_tls := true;
  p_allow_insecure_transport := false; p_validate_certs := true; p_ca_path := None; p_tls_fingerprint := None; p_timeout := 30;
  p_connect_timeout := 10; p_runtime_dir := $"/run"; p_cd_port := 5120; p_instance := 0;
            p_state := Attached; p_image := Some ($"a.iso"); p_session_id := Some ($"s1"); p_attach_timeout := 10;
            p_detach_timeout := 15; p_check_mode := true |},
    (mkWorld [(state_file_path ($"s1"), Doc sample_record)] [] 0 []), sample_record.
  split; [reflexivity|]. split; [reflexivity|]. split; [eexists; reflexivity|reflexivity].
Qed.

(** *** Witnesses *)

Definition sample_params (check : bool) : Params :=
  {| p_host := $"bmc"; p_port := 443; p_username := $"admin"; p_password := $"pw"; p_use_tls := true;
  p_allow_insecure_transport := false; p_validate_certs := true; p_ca_path := None; p_tls_fingerprint := None; p_timeout := 30;
  p_connect_timeout := 10; p_runtime_dir := $"/run"; p_cd_port := 5120; p_instance := 0;
     p_state := Attached; p_image := Some ($"a.iso"); p_session_id := Some ($"s3"); p_attach_timeout := 10;
     p_detach_timeout := 15; p_check_mode := check |}.
(** A fork whose daemon has already reported "attached". *)
Definition sample_fork (cfg : SessionConfig) (w : MWorld) : option Z * MWorld :=
  (Some 50, mkWorld (assoc_set (w_files w) (state_file_path (cfg_session_id cfg))
      (Doc (set_state STATE_ATTACHED (initial_state (cfg_session_id cfg) ($"bmc:5120") 50 (cfg_image cfg) 0))))
    (assoc_set (w_procs w) 50 {| p_mine := true; p_sigterm := 0 |}) (w_clock w) (w_disk w)).

Lemma attach_success_sound_witness :
  exists r w' s, attach (fun w => w) sample_fs true sample_fork 0 [] (sample_params false) sample_endpoint sample_dir
      = (Ret (ExitJson r), w') /\
    r_changed r = true /\ fst <$> r_observed r = Some s /\ ms_state s = STATE_ATTACHED.
Proof.
  destruct (attach (fun w => w) sample_fs true sample_fork 0 [] (sample_params false) sample_endpoint sample_dir)
    as [o w'] eqn:E.
  assert (exists r, o = Ret (ExitJson r) /\ r_changed r = true) as (r & -> & Hch).
  { vm_compute in E. injection E as <- <-. eexists. split; reflexivity. }
  destruct (attach_success_sound (fun w => w) sample_fs true sample_fork 0 [] (sample_params false) sample_endpoint
              sample_dir w' r (fun w => Z.le_refl _) eq_refl E) as [(H & _)|(_ & _ & s & H1 & H2 & _)]; [congruence|].
  exists r, w', s. split; [reflexivity|]. split; [exact Hch|]. split; [exact H1|exact H2].
Defined.

Lemma check_mode_signals_nobody_witness :
  only_forgets ($"s3") sample_dir
    (attach (fun w => w) sample_fs true sample_fork 0 [] (sample_params true) sample_endpoint sample_dir).2.
Proof. apply (check_mode_signals_nobody (fun w => w) sample_fs true sample_fork 0 [] (sample_params true) sample_endpoint []). reflexivity. Defined.

Lemma detach_forgets_session_witness :
  exists r w', detach (fun w => w) (sample_params false) sample_endpoint sample_sid sample_dir = (Ret (ExitJson r), w') /\
    r_changed r = true.
Proof.
  destruct (detach_forgets_session (fun w => w) eq (sample_params false) sample_endpoint sample_sid sample_dir sample_record
              _ ltac:(by intros a b ->) (sample_env_fair eq) sample_dir_mine eq_refl I eq_refl) as (r & w' & H1 & _ & _ & H2 & _).
  exists r, w'. split; [exact H1|]. rewrite H2. reflexivity.
Defined.
