(* ===== verification/MediaAttach.v ===== *)
(** * state=attached, the module and its daemon together

    [AsmbMedia] is the module, [MediaStart] is the daemon it forks; each is
    verified there against the other's visible behaviour.  Here the two are
    put together.  They share the runtime directory: what the module sees of
    the daemon is the state file, which it polls.  [sees_attached] says that
    the first settled record the module finds there is the one the daemon
    publishes when it reaches its serve loop. *)
From Stdlib Require Import ZArith Lia Ascii String.
From stdpp Require Import prelude.
From S2P Require Import Prelude PyBytes PyText Regex Errors PyValue Models Asp Ansible.
From S2P Require Import IusbFrame IusbCache IusbDevice Transport IusbSession DaemonRuntime MediaSession MediaStart AsmbMedia.

Section Attach.
Variable env : MWorld -> MWorld.
Variable fs : text -> fs_node.
Variable fork : SessionConfig -> MWorld -> option Z * MWorld.
Variable now : Z.
Variable fresh_id : text.
Variable params : Params.
Hypothesis env_clock : forall w, w_clock w <= w_clock (env w).

Local Abbreviation sid := (attach_sid fresh_id params).
Local Abbreviation ep := (host_port (p_host params) (p_cd_port params)).

(** The configuration the module hands to the daemon. *)
Definition attach_config (image : text) : SessionConfig := build_session_config params image sid.

(** The directory after [spawn_session], given what the fork left. *)
Definition after_spawn (image : text) (pid : Z) (w : MWorld) : MWorld :=
  (write_state_if_absent sid (initial_state sid ep pid image now) w).2.

Lemma spawn_reports image pid w w' :
  fork (attach_config image) w = (Some pid, w') -> w_disk w' = [] ->
  spawn_session true fork now (attach_config image) w = (Ret pid, after_spawn image pid w').
Proof.
  intros Hf Hd. unfold spawn_session. cbn [negb]. unfold io_bind at 1. rewrite Hf. unfold after_spawn, attach_config, io_bind.
  cbn [build_session_config cfg_session_id cfg_host cfg_cd_port cfg_image]. unfold write_state_if_absent.
  destruct (assoc_get _ _); [done|]. unfold io_bind, disk_step. by rewrite Hd.
Qed.

(** The directory after a stale record was dropped. *)
Definition without_stale (existing : option MediaState) (w : MWorld) : MWorld :=
  match existing with Some _ => remove_state sid w | None => w end.

(** What the rest of the system does for an attach to get as far as its
    verdict: no live session answers to the id, other sessions of the
    endpoint are reclaimed, the image can be read, the daemon is forked and
    reports its pid, and [observed] is the first settled record the module
    finds in time. *)
Record gets_verdict (existing : option MediaState) (image : text) (m : bytes) (pid : Z) (ids : list text) (k : nat)
    (observed : MediaState) (w w1 w2 : MWorld) : Prop := {
  gv_existing : read_state sid w = (Ret existing, w);
  gv_not_live : match existing with Some s => is_live s w | None => false end = false;
  gv_mode : p_check_mode params = false;
  gv_image : p_image params = Some image;
  gv_named : image <> [];
  gv_readable : fs image = RegularFile m;
  gv_reclaim : reclaim_conflicting_sessions env ep (Some sid) (without_stale existing w) = (Ret ids, w1);
  gv_fork : fork (attach_config image) w1 = (Some pid, w2);
  gv_disk : w_disk w2 = [];
  gv_settles : settles_at env sid settled (w_clock (after_spawn image pid w2) + 1000 * p_attach_timeout params) k
                 (after_spawn image pid w2) observed;
  gv_trace : readable_trace sid (polls env k (after_spawn image pid w2));
}.

(** Up to the verdict, [_attach] does what its parts do. *)
Lemma attach_reaches_verdict existing image m pid ids k observed w w1 w2 :
  gets_verdict existing image m pid ids k observed w w1 w2 ->
  attach env fs true fork now fresh_id params ep w
  = attach_verdict params ep sid existing ids (Some observed) (polls env k (after_spawn image pid w2)).
Proof.
  intros [Hex Hnl Hcm Him Hne Hfs Hre Hfo Hd Hse _]. unfold attach. fold (attach_sid fresh_id params).
  unfold io_bind at 1. rewrite Hex. unfold io_bind at 1, io_get. rewrite Hnl. cbv zeta. rewrite Him.
  destruct image as [|b image]; [done|]. cbn [or_text].
  assert (forall (k : unit -> io MWorld exn module_exit),
    io_bind (if match existing with Some _ => true | None => false end then io_modify (remove_state sid) else io_ret tt) k w
    = k tt (without_stale existing w)) as -> by (intros; by destruct existing).
  unfold io_bind at 1, validate_image, FileReader_open. rewrite Hfs. cbn [io_lift]. unfold io_ret at 1. rewrite Hcm.
  unfold io_bind at 1. rewrite Hre. unfold io_bind at 1. fold (attach_config (b :: image)).
  rewrite (spawn_reports _ _ _ _ Hfo Hd). unfold io_bind at 1.
  by rewrite (wait_finds env env_clock _ _ _ _ _ _ Hse).
Qed.

(** An attached record is reported as it is. *)
Lemma attached_reported existing ids observed w :
  ms_state observed = STATE_ATTACHED -> readable_trace sid w ->
  exists r, attach_verdict params ep sid existing ids (Some observed) w = (Ret (ExitJson r), w) /\
    r_changed r = true /\ r_session_id r = sid /\ r_state r = Some STATE_ATTACHED /\ r_pid r = ms_pid observed /\
    r_bytes_read r = ms_bytes_read observed /\ fst <$> r_observed r = Some observed /\ r_previous r = existing /\
    r_recovered_stale r = Some (bool_decide (is_Some existing)) /\ r_reclaimed r = Some (map Some ids).
Proof.
  intros Hst Ht. destruct (trace_of_readable sid w Ht) as [t Htr]. unfold attach_verdict, io_bind at 1. rewrite Htr.
  cbn [status_fields sf_state]. rewrite Hst. rewrite bool_decide_eq_false_2 by done. rewrite bool_decide_eq_true_2 by done.
  eexists. split; [reflexivity|]. by split_and!.
Qed.

Lemma error_class_nonempty c : or_text (Some (error_class_str c)) None = Some (error_class_str c).
Proof. by destruct c. Qed.

(** An error record is a failure with its text and its class. *)
Lemma error_reported existing ids observed msg c w :
  ms_state observed = STATE_ERROR -> ms_error observed = Some msg -> ms_error_class observed = Some (error_class_str c) ->
  readable_trace sid w ->
  exists f, attach_verdict params ep sid existing ids (Some observed) w = (Ret (FailJson f), w) /\
    fl_msg f = $"asmb8_media attach failed: " ++ msg /\ fl_error_class f = error_class_str c /\ fl_session_id f = sid /\
    fl_reclaimed f = ids /\ sf_pid (fl_fields f) = ms_pid observed.
Proof.
  intros Hst He Hc Ht. destruct (trace_of_readable sid w Ht) as [t Htr]. unfold attach_verdict, io_bind at 1. rewrite Htr.
  cbn [status_fields sf_state]. rewrite Hst. rewrite bool_decide_eq_true_2 by done. eexists. split; [reflexivity|].
  cbn [fl_msg fl_error_class fl_session_id fl_reclaimed fl_fields fail_with_fields sf_error sf_pid default]. unfold error_class_of.
  by rewrite He, Hc, error_class_nonempty.
Qed.

(** [main] is [_attach] once the transport policy is passed. *)
Lemma main_attaches w x w' :
  p_state params = Attached -> enforce_transport_policy (p_use_tls params) (p_allow_insecure_transport params) = Ok tt ->
  attach env fs true fork now fresh_id params ep w = (Ret x, w') ->
  main env fs true fork now fresh_id None params w = (Ret (inl x), w').
Proof.
  intros Hst Hpol Ha. unfold main, io_try, io_bind at 1. rewrite Hst. unfold io_bind at 1. rewrite Hpol. cbn [io_lift].
  unfold io_ret at 1. by rewrite Ha.
Qed.
End Attach.

(** The settled record the module finds is the one the daemon, once forked,
    publishes at the end of its first half; the daemon finds the directory
    as [wd], its web server as [web]. *)
Definition sees_attached env fs fork now fresh_id params wall net route web wd existing image m pid ids k w w1 w2 : Prop :=
  let cfg := attach_config fresh_id params image in
  let r := (daemon_until_attached wall fs net (allocate_token route cfg (p_username params) (p_password params)) cfg pid
              (p_password params) web wd).2 in
  gets_verdict env fs fork now fresh_id params existing image m pid ids k (d_state (r_daemon r)) w w1 w2.

(** A client that could be made passed the transport policy. *)
Lemma client_made_policy ac insecure validate ca fp net pol :
  AspClient_init ac insecure validate ca fp net = Ok pol -> enforce_transport_policy (ac_use_tls ac) insecure = Ok tt.
Proof. unfold AspClient_init. by destruct (enforce_transport_policy _ _) as [[]|]. Qed.

(** ** The property *)


(** C16: A failed attach is reported as what it was.  Whatever stops the
    daemon before it serves (the login, the routing, the launch document,
    the media port, an unexpected exception), as long as its records can be
    written: the daemon ends normally, and its published record says error;
    the module, once it finds that record, fails and changes nothing more:
    with the class of that very exception (protocol when it is not one of the
    collection's own) and with its message as [redact] leaves it, given the
    secrets the daemon held, the password among them. *)
Theorem attach_failure_relayed env fs fork now fresh_id params wall sigterm net route web wd existing image m pid ids k w w1 w2 e r :
  let cfg := attach_config fresh_id params image in
  let allocate := allocate_token route cfg (p_username params) (p_password params) in
  p_state params = Attached -> enforce_transport_policy (p_use_tls params) (p_allow_insecure_transport params) = Ok tt ->
  (forall w, w_clock w <= w_clock (env w)) -> w_disk wd = [] ->
  daemon_until_attached wall fs net allocate cfg pid (p_password params) web wd = (Raise e, r) ->
  let '(o, r') := media_daemon wall sigterm fs net route cfg pid (p_username params) (p_password params) web wd in
  o = Ret tt /\ published (attach_sid fresh_id params) (r_daemon r') /\ ms_state (d_state (r_daemon r')) = STATE_ERROR /\
  p_password params ∈ r_secrets r' /\
  (gets_verdict env fs fork now fresh_id params existing image m pid ids k (d_state (r_daemon r')) w w1 w2 ->
   exists f,
     main env fs true fork now fresh_id None params w
     = (Ret (inl (FailJson f)), polls env k (after_spawn now fresh_id params image pid w2)) /\
     fl_error_class f = error_class_str (failure_class e) /\
     fl_msg f = $"asmb8_media attach failed: " ++ redact (Some (failure_message e)) (map Some (r_secrets r')) /\
     fl_session_id f = attach_sid fresh_id params /\ sf_pid (fl_fields f) = Some pid /\ fl_reclaimed f = ids).
Proof.
  intros cfg allocate Hst Hpol Henv Hd Hfail. unfold media_daemon. fold allocate.
  destruct (daemon_fails wall sigterm fs net allocate cfg pid (p_password params) web wd e r Hd Hfail)
    as (d & D1 & D2 & D3 & D4 & D5 & D6 & D7).
  rewrite D1. cbn [r_daemon r_secrets r_conn]. split_and!; [done|exact D2|exact D3|exact D7|].
  intros Hv.
  destruct (error_reported fresh_id params existing ids (d_state d) _ _ (polls env k (after_spawn now fresh_id params image pid w2))
                D3 D5 D6 (gv_trace _ _ _ _ _ _ _ _ _ _ _ _ _ _ _ _ Hv)) as (f & F1 & F2 & F3 & F4 & F5 & F6).
  exists f. split; [|split_and!; congruence]. apply main_attaches; [done..|].
  by rewrite (attach_reaches_verdict _ _ _ _ _ _ Henv _ _ _ _ _ _ _ _ _ _ Hv).
Qed.

(** ** The properties at concrete runs

    The fork's daemon has not written anything yet, so the module writes the
    fallback record itself; while it sleeps the daemon reports. *)
Definition demo_params : Params := sample_params false.
Definition demo_cfg : SessionConfig := attach_config [] demo_params ($"a.iso").
Definition demo_route : routing := fun _ _ => Ok ($"10.0.0.2").
Definition demo_daemon_world : MWorld := mkWorld [] [] 0 [].
Definition demo_record : MediaState := Eval vm_compute in
  d_state (r_daemon (daemon_until_attached (fun n => n) sample_fs sample_net (allocate_token demo_route demo_cfg ($"admin") ($"pw"))
                       demo_cfg 50 ($"pw") demo_web demo_daemon_world).2).
Definition demo_fork (_ : SessionConfig) (w : MWorld) : option Z * MWorld :=
  (Some 50, set_procs w (assoc_set (w_procs w) 50 {| p_mine := true; p_sigterm := 0 |})).
(** Between the second and the third poll the record appears. *)
Definition demo_env (s : MediaState) (w : MWorld) : MWorld :=
  if (w_clock w =? 600) then set_files w (assoc_set (w_files w) (state_file_path ($"s3")) (Doc s)) else w.
Definition demo_start : MWorld := mkWorld [] [] 0 [].

Lemma demo_env_clock s w : w_clock w <= w_clock (demo_env s w).
Proof. unfold demo_env. destruct (_ =? _); cbn; lia. Qed.

Lemma demo_verdict s : settled s = true ->
  gets_verdict (demo_env s) sample_fs demo_fork 0 [] demo_params None ($"a.iso") sample_image 50 [] 3 s demo_start demo_start
    (demo_fork demo_cfg demo_start).2.
Proof.
  intros Hs. split; try first [reflexivity | discriminate | exact I]. split; [|reflexivity|exact Hs].
  intros [|[|[|i]]] Hi; [..|lia]; (eexists; split; [reflexivity|]; split; reflexivity).
Qed.

Lemma demo_sees s :
  d_state (r_daemon (daemon_until_attached (fun n => n) sample_fs sample_net
             (allocate_token demo_route (attach_config [] demo_params ($"a.iso")) (p_username demo_params) (p_password demo_params))
             (attach_config [] demo_params ($"a.iso")) 50 (p_password demo_params) demo_web demo_daemon_world).2) = s ->
  settled s = true ->
  sees_attached (demo_env s) sample_fs demo_fork 0 [] demo_params (fun n => n) sample_net demo_route demo_web demo_daemon_world
    None ($"a.iso") sample_image 50 [] 3 demo_start demo_start (demo_fork demo_cfg demo_start).2.
Proof. intros <- Hs. unfold sees_attached. cbv zeta. apply demo_verdict, Hs. Qed.


(** The controller refuses the login. *)
Definition refusing_web : asp := mkAsp None None [HResponse ($"WEBVAR_JSONVAR_WEB_SESSION = { 'SESSION_COOKIE' : 'Failure_Login' };")] [] [].
Definition demo_refused : outcome exn (Session * device) * run_state asp :=
  daemon_until_attached (fun n => n) sample_fs sample_net (allocate_token demo_route demo_cfg ($"admin") ($"pw")) demo_cfg 50 ($"pw")
    refusing_web demo_daemon_world.
Definition demo_refusal : MediaState :=
  d_state (r_daemon (media_daemon (fun n => n) (fun _ => false) sample_fs sample_net demo_route demo_cfg 50 ($"admin") ($"pw") refusing_web
                       demo_daemon_world).2).

Lemma attach_failure_relayed_witness :
  exists f w', main (demo_env demo_refusal) sample_fs true demo_fork 0 [] None demo_params demo_start = (Ret (inl (FailJson f)), w') /\
    fl_error_class f = $"authentication" /\ sf_pid (fl_fields f) = Some 50.
Proof.
  destruct demo_refused as [[x|e|] r] eqn:E; [vm_compute in E; discriminate E| |vm_compute in E; discriminate E].
  pose proof (attach_failure_relayed (demo_env demo_refusal) sample_fs demo_fork 0 [] demo_params (fun n => n) (fun _ => false) sample_net
                demo_route refusing_web demo_daemon_world None ($"a.iso") sample_image 50 [] 3 demo_start demo_start
                (demo_fork demo_cfg demo_start).2 e r ltac:(reflexivity) ltac:(reflexivity) (demo_env_clock _) ltac:(reflexivity) E) as H.
  change (media_daemon _ _ _ _ _ _ _ _ _ _ _)
    with (media_daemon (fun n => n) (fun _ => false) sample_fs sample_net demo_route demo_cfg 50 ($"admin") ($"pw") refusing_web
            demo_daemon_world) in H.
  destruct (media_daemon _ _ _ _ _ _ _ _ _ _ _) as [o r'] eqn:Er. destruct H as (_ & _ & _ & _ & H).
  assert (d_state (r_daemon r') = demo_refusal) as Hr by exact (f_equal (fun x => d_state (r_daemon x.2)) (eq_sym Er)).
  rewrite Hr in H.
  destruct (H (demo_verdict demo_refusal ltac:(vm_compute; reflexivity))) as (f & F1 & F2 & _ & _ & F3 & _).
  eexists f, _. split; [exact F1|]. split; [|exact F3]. rewrite F2. vm_compute in E. injection E as <- _. reflexivity.
Defined.
