(* ===== verification/Url.v ===== *)
(** * URL paths: UTF-8 and percent-encoding

    The codecs the file server uses of the Python library:
    [bytes.decode("utf-8", "strict")], [str.encode("utf-8")],
    [urllib.parse.unquote] and [urllib.parse.quote]. *)
From Stdlib Require Import ZArith Lia Ascii String.
From stdpp Require Import prelude.
From S2P Require Import Prelude PyBytes PyText.

(** ** UTF-8 *)

(** A Unicode scalar value: what a strict encoder accepts. *)
Definition is_scalar (c : Z) : bool :=
  (0 <=? c) && (c <? 1114112) && negb ((55296 <=? c) && (c <? 57344)).

Definition utf8_char (c : Z) : bytes :=
  if c <? 128 then [c]
  else if c <? 2048 then [192 + c / 64; 128 + c mod 64]
  else if c <? 65536 then [224 + c / 4096; 128 + c / 64 mod 64; 128 + c mod 64]
  else [240 + c / 262144; 128 + c / 4096 mod 64; 128 + c / 64 mod 64; 128 + c mod 64].

(** [s.encode("utf-8")]: [None] is [UnicodeEncodeError]. *)
Definition utf8_encode (s : text) : option bytes :=
  if forallb is_scalar s then Some (List.concat (map utf8_char s)) else None.

Definition is_cont (b : Z) : bool := (128 <=? b) && (b <? 192).

(** [b.decode("utf-8", "strict")]: [None] is [UnicodeDecodeError].  Overlong
    forms, surrogates and values past the last code point are refused. *)
Fixpoint utf8_decode (bs : bytes) : option text :=
  match bs with
  | [] => Some []
  | b0 :: r0 =>
      if b0 <? 128 then cons b0 <$> utf8_decode r0
      else match r0 with
      | [] => None
      | b1 :: r1 =>
          if negb (is_cont b1) then None
          else if b0 <? 194 then None
          else if b0 <? 224 then cons (64 * (b0 - 192) + (b1 - 128)) <$> utf8_decode r1
          else match r1 with
          | [] => None
          | b2 :: r2 =>
              if negb (is_cont b2) then None
              else if b0 <? 240 then
                let c := 4096 * (b0 - 224) + 64 * (b1 - 128) + (b2 - 128) in
                if (2048 <=? c) && is_scalar c then cons c <$> utf8_decode r2 else None
              else match r2 with
              | [] => None
              | b3 :: r3 =>
                  let c := 262144 * (b0 - 240) + 4096 * (b1 - 128) + 64 * (b2 - 128) + (b3 - 128) in
                  if is_cont b3 && (65536 <=? c) && is_scalar c then cons c <$> utf8_decode r3 else None
              end
          end
      end
  end.

(** ** Percent-encoding *)

Definition hexval (c : Z) : option Z :=
  if is_digit c then Some (c - 48)
  else if (97 <=? c) && (c <=? 102) then Some (c - 87)
  else if (65 <=? c) && (c <=? 70) then Some (c - 55)
  else None.

(** [urllib.parse.unquote_to_bytes] on ASCII text: one pass, an escape that
    is no pair of hexadecimal digits is kept as it stands. *)
Fixpoint unquote_to_bytes (s : text) : bytes :=
  match s with
  | [] => []
  | c :: r =>
      if c =? ch "%" then
        match r with
        | h :: l :: r' =>
            match hexval h, hexval l with
            | Some a, Some b => (16 * a + b) :: unquote_to_bytes r'
            | _, _ => c :: unquote_to_bytes r
            end
        | _ => c :: unquote_to_bytes r
        end
      else c :: unquote_to_bytes r
  end.

(** The maximal ASCII runs are decoded each for itself; [acc] is the run
    read so far, reversed. *)
Fixpoint unquote_runs (acc s : text) : option text :=
  match s with
  | [] => utf8_decode (unquote_to_bytes (rev acc))
  | c :: r =>
      if c <? 128 then unquote_runs (c :: acc) r
      else match utf8_decode (unquote_to_bytes (rev acc)), unquote_runs [] r with
           | Some a, Some b => Some (a ++ c :: b)
           | _, _ => None
           end
  end.

(** [urllib.parse.unquote(s, encoding="utf-8", errors="strict")] *)
Definition unquote (s : text) : option text :=
  if bool_decide (ch "%" ∈ s) then unquote_runs [] s else Some s.

(** [urllib.parse.quote(s)], whose default keeps ["/"]; [None] is
    [UnicodeEncodeError]. *)
Definition always_safe (c : Z) : bool := is_word c || bool_decide (c ∈ $".-~/").
Definition quoter (b : Z) : text := if always_safe b then [b] else ch "%" :: hex02 true b.
Definition quote_from_bytes (bs : bytes) : text := List.concat (map quoter bs).
Definition quote (s : text) : option text := quote_from_bytes <$> utf8_encode s.

(** ["/".join(parts)] *)
Fixpoint join_slash (parts : list text) : text :=
  match parts with
  | [] => []
  | [p] => p
  | p :: parts => p ++ ch "/" :: join_slash parts
  end.

(** ** Lemmas *)

#[local] Ltac Zify.zify_post_hook ::= Z.to_euclidean_division_equations.

Ltac decide_cmp :=
  repeat match goal with
    | |- context [(?a <? ?b)%Z] =>
        first [ replace (a <? b) with true by (symmetry; apply Z.ltb_lt; lia)
              | replace (a <? b) with false by (symmetry; apply Z.ltb_ge; lia) ]
    | |- context [(?a <=? ?b)%Z] =>
        first [ replace (a <=? b) with true by (symmetry; apply Z.leb_le; lia)
              | replace (a <=? b) with false by (symmetry; apply Z.leb_gt; lia) ]
    end.

Lemma is_scalar_spec c :
  is_scalar c = true <-> 0 <= c < 1114112 /\ ~ (55296 <= c < 57344).
Proof.
  unfold is_scalar. rewrite !andb_true_iff, negb_true_iff, andb_false_iff.
  rewrite !Z.leb_le, !Z.ltb_lt, Z.leb_gt, Z.ltb_ge. lia.
Qed.

Lemma utf8_char_decode c bs :
  is_scalar c = true -> utf8_decode (utf8_char c ++ bs) = cons c <$> utf8_decode bs.
Proof.
  intros Hc. pose proof Hc as Hr. apply is_scalar_spec in Hr as [Hr Hs]. unfold utf8_char.
  destruct (c <? 128) eqn:E1; [|destruct (c <? 2048) eqn:E2; [|destruct (c <? 65536) eqn:E3]];
    bool_to_prop; cbn [app utf8_decode]; unfold is_cont.
  - by replace (c <? 128) with true by (symmetry; apply Z.ltb_lt; lia).
  - decide_cmp. cbn [negb andb]. do 2 f_equal. lia.
  - decide_cmp. cbn [negb andb].
    match goal with |- context [is_scalar ?x] => replace x with c by lia end.
    decide_cmp. by rewrite Hc.
  - decide_cmp. cbn [negb andb].
    match goal with |- context [is_scalar ?x] => replace x with c by lia end.
    decide_cmp. by rewrite Hc.
Qed.

Lemma utf8_roundtrip s bs : utf8_encode s = Some bs -> utf8_decode bs = Some s.
Proof.
  unfold utf8_encode. destruct (forallb is_scalar s) eqn:E; [|done]. intros [= <-].
  induction s as [|c s IH]; cbn; [done|]. cbn in E. apply andb_true_iff in E as [Hc E].
  rewrite utf8_char_decode by done. by rewrite IH.
Qed.

Lemma utf8_char_wf c : is_scalar c = true -> wf_bytes (utf8_char c).
Proof.
  intros [Hr Hs]%is_scalar_spec. unfold utf8_char.
  destruct (c <? 128) eqn:E1; [|destruct (c <? 2048) eqn:E2; [|destruct (c <? 65536) eqn:E3]];
    bool_to_prop; repeat constructor; unfold is_byte; lia.
Qed.

Lemma utf8_encode_wf s bs : utf8_encode s = Some bs -> wf_bytes bs.
Proof.
  unfold utf8_encode. destruct (forallb is_scalar s) eqn:E; [|done]. intros [= <-].
  induction s as [|c s IH]; cbn; [constructor|]. cbn in E. apply andb_true_iff in E as [Hc E].
  apply Forall_app. split; [by apply utf8_char_wf|by apply IH].
Qed.

(** What a quoted path is made of: printable ASCII without ["?"] and ["#"]. *)
Definition url_char (c : Z) : bool :=
  (32 <? c) && (c <? 127) && negb (c =? ch "?") && negb (c =? ch "#").

(** One quoted byte reads back: checked on the 256 bytes. *)
Definition quoter_ok (b : Z) : bool :=
  forallb url_char (quoter b) &&
  match quoter b with
  | [c] => (c =? b) && negb (c =? ch "%")
  | [p; h; l] =>
      (p =? ch "%") &&
      match hexval h, hexval l with
      | Some x, Some y => 16 * x + y =? b
      | _, _ => false
      end
  | _ => false
  end.

Lemma quoter_ok_all b : is_byte b -> quoter_ok b = true.
Proof.
  intros Hb. unfold is_byte in Hb.
  assert (forallb quoter_ok (map Z.of_nat (List.seq 0 256)) = true) as H by (vm_compute; reflexivity).
  rewrite forallb_forall in H. apply H. apply in_map_iff. exists (Z.to_nat b).
  split; [lia|]. apply in_seq. lia.
Qed.

Lemma unquote_quoter b r : is_byte b -> unquote_to_bytes (quoter b ++ r) = b :: unquote_to_bytes r.
Proof.
  intros [_ H]%quoter_ok_all%andb_true_iff.
  destruct (quoter b) as [|p [|h [|l [|? ?]]]]; try done; cbn [app unquote_to_bytes].
  - apply andb_true_iff in H as [->%Z.eqb_eq H%negb_true_iff]. by rewrite H.
  - apply andb_true_iff in H as [Hp H]. rewrite Hp.
    destruct (hexval h), (hexval l); try done. bool_to_prop. by subst.
Qed.

Lemma unquote_quote_bytes bs r :
  wf_bytes bs -> unquote_to_bytes (quote_from_bytes bs ++ r) = bs ++ unquote_to_bytes r.
Proof.
  induction 1 as [|b bs Hb Hbs IH]; [done|]. unfold quote_from_bytes in *. cbn.
  rewrite <- app_assoc, unquote_quoter by done. by rewrite IH.
Qed.

Lemma quote_url_chars bs : wf_bytes bs -> Forall (fun c => url_char c = true) (quote_from_bytes bs).
Proof.
  induction 1 as [|b bs Hb Hbs IH]; [constructor|]. cbn. apply Forall_app. split; [|done].
  apply quoter_ok_all in Hb as [Hb _]%andb_true_iff. rewrite forallb_forall in Hb. by apply List.Forall_forall.
Qed.

(** An all-ASCII text is one run. *)
Lemma unquote_runs_ascii acc s :
  Forall (fun c => url_char c = true) s -> unquote_runs acc s = utf8_decode (unquote_to_bytes (rev acc ++ s)).
Proof.
  intros Hs. revert acc. induction Hs as [|c s Hc Hs IH]; intros acc; cbn; [by rewrite app_nil_r|].
  unfold url_char in Hc. bool_to_prop. replace (c <? 128) with true by (symmetry; apply Z.ltb_lt; lia).
  rewrite IH. cbn. by rewrite <- app_assoc.
Qed.

Lemma unquote_to_bytes_plain s : ch "%" ∉ s -> unquote_to_bytes s = s.
Proof.
  induction s as [|c s IH]; intros Hn; cbn; [done|]. apply not_elem_of_cons in Hn as [Hc Hn].
  replace (c =? ch "%") with false by (symmetry; apply Z.eqb_neq; congruence). by rewrite IH.
Qed.

Lemma utf8_decode_ascii s : Forall (fun c => url_char c = true) s -> utf8_decode s = Some s.
Proof.
  induction 1 as [|c s Hc Hs IH]; cbn; [done|]. unfold url_char in Hc. bool_to_prop.
  replace (c <? 128) with true by (symmetry; apply Z.ltb_lt; lia). by rewrite IH.
Qed.

(** On printable ASCII [unquote] is one percent-decoding and one UTF-8
    decoding, shortcut or not. *)
Lemma unquote_ascii s :
  Forall (fun c => url_char c = true) s -> unquote s = utf8_decode (unquote_to_bytes s).
Proof.
  intros Hs. unfold unquote. case_bool_decide as Hin.
  - by rewrite unquote_runs_ascii.
  - rewrite unquote_to_bytes_plain by done. by rewrite utf8_decode_ascii.
Qed.

Lemma utf8_encode_app a b x y :
  utf8_encode a = Some x -> utf8_encode b = Some y -> utf8_encode (a ++ b) = Some (x ++ y).
Proof.
  unfold utf8_encode. rewrite forallb_app.
  destruct (forallb is_scalar a), (forallb is_scalar b); cbn; try done. intros [= <-] [= <-].
  by rewrite map_app, concat_app.
Qed.

(** The quoted path of a list of names, as the client writes it. *)
Definition quoted_path (parts qs : list text) : Prop := Forall2 (fun p q => quote p = Some q) parts qs.

Lemma quote_inv p q : quote p = Some q -> exists bs, utf8_encode p = Some bs /\ q = quote_from_bytes bs.
Proof. unfold quote. intros (bs & -> & ?)%fmap_Some. by exists bs. Qed.

Lemma quote_slash r : unquote_to_bytes (ch "/" :: r) = ch "/" :: unquote_to_bytes r.
Proof. done. Qed.

Lemma join_quoted parts qs :
  quoted_path parts qs ->
  exists bs, utf8_encode (join_slash parts) = Some bs /\ wf_bytes bs /\
    unquote_to_bytes (join_slash qs) = bs /\ Forall (fun c => url_char c = true) (join_slash qs).
Proof.
  induction 1 as [|p q parts qs Hpq Hrest IH].
  { exists []. split_and!; done || constructor. }
  destruct IH as (bs & He & Hwf & Hu & Hc). apply quote_inv in Hpq as (bp & Hp & ->).
  pose proof (utf8_encode_wf _ _ Hp) as Hbp.
  destruct Hrest as [|p' q' parts qs Hpq' Hrest]; cbn [join_slash].
  - exists bp. split_and!; [done|done| |by apply quote_url_chars].
    rewrite <- (app_nil_r (quote_from_bytes bp)), unquote_quote_bytes by done. cbn. apply app_nil_r.
  - exists (bp ++ ch "/" :: bs). split_and!.
    + apply utf8_encode_app; [done|].
      change (ch "/" :: join_slash (p' :: parts)) with ([ch "/"] ++ join_slash (p' :: parts)).
      by apply (utf8_encode_app [ch "/"] _ [ch "/"]).
    + apply Forall_app. split; [done|]. constructor; [|done]. change (0 <= 47 < 256). lia.
    + rewrite unquote_quote_bytes by done. f_equal. rewrite quote_slash. by f_equal.
    + apply Forall_app. split; [by apply quote_url_chars|]. constructor; [done|done].
Qed.

(** A quoted path unquotes to the path. *)
Lemma unquote_quoted_path parts qs :
  quoted_path parts qs ->
  unquote (ch "/" :: join_slash qs) = Some (ch "/" :: join_slash parts) /\
  Forall (fun c => url_char c = true) (ch "/" :: join_slash qs).
Proof.
  intros (bs & He & Hwf & Hu & Hc)%join_quoted.
  assert (Forall (fun c => url_char c = true) (ch "/" :: join_slash qs)) as Hall by (by constructor).
  split; [|done]. rewrite unquote_ascii by done. rewrite quote_slash, Hu.
  change (utf8_decode ([ch "/"] ++ bs) = Some ([ch "/"] ++ join_slash parts)).
  apply utf8_roundtrip. by apply (utf8_encode_app [ch "/"] _ [ch "/"]).
Qed.

Lemma before_char_absent c s : c ∉ s -> before_char c s = s.
Proof.
  induction s as [|d s IH]; intros Hn; cbn; [done|]. apply not_elem_of_cons in Hn as [Hd Hn].
  replace (d =? c) with false by (symmetry; apply Z.eqb_neq; congruence). by rewrite IH.
Qed.

Lemma url_chars_before s :
  Forall (fun c => url_char c = true) s -> before_char (ch "#") (before_char (ch "?") s) = s.
Proof.
  intros Hs. assert ((ch "?" ∉ s) /\ (ch "#" ∉ s)) as [H1 H2].
  { split; intros Hin; eapply Forall_forall in Hin; [|exact Hs| |exact Hs]; by vm_compute in Hin. }
  rewrite (before_char_absent (ch "?")) by done. by apply before_char_absent.
Qed.

Lemma split_char_app c p s : c ∉ p -> split_char c (p ++ c :: s) = p :: split_char c s.
Proof.
  induction p as [|d p IH]; intros Hn; cbn; [by rewrite Z.eqb_refl|].
  apply not_elem_of_cons in Hn as [Hd Hn].
  replace (d =? c) with false by (symmetry; apply Z.eqb_neq; congruence). by rewrite IH.
Qed.

Lemma split_char_absent c p : c ∉ p -> split_char c p = [p].
Proof.
  induction p as [|d p IH]; intros Hn; cbn; [done|]. apply not_elem_of_cons in Hn as [Hd Hn].
  replace (d =? c) with false by (symmetry; apply Z.eqb_neq; congruence). by rewrite IH.
Qed.

Lemma split_join parts :
  parts <> [] -> Forall (fun p => ch "/" ∉ p) parts -> split_char (ch "/") (join_slash parts) = parts.
Proof.
  intros Hne H. induction H as [|p parts Hp H IH]; [done|].
  destruct H as [|p' parts Hp' H]; cbn [join_slash]; [by apply split_char_absent|].
  rewrite split_char_app by done. f_equal. by apply IH.
Qed.
