(* ===== verification/BootstrapImage.v ===== *)
(** * The bootstrap image builder

    module_utils/bootstrap_image.py and modules/asmb8_bootstrap_image.py:
    render an iPXE script, stage it with the kernel, have [grub-mkrescue]
    build an ISO, and keep the ISO only if it is within its budget.  The
    tool is outside: a function of its arguments and of the files it sees.
    Every operation on the file system may meet a fault. *)
From Stdlib Require Import ZArith Lia Ascii String.
From stdpp Require Import prelude gmap.
From S2P Require Import Prelude PyBytes PyText PyPath Regex Errors Models PyValue Webvar Asp Ansible Url.

Definition NETWORK_MODE_STATIC : text := $"static".
Definition NETWORK_MODE_DHCP : text := $"dhcp".
Definition NETWORK_MODES : list text := [NETWORK_MODE_STATIC; NETWORK_MODE_DHCP].
Definition DEFAULT_SIZE_BUDGET_BYTES : Z := 16 * 1024 * 1024.
Definition MAX_TOOL_OUTPUT_EXCERPT : nat := 4096.
Definition KERNEL_BASENAME : text := $"ipxe.lkrn".
Definition SCRIPT_BASENAME : text := $"script.ipxe".
Definition OPERATION : text := $"asmb8_bootstrap_image.build".

Definition NEWLINE : Z := 10.

(** [_GRUB_CFG_TEMPLATE.format(...)] *)
Definition grub_cfg (kernel_name script_name : text) : text :=
  join [NEWLINE]
    [$"set timeout=0"; $"set default=0"; []; $"menuentry " ++ [34] ++ $"asmb8-bootstrap" ++ [34] ++ $" {";
     $"    linux16 /boot/" ++ kernel_name; $"    initrd16 /boot/" ++ script_name; $"}"; []].

Record NetworkConfig : Type := mkNetwork {
  mode : text;
  address : option text;
  netmask : option text;
  gateway : option text;
  dns : option text;
}.

(** [f"{value}"] *)
Definition formatted (o : option text) : text := default ($"None") o.

Definition script_lines (origin_url : text) (network : NetworkConfig) : list text :=
  [$"#!ipxe"; []]
  ++ (if text_eqb (mode network) NETWORK_MODE_STATIC then
        [$"set net0/ip " ++ formatted (address network); $"set net0/netmask " ++ formatted (netmask network);
         $"set net0/gateway " ++ formatted (gateway network)]
        ++ (match dns network with
            | Some (c :: d) => [$"set net0/dns " ++ c :: d]
            | _ => []
            end)
        ++ [$"ifopen net0"]
      else [$"dhcp"])
  ++ [[]; $"chain " ++ origin_url; []].
Definition render_ipxe_script (origin_url : text) (network : NetworkConfig) : text := join [NEWLINE] (script_lines origin_url network).

(** ** Files *)

Definition child (p name : text) : text := p ++ $"/" ++ name.

(** The files, what the tools need of the environment, the faults the next
    operations meet ([None]: none; none at all when the list is short), and
    the commands that were run. *)
Record builder : Type := mkBuilder {
  b_files : gmap text bytes;
  b_faults : list (option text);
  b_ran : list (list text);
}.
Definition set_files (f : gmap text bytes) (b : builder) : builder := mkBuilder f (b_faults b) (b_ran b).

(** An operation on the file system: it fails, or has its effect. *)
Definition file_op (f : gmap text bytes -> gmap text bytes) : io builder exn unit := fun b =>
  match b_faults b with
  | Some m :: faults => (Raise (OSError m), mkBuilder (b_files b) faults (b_ran b))
  | None :: faults => (Ret tt, mkBuilder (f (b_files b)) faults (b_ran b))
  | [] => (Ret tt, set_files (f (b_files b)) b)
  end.
Definition is_file (p : text) (b : builder) : bool := match b_files b !! p with Some _ => true | None => false end.

(** What is inside a directory. *)
Definition inside (dir p : text) : bool := startswith (dir ++ $"/") p.

Section Tools.
Context (which : text -> option text) (executable : text -> bool).

Definition find_tool (name : text) (explicit_path : option text) (b : builder) : option text :=
  match explicit_path with
  | Some (c :: p) =>
      let candidate := path_text (c :: p) in
      if is_file candidate b && executable candidate then Some candidate else None
  | _ => which name
  end.
End Tools.

Definition comma : text := $", ".
Definition missing_tool_error (tool_names : list text) : IkvmError :=
  UnsupportedCapabilityError
    ($"asmb8_bootstrap_image requires the following external tool(s), not found on this controller's PATH: " ++ join comma tool_names
     ++ $". On Debian/Ubuntu, install grub-pc-bin (or grub-common, for a UEFI-only controller) and xorriso, e.g. `apt-get install grub-pc-bin xorriso`. This module never falls back to a container runtime or a source build -- see its own DOCUMENTATION for why a Docker-based alternative was considered and rejected as the default. Set grub_mkrescue_path/xorriso_path explicitly if either tool is installed somewhere not on PATH.")
    None OPERATION.

(** What running a command comes to. *)
Record completed : Type := mkCompleted { returncode : Z; stdout : text; stderr : text; files_after : gmap text bytes }.

Section Build.
(** The command, and the name of the temporary directory. *)
Context (run_command : list text -> gmap text bytes -> completed) (staging : text).

Definition utf8 (t : text) : bytes := List.concat (map utf8_char t).

(** [_stage_directory] *)
Definition stage_directory (kernel : bytes) (script_text : text) : io builder exn unit :=
  run file_op (fun f => f);
  run file_op (fun f => <[child (child staging ($"boot")) KERNEL_BASENAME := kernel]> f);
  run file_op (fun f => <[child (child staging ($"boot")) SCRIPT_BASENAME := utf8 script_text]> f);
  file_op (fun f => <[child (child (child staging ($"boot")) ($"grub")) ($"grub.cfg") := utf8 (grub_cfg KERNEL_BASENAME SCRIPT_BASENAME)]> f).

(** [with tempfile.TemporaryDirectory(...)]: made, and removed whatever
    happens inside; the removal is taken to succeed *)
Definition with_staging {A} (body : io builder exn A) : io builder exn A :=
  run file_op (fun f => f);
  fun b => let '(o, b') := body b in (o, set_files (filter (fun x => inside staging x.1 = false) (b_files b')) b').

Definition exec (argv : list text) : io builder exn completed := fun b =>
  let c := run_command argv (b_files b) in (Ret c, mkBuilder (files_after c) (b_faults b) (b_ran b ++ [argv])).

Definition build_error {A} (msg : text) : io builder exn A := io_raise (Ikvm (ProtocolError msg None OPERATION)).

Definition build_bootstrap_image (ipxe_lkrn_path script_text output_path : text) (size_budget_bytes : Z) (grub_mkrescue_path : text)
    : io builder exn (Z * text) := fun b =>
  let lkrn := path_text ipxe_lkrn_path in
  let output := path_text output_path in
  match b_files b !! lkrn with
  | None =>
      build_error ($"ipxe_lkrn_path " ++ repr ipxe_lkrn_path
        ++ $" does not exist or is not a file. This module never fetches ipxe.lkrn itself -- see its own DOCUMENTATION on why -- so it must already be present locally.") b
  | Some kernel =>
      (run file_op (fun f => f);
       run with_staging
         (run stage_directory kernel script_text;
          do c <- exec [grub_mkrescue_path; $"--output=" ++ output; staging];
          if negb (returncode c =? 0) then
            let excerpt := redact (Some (strip (stderr c ++ [NEWLINE] ++ stdout c))) [] in
            build_error ($"grub-mkrescue exited " ++ dec (returncode c) ++ $": " ++ take MAX_TOOL_OUTPUT_EXCERPT excerpt)
          else io_ret tt);
       fun b =>
         match b_files b !! output with
         | None => build_error ($"grub-mkrescue reported success (rc=0) but " ++ repr output_path ++ $" was not produced.") b
         | Some image =>
             let size_bytes := blen image in
             if size_budget_bytes <? size_bytes then
               (run file_op (delete output);
                build_error ($"bootstrap image is " ++ dec size_bytes ++ $" bytes, exceeding the " ++ dec size_budget_bytes
                  ++ $"-byte size budget. Refusing to leave an oversized 'bootstrap' image in place -- a bootstrap that silently grows toward the size of a full installer ISO recreates exactly the iUSB-throughput problem this module exists to avoid. The oversized file has been removed.")) b
             else (Ret (size_bytes, output), b)
         end) b
  end.
End Build.

(** ** modules/asmb8_bootstrap_image.py *)
Module Bootstrap.
Definition argument_spec : argspec :=
  [($"origin_url", arg_req TStr); ($"ipxe_lkrn_path", arg_req TPath); ($"output_path", arg_req TPath);
   ($"network_mode", arg_choice_def NETWORK_MODES (PStr NETWORK_MODE_STATIC));
   ($"address", arg_opt TStr); ($"netmask", arg_opt TStr); ($"gateway", arg_opt TStr); ($"dns", arg_opt TStr);
   ($"size_budget_bytes", arg_def TInt (PInt DEFAULT_SIZE_BUDGET_BYTES));
   ($"grub_mkrescue_path", arg_opt TPath); ($"xorriso_path", arg_opt TPath); ($"work_dir", arg_opt TPath)].

Record Params : Type := mkParams {
  origin_url : text;
  ipxe_lkrn_path : text;
  output_path : text;
  network_mode : text;
  p_address : option text;
  p_netmask : option text;
  p_gateway : option text;
  p_dns : option text;
  size_budget_bytes : Z;
  grub_mkrescue_path : option text;
  xorriso_path : option text;
}.

(** What [module.run_command] gives: the code, the two streams (a stream may
    be missing), and the files. *)
Record module_run : Type := mkModuleRun { mr_rc : Z; mr_stdout : option text; mr_stderr : option text; mr_files : gmap text bytes }.

(** [_ansible_runner]: the shape the builder expects *)
Definition ansible_runner (module_run_command : list text -> gmap text bytes -> module_run) (argv : list text) (files : gmap text bytes) : completed :=
  let r := module_run_command argv files in
  mkCompleted (mr_rc r) (default [] (mr_stdout r)) (default [] (mr_stderr r)) (mr_files r).

Definition build_network_config (params : Params) : NetworkConfig :=
  mkNetwork (network_mode params) (p_address params) (p_netmask params) (p_gateway params) (p_dns params).

Section Main.
Context (which : text -> option text) (executable : text -> bool).
Context (module_run_command : list text -> gmap text bytes -> module_run) (staging : text).

Definition resolve_required_tools (params : Params) (b : builder) : option text * option text :=
  (find_tool which executable ($"grub-mkrescue") (grub_mkrescue_path params) b,
   find_tool which executable ($"xorriso") (xorriso_path params) b).

Definition fail_with_script (err : IkvmError) (script : text) : module_result :=
  match fail_ikvm err with
  | FailJson fields => FailJson (fields ++ [($"script", PStr script)])
  | r => r
  end.

Definition success (params : Params) (out : text) (size : pyval) (script grub : text) (observed : pyval) : module_result :=
  ExitJson [($"changed", PBool true); ($"output_path", PStr out); ($"size_bytes", size);
            ($"size_budget_bytes", PInt (size_budget_bytes params)); ($"script", PStr script); ($"grub_mkrescue_path", PStr grub);
            ($"operation", receipt OPERATION (output_path params) true PNone (PStr ($"built")) observed)].

Definition main (check_mode : bool) (params : Params) : io builder exn module_result := fun b =>
  let script := render_ipxe_script (origin_url params) (build_network_config params) in
  let '(grub, xorriso) := resolve_required_tools params b in
  let missing := (if grub then [] else [$"grub-mkrescue"]) ++ (if xorriso then [] else [$"xorriso"]) in
  match missing, grub with
  | _ :: _, _ | [], None => (Ret (fail_with_script (missing_tool_error missing) script), b)
  | [], Some grub =>
      if check_mode then (Ret (success params (output_path params) PNone script grub PNone), b)
      else
        match build_bootstrap_image (ansible_runner module_run_command) staging (ipxe_lkrn_path params) script (output_path params) (size_budget_bytes params) grub b with
        | (Raise (Ikvm err), b') => (Ret (fail_with_script err script), b')
        | (Raise e, b') => (Raise e, b')
        | (Blocked, b') => (Blocked, b')
        | (Ret (size, out), b') =>
            (Ret (success params out (PInt size) script grub (dict [($"size_bytes", PInt size); ($"output_path", PStr out)])), b')
        end
  end.
End Main.
End Bootstrap.

(** ** Lemmas *)

(** Lines come back from the joined text. *)
Lemma split_app c l t : c ∉ l -> split_char c (l ++ c :: t) = l :: split_char c t.
Proof.
  induction l as [|x l IH]; intros Hc; cbn.
  - by rewrite Z.eqb_refl.
  - apply not_elem_of_cons in Hc as [Hx Hc]. rewrite IH by done. by destruct (Z.eqb_spec x c); [subst|].
Qed.
Lemma split_none c l : c ∉ l -> split_char c l = [l].
Proof.
  induction l as [|x l IH]; intros Hc; [done|]. apply not_elem_of_cons in Hc as [Hx Hc]. cbn. rewrite IH by done.
  by destruct (Z.eqb_spec x c); [subst|].
Qed.
Lemma lines_join c lines : lines <> [] -> Forall (fun l => c ∉ l) lines -> split_char c (join [c] lines) = lines.
Proof.
  intros Hne Hl. induction Hl as [|l lines Hc Hl IH]; [done|]. destruct lines as [|l2 lines]; [by apply split_none|].
  change (join [c] (l :: l2 :: lines)) with (l ++ c :: join [c] (l2 :: lines)). rewrite split_app by done. by rewrite IH.
Qed.

(** ** The script *)

Definition one_line (t : text) : Prop := NEWLINE ∉ t.
Lemma one_line_app a b : one_line a -> one_line b -> one_line (a ++ b).
Proof. unfold one_line. rewrite elem_of_app. tauto. Qed.
Lemma one_line_lit (s : string) : bool_decide (NEWLINE ∈ str s) = false -> one_line (str s).
Proof. by intros H%bool_decide_eq_false. Qed.

(** The values that go into the script. *)
Definition values_of (origin_url : text) (network : NetworkConfig) : list text :=
  [origin_url; formatted (address network); formatted (netmask network); formatted (gateway network); default [] (dns network)].

Lemma script_lines_one origin_url network :
  Forall one_line (values_of origin_url network) -> Forall one_line (script_lines origin_url network).
Proof.
  unfold values_of. rewrite !Forall_cons. intros (Hu & Ha & Hn & Hg & Hd & _). unfold script_lines.
  assert (one_line []) as Hnil by apply not_elem_of_nil.
  assert (forall s t, bool_decide (NEWLINE ∈ str s) = false -> one_line t -> one_line (str s ++ t)) as Hp.
  { intros s t Hs Ht. apply one_line_app; [by apply one_line_lit|done]. }
  rewrite !Forall_app. split_and!; [repeat constructor; [by apply one_line_lit|done]| |].
  2: { constructor; [done|]. constructor; [by apply Hp|]. by repeat constructor. }
  destruct (text_eqb (mode network) NETWORK_MODE_STATIC).
  - rewrite !Forall_app. split_and!.
    + repeat constructor; by apply Hp.
    + destruct (dns network) as [[|c d]|]; cbn in Hd; try constructor; [|constructor]. exact (Hp "set net0/dns "%string (c :: d) eq_refl Hd).
    + repeat constructor. by apply one_line_lit.
  - repeat constructor. by apply one_line_lit.
Qed.

Lemma lines_dhcp origin_url network : $"dhcp" ∈ script_lines origin_url network <-> mode network <> NETWORK_MODE_STATIC.
Proof.
  unfold script_lines. destruct (text_eqb (mode network) NETWORK_MODE_STATIC) eqn:E.
  - apply text_eqb_eq in E. split; [|done]. intros H. exfalso. rewrite !elem_of_app in H.
    destruct (dns network) as [[|c d]|]; cbn in H;
      repeat first [by apply not_elem_of_nil in H | apply elem_of_cons in H as [H|H]; [discriminate H|] | destruct H as [H|H]].
  - split; [intros _ Hm; by rewrite Hm, text_eqb_refl in E|]. intros _. rewrite !elem_of_app. right. left. left.
Qed.

(** ** Building *)

Lemma file_op_cases f b :
  (exists m b', file_op f b = (Raise (OSError m), b') /\ b_files b' = b_files b /\ b_ran b' = b_ran b) \/
  (exists b', file_op f b = (Ret tt, b') /\ b_files b' = f (b_files b) /\ b_ran b' = b_ran b).
Proof. unfold file_op. destruct (b_faults b) as [|[m|] faults]; [right|left|right]; by repeat eexists. Qed.

Section Building.
Context (run_command : list text -> gmap text bytes -> completed) (staging : text).

Definition unstaged (b : builder) : Prop := forall x, inside staging x = true -> b_files b !! x = None.

(** What the temporary directory leaves behind. *)
Lemma with_staging_spec {A} (body : io builder exn A) b :
  unstaged b ->
  (exists m b', with_staging staging body b = (Raise (OSError m), b') /\ b_files b' = b_files b /\ b_ran b' = b_ran b) \/
  exists b1 o b2 b', b_files b1 = b_files b /\ b_ran b1 = b_ran b /\ body b1 = (o, b2) /\
    with_staging staging body b = (o, b') /\ unstaged b' /\ b_ran b' = b_ran b2.
Proof.
  intros Hb. unfold with_staging, io_bind. destruct (file_op_cases (fun f => f) b) as [(m & b' & -> & Hf & Hr)|(b1 & -> & Hf & Hr)].
  - left. by exists m, b'.
  - right. destruct (body b1) as [o b2] eqn:E. eexists b1, o, b2, _. split_and!; [done..| |done].
    intros x Hx. cbn. apply map_lookup_filter_None. right. intros v _. cbn. by rewrite Hx.
Qed.

(** The files the tool runs on: those there were, the kernel and the script
    under [boot/], and the boot loader's configuration. *)
Definition staged_files (kernel : bytes) (script : text) (files : gmap text bytes) : gmap text bytes :=
  let boot := child staging ($"boot") in
  <[child (child boot ($"grub")) ($"grub.cfg") := utf8 (grub_cfg KERNEL_BASENAME SCRIPT_BASENAME)]>
    (<[child boot SCRIPT_BASENAME := utf8 script]> (<[child boot KERNEL_BASENAME := kernel]> files)).
(** In this build the tool runs and reports a failure. *)
Definition tool_failed (argv : list text) (lkrn script : text) (files : gmap text bytes) : Prop :=
  exists kernel, files !! path_text lkrn = Some kernel /\ returncode (run_command argv (staged_files kernel script files)) <> 0.

Lemma stage_cases kernel script b :
  (exists m b', stage_directory staging kernel script b = (Raise (OSError m), b') /\ b_ran b' = b_ran b) \/
  (exists b', stage_directory staging kernel script b = (Ret tt, b') /\ b_ran b' = b_ran b /\
     b_files b' = staged_files kernel script (b_files b)).
Proof.
  unfold stage_directory, io_bind.
  repeat match goal with
  | |- context [file_op ?f ?x] =>
      let m := fresh "m" in let y := fresh "b" in let H := fresh "Hf" in
      destruct (file_op_cases f x) as [(m & y & -> & _ & ?)|(y & -> & H & ?)]; [left; exists m, y; split; [done|congruence]|]
  end.
  right. eexists. split; [done|]. split; [congruence|]. rewrite Hf2, Hf1, Hf0, Hf. done.
Qed.
End Building.

(** ** Properties *)

(** A static script never asks for a lease.  When no value spans lines,
    the lines of the embedded script are exactly those of its template; a
    [dhcp] line is among them if and only if the mode is not [static]; and
    the script hands over to the origin with its one [chain] line. *)
Theorem script_dhcp_only_on_request origin_url network :
  Forall one_line (values_of origin_url network) ->
  let lines := split_char NEWLINE (render_ipxe_script origin_url network) in
  lines = script_lines origin_url network /\
  ($"dhcp" ∈ lines <-> mode network <> NETWORK_MODE_STATIC) /\
  exists before, lines = before ++ [[]; $"chain " ++ origin_url; []].
Proof.
  intros Hv lines. assert (lines = script_lines origin_url network) as ->.
  { unfold lines, render_ipxe_script. apply lines_join; [done|]. by apply script_lines_one. }
  split_and!; [done|apply lines_dhcp|]. unfold script_lines. eexists (_ ++ _). by rewrite <- app_assoc.
Qed.

(** C27: What is left is within its budget.  Whatever the tool does and
    whatever faults the file system has: a build that succeeds reports the
    size of the file that is there, and that is within the budget; a build
    that fails with a classified error did not run the tool, or the tool,
    run on the staged files of this build, failed, or no image is left; otherwise it failed with an operating
    system error.  Nothing of the staging directory is left in any case. *)
Theorem image_within_budget run_command staging lkrn script output budget grub b :
  unstaged staging b ->
  let out := path_text output in
  let argv := [grub; $"--output=" ++ out; staging] in
  match build_bootstrap_image run_command staging lkrn script output budget grub b with
  | (Ret (size, path), b') => path = out /\ exists image, b_files b' !! out = Some image /\ size = blen image /\ size <= budget
  | (Raise (Ikvm e), b') => error_class e = PROTOCOL /\ (b_ran b' = b_ran b \/ tool_failed run_command staging argv lkrn script (b_files b) \/ b_files b' !! out = None)
  | (Raise e, _) => exists m, e = OSError m
  | (Blocked, _) => False
  end /\
  unstaged staging (build_bootstrap_image run_command staging lkrn script output budget grub b).2.
Proof.
  intros Hb out argv. unfold build_bootstrap_image. destruct (b_files b !! path_text lkrn) as [kernel|] eqn:Hk; [|by split; [split; [|left]|]].
  unfold io_bind. fold out. fold argv.
  destruct (file_op_cases (fun f => f) b) as [(m & b0 & -> & Hf0 & _)|(b0 & -> & Hf0 & Hr0)].
  { split; [by exists m|]. intros x Hx. cbn. rewrite Hf0. by apply Hb. }
  assert (unstaged staging b0) as Hb0 by (intros x Hx; rewrite Hf0; by apply Hb).
  match goal with |- context [with_staging staging ?body b0] => destruct (with_staging_spec staging body b0 Hb0)
    as [(m & b1 & -> & Hf1 & _)|(b1 & o & b2 & b3 & Hf1 & Hr1 & Hbody & -> & Hu & Hr3)] end.
  { split; [by exists m|]. intros x Hx. cbn. rewrite Hf1. by apply Hb0. }
  destruct (stage_cases staging kernel script b1) as [(m & b4 & Hst & _)|(b4 & Hst & Hr4 & Hf4)]; rewrite Hst in Hbody.
  { injection Hbody as <- <-. split; [by exists m|done]. }
  unfold exec in Hbody. destruct (returncode (run_command argv (b_files b4)) =? 0) eqn:Erc; cbn [negb] in Hbody.
  2: { injection Hbody as <- <-. split; [|done]. split; [done|]. right. left.
       exists kernel. split; [done|]. rewrite <- Hf0, <- Hf1, <- Hf4. by apply Z.eqb_neq. }
  injection Hbody as <- <-. destruct (b_files b3 !! out) as [image|] eqn:Ei.
  2: { split; [|done]. split; [done|]. right. by right. }
  destruct (Z.ltb_spec budget (blen image)) as [Hlt|Hle].
  - destruct (file_op_cases (delete out) b3) as [(m & b5 & -> & Hf5 & _)|(b5 & -> & Hf5 & _)].
    + split; [by exists m|]. intros x Hx. cbn. rewrite Hf5. by apply Hu.
    + split; [split; [done|]; right; right; cbn; rewrite Hf5; apply lookup_delete_eq|].
      intros x Hx. cbn. rewrite Hf5. apply lookup_delete_None. right. by apply Hu.
  - split; [|done]. split; [done|]. exists image. by split_and!.
Qed.

(** A file that was there before the build passes for its result: a tool that
    exits with 0 and writes nothing is not noticed. *)
Theorem stale_output_accepted staging lkrn script output budget grub b kernel image :
  unstaged staging b -> b_faults b = [] -> inside staging (path_text output) = false ->
  b_files b !! path_text lkrn = Some kernel -> b_files b !! path_text output = Some image -> blen image <= budget ->
  (forall name, path_text output <> child (child staging ($"boot")) name) ->
  path_text output <> child (child (child staging ($"boot")) ($"grub")) ($"grub.cfg") ->
  exists b', build_bootstrap_image (fun _ f => mkCompleted 0 [] [] f) staging lkrn script output budget grub b
             = (Ret (blen image, path_text output), b') /\ b_files b' !! path_text output = Some image.
Proof.
  intros Hb Hn Hin Hk Hi Hs Hc Hg. destruct b as [files faults ran]. cbn in Hn, Hk, Hi. subst faults.
  unfold build_bootstrap_image. cbn [b_files]. rewrite Hk.
  unfold io_bind, with_staging, stage_directory, io_bind, exec, file_op.
  cbn [b_faults set_files b_files b_ran returncode files_after negb Z.eqb io_ret].
  match goal with |- context [filter _ ?m !! _] => assert (m !! path_text output = Some image) as Hm end.
  { rewrite !lookup_insert_ne by (by apply not_eq_sym || apply not_eq_sym, Hc). exact Hi. }
  match goal with |- context [filter ?P ?m !! _] => assert (filter P m !! path_text output = Some image) as Hf end.
  { by apply map_lookup_filter_Some. }
  rewrite Hf. destruct (Z.ltb_spec budget (blen image)); [lia|]. by eexists.
Qed.

(** The path of [xorriso] is looked for, and then not used: two paths that
    both resolve give the same run. *)
Theorem xorriso_path_unused which executable run_command staging check params params' b x x' :
  find_tool which executable ($"xorriso") (Bootstrap.xorriso_path params) b = Some x ->
  find_tool which executable ($"xorriso") (Bootstrap.xorriso_path params') b = Some x' ->
  Bootstrap.mkParams (Bootstrap.origin_url params) (Bootstrap.ipxe_lkrn_path params) (Bootstrap.output_path params)
    (Bootstrap.network_mode params) (Bootstrap.p_address params) (Bootstrap.p_netmask params) (Bootstrap.p_gateway params) (Bootstrap.p_dns params)
    (Bootstrap.size_budget_bytes params) (Bootstrap.grub_mkrescue_path params) (Bootstrap.xorriso_path params')
  = params' ->
  Bootstrap.main which executable run_command staging check params b = Bootstrap.main which executable run_command staging check params' b.
Proof.
  intros Hx Hx' <-. cbn [Bootstrap.xorriso_path] in Hx'. unfold Bootstrap.main, Bootstrap.resolve_required_tools, Bootstrap.success, Bootstrap.build_network_config.
  cbn [Bootstrap.origin_url Bootstrap.ipxe_lkrn_path Bootstrap.output_path Bootstrap.network_mode Bootstrap.p_address Bootstrap.p_netmask Bootstrap.p_gateway Bootstrap.p_dns Bootstrap.size_budget_bytes
       Bootstrap.grub_mkrescue_path Bootstrap.xorriso_path].
  by rewrite Hx, Hx'.
Qed.

(** ** The properties at concrete builds *)

Definition demo_network : NetworkConfig :=
  mkNetwork NETWORK_MODE_STATIC (Some ($"192.0.2.10")) (Some ($"255.255.255.0")) (Some ($"192.0.2.1")) None.
Lemma script_dhcp_only_on_request_witness :
  ($"dhcp" ∈ split_char NEWLINE (render_ipxe_script ($"http://192.0.2.5:8080/boot.ipxe") demo_network) <->
   mode demo_network <> NETWORK_MODE_STATIC).
Proof.
  apply (script_dhcp_only_on_request ($"http://192.0.2.5:8080/boot.ipxe") demo_network).
  repeat constructor; apply (bool_decide_unpack _); by vm_compute.
Defined.

Definition demo_tool (argv : list text) (f : gmap text bytes) : completed :=
  mkCompleted 0 [] [] (<[ $"/out/b.iso" := replicate 8 0 ]> f).
Definition demo_builder : builder := mkBuilder {[ $"/src/ipxe.lkrn" := [1; 2; 3] ]} [] [].
Example demo_build :
  (build_bootstrap_image demo_tool ($"/tmp/s") ($"/src/ipxe.lkrn") ($"x") ($"/out//b.iso") 10 ($"/usr/bin/grub-mkrescue") demo_builder).1
  = Ret (8, $"/out/b.iso").
Proof. by vm_compute. Qed.

Lemma image_within_budget_witness :
  unstaged ($"/tmp/s")
    (build_bootstrap_image demo_tool ($"/tmp/s") ($"/src/ipxe.lkrn") ($"x") ($"/out/b.iso") 4 ($"/usr/bin/grub-mkrescue") demo_builder).2.
Proof.
  destruct (image_within_budget demo_tool ($"/tmp/s") ($"/src/ipxe.lkrn") ($"x") ($"/out/b.iso") 4 ($"/usr/bin/grub-mkrescue") demo_builder)
    as [_ H]; [|exact H].
  intros x Hx. cbn. apply lookup_singleton_None. intros <-. vm_compute in Hx. discriminate Hx.
Defined.
