(* ===== verification/HttpRange.v ===== *)
(** * http_origin.py: the Range header

    [parse_range_header] against a resource of a given size, the positions
    it can return, and the three forms of a range a client writes. *)
From Stdlib Require Import ZArith Lia Ascii String.
From stdpp Require Import prelude.
From S2P Require Import Prelude PyBytes PyText.

(** [class ByteRange]; [br_end] is inclusive. *)
Record ByteRange : Type := mkRange {
  br_start : Z;
  br_end : Z;
}.

(** [class RangeNotSatisfiable] *)
Inductive range_error : Type := RangeNotSatisfiable.

Definition parse_range_header (value : option text) (size : Z) : result range_error (option ByteRange) :=
  match value with
  | None | Some [] => Ok None
  | Some v =>
      if bool_decide (ch "," ∈ v) then Ok None
      else if negb (startswith ($"bytes=") v) then Ok None
      else
        let spec := strip (drop 6 v) in
        if negb (bool_decide (ch "-" ∈ spec)) then Ok None
        else
          let '(start_text, end_text) := partition_char (ch "-") spec in
          match start_text, end_text with
          | [], [] => Ok None
          | [], _ =>
              match py_int end_text with
              | None => Ok None
              | Some suffix_length =>
                  if (suffix_length <=? 0) || (size =? 0) then Err RangeNotSatisfiable
                  else Ok (Some (mkRange (Z.max 0 (size - suffix_length)) (size - 1)))
              end
          | _, _ =>
              match py_int start_text with
              | None => Ok None
              | Some start =>
                  if (start <? 0) || (size =? 0) || (size <=? start) then Err RangeNotSatisfiable
                  else match end_text with
                       | [] => Ok (Some (mkRange start (size - 1)))
                       | _ =>
                           match py_int end_text with
                           | None => Ok None
                           | Some e => if e <? start then Ok None
                                       else Ok (Some (mkRange start (Z.min e (size - 1))))
                           end
                       end
              end
          end
  end.

(** ** The forms a client writes *)

Inductive range_spec : Type :=
  | FromTo (a b : Z)        (* bytes=a-b *)
  | From (a : Z)            (* bytes=a- *)
  | Suffix (n : Z).         (* bytes=-n *)

Definition range_text (r : range_spec) : text :=
  $"bytes=" ++ match r with
               | FromTo a b => dec a ++ ch "-" :: dec b
               | From a => dec a ++ [ch "-"]
               | Suffix n => ch "-" :: dec n
               end.

Definition range_wf (r : range_spec) : Prop :=
  match r with
  | FromTo a b => 0 <= a /\ 0 <= b
  | From a => 0 <= a
  | Suffix n => 0 <= n
  end.

(** What RFC 7233 asks for. *)
Definition range_answer (r : range_spec) (size : Z) : result range_error (option ByteRange) :=
  match r with
  | FromTo a b => if size <=? a then Err RangeNotSatisfiable
                  else if b <? a then Ok None
                  else Ok (Some (mkRange a (Z.min b (size - 1))))
  | From a => if size <=? a then Err RangeNotSatisfiable else Ok (Some (mkRange a (size - 1)))
  | Suffix n => if (n =? 0) || (size =? 0) then Err RangeNotSatisfiable
                else Ok (Some (mkRange (Z.max 0 (size - n)) (size - 1)))
  end.

(** ** What a header asks for, byte by byte

    Apart from the parser: a header is absent, one of the three forms,
    a list of several ranges, or in another unit. *)
Inductive range_header : Type :=
  | NoRange
  | OneRange (r : range_spec)
  | SeveralRanges (t : text)
  | OtherUnit (t : text).

Definition header_value (h : range_header) : option text :=
  match h with
  | NoRange => None
  | OneRange r => Some (range_text r)
  | SeveralRanges t | OtherUnit t => Some t
  end.
Definition header_wf (h : range_header) : Prop :=
  match h with
  | NoRange => True
  | OneRange (FromTo a b) => 0 <= a <= b
  | OneRange (From a) => 0 <= a
  | OneRange (Suffix n) => 0 <= n
  | SeveralRanges t => ch "," ∈ t
  | OtherUnit t => startswith ($"bytes=") t = false
  end.

(** The byte at position [i] of [size] is asked for. *)
Definition asked (r : range_spec) (size i : Z) : bool :=
  match r with
  | FromTo a b => (a <=? i) && (i <=? b)
  | From a => a <=? i
  | Suffix n => size - n <=? i
  end.
Fixpoint index_from {A} (k : Z) (l : list A) : list (Z * A) :=
  match l with [] => [] | x :: l => (k, x) :: index_from (k + 1) l end.
Definition select {A} (keep : Z -> bool) (k : Z) (l : list A) : list A :=
  map snd (List.filter (fun x => keep (fst x)) (index_from k l)).

(** Status and body: the bytes asked for, in order; none is unsatisfiable,
    and a header that is no single byte range is not there. *)
Definition range_response (h : range_header) (data : bytes) : Z * bytes :=
  match h with
  | OneRange r => match select (asked r (blen data)) 0 data with [] => (416, []) | part => (206, part) end
  | _ => (200, data)
  end.

(** ** Lemmas *)

Lemma dec_chars z c : 0 <= z -> c ∈ dec z -> 48 <= c <= 57.
Proof.
  intros Hz Hc. destruct (dec_digits z Hz) as [Hd _]. eapply Forall_forall in Hd; [|exact Hc].
  unfold is_digit in Hd. bool_to_prop. lia.
Qed.

(** The characters of a specification: digits and dashes. *)
Definition spec_char (c : Z) : bool := is_digit c || (c =? ch "-").

Lemma spec_char_cases c : spec_char c = true -> is_space c = false /\ c <> ch ",".
Proof.
  unfold spec_char. intros [H|H]%orb_true_iff.
  - split; [by apply digit_not_space|]. unfold is_digit in H. change (ch ",") with 44. bool_to_prop. lia.
  - bool_to_prop. subst c. by vm_compute.
Qed.

Lemma dec_spec_chars z : 0 <= z -> Forall (fun c => spec_char c = true) (dec z).
Proof.
  intros Hz. eapply Forall_impl; [apply dec_digits, Hz|]. intros c Hc. unfold spec_char. cbn in Hc. by rewrite Hc.
Qed.

Lemma dash_not_in_dec z : 0 <= z -> ch "-" ∉ dec z.
Proof. intros Hz H. apply dec_chars in H; [|done]. change (ch "-") with 45 in H. lia. Qed.

(** A header made of ["bytes="] and a clean specification with a dash is
    read at the dash. *)
Lemma parse_range_spec a b size :
  Forall (fun c => spec_char c = true) (a ++ ch "-" :: b) -> ch "-" ∉ a ->
  parse_range_header (Some ($"bytes=" ++ a ++ ch "-" :: b)) size =
  match a, b with
  | [], [] => Ok None
  | [], _ =>
      match py_int b with
      | None => Ok None
      | Some n => if (n <=? 0) || (size =? 0) then Err RangeNotSatisfiable
                  else Ok (Some (mkRange (Z.max 0 (size - n)) (size - 1)))
      end
  | _, _ =>
      match py_int a with
      | None => Ok None
      | Some start =>
          if (start <? 0) || (size =? 0) || (size <=? start) then Err RangeNotSatisfiable
          else match b with
               | [] => Ok (Some (mkRange start (size - 1)))
               | _ => match py_int b with
                      | None => Ok None
                      | Some e => if e <? start then Ok None else Ok (Some (mkRange start (Z.min e (size - 1))))
                      end
               end
      end
  end.
Proof.
  intros Hc Hd. set (spec := a ++ ch "-" :: b) in *.
  assert (parse_range_header (Some ($"bytes=" ++ spec)) size =
    if bool_decide (ch "," ∈ $"bytes=" ++ spec) then Ok None
    else if negb (startswith ($"bytes=") ($"bytes=" ++ spec)) then Ok None
    else if negb (bool_decide (ch "-" ∈ strip spec)) then Ok None
    else let '(start_text, end_text) := partition_char (ch "-") (strip spec) in _) as ->
    by reflexivity.
  rewrite bool_decide_false, startswith_app.
  2: { intros [H|H]%elem_of_app; [revert H; apply (bool_decide_unpack _); by vm_compute|].
       eapply Forall_forall in Hc; [|exact H]. by apply spec_char_cases in Hc as [_ []]. }
  rewrite strip_clean by (eapply Forall_impl; [exact Hc|intros c ?; by apply spec_char_cases]).
  rewrite bool_decide_true by (apply elem_of_app; right; left). cbn [negb].
  subst spec. rewrite partition_char_app by done. by destruct a, b.
Qed.

(** For a start that was written without a sign, two of the three tests are
    implied by the third. *)
Lemma unsatisfiable_test a size :
  0 <= a -> 0 <= size -> (a <? 0) || (size =? 0) || (size <=? a) = (size <=? a).
Proof.
  intros Ha Hs. destruct (size <=? a) eqn:E; [apply orb_true_r|]. bool_to_prop.
  rewrite !orb_false_iff. split_and!; [apply Z.ltb_ge|apply Z.eqb_neq|]; lia || done.
Qed.

Lemma spec_chars_dash a b :
  Forall (fun c => spec_char c = true) a -> Forall (fun c => spec_char c = true) b ->
  Forall (fun c => spec_char c = true) (a ++ ch "-" :: b).
Proof. intros Ha Hb. apply Forall_app. split; [done|]. by constructor. Qed.

(** ** Properties *)

(** Every range the parser returns lies inside the resource, for any
    header whatever: [0 <= start <= end < size]. *)
Theorem range_in_bounds value size r :
  0 <= size -> parse_range_header value size = Ok (Some r) ->
  0 <= br_start r <= br_end r /\ br_end r < size.
Proof.
  intros Hs. unfold parse_range_header. destruct value as [[|c v]|]; try done.
  destruct (bool_decide _); [done|]. destruct (negb (startswith _ _)); [done|].
  destruct (negb _); [done|]. destruct (partition_char _ _) as [a b].
  destruct a as [|x a].
  - destruct b as [|y b]; [done|]. destruct (py_int (y :: b)) as [n|]; [|done].
    destruct (_ || _) eqn:E; [done|]. intros [= <-]. cbn. bool_to_prop. lia.
  - destruct (py_int (x :: a)) as [st|]; [|done].
    destruct (_ || _) eqn:E; [done|]. bool_to_prop.
    destruct b as [|y b]; [intros [= <-]; cbn; lia|].
    destruct (py_int (y :: b)) as [e|]; [|done]. destruct (e <? st) eqn:E2; [done|].
    intros [= <-]. cbn. bool_to_prop. lia.
Qed.

(** The three forms of a single byte range, written in decimal, are
    answered as RFC 7233 asks: clipped to the resource, ignored when the end
    precedes a valid start, unsatisfiable exactly when no byte is named. *)
Theorem range_forms r size :
  range_wf r -> 0 <= size -> parse_range_header (Some (range_text r)) size = range_answer r size.
Proof.
  intros Hwf Hs. unfold range_text. destruct r as [a b|a|n]; cbn [range_wf] in Hwf.
  - destruct Hwf as [Ha Hb]. rewrite parse_range_spec; [|by apply spec_chars_dash; apply dec_spec_chars|by apply dash_not_in_dec].
    rewrite !int_dec by done. pose proof (proj2 (dec_digits a Ha)). pose proof (proj2 (dec_digits b Hb)).
    destruct (dec a); [done|]. destruct (dec b); [done|]. cbn [range_answer].
    by rewrite unsatisfiable_test.
  - rewrite parse_range_spec; [|apply spec_chars_dash; [by apply dec_spec_chars|constructor]|by apply dash_not_in_dec].
    rewrite int_dec by done. pose proof (proj2 (dec_digits a Hwf)).
    destruct (dec a); [done|]. cbn [range_answer].
    by rewrite unsatisfiable_test.
  - change (ch "-" :: dec n) with ([] ++ ch "-" :: dec n). rewrite parse_range_spec; [|apply spec_chars_dash; [constructor|by apply dec_spec_chars]|apply not_elem_of_nil].
    rewrite int_dec by done. pose proof (proj2 (dec_digits n Hwf)). destruct (dec n); [done|]. cbn [range_answer].
    replace (n <=? 0) with (n =? 0); [done|]. apply eq_true_iff_eq. rewrite Z.eqb_eq, Z.leb_le. lia.
Qed.

(** Selecting an interval of positions is slicing. *)
Lemma select_below {A} lo hi k (l : list A) : lo <= k ->
  select (fun i => (lo <=? i) && (i <=? hi)) k l = take (Z.to_nat (hi - k + 1)) l.
Proof.
  unfold select. revert k. induction l as [|x l IH]; intros k Hk; cbn [index_from List.filter map fst]; [by rewrite take_nil|].
  replace (lo <=? k) with true by (symmetry; apply Z.leb_le; lia). cbn [andb]. destruct (Z.leb_spec k hi).
  - cbn [map snd]. rewrite IH by lia. replace (Z.to_nat (hi - k + 1)) with (S (Z.to_nat (hi - (k + 1) + 1))) by lia. done.
  - rewrite IH by lia. replace (Z.to_nat (hi - k + 1)) with O by lia. by replace (Z.to_nat (hi - (k + 1) + 1)) with O by lia.
Qed.
Lemma select_slice {A} lo hi k (l : list A) : k <= lo ->
  select (fun i => (lo <=? i) && (i <=? hi)) k l = take (Z.to_nat (hi - lo + 1)) (drop (Z.to_nat (lo - k)) l).
Proof.
  revert k. induction l as [|x l IH]; intros k Hk; [by rewrite drop_nil, take_nil|].
  destruct (decide (k = lo)) as [->|Hne].
  { rewrite Z.sub_diag. cbn [Z.to_nat drop]. by apply select_below. }
  unfold select in *. cbn [index_from List.filter fst]. replace (lo <=? k) with false by (symmetry; apply Z.leb_gt; lia). cbn [andb].
  rewrite IH by lia. by replace (Z.to_nat (lo - k)) with (S (Z.to_nat (lo - (k + 1)))) by lia.
Qed.
Lemma select_ext {A} f g k (l : list A) : (forall i, k <= i < k + blen l -> f i = g i) -> select f k l = select g k l.
Proof.
  unfold select. revert k. induction l as [|x l IH]; intros k H; cbn [index_from List.filter fst]; [done|].
  assert (blen (x :: l) = 1 + blen l) as E by (unfold blen; cbn [length]; lia).
  rewrite (H k) by (pose proof (blen_nonneg l); lia).
  assert (map snd (List.filter (fun x => f x.1) (index_from (k + 1) l)) = map snd (List.filter (fun x => g x.1) (index_from (k + 1) l))) as Hl
    by (apply IH; intros i Hi; apply H; lia).
  destruct (g k); cbn [map]; by rewrite Hl.
Qed.

(** The bytes the parser's positions stand for. *)
Definition slice_of (r : ByteRange) (data : bytes) : bytes := take (Z.to_nat (br_end r - br_start r + 1)) (drop (Z.to_nat (br_start r)) data).

Lemma slice_of_nonempty r data : 0 <= br_start r <= br_end r -> br_end r < blen data -> slice_of r data <> [].
Proof.
  intros H1 H2 H. apply (f_equal length) in H. unfold slice_of in H. rewrite length_take, length_drop in H. unfold blen in H2. cbn in H. lia.
Qed.

(** A header in one of the forms is answered with the bytes it asks for. *)
Lemma range_select r data : header_wf (OneRange r) ->
  match range_answer r (blen data) with
  | Ok None => False
  | Ok (Some rg) => select (asked r (blen data)) 0 data = slice_of rg data /\ slice_of rg data <> []
  | Err _ => select (asked r (blen data)) 0 data = []
  end.
Proof.
  intros Hwf. pose proof (blen_nonneg data) as Hs. pose proof (fun lo hi H => select_slice lo hi 0 data H) as Hsl.
  assert (forall lo hi f, 0 <= lo -> (forall i, 0 <= i < blen data -> f i = (lo <=? i) && (i <=? hi)) ->
    select f 0 data = slice_of (mkRange lo hi) data) as Hsel.
  { intros lo hi f Hlo Hf. unfold slice_of. cbn [br_start br_end]. rewrite <- (Z.sub_0_r lo) at 2. rewrite <- Hsl by done.
    apply select_ext. intros i Hi. apply Hf. lia. }
  assert (forall lo hi, blen data <= lo \/ hi < lo -> 0 <= lo -> slice_of (mkRange lo hi) data = []) as Hempty.
  { intros lo hi H Hlo. unfold slice_of. cbn [br_start br_end]. destruct H; [rewrite drop_ge by (unfold blen in *; lia); apply take_nil|].
    by replace (Z.to_nat (hi - lo + 1)) with O by lia. }
  destruct r as [a b|a|n]; cbn [range_answer header_wf] in *.
  - destruct (Z.leb_spec (blen data) a).
    { rewrite (Hsel a b) by (done || lia). apply Hempty; lia. }
    destruct (Z.ltb_spec b a); [lia|]. split; [|apply slice_of_nonempty; cbn; lia].
    apply Hsel; [lia|]. intros i Hi. unfold asked. f_equal. apply eq_true_iff_eq. rewrite !Z.leb_le. lia.
  - destruct (Z.leb_spec (blen data) a).
    { rewrite (Hsel a (blen data - 1)); [apply Hempty; lia|lia|]. intros i Hi. cbn [asked].
      replace (i <=? blen data - 1) with true by (symmetry; apply Z.leb_le; lia). by rewrite andb_true_r. }
    split; [|apply slice_of_nonempty; cbn; lia]. apply Hsel; [lia|]. intros i Hi. cbn [asked].
    replace (i <=? blen data - 1) with true by (symmetry; apply Z.leb_le; lia). by rewrite andb_true_r.
  - assert (select (asked (Suffix n) (blen data)) 0 data = slice_of (mkRange (Z.max 0 (blen data - n)) (blen data - 1)) data) as Hn.
    { apply Hsel; [lia|]. intros i Hi. cbn [asked]. apply eq_true_iff_eq. rewrite andb_true_iff, !Z.leb_le. lia. }
    destruct ((n =? 0) || (blen data =? 0)) eqn:E.
    + rewrite Hn. apply Hempty; [|lia]. apply orb_true_iff in E as [E|E]; bool_to_prop; lia.
    + bool_to_prop. split; [done|]. apply slice_of_nonempty; cbn; lia.
Qed.

(** A malformed end is ignored only while the start is inside the
    resource: with a start past its end the same malformed header is answered
    as unsatisfiable, where the documentation asks to ignore it. *)
Theorem malformed_end_unsatisfiable (a size : Z) (junk : text) :
  0 <= a -> 0 < size -> Forall (fun c => spec_char c = true) junk -> py_int junk = None -> junk <> [] ->
  parse_range_header (Some ($"bytes=" ++ dec a ++ ch "-" :: junk)) size
  = if size <=? a then Err RangeNotSatisfiable else Ok None.
Proof.
  intros Ha Hs Hc Hj Hne. rewrite parse_range_spec; [|by apply spec_chars_dash; [apply dec_spec_chars|]|by apply dash_not_in_dec].
  rewrite int_dec, Hj by done. pose proof (proj2 (dec_digits a Ha)).
  destruct (dec a); [done|]. destruct junk; [done|]. by rewrite unsatisfiable_test by lia.
Qed.

Lemma range_in_bounds_witness :
  0 <= br_start (mkRange 2 9) <= br_end (mkRange 2 9) /\ br_end (mkRange 2 9) < 10.
Proof. apply (range_in_bounds (Some ($"bytes= 2-99 ")) 10); [lia|by vm_compute]. Defined.

Lemma range_forms_witness : parse_range_header (Some ($"bytes=-4")) 10 = Ok (Some (mkRange 6 9)).
Proof. apply (range_forms (Suffix 4) 10); cbn; lia. Defined.

Lemma malformed_end_unsatisfiable_witness :
  parse_range_header (Some ($"bytes=100--5-")) 10 = Err RangeNotSatisfiable.
Proof.
  apply (malformed_end_unsatisfiable 100 10 ($"-5-")); [lia|lia|by repeat constructor|by vm_compute|done].
Defined.
