(* ===== verification/HttpPath.v ===== *)
(** * http_origin.py: path confinement

    The directory tree with its symbolic links, the kernel's path walk, the
    library's [os.path.realpath] and [Path.resolve] (as of CPython 3.12), and
    on top of them [validate_root] and [resolve_within_root].

    A path is the list of its names below ["/"].  A directory has one
    permission: whether it can be searched. *)
From Stdlib Require Import ZArith Lia Ascii String.
From stdpp Require Import prelude.
From S2P Require Import Prelude PyBytes PyText Regex Errors Url.

Abbreviation path := (list text).

Inductive node : Type :=
  | Dir (searchable : bool)
  | File (readable : bool) (data : bytes)
  | Link (target : text)
  | Other.

#[global] Instance node_eq_dec : EqDecision node.
Proof. solve_decision. Defined.

Inductive errno : Type := ENOENT | ENOTDIR | EACCES | ELOOP | ENAMETOOLONG.

#[global] Instance errno_eq_dec : EqDecision errno.
Proof. solve_decision. Defined.

Definition strerror (e : errno) : text :=
  match e with
  | ENOENT => $"[Errno 2] No such file or directory"
  | ENOTDIR => $"[Errno 20] Not a directory"
  | EACCES => $"[Errno 13] Permission denied"
  | ELOOP => $"[Errno 40] Too many levels of symbolic links"
  | ENAMETOOLONG => $"[Errno 36] File name too long"
  end.

Definition fs : Type := list (path * node).

Definition node_at (f : fs) (p : path) : option node :=
  match p with
  | [] => Some (Dir true)
  | _ => assoc_get f p
  end.

Definition components (s : text) : list text := split_char (ch "/") s.
Definition path_str (p : path) : text := ch "/" :: join_slash p.
Definition is_curdir (name : text) : bool := text_eqb name [] || text_eqb name ($".").
Definition is_pardir (name : text) : bool := text_eqb name ($"..").

(** Sizes in bytes, for the limits of the kernel. *)
Definition encoded_len (s : text) : Z := blen (List.concat (map utf8_char s)).
Definition name_too_long (name : text) : bool := 255 <? encoded_len name.
Definition path_too_long (p : path) : bool := 4096 <=? encoded_len (path_str p).

Section Kernel.
Context (f : fs).

(** The kernel's walk: [links] symbolic links may still be followed, the
    last one only if [follow]. *)
Fixpoint walk (links : nat) (follow : bool) : path -> list text -> result errno path :=
  fix go (cur : path) (rest : list text) {struct rest} :=
    match rest with
    | [] => Ok cur
    | name :: rest' =>
        match node_at f cur with
        | Some (Dir true) =>
            if is_curdir name then go cur rest'
            else if is_pardir name then go (removelast cur) rest'
            else if name_too_long name then Err ENAMETOOLONG
            else match node_at f (cur ++ [name]) with
                 | None => Err ENOENT
                 | Some (Link t) =>
                     if bool_decide (rest' = []) && negb follow then Ok (cur ++ [name])
                     else match links with
                          | O => Err ELOOP
                          | S links => walk links follow (if startswith ($"/") t then [] else cur)
                                         (components t ++ rest')
                          end
                 | Some _ => go (cur ++ [name]) rest'
                 end
        | Some (Dir false) => Err EACCES
        | Some _ => Err ENOTDIR
        | None => Err ENOENT
        end
    end.

Definition MAXSYMLINKS : nat := 40.

Definition lookup_node (follow : bool) (p : path) : result errno node :=
  if path_too_long p then Err ENAMETOOLONG
  else match walk MAXSYMLINKS follow [] p with
       | Ok q => match node_at f q with Some n => Ok n | None => Err ENOENT end
       | Err e => Err e
       end.

(** [os.stat] and [os.lstat] *)
Definition stat (p : path) : result errno node := lookup_node true p.
Definition lstat (p : path) : result errno node := lookup_node false p.

(** ** [os.path] *)

(** [os.path.join(a, b)] *)
Definition os_path_join (a b : text) : text :=
  if startswith ($"/") b then b
  else if bool_decide (a = []) || startswith ($"/") (rev a) then a ++ b
  else a ++ ch "/" :: b.

(** [os.path.normpath] of an absolute path: whether exactly two slashes
    lead it, and its names. *)
Definition norm_step (acc : path) (name : text) : path :=
  if is_curdir name then acc else if is_pardir name then removelast acc else acc ++ [name].
Definition normpath (s : text) : bool * path :=
  (startswith ($"//") s && negb (startswith ($"///") s), foldl norm_step [] (components s)).

Definition seen_map : Type := list (path * option path).

Inductive real_result : Type :=
  | Resolved (p : path) (seen : seen_map)
  | SymlinkLoop (s : text)          (* what is returned for a loop: a path left as it is *)
  | RealError (e : errno) (at_path : path)   (* strict mode only *)
  | OutOfFuel.

(** [_joinrealpath]: [fuel] bounds the nesting of links. *)
Fixpoint joinrealpath (fuel : nat) (strict : bool) : path -> list text -> seen_map -> real_result :=
  match fuel with
  | O => fun _ _ _ => OutOfFuel
  | S fuel =>
      fix go (p : path) (rest : list text) (seen : seen_map) {struct rest} :=
        match rest with
        | [] => Resolved p seen
        | name :: rest' =>
            if is_curdir name then go p rest' seen
            else if is_pardir name then go (removelast p) rest' seen
            else
              let newpath := p ++ [name] in
              match lstat newpath with
              | Err e => if strict then RealError e newpath else go newpath rest' seen
              | Ok (Link t) =>
                  let resolve_link :=
                    match joinrealpath fuel strict (if startswith ($"/") t then [] else p)
                            (components t) ((newpath, None) :: seen) with
                    | Resolved p' seen' => go p' rest' ((newpath, Some p') :: seen')
                    | SymlinkLoop s => SymlinkLoop (os_path_join s (join_slash rest'))
                    | r => r
                    end in
                  match assoc_get seen newpath with
                  | Some (Some p') => go p' rest' seen
                  | Some None =>
                      if strict then
                        match stat newpath with
                        | Err e => RealError e newpath
                        | Ok _ => resolve_link
                        end
                      else SymlinkLoop (os_path_join (path_str newpath) (join_slash rest'))
                  | None => resolve_link
                  end
              | Ok _ => go newpath rest' seen
              end
        end
  end.

Definition is_link (n : node) : bool := match n with Link _ => true | _ => false end.
Definition link_paths : list path := (List.filter (fun x => is_link (snd x)) f).*1.
Definition real_fuel : nat := S (length link_paths).

(** [os.path.realpath] of an absolute path. *)
Definition realpath (strict : bool) (p : list text) : real_result :=
  joinrealpath real_fuel strict [] p [].

(** A resolved [Path]: the flag says it is rooted at ["//"]. *)
Definition rpath : Type := bool * path.

(** The exceptions of [Path.resolve]. *)
Inductive resolve_error : Type :=
  | ResolveOSError (e : errno) (filename : path)
  | ResolveLoop.                    (* RuntimeError *)

Definition check_eloop (e : errno) (filename : path) : resolve_error :=
  if decide (e = ELOOP) then ResolveLoop else ResolveOSError e filename.

(** [Path.resolve(strict)] *)
Definition path_resolve (strict : bool) (p : list text) : result resolve_error rpath :=
  let finish (r : rpath) :=
    if strict then Ok r
    else match stat (snd r) with
         | Err ELOOP => Err ResolveLoop
         | _ => Ok r
         end in
  match realpath strict p with
  | Resolved p _ => finish (false, p)
  | SymlinkLoop s => finish (normpath s)
  | RealError e q => Err (check_eloop e q)
  | OutOfFuel => Err ResolveLoop
  end.

(** ** [validate_root] and [resolve_within_root] *)

Inductive root_error : Type :=
  | InvalidRoot (e : IkvmError)
  | RootLoop.                       (* the RuntimeError of [Path.resolve] *)

Definition validate_root (p : list text) : result root_error rpath :=
  let op := $"asmb8_http_origin.validate_root" in
  match path_resolve true p with
  | Err (ResolveOSError e q) =>
      Err (InvalidRoot (ProtocolError ($"invalid path " ++ repr (path_str p) ++ $": "
             ++ strerror e ++ $": " ++ repr (path_str q)) None op))
  | Err ResolveLoop => Err RootLoop
  | Ok resolved =>
      match stat (snd resolved) with
      | Ok (Dir _) => Ok resolved
      | _ => Err (InvalidRoot (ProtocolError ($"path " ++ repr (path_str p) ++ $" is not a directory") None op))
      end
  end.

(** [root == p or root in p.parents] *)
Fixpoint is_prefix (a b : path) : bool :=
  match a, b with
  | [], _ => true
  | x :: a, y :: b => text_eqb x y && is_prefix a b
  | _ :: _, [] => false
  end.
Definition in_root (root r : rpath) : bool :=
  Bool.eqb (fst root) (fst r) && is_prefix (snd root) (snd r).

(** The names a request-target asks for: one percent-decoding, then the
    split.  [None] is a refusal. *)
Definition request_segments (raw_target : text) : option (list text) :=
  let path_part := before_char (ch "#") (before_char (ch "?") raw_target) in
  match unquote path_part with
  | None => None
  | Some decoded =>
      if bool_decide (0 ∈ decoded) then None
      else
        let segments := List.filter (fun s => negb (is_curdir s)) (components decoded) in
        if existsb is_pardir segments then None else Some segments
  end.

Definition resolve_within_root (root : rpath) (raw_target : text) : option rpath :=
  match request_segments raw_target with
  | None => None
  | Some segments =>
      match path_resolve false (snd root ++ segments) with
      | Err _ => None
      | Ok resolved => if in_root root resolved then Some resolved else None
      end
  end.
End Kernel.

(** ** Lemmas on the walk *)

Section WalkLemmas.
Context (f : fs).

Lemma walk_nil l fo cur : walk f l fo cur [] = Ok cur.
Proof. by destruct l. Qed.

(** One step of the walk. *)
Lemma walk_cons l fo cur name rest :
  walk f l fo cur (name :: rest) =
    match node_at f cur with
    | Some (Dir true) =>
        if is_curdir name then walk f l fo cur rest
        else if is_pardir name then walk f l fo (removelast cur) rest
        else if name_too_long name then Err ENAMETOOLONG
        else match node_at f (cur ++ [name]) with
             | None => Err ENOENT
             | Some (Link t) =>
                 if bool_decide (rest = []) && negb fo then Ok (cur ++ [name])
                 else match l with
                      | O => Err ELOOP
                      | S l => walk f l fo (if startswith ($"/") t then [] else cur) (components t ++ rest)
                      end
             | Some _ => walk f l fo (cur ++ [name]) rest
             end
    | Some (Dir false) => Err EACCES
    | Some _ => Err ENOTDIR
    | None => Err ENOENT
    end.
Proof. by destruct l. Qed.

(** A walk that needs no link: with none allowed it does not end in a loop
    error.  Then the number allowed makes no difference. *)
Definition stable (p : path) : Prop := walk f O true [] p <> Err ELOOP.

Lemma walk_no_links cur a b l fo :
  match walk f O true cur a with
  | Ok q => walk f l fo cur (a ++ b) = walk f l fo q b
  | Err ELOOP => True
  | Err e => walk f l fo cur (a ++ b) = Err e
  end.
Proof.
  revert cur. induction a as [|name a IH]; intros cur.
  { by rewrite walk_nil. }
  rewrite walk_cons. cbn [app]. rewrite walk_cons.
  destruct (node_at f cur) as [[[]| | |]|]; try done.
  destruct (is_curdir name); [apply IH|]. destruct (is_pardir name); [apply IH|].
  destruct (name_too_long name); [done|].
  destruct (node_at f (cur ++ [name])) as [[| |t|]|]; try done; try apply IH.
  destruct (bool_decide (a = []) && negb true) eqn:E; [|done].
  apply andb_true_iff in E as [_ ?]. done.
Qed.

Lemma stable_walk p l fo : stable p -> walk f l fo [] p = walk f O true [] p.
Proof.
  intros Hs. pose proof (walk_no_links [] p [] l fo) as H. rewrite app_nil_r in H.
  unfold stable in Hs. destruct (walk f O true [] p) as [q|e]; [by rewrite H, walk_nil|].
  destruct e; try done.
Qed.

Lemma stable_prefix p q : stable (p ++ q) -> stable p.
Proof.
  intros Hs Hp. apply Hs. clear Hs. revert Hp. generalize (@nil text).
  induction p as [|name p IH]; intros cur; [by rewrite walk_nil|]. cbn [app].
  rewrite !walk_cons. destruct (node_at f cur) as [[[]| | |]|]; try done.
  destruct (is_curdir name); [apply IH|]. destruct (is_pardir name); [apply IH|].
  destruct (name_too_long name); [done|].
  destruct (node_at f (cur ++ [name])) as [[| |t|]|]; try done; try apply IH.
  by rewrite !andb_false_r.
Qed.

Definition normal_name (name : text) : Prop := is_curdir name = false /\ is_pardir name = false.
Definition normal (p : path) : Prop := Forall normal_name p.

(** Without links, a normal path is where its walk ends. *)
Lemma walk_normal cur a q : normal a -> walk f O true cur a = Ok q -> q = cur ++ a.
Proof.
  intros Ha. revert cur. induction Ha as [|name a [H1 H2] Ha IH]; intros cur.
  { rewrite walk_nil. intros [= <-]. by rewrite app_nil_r. }
  rewrite walk_cons, H1, H2. destruct (node_at f cur) as [[[]| | |]|]; try done.
  destruct (name_too_long name); [done|].
  destruct (node_at f (cur ++ [name])) as [[| |t|]|]; try done;
    try (intros H; apply IH in H as ->; by rewrite <- app_assoc).
  by rewrite andb_false_r.
Qed.

Lemma stable_walk_end p l fo q : stable p -> normal p -> walk f l fo [] p = Ok q -> q = p.
Proof. intros Hs Hn. rewrite stable_walk by done. by apply walk_normal. Qed.

Lemma join_slash_snoc p name : exists r, join_slash (p ++ [name]) = join_slash p ++ r.
Proof.
  induction p as [|a p [r IH]]; cbn [app]; [by exists name|].
  destruct p as [|b p]; [by exists (ch "/" :: name)|].
  exists r. cbn [join_slash app] in *. rewrite IH. by rewrite <- app_assoc.
Qed.

Lemma too_long_snoc p name : path_too_long p = true -> path_too_long (p ++ [name]) = true.
Proof.
  unfold path_too_long, path_str, encoded_len. destruct (join_slash_snoc p name) as [r ->].
  cbn [map List.concat]. rewrite map_app, concat_app, !blen_app. intros H. bool_to_prop.
  apply Z.leb_le. pose proof (blen_nonneg (List.concat (map utf8_char r))). lia.
Qed.

(** A path the library may return: every prefix the kernel accepts at all
    needs no link. *)
Definition sound (p : path) : Prop :=
  normal p /\ forall q r, p = q ++ r -> path_too_long q = true \/ stable q.

Lemma sound_nil : sound [].
Proof.
  split; [constructor|]. intros q r H. symmetry in H. apply app_eq_nil in H as [-> ->]. right. unfold stable. by rewrite walk_nil.
Qed.

Lemma sound_removelast p : sound p -> sound (removelast p).
Proof.
  destruct p as [|x p] using rev_ind; [done|]. rewrite removelast_last. intros [Hn H]. split.
  - by apply Forall_app in Hn as [? _].
  - intros q r ->. apply (H q (r ++ [x])). by rewrite app_assoc.
Qed.

Lemma sound_snoc p name :
  sound p -> normal_name name -> path_too_long (p ++ [name]) = true \/ stable (p ++ [name]) -> sound (p ++ [name]).
Proof.
  intros [Hn H] Hname Hnew. split.
  - apply Forall_app. split; [done|]. constructor; [done|constructor].
  - intros q r Hq. destruct r as [|x r _] using rev_ind; [by rewrite app_nil_r in Hq; subst q|].
    rewrite app_assoc in Hq. apply app_inj_tail in Hq as [-> _]. by apply (H q r).
Qed.

(** What [lstat] says of a name below such a path: a link, or nothing that
    makes the longer path need one. *)
Lemma lstat_step p name :
  sound p -> normal_name name ->
  match lstat f (p ++ [name]) with
  | Ok (Link t) => node_at f (p ++ [name]) = Some (Link t) /\ ~ stable (p ++ [name])
  | _ => sound (p ++ [name])
  end.
Proof.
  intros Hp Hname. pose proof (sound_snoc p name Hp Hname) as Hnew. pose proof Hname as [H1 H2].
  unfold lstat, lookup_node.
  destruct (path_too_long (p ++ [name])) eqn:Hl; [apply Hnew; by left|].
  destruct Hp as [Hn Hs].
  assert (stable p) as Hst.
  { destruct (Hs p []) as [Hc|?]; [by rewrite app_nil_r| |done].
    apply (too_long_snoc _ name) in Hc. congruence. }
  pose proof (walk_no_links [] p [name] MAXSYMLINKS false) as Hw.
  pose proof (walk_no_links [] p [name] O true) as Hw0. unfold stable in *.
  destruct (walk f O true [] p) as [q|e] eqn:Hp.
  2: { destruct e; try done; rewrite Hw; apply Hnew; right; by rewrite Hw0. }
  apply walk_normal in Hp as ->; [|done]. cbn [app] in *. rewrite Hw, Hw0 in *. clear Hw Hw0.
  rewrite !walk_cons, H1, H2 in *. destruct (node_at f p) as [[[]| | |]|]; try (apply Hnew; by right).
  destruct (name_too_long name); [apply Hnew; by right|].
  destruct (node_at f (p ++ [name])) as [[| |t|]|] eqn:Hnode; cbn in *; rewrite ?Hnode;
    try (apply Hnew; by right).
  split; [done|]. intros Hc. by apply Hc.
Qed.

(** Opening such a path reaches the node at that very path. *)
Lemma sound_stat p n : sound p -> stat f p = Ok n -> node_at f p = Some n.
Proof.
  intros [Hn Hs]. unfold stat, lookup_node. destruct (path_too_long p) eqn:Hl; [done|].
  destruct (Hs p []) as [?|Hst]; [by rewrite app_nil_r|congruence|].
  destruct (walk f MAXSYMLINKS true [] p) as [q|] eqn:Hw; [|done].
  apply stable_walk_end in Hw as ->; [|done|done]. destruct (node_at f p); congruence.
Qed.
End WalkLemmas.

(** ** [realpath]: enough fuel, and what a resolution without a loop gives *)

Section RealLemmas.
Context (f : fs).

(** The links not yet entered. *)
Definition fresh (seen : seen_map) : list path :=
  List.filter (fun p => negb (bool_decide (p ∈ seen.*1))) (remove_dups (link_paths f)).

(** The cache of resolved links holds sound paths. *)
Definition seen_sound (seen : seen_map) : Prop :=
  forall k p, assoc_get seen k = Some (Some p) -> sound f p.

Lemma node_link_in p t : node_at f p = Some (Link t) -> p ∈ link_paths f.
Proof.
  unfold node_at, link_paths. destruct p as [|x p]; [done|]. intros H%assoc_get_in.
  apply list_elem_of_fmap. exists (x :: p, Link t). split; [done|].
  apply list_elem_of_In, filter_In. split; [by apply list_elem_of_In|done].
Qed.

Lemma filter_absent_le (l a b : list path) :
  a ⊆ b ->
  (length (List.filter (fun p => negb (bool_decide (p ∈ b))) l)
   <= length (List.filter (fun p => negb (bool_decide (p ∈ a))) l))%nat.
Proof.
  intros Hsub. induction l as [|p l IH]; cbn; [lia|].
  destruct (decide (p ∈ a)) as [Ha|Ha].
  - rewrite !bool_decide_true by auto. cbn. lia.
  - rewrite (bool_decide_false (p ∈ a)) by done. case_bool_decide; cbn; lia.
Qed.

Lemma fresh_enter seen k v :
  k ∈ link_paths f -> k ∉ seen.*1 -> (length (fresh ((k, v) :: seen)) < length (fresh seen))%nat.
Proof.
  intros Hk Hn. apply elem_of_remove_dups in Hk. unfold fresh. cbn [fmap list_fmap fst].
  induction (remove_dups (link_paths f)) as [|p l IH]; [by apply elem_of_nil in Hk|]. cbn [List.filter].
  pose proof (filter_absent_le l seen.*1 (k :: seen.*1) ltac:(by apply list_subseteq_cons)) as Hle.
  apply elem_of_cons in Hk as [->|Hk].
  - rewrite (bool_decide_true (p ∈ p :: _)) by left. rewrite (bool_decide_false (p ∈ seen.*1)) by done. cbn. lia.
  - specialize (IH Hk). destruct (decide (p ∈ seen.*1)) as [Hp|Hp].
    + rewrite !bool_decide_true by (try right; done). done.
    + rewrite (bool_decide_false (p ∈ seen.*1)) by done. case_bool_decide; cbn; lia.
Qed.

Lemma fresh_total seen : (length (fresh seen) <= length (link_paths f))%nat.
Proof.
  unfold fresh. etransitivity; [apply filter_length_le|].
  apply NoDup_incl_length.
  - apply NoDup_ListNoDup, NoDup_remove_dups.
  - intros x. rewrite <- !list_elem_of_In. apply elem_of_remove_dups.
Qed.

(** One name of the loop of [_joinrealpath]. *)
Lemma joinrealpath_cons fuel strict p name rest seen :
  joinrealpath f (S fuel) strict p (name :: rest) seen =
    if is_curdir name then joinrealpath f (S fuel) strict p rest seen
    else if is_pardir name then joinrealpath f (S fuel) strict (removelast p) rest seen
    else
      let newpath := p ++ [name] in
      match lstat f newpath with
      | Err e => if strict then RealError e newpath else joinrealpath f (S fuel) strict newpath rest seen
      | Ok (Link t) =>
          let resolve_link :=
            match joinrealpath f fuel strict (if startswith ($"/") t then [] else p)
                    (components t) ((newpath, None) :: seen) with
            | Resolved p' seen' => joinrealpath f (S fuel) strict p' rest ((newpath, Some p') :: seen')
            | SymlinkLoop s => SymlinkLoop (os_path_join s (join_slash rest))
            | r => r
            end in
          match assoc_get seen newpath with
          | Some (Some p') => joinrealpath f (S fuel) strict p' rest seen
          | Some None =>
              if strict then
                match stat f newpath with
                | Err e => RealError e newpath
                | Ok _ => resolve_link
                end
              else SymlinkLoop (os_path_join (path_str newpath) (join_slash rest))
          | None => resolve_link
          end
      | Ok _ => joinrealpath f (S fuel) strict newpath rest seen
      end.
Proof. done. Qed.

(** What a call leaves: sound paths, a cache that only grew; the fuel runs
    out and an error is raised in strict mode only. *)
Definition real_post (strict : bool) (seen : seen_map) (r : real_result) : Prop :=
  match r with
  | Resolved p seen' => sound f p /\ seen_sound seen' /\ seen.*1 ⊆ seen'.*1
  | SymlinkLoop _ => strict = false
  | RealError _ _ | OutOfFuel => strict = true
  end.

Lemma real_post_weaken strict a b r : a.*1 ⊆ b.*1 -> real_post strict b r -> real_post strict a r.
Proof. destruct r; cbn; try done. intros Hab (H1 & H2 & H3). split_and!; [done|done|]. by etransitivity. Qed.

Lemma seen_sound_set seen k p :
  seen_sound seen -> (forall q, p = Some q -> sound f q) -> seen_sound ((k, p) :: seen).
Proof. intros Hs Hp k' p'. cbn. case_decide; [|by apply Hs]. intros [= ->]. by apply Hp. Qed.

Lemma assoc_get_absent (seen : seen_map) k : assoc_get seen k = None -> k ∉ seen.*1.
Proof. by apply assoc_get_none. Qed.

Lemma joinrealpath_post fuel strict p rest seen :
  sound f p -> seen_sound seen -> (strict = false -> (length (fresh seen) < fuel)%nat) ->
  real_post strict seen (joinrealpath f fuel strict p rest seen).
Proof.
  revert p rest seen. induction fuel as [|fuel IHf]; intros p rest seen.
  { intros _ _ H. cbn. destruct strict; [done|]. specialize (H eq_refl). lia. }
  revert p seen. induction rest as [|name rest IH]; intros p seen Hp Hseen Hfuel.
  { cbn. done. }
  rewrite joinrealpath_cons.
  destruct (is_curdir name) eqn:H1; [by apply IH|].
  destruct (is_pardir name) eqn:H2; [by apply IH, Hfuel; [apply sound_removelast|]|].
  pose proof (lstat_step f p name Hp (conj H1 H2)) as Hl. cbn zeta.
  destruct (lstat f (p ++ [name])) as [[| |t|]|e] eqn:El; [by apply IH|by apply IH| |by apply IH|].
  2: { destruct strict; [done|by apply IH]. }
  set (link := match joinrealpath f fuel _ _ _ _ with Resolved _ _ => _ | SymlinkLoop _ => _ | RealError _ _ => _ | OutOfFuel => _ end).
  assert ((strict = false -> assoc_get seen (p ++ [name]) = None) -> real_post strict seen link) as Hlink.
  { intros Hnew. subst link.
    assert (real_post strict ((p ++ [name], None) :: seen)
              (joinrealpath f fuel strict (if startswith ($"/") t then [] else p) (components t)
                 ((p ++ [name], None) :: seen))) as Hrec.
    { apply IHf.
      - destruct (startswith _ t); [apply sound_nil|done].
      - by apply seen_sound_set.
      - intros Hst. specialize (Hfuel Hst). eapply Nat.lt_le_trans; [|apply Nat.lt_succ_r, Hfuel].
        apply fresh_enter; [by destruct Hl; eapply node_link_in|by apply assoc_get_absent, Hnew]. }
    destruct (joinrealpath f fuel _ _ _ _) as [p' seen'|s|e q|]; [|done|done|done].
    destruct Hrec as (Hp' & Hs' & Hsub).
    assert (seen.*1 ⊆ ((p ++ [name], Some p') :: seen').*1) as Hgrow.
    { intros x Hx. right. apply Hsub. by right. }
    apply (real_post_weaken _ _ _ _ Hgrow).
    apply IH; [done|apply seen_sound_set; [done|by intros q [= ->]]|].
    intros Hst. specialize (Hfuel Hst). eapply Nat.le_lt_trans; [|exact Hfuel].
    by apply filter_absent_le. }
  destruct (assoc_get seen (p ++ [name])) as [[p'|]|] eqn:Es.
  - apply IH; [by eapply Hseen|done|done].
  - destruct strict; [|done]. destruct (stat f _); [by apply Hlink|done].
  - by apply Hlink.
Qed.
End RealLemmas.

Lemma is_prefix_spec a b : is_prefix a b = true <-> exists c, b = a ++ c.
Proof.
  split.
  - revert b. induction a as [|x a IH]; intros b H; [by exists b|].
    destruct b as [|y b]; [done|]. cbn in H. apply andb_true_iff in H as [->%text_eqb_eq H].
    destruct (IH b H) as [c ->]. by exists c.
  - intros [c ->]. induction a as [|x a IH]; cbn; [done|].
    apply andb_true_iff. split; [by apply text_eqb_eq|done].
Qed.

Lemma realpath_post f strict p : real_post f strict [] (realpath f strict p).
Proof.
  apply joinrealpath_post; [apply sound_nil|by intros ? ?|]. intros _.
  apply Nat.lt_succ_r, fresh_total.
Qed.

(** The path of a request whose resolution meets no loop of links. *)
Definition no_loop (f : fs) (p : list text) : Prop := forall s, realpath f false p <> SymlinkLoop s.

Lemma path_resolve_sound f p r :
  no_loop f p -> path_resolve f false p = Ok r -> fst r = false /\ sound f (snd r).
Proof.
  intros Hno. unfold path_resolve. pose proof (realpath_post f false p) as Hpost.
  destruct (realpath f false p) as [q seen|s|e q|] eqn:E; [|by destruct (Hno s)|done|done].
  destruct Hpost as (Hs & _). cbn. intros H.
  assert (r = (false, q)) as ->; [|done]. destruct (stat f q) as [|[]]; congruence.
Qed.

(** A path that needs no link resolves to itself. *)
Lemma joinrealpath_stable f fuel p rest seen :
  normal (p ++ rest) -> stable f (p ++ rest) -> sound f p ->
  joinrealpath f (S fuel) false p rest seen = Resolved (p ++ rest) seen.
Proof.
  revert p. induction rest as [|name rest IH]; intros p Hn Hs Hp; [by rewrite app_nil_r|].
  assert (normal_name name) as Hname.
  { apply Forall_app in Hn as [_ Hn]. by apply Forall_cons in Hn as [? _]. }
  rewrite cons_middle, app_assoc in Hn, Hs |- *.
  assert (sound f (p ++ [name])) as Hp'.
  { apply sound_snoc; [done|done|]. right. by eapply stable_prefix. }
  rewrite joinrealpath_cons. pose proof (lstat_step f p name Hp Hname) as Hl. destruct Hname as [-> ->].
  cbn zeta. destruct (lstat f (p ++ [name])) as [[| |t|]|e] eqn:El; try by apply IH.
  destruct Hl as [_ []]. by eapply stable_prefix.
Qed.

Lemma stable_resolves f p : normal p -> stable f p -> path_resolve f false p = Ok (false, p).
Proof.
  intros Hn Hs. unfold path_resolve, realpath, real_fuel.
  rewrite joinrealpath_stable; [|done|done|apply sound_nil]. cbn [app snd].
  unfold stat, lookup_node. destruct (path_too_long p); [done|]. rewrite stable_walk by done.
  unfold stable in Hs. destruct (walk f 0 true [] p) as [q|[]]; try done. by destruct (node_at f q).
Qed.

(** A file name a directory entry can have. *)
Definition file_name (p : text) : Prop := normal_name p /\ (ch "/" ∉ p) /\ (0 ∉ p).

Lemma filter_names parts :
  Forall file_name parts -> List.filter (fun s => negb (is_curdir s)) parts = parts.
Proof. induction 1 as [|p parts [[H _] _] Hall IH]; cbn; [done|]. rewrite H. cbn. by rewrite IH. Qed.

Lemma join_slash_in c parts : c ∈ join_slash parts -> c = ch "/" \/ exists p, p ∈ parts /\ c ∈ p.
Proof.
  induction parts as [|p parts IH]; cbn [join_slash]; [by intros ?%elem_of_nil|].
  destruct parts as [|p' parts]; [intros H; right; exists p; by split; [left|]|].
  intros [H|H]%elem_of_app; [right; exists p; by split; [left|]|].
  apply elem_of_cons in H as [->|H]; [by left|]. destruct (IH H) as [?|(q & Hq & ?)]; [by left|].
  right. exists q. by split; [right|].
Qed.

(** The quoted form of a list of names asks for exactly those names. *)
Lemma request_segments_quoted parts qs :
  quoted_path parts qs -> Forall file_name parts ->
  request_segments (ch "/" :: join_slash qs) = Some parts.
Proof.
  intros [Hu Hc]%unquote_quoted_path Hf. unfold request_segments.
  rewrite url_chars_before by done. rewrite Hu. rewrite bool_decide_false.
  2: { intros [H|H]%elem_of_cons; [by vm_compute in H|].
       apply join_slash_in in H as [H|(p & Hp & H)]; [by vm_compute in H|].
       eapply Forall_forall in Hp; [|exact Hf]. by destruct Hp as (_ & _ & ?). }
  assert (List.filter (fun s => negb (is_curdir s)) (components (ch "/" :: join_slash parts)) = parts) as ->.
  { unfold components. cbn [split_char]. rewrite Z.eqb_refl. cbn.
    destruct parts as [|p parts]; [done|]. rewrite split_join.
    - by apply (filter_names (p :: parts)).
    - done.
    - eapply Forall_impl; [exact Hf|]. by intros x (_ & ? & _). }
  replace (existsb is_pardir parts) with false; [done|]. symmetry.
  apply not_true_iff_false. intros (x & Hx & Hd)%existsb_exists.
  apply list_elem_of_In in Hx. eapply Forall_forall in Hx; [|exact Hf]. destruct Hx as ([_ ?] & _). congruence.
Qed.

(** A file below the root is found: asking for the percent-encoded form
    of its path (names quoted one by one and joined with slashes) resolves to
    exactly that path, when no symbolic link lies on it. *)
Lemma resolve_quoted f root parts qs :
  quoted_path parts qs -> Forall file_name parts ->
  normal root -> stable f (root ++ parts) ->
  resolve_within_root f (false, root) (ch "/" :: join_slash qs) = Some (false, root ++ parts).
Proof.
  intros Hq Hf Hr Hs. unfold resolve_within_root. erewrite request_segments_quoted by done. cbn [snd].
  rewrite stable_resolves; [|apply Forall_app; split; [done|]|done].
  - unfold in_root. cbn [fst snd Bool.eqb andb].
    assert (is_prefix root (root ++ parts) = true) as ->; [|done]. apply is_prefix_spec. by exists parts.
  - eapply Forall_impl; [exact Hf|]. by intros x [? _].
Qed.

(** ** Properties *)

(** [os.path.realpath] as the server calls it always returns: links are
    entered at most once each, so the nesting bound is never reached, and
    without [strict] nothing is raised. *)
Theorem realpath_terminates f p :
  (exists q seen, realpath f false p = Resolved q seen) \/ (exists s, realpath f false p = SymlinkLoop s).
Proof.
  pose proof (realpath_post f false p) as H. destruct (realpath f false p); [by eauto|by eauto|done|done].
Qed.

(** C4: Confinement.  When no loop of symbolic links is met on the way, a
    request that is not refused resolves to a path below the served root,
    and opening that path reaches the node at that very path: no symbolic
    link can lead out of the root, however the request-target was spelled. *)
Theorem resolve_confined f root target r :
  resolve_within_root f root target = Some r ->
  (forall segments, request_segments target = Some segments -> no_loop f (snd root ++ segments)) ->
  fst r = false /\ fst root = false /\
  exists below, snd r = snd root ++ below /\ normal below /\
    forall n, stat f (snd r) = Ok n -> node_at f (snd root ++ below) = Some n.
Proof.
  unfold resolve_within_root. destruct (request_segments target) as [segments|]; [|done].
  intros Hres Hno. specialize (Hno _ eq_refl).
  destruct (path_resolve f false _) as [r'|e] eqn:Hp; [|done].
  destruct (in_root root r') eqn:Hin; [|done]. injection Hres as ->.
  apply path_resolve_sound in Hp as [Hf Hs]; [|done].
  unfold in_root in Hin. apply andb_true_iff in Hin as [He Hin].
  apply Bool.eqb_prop in He. apply is_prefix_spec in Hin as [below Hb].
  split_and!; [done|congruence|]. exists below. split_and!; [done| |].
  - destruct Hs as [Hn _]. rewrite Hb in Hn. by apply Forall_app in Hn as [_ ?].
  - intros n Hn. rewrite <- Hb. by apply sound_stat.
Qed.

(** [validate_root] returns a directory it fully resolved, so every later
    comparison is against a link-free root. *)
Lemma validate_root_ok f p r :
  validate_root f p = Ok r ->
  fst r = false /\ sound f (snd r) /\ exists s, node_at f (snd r) = Some (Dir s).
Proof.
  unfold validate_root, path_resolve. pose proof (realpath_post f true p) as Hpost.
  destruct (realpath f true p) as [q seen|s|e q|] eqn:E; cbn in Hpost; [|done| |done].
  - destruct Hpost as (Hs & _). cbn [snd].
    destruct (stat f q) as [[b| | |]|e] eqn:Est; try done. intros [= <-].
    split_and!; [done|done|]. exists b. by apply sound_stat.
  - by unfold check_eloop; case_decide.
Qed.

(** A path without links that can be opened resolves to itself, strictly. *)
Lemma too_long_app p q : path_too_long (p ++ q) = false -> path_too_long p = false.
Proof.
  revert p. induction q as [|x q IH]; intros p; [by rewrite app_nil_r|]. rewrite cons_middle, app_assoc. intros H%IH.
  destruct (path_too_long p) eqn:E; [|done]. by rewrite (too_long_snoc p x E) in H.
Qed.

Lemma walk_prefix f p name q : normal (p ++ [name]) ->
  walk f O true [] p = Ok p -> walk f O true [] (p ++ [name]) = Ok q -> q = p ++ [name] /\ exists n, node_at f q = Some n.
Proof.
  intros Hn Hp H. pose proof (walk_normal f [] (p ++ [name]) q Hn H) as ->. split; [done|].
  pose proof (walk_no_links f [] p [name] O true) as Hw. rewrite Hp, H in Hw. symmetry in Hw. rewrite walk_cons in Hw.
  apply Forall_app in Hn as [_ [[H1 H2] _]%Forall_cons]. rewrite H1, H2 in Hw.
  destruct (node_at f p) as [[[]| | |]|]; try done. destruct (name_too_long name); [done|]. cbn [app].
  destruct (node_at f (p ++ [name])); [by eexists|done].
Qed.

Lemma joinrealpath_strict f fuel p rest seen :
  path_too_long (p ++ rest) = false -> normal (p ++ rest) -> stable f (p ++ rest) -> sound f p ->
  walk f O true [] p = Ok p -> walk f O true [] (p ++ rest) = Ok (p ++ rest) ->
  joinrealpath f (S fuel) true p rest seen = Resolved (p ++ rest) seen.
Proof.
  revert p. induction rest as [|name rest IH]; intros p Hl Hn Hs Hp Hwp Hw; [by rewrite app_nil_r|].
  assert (normal_name name) as Hname by (apply Forall_app in Hn as [_ [? _]%Forall_cons]; done).
  rewrite cons_middle, app_assoc in Hl, Hn, Hs, Hw |- *.
  pose proof (stable_prefix f _ _ Hs) as Hs1. pose proof (too_long_app _ _ Hl) as Hl1.
  assert (normal (p ++ [name])) as Hn1 by (by apply Forall_app in Hn as [? _]).
  assert (sound f (p ++ [name])) as Hp1 by (apply sound_snoc; [done|done|by right]).
  assert (walk f O true [] (p ++ [name]) = Ok (p ++ [name]) /\ exists n, node_at f (p ++ [name]) = Some n) as [Hw1 [n Hnode]].
  { pose proof (walk_no_links f [] (p ++ [name]) rest O true) as H.
    destruct (walk f O true [] (p ++ [name])) as [q|e] eqn:E.
    - destruct (walk_prefix f p name q Hn1 Hwp E) as [-> ?]. by split.
    - exfalso. destruct e; first [congruence | by apply Hs1]. }
  pose proof (lstat_step f p name Hp Hname) as Hls.
  assert (lstat f (p ++ [name]) = Ok n) as Hlst.
  { unfold lstat, lookup_node. rewrite Hl1, (stable_walk f _ _ _ Hs1), Hw1. by rewrite Hnode. }
  rewrite joinrealpath_cons. rewrite Hlst in Hls. destruct Hname as [-> ->]. cbv zeta. rewrite Hlst.
  destruct n; try by apply IH. by destruct Hls as [_ []].
Qed.

(** What [validate_root] returned, the daemon resolves to the same. *)
Lemma validated_root_resolves f p r : validate_root f p = Ok r -> path_resolve f true (snd r) = Ok r.
Proof.
  intros Hv. pose proof (validate_root_ok f p r Hv) as (Hf & [Hn Hs] & _). destruct r as [b q]. cbn [fst snd] in *. subst b.
  assert (exists n, stat f q = Ok n) as [n Hst].
  { revert Hv. unfold validate_root. destruct (path_resolve f true p) as [r|[]]; [|done|done].
    destruct (stat f (snd r)) as [[]|] eqn:E; try done. intros [= ->]. by eexists. }
  unfold stat, lookup_node in Hst. destruct (path_too_long q) eqn:Hl; [done|].
  destruct (Hs q []) as [?|Hst']; [by rewrite app_nil_r|congruence|].
  rewrite (stable_walk f q _ _ Hst') in Hst. destruct (walk f 0 true [] q) as [q'|] eqn:Hw; [|done].
  pose proof (walk_normal f [] q q' Hn Hw) as ->. cbn [app] in Hw.
  unfold path_resolve, realpath, real_fuel.
  rewrite (joinrealpath_strict f (length (link_paths f)) [] q []); [done|done|done|done|apply sound_nil|apply walk_nil|exact Hw].
Qed.

(** A served directory with, beside an ordinary file, a link to itself, a
    link out of the root, and a link that names the second through the
    first. *)
Definition looping_fs : fs :=
  [([$"srv"], Dir true);
   ([$"srv"; $"boot.img"], File true [1; 2; 3]);
   ([$"srv"; $"current"], Link ($"boot.img"));
   ([$"srv"; $"loop"], Link ($"loop"));
   ([$"srv"; $"out"], Link ($"/etc/passwd"));
   ([$"srv"; $"a"], Link ($"loop/../out"));
   ([$"etc"], Dir true);
   ([$"etc"; $"passwd"], File true [114; 111; 111; 116])].
Definition srv : rpath := (false, [$"srv"]).

(** A loop of symbolic links defeats the confinement: the direct link
    out of the root is refused, but a link that names it through a looping
    link resolves to the direct link itself, which lies in the root and is
    not followed further; reading it then serves the file outside. *)
Theorem symlink_loop_escapes :
  validate_root looping_fs [$"srv"] = Ok srv /\
  resolve_within_root looping_fs srv ($"/out") = None /\
  resolve_within_root looping_fs srv ($"/a") = Some (false, [$"srv"; $"out"]) /\
  stat looping_fs [$"srv"; $"out"] = Ok (File true [114; 111; 111; 116]) /\
  node_at looping_fs [$"etc"; $"passwd"] = Some (File true [114; 111; 111; 116]).
Proof. split_and!; by vm_compute. Qed.

(** [validate_root] raises a classified error for a missing path and a
    path that is no directory, but a loop of links escapes it as the bare
    [RuntimeError] of [Path.resolve]. *)
Theorem looping_root_unclassified :
  (exists e, validate_root looping_fs [$"missing"] = Err (InvalidRoot e) /\ error_class e = PROTOCOL) /\
  (exists e, validate_root looping_fs [$"srv"; $"boot.img"] = Err (InvalidRoot e) /\ error_class e = PROTOCOL) /\
  validate_root looping_fs [$"srv"; $"loop"] = Err RootLoop.
Proof. split_and!; [eexists; split; by vm_compute|eexists; split; by vm_compute|by vm_compute]. Qed.

Lemma resolve_confined_witness :
  exists below, [$"srv"; $"boot.img"] = [$"srv"] ++ below /\ normal below /\
    forall n, stat looping_fs [$"srv"; $"boot.img"] = Ok n -> node_at looping_fs ([$"srv"] ++ below) = Some n.
Proof.
  refine (proj2 (proj2 (resolve_confined looping_fs srv ($"/%63urrent?x=1") (false, [$"srv"; $"boot.img"]) _ _))).
  - by vm_compute.
  - intros segments H s. vm_compute in H. injection H as <-. by vm_compute.
Defined.
