(* ===== verification/HttpOrigin.v ===== *)
(** * http_origin.py: the request handler, the self-test and the daemon

    A request is served against the directory tree as it is at four moments
    ([fs_at]): when the target is resolved, when [is_file] looks, when the
    size is taken, and when the file is opened.  The connection is the list
    of what each write to it will do.  Time stamps are the clock's reading. *)
From Stdlib Require Import ZArith Lia Ascii String.
From stdpp Require Import prelude.
From S2P Require Import Prelude PyBytes PyText Regex Errors Url HttpPath HttpRange DaemonRuntime.

(** ** State *)

Inductive OriginState : Type := OSTARTING | OSERVING | OSTOPPED | OERROR.

Definition origin_state_str (s : OriginState) : text :=
  match s with
  | OSTARTING => $"starting"
  | OSERVING => $"serving"
  | OSTOPPED => $"stopped"
  | OERROR => $"error"
  end.

Definition TERMINAL (s : OriginState) : bool :=
  match s with
  | OSTOPPED | OERROR => true
  | _ => false
  end.

(** The record of the state file. *)
Record HttpState : Type := mkHttpState {
  hs_session_id : text;
  hs_pid : Z;
  hs_state : OriginState;
  hs_error : option text;
  hs_error_class : option ErrorClass;
  hs_root : text;
  hs_bind_address : text;
  hs_port : Z;
  hs_url : option text;
  hs_request_count : Z;
  hs_bytes_served : Z;
  hs_last_request_at : option Z;
  hs_started_at : Z;
  hs_updated_at : Z;
  hs_stop_reason : option text;
}.

(** One line of the access log. *)
Record AccessRecord : Type := mkAccess {
  ar_time : Z;
  ar_method : text;
  ar_path : text;
  ar_status : Z;
  ar_outcome : text;
  ar_bytes_sent : Z;
  ar_client : text;
  ar_self_test : bool;
}.

(** [class SessionConfig] *)
Record OriginConfig : Type := mkOrigin {
  oc_session_id : text;
  oc_root : list text;
  oc_bind_address : text;
  oc_port : Z;
  oc_lifetime : Z;                    (* in milliseconds *)
}.

Abbreviation HWorld := (world HttpState AccessRecord).

Definition access_log_file_path (session_id : text) : text := session_id ++ $"-access.log".

Definition origin_initial_state (session_id : text) (pid : Z) (root bind_address : text) (port now : Z) : HttpState :=
  mkHttpState session_id pid OSTARTING None None root bind_address port None 0 0 None now now None.

(** The assignments made to the record, by group. *)
Definition hs_count (sent now : Z) (s : HttpState) : HttpState :=
  mkHttpState (hs_session_id s) (hs_pid s) (hs_state s) (hs_error s) (hs_error_class s) (hs_root s)
    (hs_bind_address s) (hs_port s) (hs_url s) (hs_request_count s + 1) (hs_bytes_served s + sent) (Some now)
    (hs_started_at s) (hs_updated_at s) (hs_stop_reason s).
Definition hs_touch (now : Z) (s : HttpState) : HttpState :=
  mkHttpState (hs_session_id s) (hs_pid s) (hs_state s) (hs_error s) (hs_error_class s) (hs_root s)
    (hs_bind_address s) (hs_port s) (hs_url s) (hs_request_count s) (hs_bytes_served s) (hs_last_request_at s)
    (hs_started_at s) now (hs_stop_reason s).
Definition hs_bound (port : Z) (url : text) (s : HttpState) : HttpState :=
  mkHttpState (hs_session_id s) (hs_pid s) (hs_state s) (hs_error s) (hs_error_class s) (hs_root s)
    (hs_bind_address s) port (Some url) (hs_request_count s) (hs_bytes_served s) (hs_last_request_at s)
    (hs_started_at s) (hs_updated_at s) (hs_stop_reason s).
Definition hs_status (st : OriginState) (err : option text) (ec : option ErrorClass) (stop : option text)
    (s : HttpState) : HttpState :=
  mkHttpState (hs_session_id s) (hs_pid s) st err ec (hs_root s)
    (hs_bind_address s) (hs_port s) (hs_url s) (hs_request_count s) (hs_bytes_served s) (hs_last_request_at s)
    (hs_started_at s) (hs_updated_at s) stop.

(** [remove_state] *)
Definition origin_remove_state (session_id : text) (w : HWorld) : HWorld :=
  remove_paths [state_file_path session_id; log_file_path session_id; access_log_file_path session_id] w.

(** [_append_access_log]: best effort, an [OSError] is dropped. *)
Definition access_log (session_id : text) (w : HWorld) : list AccessRecord :=
  match assoc_get (w_files w) (access_log_file_path session_id) with
  | Some (LineLog l) => l
  | _ => []
  end.
Definition append_access_log (session_id : text) (r : AccessRecord) (w : HWorld) : HWorld :=
  let write :=
    run disk_step;
    io_modify (fun w => set_files w (assoc_set (w_files w) (access_log_file_path session_id)
                                       (LineLog (access_log session_id w ++ [r])))) in
  (write w).2.

(** [_run_daemon._persist]: an [OSError] is dropped. *)
Definition origin_persist (session_id : text) (s : HttpState) (w : HWorld) : HttpState * HWorld :=
  let s := hs_touch (w_clock w) s in
  (s, (write_state_atomic session_id s w).2).

(** The parent's half of [spawn_session]; [fork] is what forking the daemon
    does: the pid reported over the pipe, if any, and the world afterwards. *)
Definition origin_spawn_session (has_fork : bool) (fork : OriginConfig -> HWorld -> option Z * HWorld) (now : Z)
    (cfg : OriginConfig) : io HWorld exn Z :=
  if negb has_fork then
    io_raise (Ikvm (UnsupportedCapabilityError
      ($"asmb8_http_origin's background-server mechanism requires a POSIX controller with os.fork() (Linux/macOS). It is not available when the Ansible controller itself runs on Windows.")
      None ($"asmb8_http_origin.spawn_session")))
  else
    do reported <- (fun w => let '(p, w) := fork cfg w in (Ret p, w));
    match reported with
    | None =>
        io_raise (Ikvm (ProtocolError
          ($"asmb8_http_origin background server did not report a pid; it likely failed during os.setsid()/fork() before it could start listening -- check the session log")
          None ($"asmb8_http_origin.spawn_session")))
    | Some pid =>
        run write_state_if_absent (oc_session_id cfg)
              (origin_initial_state (oc_session_id cfg) pid (path_str (oc_root cfg)) (oc_bind_address cfg) (oc_port cfg) now);
        io_ret pid
    end.

(** ** The connection *)

Inductive write_outcome : Type :=
  | WOk
  | WReset                   (* BrokenPipeError or ConnectionResetError *)
  | WFail (msg : text).      (* another OSError, such as a timeout *)

Inductive sent : Type :=
  | SentHead (status : Z) (headers : list (text * text))
  | SentBody (b : bytes).

(** What a handler can raise: [BrokenPipeError] or [ConnectionResetError],
    another [OSError], and [UnicodeEncodeError] from the status line. *)
Inductive herr : Type :=
  | Disconnected
  | HOSError (msg : text)
  | HUnicode.

(** The variables of [_handle] and the connection. *)
Record hstate : Type := mkH {
  h_plan : list write_outcome;
  h_sent : list sent;
  h_status : Z;
  h_outcome : text;
  h_bytes : Z;
}.

Definition note (status : Z) (outcome : text) : io hstate herr unit :=
  io_modify (fun h => mkH (h_plan h) (h_sent h) status outcome (h_bytes h)).

(** [self.wfile.write] *)
Definition wfile_write (x : sent) : io hstate herr unit := fun h =>
  match h_plan h with
  | [] => (Ret tt, mkH [] (h_sent h ++ [x]) (h_status h) (h_outcome h) (h_bytes h))
  | WOk :: q => (Ret tt, mkH q (h_sent h ++ [x]) (h_status h) (h_outcome h) (h_bytes h))
  | WReset :: q => (Raise Disconnected, mkH q (h_sent h) (h_status h) (h_outcome h) (h_bytes h))
  | WFail e :: q => (Raise (HOSError e), mkH q (h_sent h) (h_status h) (h_outcome h) (h_bytes h))
  end.

Definition herr_str (e : herr) : text :=
  match e with
  | Disconnected => $"[Errno 32] Broken pipe"
  | HOSError m => m
  | HUnicode => $"'latin-1' codec can't encode characters"
  end.
Definition HErrno (e : errno) (p : path) : herr := HOSError (strerror e ++ $": " ++ repr (path_str p)).

(** A request as the handler reads it. *)
Record request : Type := mkRequest {
  rq_get : bool;                (* GET, else HEAD *)
  rq_path : text;
  rq_range : option text;
  rq_self_test : bool;          (* carries the self-test header *)
  rq_client : text;
}.
Definition command (q : request) : text := if rq_get q then $"GET" else $"HEAD".

Definition COPY_BUFFER_SIZE : Z := 64 * 1024.

Section Handler.
(** [mimetypes.guess_type], and the error page of [http.server]. *)
Variable guess_type : text -> option text.
Variable error_page : Z -> text -> bytes.
(** [st_size] of what is no regular file. *)
Variable other_size : Z.

Definition st_size (n : node) : Z :=
  match n with
  | File _ d => blen d
  | _ => other_size
  end.

(** [BaseHTTPRequestHandler.send_error] *)
Definition send_error (q : request) (status : Z) (msg : text) : io hstate herr unit :=
  let body := error_page status msg in
  if existsb (fun c => 255 <? c) msg then io_raise HUnicode       (* the status line is Latin-1 *)
  else
  run wfile_write (SentHead status
        [($"Connection", $"close"); ($"Content-Type", $"text/html;charset=utf-8");
         ($"Content-Length", dec (blen body))]);
  if rq_get q && negb (bool_decide (body = [])) then wfile_write (SentBody body) else io_ret tt.

(** The copy loop; [fuel] bounds its iterations. *)
Fixpoint copy_loop (fuel : nat) (data : bytes) (pos remaining : Z) : io hstate herr unit :=
  match fuel with
  | O => fun h => (Blocked, h)
  | S fuel =>
      if remaining <=? 0 then io_ret tt
      else
        let chunk := take (Z.to_nat (Z.min COPY_BUFFER_SIZE remaining)) (drop (Z.to_nat pos) data) in
        match chunk with
        | [] => io_ret tt
        | _ =>
            run wfile_write (SentBody chunk);
            run io_modify (fun h => mkH (h_plan h) (h_sent h) (h_status h) (h_outcome h) (h_bytes h + blen chunk));
            copy_loop fuel data (pos + blen chunk) (remaining - blen chunk)
        end
  end.

(** [resolved.open("rb")] *)
Definition open_file (f : fs) (p : path) : io hstate herr bytes :=
  match stat f p with
  | Ok (File true d) => io_ret d
  | Ok (File false _) => io_raise (HErrno EACCES p)
  | Ok (Dir _) => io_raise (HOSError ($"[Errno 21] Is a directory: " ++ repr (path_str p)))
  | Ok (Link _) => io_raise (HErrno ELOOP p)
  | Ok Other => fun h => (Blocked, h)
  | Err e => io_raise (HErrno e p)
  end.

(** [Path.is_file]: the errors that mean no such file, and the others. *)
Definition is_file (f : fs) (p : path) : result errno bool :=
  match stat f p with
  | Ok (File _ _) => Ok true
  | Ok _ => Ok false
  | Err ENOENT | Err ENOTDIR | Err ELOOP => Ok false
  | Err e => Err e
  end.

Section Request.
Context (fs_at : nat -> fs) (root : rpath) (q : request).

Definition not_found (outcome : text) : io hstate herr unit :=
  run note 404 outcome;
  send_error q 404 ($"Not Found").

(** The body of [_handle] below its [try]. *)
Definition serve_file (resolved : rpath) (file_size : Z) (byte_range : option ByteRange) : io hstate herr unit :=
  let '(start, stop) := match byte_range with
                        | None => (0, file_size - 1)
                        | Some r => (br_start r, br_end r)
                        end in
  let length := stop - start + 1 in
  let content_type := default ($"application/octet-stream") (guess_type (path_str (snd resolved))) in
  let status := match byte_range with Some _ => 206 | None => 200 end in
  run io_modify (fun h => mkH (h_plan h) (h_sent h) status (h_outcome h) (h_bytes h));
  run wfile_write (SentHead status
        ([($"Content-Type", content_type); ($"Content-Length", dec length); ($"Accept-Ranges", $"bytes")]
         ++ match byte_range with
            | Some _ => [($"Content-Range", $"bytes " ++ dec start ++ $"-" ++ dec stop ++ $"/" ++ dec file_size)]
            | None => []
            end));
  if rq_get q then
    io_try
      (do data <- open_file (fs_at 3) (snd resolved);
       copy_loop (S (Z.to_nat length)) data start length)
      (fun e => match e with
                | Disconnected => io_modify (fun h => mkH (h_plan h) (h_sent h) (h_status h) ($"client_disconnected") (h_bytes h))
                | e => io_raise e
                end)
  else io_modify (fun h => mkH (h_plan h) (h_sent h) (h_status h) (h_outcome h) 0).

Definition handle_body : io hstate herr unit :=
  match resolve_within_root (fs_at 0) root (rq_path q) with
  | None => not_found ($"blocked_traversal")
  | Some resolved =>
      do regular <- match is_file (fs_at 1) (snd resolved) with
                    | Ok b => io_ret b
                    | Err e => io_raise (HErrno e (snd resolved))
                    end;
      if negb regular then not_found ($"not_found")
      else match stat (fs_at 2) (snd resolved) with
           | Err _ => not_found ($"not_found")
           | Ok n =>
               let file_size := st_size n in
               match parse_range_header (rq_range q) file_size with
               | Err RangeNotSatisfiable =>
                   run note 416 ($"range_not_satisfiable");
                   wfile_write (SentHead 416 [($"Content-Range", $"bytes */" ++ dec file_size); ($"Content-Length", $"0")])
               | Ok byte_range => serve_file resolved file_size byte_range
               end
           end
  end.

(** [_handle] up to its [finally] *)
Definition handle_guarded : io hstate herr unit :=
  io_try handle_body
    (fun e => match e with
              | HUnicode => io_raise e
              | e =>
                  run note 500 ($"error");
                  io_try (send_error q 500 (redact (Some (herr_str e)) [])) (fun _ => io_ret tt)
              end).
End Request.

(** The daemon's shared record and its world. *)
Record origin : Type := mkO {
  o_state : HttpState;
  o_world : HWorld;
}.

(** The [finally] of [_handle]: the counters (under the lock, hence in one
    step), then the log line. *)
Definition finish_request (session_id : text) (q : request) (h : hstate) (o : origin) : origin :=
  let now := w_clock (o_world o) in
  let '(s, w) := if rq_self_test q then (o_state o, o_world o)
                 else origin_persist session_id (hs_count (h_bytes h) now (o_state o)) (o_world o) in
  mkO s (append_access_log session_id
           (mkAccess now (command q) (rq_path q) (h_status h) (h_outcome h) (h_bytes h) (rq_client q)
              (rq_self_test q)) w).

(** [_handle] on a fresh connection whose writes go as planned: what was
    sent and the daemon afterwards. *)
Definition handle_request (session_id : text) (fs_at : nat -> fs) (root : rpath) (q : request)
    (plan : list write_outcome) (o : origin) : outcome herr (list sent) * origin :=
  match handle_guarded fs_at root q (mkH plan [] 200 ($"ok") 0) with
  | (Ret _, h) => (Ret (h_sent h), finish_request session_id q h o)
  | (Raise e, h) => (Raise e, finish_request session_id q h o)
  | (Blocked, _) => (Blocked, o)
  end.

(** ** The startup self-test *)

Section SelfTest.
Context (f : fs).

(** The entries of a directory, as [os.scandir] lists them. *)
Definition entry_of (d : path) (p : path) : option text :=
  if is_prefix d p then
    match drop (length d) p with
    | [name] => Some name
    | _ => None
    end
  else None.
Definition scandir (d : path) : list text :=
  match node_at f d with
  | Some (Dir true) => omap (fun x => entry_of d (fst x)) f
  | _ => []
  end.
Definition entry_is_dir (d : path) (name : text) : bool :=
  match stat f (d ++ [name]) with
  | Ok (Dir _) => true
  | _ => false
  end.
Definition is_symlink (p : path) : bool :=
  match lstat f p with
  | Ok (Link _) => true
  | _ => false
  end.

(** The first file of one directory. *)
Fixpoint first_file (d : path) (names : list text) : result errno (option path) :=
  match names with
  | [] => Ok None
  | name :: names =>
      let* regular := is_file f (d ++ [name]) in
      if regular && negb (is_symlink (d ++ [name])) then Ok (Some (d ++ [name]))
      else first_file d names
  end.

(** [_find_probe_file]: [os.walk], top down; [fuel] bounds the depth. *)
Fixpoint find_probe_in (fuel : nat) (d : path) : result errno (option path) :=
  match fuel with
  | O => Ok None
  | S fuel =>
      let names := scandir d in
      let dirnames := sorted_names (List.filter (entry_is_dir d) names) in
      let filenames := sorted_names (List.filter (fun n => negb (entry_is_dir d n)) names) in
      let* found := first_file d filenames in
      match found with
      | Some p => Ok (Some p)
      | None =>
          (fix down (dirs : list text) :=
             match dirs with
             | [] => Ok None
             | n :: dirs =>
                 if is_symlink (d ++ [n]) then down dirs
                 else
                   let* found := find_probe_in fuel (d ++ [n]) in
                   match found with
                   | Some p => Ok (Some p)
                   | None => down dirs
                   end
             end) dirnames
      end
  end.
Definition max_depth : nat := fold_right Nat.max O (map (fun x => length (fst x)) f).
Definition find_probe_file (root : path) : result errno (option path) := find_probe_in (S max_depth) root.

(** [_self_test_connect_host] and [_format_bound_url] *)
Definition self_test_connect_host (bind_address : text) : text :=
  if bool_decide (bind_address = $"0.0.0.0") || bool_decide (bind_address = []) then $"127.0.0.1"
  else if bool_decide (bind_address = $"::") then $"::1"
  else bind_address.
Definition format_bound_url (bind_address : text) (port : Z) : text :=
  let host := if bool_decide (ch ":" ∈ bind_address) then ch "[" :: bind_address ++ $"]" else bind_address in
  $"http://" ++ host ++ $":" ++ dec port ++ $"/".

Definition SELF_TEST_EMPTY_ROOT_PROBE_PATH : text := $"/.asmb8-http-origin-selftest-no-file-in-root".

Fixpoint quote_all (parts : list text) : option (list text) :=
  match parts with
  | [] => Some []
  | p :: parts => q ← quote p; qs ← quote_all parts; Some (q :: qs)
  end.

(** [_run_self_test]; [serve] is the round trip of one request: the message
    of the [OSError] or [HTTPException], or status and body. *)
Definition round_trip : Type := text -> io origin exn (result text (Z * bytes)).

Definition judge_probe (get url_path : text) (expected : bytes) (r : result text (Z * bytes)) : bool * text :=
  match r with
  | Err e => (false, get ++ $" failed: " ++ e)
  | Ok (status, body) =>
      if negb (status =? 200) then
        (false, get ++ $" returned status " ++ dec status ++ $", expected 200")
      else if negb (bool_decide (body = expected)) then
        (false, get ++ $" returned " ++ dec (blen body) ++ $" bytes, expected " ++ dec (blen expected))
      else (true, $"self-test verified " ++ dec (blen body) ++ $" real byte(s) served from " ++ url_path)
  end.
Definition judge_empty (get : text) (r : result text (Z * bytes)) : bool * text :=
  match r with
  | Err e => (false, get ++ $" failed: " ++ e)
  | Ok (status, _) =>
      if negb (status =? 404) then (false, get ++ $" returned status " ++ dec status ++ $", expected 404")
      else (true, $"self-test confirmed the server responds (root has no file to verify byte-serving against)")
  end.

Definition run_self_test (serve : round_trip) (bind_address : text) (port : Z) (root : path)
    : io origin exn (bool * text) :=
  let where_ := self_test_connect_host bind_address ++ $":" ++ dec port in
  match find_probe_file root with
  | Err e => io_raise (OSError (strerror e))               (* from [is_file], not caught *)
  | Ok (Some probe) =>
      match quote_all (drop (length root) probe) with
      | None => io_raise (UnicodeEncodeError ($"'utf-8' codec can't encode characters"))
      | Some quoted =>
          let url_path := ch "/" :: join_slash quoted in
          match stat f probe with
          | Ok (File true expected) =>
              do r <- serve url_path;
              io_ret (judge_probe ($"self-test GET " ++ url_path ++ $" against " ++ where_) url_path expected r)
          | Ok _ => io_ret (false, $"self-test could not read probe file " ++ path_str probe ++ $": " ++ herr_str (HErrno EACCES probe))
          | Err e => io_ret (false, $"self-test could not read probe file " ++ path_str probe ++ $": " ++ herr_str (HErrno e probe))
          end
      end
  | Ok None =>
      do r <- serve SELF_TEST_EMPTY_ROOT_PROBE_PATH;
      io_ret (judge_empty ($"self-test GET against " ++ where_ ++ $" (empty root)") r)
  end.
End SelfTest.

(** What a client makes of a response: the status, and as many bytes as were
    declared. *)
Definition sent_bytes (l : list sent) : bytes :=
  List.concat (map (fun x => match x with SentBody b => b | SentHead _ _ => [] end) l).
Definition client_read (l : list sent) : result text (Z * bytes) :=
  match l with
  | SentHead status headers :: rest =>
      match assoc_get headers ($"Content-Length") with
      | Some n =>
          match py_int n with
          | Some n => if blen (sent_bytes rest) <? n then Err ($"IncompleteRead")
                      else Ok (status, take (Z.to_nat n) (sent_bytes rest))
          | None => Ok (status, sent_bytes rest)
          end
      | None => Ok (status, sent_bytes rest)
      end
  | _ => Err ($"BadStatusLine")
  end.

(** The self-test's request, answered by this very handler. *)
Definition self_test_request (url_path : text) : request := mkRequest true url_path None true ($"127.0.0.1").
Definition own_server (session_id : text) (f : fs) (root : rpath) : round_trip := fun url_path o =>
  match handle_request session_id (fun _ => f) root (self_test_request url_path) [] o with
  | (Ret l, o) => (Ret (client_read l), o)
  | (_, o) => (Ret (Err ($"timed out")), o)
  end.
End Handler.

(** ** [_run_daemon] *)

Section Daemon.
Context (cfg : OriginConfig) (pid : Z) (f : fs).
(** What binding the socket gives: the port the system chose, or the message
    of the [OSError]. *)
Variable bind : result text Z.
(** The round trip of one request to the bound address. *)
Variable serve : round_trip.
(** Whether SIGTERM has arrived by a reading of the clock. *)
Variable sigterm : Z -> bool.
(** The requests whose handler threads finish during each sleep. *)
Variable finished : nat -> list (request * hstate).
(** At the end: when [server.shutdown()] and the server thread would come
    back, if ever, and the requests that finish meanwhile. *)
Variable shutdown_after thread_after : option Z.
Variable late : list (request * hstate).

Definition persist_with (g : HttpState -> HttpState) (o : origin) : origin :=
  let '(s, w) := origin_persist (oc_session_id cfg) (g (o_state o)) (o_world o) in mkO s w.

Definition fail_origin (msg : text) (c : ErrorClass) : origin -> origin :=
  persist_with (fun s => hs_status OERROR (Some (redact (Some msg) [])) (Some c) (hs_stop_reason s) s).

(** Up to the point where the state is [serving] or [error]; an exception
    nobody catches ends the process with the record as it stands. *)
Definition start_origin (w : HWorld) : outcome exn bool * origin :=
  let o := persist_with id (mkO (origin_initial_state (oc_session_id cfg) pid (path_str (oc_root cfg))
                                   (oc_bind_address cfg) (oc_port cfg) (w_clock w)) w) in
  match path_resolve f true (oc_root cfg) with
  | Err (ResolveOSError e q) =>
      (Ret false, fail_origin ($"invalid root " ++ repr (path_str (oc_root cfg)) ++ $": " ++ herr_str (HErrno e q)) PROTOCOL o)
  | Err ResolveLoop => (Raise (RuntimeError ($"Symlink loop")), o)
  | Ok root =>
      match bind with
      | Err e =>
          (Ret false, fail_origin ($"failed to bind " ++ oc_bind_address cfg ++ $":" ++ dec (oc_port cfg) ++ $": " ++ e) CONNECTION o)
      | Ok port =>
          let o := persist_with (hs_bound port (format_bound_url (oc_bind_address cfg) port)) o in
          match run_self_test f serve (oc_bind_address cfg) port (snd root) o with
          | (Raise e, o) => (Raise e, o)
          | (Blocked, o) => (Blocked, o)
          | (Ret (false, detail), o) => (Ret false, fail_origin detail CONNECTION o)
          | (Ret (true, _), o) => (Ret true, persist_with (fun s => hs_status OSERVING (hs_error s) (hs_error_class s) (hs_stop_reason s) s) o)
          end
      end
  end.

Definition CONTROL_POLL_INTERVAL : Z := 200.

(** Time that passes, during which handler threads finish. *)
Definition origin_wait (ms : Z) (l : list (request * hstate)) (o : origin) : origin :=
  let w := o_world o in
  foldl (fun o x => finish_request (oc_session_id cfg) (fst x) (snd x) o)
    (mkO (o_state o) (mkWorld (w_files w) (w_procs w) (w_clock w + ms) (w_disk w))) l.
(** [time.sleep(_CONTROL_POLL_INTERVAL)] *)
Definition origin_sleep (i : nat) : origin -> origin := origin_wait CONTROL_POLL_INTERVAL (finished i).

Fixpoint control_loop (fuel : nat) (i : nat) (deadline : Z) (o : origin) : outcome exn text * origin :=
  match fuel with
  | O => (Blocked, o)
  | S fuel =>
      if sigterm (w_clock (o_world o)) then (Ret ($"signal"), o)
      else if deadline <=? w_clock (o_world o) then (Ret ($"lifetime_expired"), o)
      else control_loop fuel (S i) deadline (origin_sleep i o)
  end.

(** A [join] with a time-out on a thread that ends after [ends], if ever. *)
Definition bounded_join (timeout : Z) (ends : option Z) : Z :=
  match ends with Some t => Z.min timeout (Z.max 0 t) | None => timeout end.
Definition TEARDOWN_TIMEOUT : Z := 5000.
(** [_shutdown_server_bounded]: [server.shutdown()] on a thread of its own,
    which is abandoned when it does not come back *)
Definition shutdown_server_bounded (timeout : Z) : origin -> origin := origin_wait (bounded_join timeout shutdown_after) late.
(** The [finally]: shut down, close, and join the server thread. *)
Definition teardown (o : origin) : origin :=
  origin_wait (bounded_join TEARDOWN_TIMEOUT thread_after) [] (shutdown_server_bounded TEARDOWN_TIMEOUT o).

Definition run_origin (w : HWorld) : outcome exn unit * origin :=
  match start_origin w with
  | (Ret true, o) =>
      match control_loop (wait_fuel (oc_lifetime cfg) CONTROL_POLL_INTERVAL) 0
              (w_clock (o_world o) + oc_lifetime cfg) o with
      | (Ret reason, o) =>
          (Ret tt, persist_with (fun s => hs_status OSTOPPED (hs_error s) (hs_error_class s) (Some reason) s) (teardown o))
      | (Raise e, o) => (Raise e, o)
      | (Blocked, o) => (Blocked, o)
      end
  | (Ret false, o) => (Ret tt, o)
  | (Raise e, o) => (Raise e, o)
  | (Blocked, o) => (Blocked, o)
  end.
End Daemon.

(** ** Lemmas *)

Lemma sent_bytes_app a b : sent_bytes (a ++ b) = sent_bytes a ++ sent_bytes b.
Proof. unfold sent_bytes. by rewrite map_app, concat_app. Qed.

Lemma sent_bytes_one b : sent_bytes [SentBody b] = b.
Proof. apply app_nil_r. Qed.

(** On a connection that holds, the loop copies exactly the slice. *)
Lemma copy_loop_exact fuel data pos remaining h :
  0 <= pos -> 0 <= remaining -> pos + remaining <= blen data -> remaining < Z.of_nat fuel -> h_plan h = [] ->
  exists chunks,
    copy_loop fuel data pos remaining h =
      (Ret tt, mkH [] (h_sent h ++ chunks) (h_status h) (h_outcome h) (h_bytes h + remaining)) /\
    sent_bytes chunks = take (Z.to_nat remaining) (drop (Z.to_nat pos) data).
Proof.
  revert pos remaining h. induction fuel as [|fuel IH]; intros pos remaining [plan out st oc b] Hp Hr Hlen Hf Hplan; [lia|].
  cbn [copy_loop h_plan h_sent h_status h_outcome h_bytes] in *. subst plan.
  destruct (remaining <=? 0) eqn:E; bool_to_prop.
  { assert (remaining = 0) as -> by lia. exists []. split; [|done]. by rewrite app_nil_r, Z.add_0_r. }
  set (n := Z.to_nat (Z.min COPY_BUFFER_SIZE remaining)).
  assert (0 < Z.of_nat n <= remaining) as Hn by (unfold n, COPY_BUFFER_SIZE; lia).
  set (chunk := take n (drop (Z.to_nat pos) data)).
  assert (length chunk = n) as Hc.
  { unfold chunk. rewrite length_take, length_drop. unfold blen in Hlen. lia. }
  destruct chunk as [|x chunk'] eqn:Ec; [cbn in Hc; lia|]. rewrite <- Ec in *.
  unfold io_bind at 1. cbn [wfile_write h_plan h_sent h_status h_outcome h_bytes].
  unfold io_bind at 1. cbn [io_modify h_plan h_sent h_status h_outcome h_bytes].
  assert (blen chunk = Z.of_nat n) as Hb by (unfold blen; lia). rewrite Hb.
  destruct (IH (pos + Z.of_nat n) (remaining - Z.of_nat n)
              (mkH [] (out ++ [SentBody chunk]) st oc (b + Z.of_nat n))) as (cs & Hrun & Hcs); [lia..|done|].
  exists (SentBody chunk :: cs). rewrite Hrun. cbn [h_sent h_status h_outcome h_bytes]. split.
  - rewrite <- app_assoc. cbn. do 2 f_equal. lia.
  - cbn. fold (sent_bytes cs). rewrite Hcs. unfold chunk.
    replace (Z.to_nat remaining) with (n + Z.to_nat (remaining - Z.of_nat n))%nat by lia.
    rewrite slice_split. do 2 f_equal. f_equal. lia.
Qed.

Section HandlerLemmas.
Variable guess_type : text -> option text.
Variable error_page : Z -> text -> bytes.
Variable other_size : Z.

(** What the handler makes of the header once it is parsed. *)
Definition parsed_response (data : bytes) (range : option text) : Z * bytes :=
  match parse_range_header range (blen data) with
  | Ok None => (200, data)
  | Ok (Some r) => (206, take (Z.to_nat (br_end r - br_start r + 1)) (drop (Z.to_nat (br_start r)) data))
  | Err _ => (416, [])
  end.
Definition expected_outcome (status : Z) : text :=
  if status =? 416 then $"range_not_satisfiable" else $"ok".

Lemma serve_file_exact f resolved data rg q h :
  stat f (snd resolved) = Ok (File true data) -> rq_get q = true -> h_plan h = [] ->
  (let '(start, stop) := match rg with None => (0, blen data - 1) | Some r => (br_start r, br_end r) end in
   0 <= start <= stop + 1 /\ stop < blen data) ->
  let '(start, stop) := match rg with None => (0, blen data - 1) | Some r => (br_start r, br_end r) end in
  let status := match rg with Some _ => 206 | None => 200 end in
  exists headers chunks,
    serve_file guess_type (fun _ => f) q resolved (blen data) rg h =
      (Ret tt, mkH [] (h_sent h ++ SentHead status headers :: chunks) status (h_outcome h) (h_bytes h + (stop - start + 1))) /\
    assoc_get headers ($"Content-Length") = Some (dec (stop - start + 1)) /\
    sent_bytes chunks = take (Z.to_nat (stop - start + 1)) (drop (Z.to_nat start) data).
Proof.
  intros Hst Hget Hplan. destruct h as [plan out st oc b]. cbn in Hplan. subst plan.
  unfold serve_file. rewrite Hget. unfold open_file. rewrite Hst.
  set (se := match rg with None => (0, blen data - 1) | Some r => (br_start r, br_end r) end).
  destruct se as [start stop]. intros Hb. cbn zeta.
  unfold io_bind at 1. cbn [io_modify h_plan h_sent h_status h_outcome h_bytes].
  unfold io_bind at 1. cbn [wfile_write h_plan h_sent h_status h_outcome h_bytes].
  unfold io_try, io_bind, io_ret.
  match goal with |- context [SentHead ?s ?hd] => set (headers := hd); set (status := s) end.
  destruct (copy_loop_exact (S (Z.to_nat (stop - start + 1))) data start (stop - start + 1)
              (mkH [] (out ++ [SentHead status headers]) status oc b)) as (cs & Hrun & Hcs); [lia..|done|].
  exists headers, cs. split_and!; [|by destruct rg|done]. rewrite Hrun. cbn [h_sent h_status h_outcome h_bytes].
  by rewrite <- app_assoc.
Qed.

Lemma client_read_declared status headers rest n :
  assoc_get headers ($"Content-Length") = Some (dec n) -> 0 <= n -> n = blen (sent_bytes rest) ->
  client_read (SentHead status headers :: rest) = Ok (status, sent_bytes rest).
Proof.
  intros Hh Hn Hb. unfold client_read. rewrite Hh, int_dec by done.
  replace (blen (sent_bytes rest) <? n) with false by (symmetry; apply Z.ltb_ge; lia).
  rewrite Hb. unfold blen. rewrite Nat2Z.id. by rewrite firstn_all.
Qed.

Lemma blen_slice (data : bytes) start stop :
  0 <= start <= stop + 1 -> stop < blen data ->
  blen (take (Z.to_nat (stop - start + 1)) (drop (Z.to_nat start) data)) = stop - start + 1.
Proof. intros Hs He. unfold blen in *. rewrite length_take, length_drop. lia. Qed.

(** What a GET leaves on a connection that holds. *)
Lemma handle_get_exact f root q resolved data o sid :
  resolve_within_root f root (rq_path q) = Some resolved ->
  stat f (snd resolved) = Ok (File true data) -> rq_get q = true ->
  let '(status, body) := parsed_response data (rq_range q) in
  exists l,
    handle_request guess_type error_page other_size sid (fun _ => f) root q [] o =
      (Ret l, finish_request sid q (mkH [] l status (expected_outcome status) (blen body)) o) /\
    client_read l = Ok (status, body).
Proof.
  intros Hres Hst Hget. unfold handle_request, handle_guarded, io_try, handle_body, is_file.
  rewrite Hres, Hst. unfold io_bind at 1, io_ret. cbn [negb st_size]. unfold parsed_response.
  pose proof (range_in_bounds (rq_range q) (blen data)) as Hbounds.
  destruct (parse_range_header (rq_range q) (blen data)) as [rg|[]].
  - pose proof (serve_file_exact f resolved data rg q (mkH [] [] 200 ($"ok") 0) Hst Hget eq_refl) as Hserve.
    destruct rg as [r|].
    + specialize (Hbounds r (blen_nonneg _) eq_refl). destruct Hserve as (hd & cs & Hrun & Hh & Hcs); [lia|].
      eexists. rewrite Hrun. cbn [h_sent h_outcome h_bytes app]. split.
      * rewrite blen_slice by lia. done.
      * rewrite <- Hcs. eapply client_read_declared; [exact Hh|lia|]. rewrite Hcs. by rewrite blen_slice by lia.
    + pose proof (blen_nonneg data). destruct Hserve as (hd & cs & Hrun & Hh & Hcs); [lia|].
      assert (take (Z.to_nat (blen data - 1 - 0 + 1)) (drop (Z.to_nat 0) data) = data) as Hall.
      { rewrite drop_0. apply firstn_all2. unfold blen. lia. }
      rewrite Hall in Hcs. eexists. rewrite Hrun. cbn [h_sent h_outcome h_bytes app]. split.
      * repeat f_equal. lia.
      * rewrite <- Hcs. eapply client_read_declared; [exact Hh|lia|]. rewrite Hcs. lia.
  - eexists. split; [done|]. by vm_compute.
Qed.
End HandlerLemmas.

(** *** The shared record *)

Lemma access_log_not_state sid : access_log_file_path sid <> state_file_path sid.
Proof. unfold access_log_file_path, state_file_path. intros H. by apply app_inv_head in H. Qed.

(** The state file holds the record. *)
Definition origin_published (sid : text) (o : origin) : Prop :=
  assoc_get (w_files (o_world o)) (state_file_path sid) = Some (Doc (o_state o)).

Definition origin_disk_ok (o : origin) : Prop := w_disk (o_world o) = [].

Lemma append_access_log_ok sid r w :
  w_disk w = [] ->
  let w' := append_access_log sid r w in
  w_disk w' = [] /\ w_clock w' = w_clock w /\ access_log sid w' = access_log sid w ++ [r] /\
  assoc_get (w_files w') (state_file_path sid) = assoc_get (w_files w) (state_file_path sid).
Proof.
  intros Hd. unfold append_access_log, io_bind, disk_step. rewrite Hd. cbn. split_and!; [done|done| |].
  - unfold access_log at 1. cbn. by rewrite assoc_get_set_eq.
  - apply assoc_get_set_ne, access_log_not_state.
Qed.

Lemma origin_persist_ok sid s w :
  w_disk w = [] ->
  let '(s', w') := origin_persist sid s w in
  s' = hs_touch (w_clock w) s /\ w_disk w' = [] /\ w_clock w' = w_clock w /\ access_log sid w' = access_log sid w /\
  assoc_get (w_files w') (state_file_path sid) = Some (Doc s').
Proof.
  intros Hd. unfold origin_persist, write_state_atomic, io_bind, disk_step. rewrite Hd. cbn.
  split_and!; [done|done|done| |by rewrite assoc_get_set_eq].
  unfold access_log. cbn. rewrite assoc_get_set_ne; [done|]. intros H. by apply (access_log_not_state sid).
Qed.

(** The log line of a finished request. *)
Definition access_record (now : Z) (q : request) (h : hstate) : AccessRecord :=
  mkAccess now (command q) (rq_path q) (h_status h) (h_outcome h) (h_bytes h) (rq_client q) (rq_self_test q).

Lemma finish_request_ok sid q h o :
  origin_disk_ok o ->
  let o' := finish_request sid q h o in
  let now := w_clock (o_world o) in
  origin_disk_ok o' /\ w_clock (o_world o') = now /\
  access_log sid (o_world o') = access_log sid (o_world o) ++ [access_record now q h] /\
  (origin_published sid o -> origin_published sid o') /\
  (if rq_self_test q then o_state o' = o_state o
   else o_state o' = hs_touch now (hs_count (h_bytes h) now (o_state o)) /\ origin_published sid o').
Proof.
  intros Hd. unfold finish_request, origin_disk_ok, origin_published in *. cbn zeta.
  destruct (rq_self_test q) eqn:Et.
  - destruct (append_access_log_ok sid (access_record (w_clock (o_world o)) q h) (o_world o) Hd) as (H1 & H2 & H3 & H4).
    unfold access_record in *. rewrite Et in *. cbn [o_world o_state]. rewrite H4. by split_and!.
  - pose proof (origin_persist_ok sid (hs_count (h_bytes h) (w_clock (o_world o)) (o_state o)) (o_world o) Hd) as Hp.
    destruct (origin_persist sid _ _) as [s w]. destruct Hp as (-> & Hd' & Hc' & Ha' & Hf').
    destruct (append_access_log_ok sid (access_record (w_clock (o_world o)) q h) w Hd') as (H1 & H2 & H3 & H4).
    unfold access_record in *. rewrite Et in *. cbn [o_world o_state]. rewrite H4, Hf', H3, Ha', H2. by split_and!.
Qed.

(** What a finished request leaves: one line in the log, the counters of the
    record (the daemon's own self-test is not counted), and the record on
    disk. *)
Record accounted (sid : text) (q : request) (status : Z) (outcome : text) (n : Z) (o o' : origin) : Prop := {
  ac_log : access_log sid (o_world o') =
    access_log sid (o_world o) ++ [mkAccess (w_clock (o_world o)) (command q) (rq_path q) status outcome n (rq_client q) (rq_self_test q)];
  ac_count : hs_request_count (o_state o') = hs_request_count (o_state o) + (if rq_self_test q then 0 else 1);
  ac_bytes : hs_bytes_served (o_state o') = hs_bytes_served (o_state o) + (if rq_self_test q then 0 else n);
  ac_last : hs_last_request_at (o_state o') = if rq_self_test q then hs_last_request_at (o_state o) else Some (w_clock (o_world o));
  ac_published : rq_self_test q = false \/ origin_published sid o -> origin_published sid o';
}.

Lemma finish_accounts sid q h o : origin_disk_ok o ->
  accounted sid q (h_status h) (h_outcome h) (h_bytes h) o (finish_request sid q h o).
Proof.
  intros Hd. destruct (finish_request_ok sid q h o Hd) as (_ & _ & H3 & H4 & H5). cbn zeta in *.
  destruct (rq_self_test q) eqn:E.
  - split; rewrite ?E, ?H5, ?Z.add_0_r; try done; [by rewrite H3; unfold access_record; rewrite E|]. by intros [?|?]; [|apply H4].
  - destruct H5 as [H5 H6]. split; rewrite ?E, ?H5; try done. by rewrite H3; unfold access_record; rewrite E.
Qed.

(** Requests finishing one after the other. *)
Definition finish_all (sid : text) (l : list (request * hstate)) (o : origin) : origin :=
  foldl (fun o x => finish_request sid (fst x) (snd x) o) o l.

Definition client_requests (l : list (request * hstate)) : list (request * hstate) :=
  List.filter (fun x => negb (rq_self_test (fst x))) l.
Definition total_sent (l : list (request * hstate)) : Z := fold_right (fun x n => h_bytes (snd x) + n) 0 l.

Lemma finish_all_ok sid l o :
  origin_disk_ok o ->
  let o' := finish_all sid l o in
  origin_disk_ok o' /\ w_clock (o_world o') = w_clock (o_world o) /\
  access_log sid (o_world o') = access_log sid (o_world o) ++ map (fun x => access_record (w_clock (o_world o)) (fst x) (snd x)) l /\
  hs_request_count (o_state o') = hs_request_count (o_state o) + blen (client_requests l) /\
  hs_bytes_served (o_state o') = hs_bytes_served (o_state o) + total_sent (client_requests l) /\
  hs_state (o_state o') = hs_state (o_state o) /\
  (origin_published sid o -> origin_published sid o').
Proof.
  revert o. induction l as [|[q h] l IH]; intros o Hd; cbn zeta.
  { cbn. rewrite app_nil_r. unfold blen. cbn. split_and!; done || lia. }
  destruct (finish_request_ok sid q h o Hd) as (H1 & H2 & H3 & H4 & H5).
  destruct (IH _ H1) as (I1 & I2 & I3 & I4 & I5 & I6 & I7).
  unfold finish_all in *. cbn [foldl fst snd map]. rewrite I2, I3, I4, I5, I6, H2, H3, <- app_assoc.
  unfold client_requests. cbn [List.filter fst snd]. destruct (rq_self_test q); cbn [negb].
  - rewrite H5. split_and!; try done. intros Hp. by apply I7, H4.
  - destruct H5 as [-> Hp']. unfold total_sent, blen. cbn. split_and!; try done; try lia. by intros _; apply I7.
Qed.

(** *** Every request ends *)

Lemma stat_node f p n : stat f p = Ok n -> exists q, node_at f q = Some n.
Proof.
  unfold stat, lookup_node. destruct (path_too_long p); [done|].
  destruct (walk _ _ _ _ _) as [q|]; [|done]. exists q. destruct (node_at f q); congruence.
Qed.

(** The copy loop leaves status and outcome alone, never blocks, and counts
    exactly the bytes it put on the wire, at most what was asked. *)
Definition copy_post (h h' : hstate) (remaining : Z) : Prop :=
  h_status h' = h_status h /\ h_outcome h' = h_outcome h /\
  h_bytes h <= h_bytes h' <= h_bytes h + remaining /\
  blen (sent_bytes (h_sent h')) - blen (sent_bytes (h_sent h)) = h_bytes h' - h_bytes h.

Lemma wfile_write_cases x h :
  exists plan,
    wfile_write x h = (Ret tt, mkH plan (h_sent h ++ [x]) (h_status h) (h_outcome h) (h_bytes h)) \/
    exists e, e <> HUnicode /\ wfile_write x h = (Raise e, mkH plan (h_sent h) (h_status h) (h_outcome h) (h_bytes h)).
Proof.
  destruct h as [[|[] plan] out st oc b]; cbn; eexists; (by left) || (right; eexists; by split; [|done]).
Qed.

Lemma copy_loop_post fuel data pos remaining h :
  0 <= remaining < Z.of_nat fuel ->
  let '(r, h') := copy_loop fuel data pos remaining h in
  copy_post h h' remaining /\ (r = Ret tt \/ exists e, e <> HUnicode /\ r = Raise e).
Proof.
  revert pos remaining h. induction fuel as [|fuel IH]; intros pos remaining h Hr; [lia|].
  cbn [copy_loop]. destruct (remaining <=? 0) eqn:E; bool_to_prop.
  { unfold io_ret, copy_post. split; [|by left]. split_and!; done || lia. }
  set (chunk := take _ _).
  assert (blen chunk <= remaining) as Hc.
  { unfold chunk, blen. rewrite length_take. lia. }
  destruct chunk as [|x chunk'] eqn:Ec.
  { unfold io_ret, copy_post. split; [|by left]. split_and!; done || lia. }
  rewrite <- Ec in *. assert (0 < blen chunk) as Hpos by (rewrite Ec; unfold blen; cbn; lia). clear Ec x chunk'.
  unfold io_bind. destruct (wfile_write_cases (SentBody chunk) h) as (plan & [Hw|(e & He & Hw)]); rewrite Hw.
  2: { unfold copy_post. cbn [h_status h_outcome h_bytes h_sent]. split; [split_and!; done || lia|]. right. by exists e. }
  cbn [io_modify h_plan h_sent h_status h_outcome h_bytes].
  specialize (IH (pos + blen chunk) (remaining - blen chunk)
                (mkH plan (h_sent h ++ [SentBody chunk]) (h_status h) (h_outcome h) (h_bytes h + blen chunk)) ltac:(lia)).
  destruct (copy_loop _ _ _ _ _) as [r h']. destruct IH as [(H1 & H2 & H3 & H4) Hres]. split; [|done].
  cbn [h_status h_outcome h_bytes h_sent] in *. rewrite sent_bytes_app, blen_app, sent_bytes_one in H4.
  unfold copy_post. split_and!; done || lia.
Qed.

(** What holds of the handler's variables throughout. *)
Definition STATUSES : list Z := [200; 206; 404; 416; 500].
Definition h_inv (h : hstate) : Prop :=
  h_status h ∈ STATUSES /\ 0 <= h_bytes h <= blen (sent_bytes (h_sent h)).

(** A step of the handler: it keeps the invariant, raises only what the
    handler catches, and ends. *)
Definition good {A} (c : io hstate herr A) : Prop :=
  triple h_inv c (fun _ => h_inv) (fun e h => h_inv h /\ e <> HUnicode) /\ never_blocks c.

Lemma good_bind {A B} (c : io hstate herr A) (k : A -> io hstate herr B) :
  good c -> (forall a, good (k a)) -> good (io_bind c k).
Proof.
  intros [H1 H2] Hk. split.
  - eapply triple_bind; [exact H1|]. intros a. apply Hk.
  - apply nb_bind; [done|]. intros a. apply Hk.
Qed.

Lemma good_ret {A} (a : A) : good (io_ret a).
Proof. split; [by apply triple_ret|apply nb_ret]. Qed.

Lemma good_raise {A} e : e <> HUnicode -> good (io_raise (A := A) e).
Proof. intros He. split; [by apply triple_raise|apply nb_raise]. Qed.

Lemma good_modify g : (forall h, h_inv h -> h_inv (g h)) -> good (io_modify g).
Proof. intros Hg. split; [by apply triple_modify|apply nb_modify]. Qed.

Lemma good_note st oc : st ∈ STATUSES -> good (note st oc).
Proof. intros Hst. apply good_modify. intros h [_ Hb]. by split. Qed.

Lemma good_write x : good (wfile_write x).
Proof.
  split.
  - intros h [Hs Hb]. destruct (wfile_write_cases x h) as (plan & [->|(e & He & ->)]); [|by split].
    split; [done|]. cbn [h_bytes h_sent]. rewrite sent_bytes_app, blen_app.
    pose proof (blen_nonneg (sent_bytes [x])). lia.
  - intros h. destruct (wfile_write_cases x h) as (plan & [->|(e & He & ->)]); done.
Qed.

Lemma good_copy data pos length : good (copy_loop (S (Z.to_nat length)) data pos length).
Proof.
  destruct (Z.le_gt_cases length 0) as [Hl|Hl].
  { replace (copy_loop _ _ _ _) with (@io_ret hstate herr unit tt); [apply good_ret|].
    cbn. by replace (length <=? 0) with true by (symmetry; apply Z.leb_le; lia). }
  assert (0 <= length < Z.of_nat (S (Z.to_nat length))) as Hf by lia. split.
  - intros h [Hs Hb]. pose proof (copy_loop_post _ data pos length h Hf) as H.
    destruct (copy_loop _ _ _ _ h) as [r h']. destruct H as [(H1 & H2 & H3 & H4) Hr].
    assert (h_inv h') as Hinv by (split; [by rewrite H1|lia]).
    by destruct Hr as [->|(e & He & ->)].
  - intros h. pose proof (copy_loop_post _ data pos length h Hf) as H.
    destruct (copy_loop _ _ _ _ h) as [r h']. by destruct H as [_ [->|(e & He & ->)]].
Qed.

#[local] Hint Resolve good_bind good_ret good_raise good_note good_write good_copy : ikvm.

Section HandlerTotal.
Variable guess_type : text -> option text.
Variable error_page : Z -> text -> bytes.
Variable other_size : Z.

Lemma good_send_error q st msg :
  existsb (fun c => 255 <? c) msg = false -> good (send_error error_page q st msg).
Proof.
  intros Hm. unfold send_error. rewrite Hm. apply good_bind; [auto with ikvm|]. intros _.
  destruct (_ && _); auto with ikvm.
Qed.

Lemma good_not_found q oc : good (not_found error_page q oc).
Proof.
  unfold not_found. apply good_bind.
  - apply good_note. set_solver.
  - intros _. by apply good_send_error.
Qed.

Lemma good_open f p : (forall q, node_at f q <> Some Other) -> good (open_file f p).
Proof.
  intros Hno. unfold open_file. destruct (stat f p) as [[|[]| |]|e] eqn:E; auto with ikvm; try by apply good_raise.
  apply stat_node in E as [q Hq]. by apply Hno in Hq.
Qed.

Lemma good_serve_file fs_at q resolved size rg :
  (forall p, node_at (fs_at 3%nat) p <> Some Other) -> good (serve_file guess_type fs_at q resolved size rg).
Proof.
  intros Hno. unfold serve_file. destruct (match rg with None => _ | Some r => _ end) as [start stop].
  apply good_bind. { apply good_modify. intros h [_ Hb]. split; [|done]. destruct rg; apply (bool_decide_unpack _); by vm_compute. }
  intros _. apply good_bind; [apply good_write|]. intros _. destruct (rq_get q).
  - destruct (good_bind (open_file (fs_at 3%nat) (snd resolved))
                (fun data => copy_loop (S (Z.to_nat (stop - start + 1))) data start (stop - start + 1))
                (good_open _ _ Hno) (fun d => good_copy d start _)) as [Ht Hnb].
    split.
    + eapply triple_try; [exact Ht|]. intros [|m|]; cbn.
      * apply triple_modify. by intros h [[? ?] _].
      * apply triple_raise. by intros h [? _].
      * apply triple_raise. by intros h [_ []].
    + intros h. unfold io_try. specialize (Hnb h). destruct (io_bind _ _ h) as [[|[]|] h']; done.
  - apply good_modify. intros h [Hs Hb]. split; [done|]. cbn [h_bytes h_sent].
    pose proof (blen_nonneg (sent_bytes (h_sent h))). lia.
Qed.

Lemma good_handle_body fs_at root q :
  (forall p, node_at (fs_at 3%nat) p <> Some Other) ->
  good (handle_body guess_type error_page other_size fs_at root q).
Proof.
  intros Hno. unfold handle_body. destruct (resolve_within_root _ _ _) as [r|]; [|apply good_not_found].
  apply good_bind. { destruct (is_file _ _); [apply good_ret|by apply good_raise]. }
  intros []; [|apply good_not_found]. cbn [negb]. destruct (stat _ _) as [n|]; [|apply good_not_found].
  destruct (parse_range_header _ _) as [rg|[]]; [by apply good_serve_file|].
  apply good_bind; [apply good_note; set_solver|]. intros _. apply good_write.
Qed.

Lemma handle_guarded_total fs_at root q h :
  (forall p, node_at (fs_at 3%nat) p <> Some Other) -> h_inv h ->
  exists h', handle_guarded guess_type error_page other_size fs_at root q h = (Ret tt, h') /\ h_inv h'.
Proof.
  intros Hno Hh. destruct (good_handle_body fs_at root q Hno) as [Ht Hnb].
  specialize (Ht h Hh). specialize (Hnb h). unfold handle_guarded, io_try at 1.
  destruct (handle_body _ _ _ _ _ _ h) as [[[]|e|] h1]; [by exists h1| |done]. destruct Ht as [Hi He].
  assert (forall msg, exists h', (run note 500 ($"error"); io_try (send_error error_page q 500 msg) (fun _ => io_ret tt)) h1
            = (Ret tt, h') /\ h_inv h') as Hrec.
  { intros msg. unfold io_bind, note, io_modify, io_try. set (h2 := mkH _ _ _ _ _).
    assert (h_inv h2) as Hi2 by (split; [cbn; set_solver|apply Hi]).
    destruct (existsb (fun c => 255 <? c) msg) eqn:Em.
    - unfold send_error. rewrite Em. by exists h2.
    - destruct (good_send_error q 500 msg Em) as [Ht2 Hnb2]. specialize (Ht2 h2 Hi2). specialize (Hnb2 h2).
      destruct (send_error _ _ _ _ h2) as [[[]|e'|] h3]; [by exists h3| |done]. exists h3. by destruct Ht2. }
  destruct e; [apply Hrec|apply Hrec|done].
Qed.
End HandlerTotal.

(** ** Properties of the request handler *)

(** The handler's reading of a well-formed header is the header's own. *)
Lemma parsed_response_forms h data : header_wf h -> parsed_response data (header_value h) = range_response h data.
Proof.
  intros Hwf. unfold parsed_response. destruct h as [|r|t|t]; cbn [header_value range_response].
  - done.
  - rewrite range_forms; [|by destruct r; cbn in *; lia|apply blen_nonneg].
    pose proof (range_select r data Hwf) as H. destruct (range_answer r (blen data)) as [[rg|]|[]]; [|done|by rewrite H].
    destruct H as [-> H]. unfold slice_of in *. by destruct (take _ _).
  - cbn in Hwf. unfold parse_range_header. destruct t; [done|]. by rewrite bool_decide_true.
  - cbn in Hwf. unfold parse_range_header. destruct t; [done|]. destruct (bool_decide _); [done|]. by rewrite Hwf.
Qed.

(** C5: A GET for a readable regular file inside the root, on a connection
    that holds, with a log and a state file that can be written: without a
    Range header, with several ranges or another unit, the whole file with
    status 200; with a byte range in one of the three forms (first and last
    position in order, first position only, length of the end) exactly the
    bytes at the positions it names, with status 206, or an empty 416 when
    it names none.  The declared length is what was sent; the log gains one
    line with the status and that length, and the counters of the published
    record move by one request and that length (for the daemon's own
    self-test they do not).  Headers outside these forms are not claimed to
    be ignored; [HttpRange.malformed_end_unsatisfiable] has one that is
    not. *)
Theorem get_serves_exact_bytes guess_type error_page other_size f root q resolved data h o sid :
  resolve_within_root f root (rq_path q) = Some resolved ->
  stat f (snd resolved) = Ok (File true data) -> rq_get q = true ->
  rq_range q = header_value h -> header_wf h -> origin_disk_ok o ->
  let '(status, body) := range_response h data in
  exists l o',
    handle_request guess_type error_page other_size sid (fun _ => f) root q [] o = (Ret l, o') /\
    client_read l = Ok (status, body) /\
    accounted sid q status (if status =? 416 then $"range_not_satisfiable" else $"ok") (blen body) o o'.
Proof.
  intros Hr Hs Hg Hh Hwf Hd. pose proof (handle_get_exact guess_type error_page other_size f root q resolved data o sid Hr Hs Hg) as H.
  rewrite Hh, parsed_response_forms in H by done. destruct (range_response h data) as [status body]. destruct H as (l & H1 & H2).
  exists l, (finish_request sid q (mkH [] l status (expected_outcome status) (blen body)) o). split_and!; [done|done|].
  apply (finish_accounts sid q (mkH [] l status (expected_outcome status) (blen body)) o Hd).
Qed.

(** C31: Whatever the request, whatever happens to the files while it is
    served and however the connection breaks, as long as what is opened is no
    FIFO or device (which the open would wait for) and log and state file
    can be written: the handler returns; the log gains one line and the
    published counters move by one request (none for the self-test), with
    one of five status codes and with a byte count that is never more than
    the bytes sent. *)
Theorem handler_always_accounts guess_type error_page other_size fs_at root q plan o sid :
  (forall p, node_at (fs_at 3%nat) p <> Some Other) -> origin_disk_ok o ->
  exists l o' status outcome n,
    handle_request guess_type error_page other_size sid fs_at root q plan o = (Ret l, o') /\
    accounted sid q status outcome n o o' /\ status ∈ [200; 206; 404; 416; 500] /\ 0 <= n <= blen (sent_bytes l).
Proof.
  intros Hno Hd. unfold handle_request.
  destruct (handle_guarded_total guess_type error_page other_size fs_at root q (mkH plan [] 200 ($"ok") 0) Hno)
    as (h & -> & Hs & Hb).
  { split; [cbn; set_solver|done]. }
  exists (h_sent h), (finish_request sid q h o), (h_status h), (h_outcome h), (h_bytes h). destruct Hb.
  split_and!; try done. by apply finish_accounts.
Qed.

(** However requests finish on the handler threads, one log line is
    appended for each, in that order, and the published counters are the
    number of client requests and the sum of their bytes: the daemon's own
    self-test is logged but not counted. *)
Theorem requests_counted sid l o :
  origin_disk_ok o ->
  let o' := finish_all sid l o in
  access_log sid (o_world o') = access_log sid (o_world o) ++ map (fun x => access_record (w_clock (o_world o)) (fst x) (snd x)) l /\
  hs_request_count (o_state o') = hs_request_count (o_state o) + blen (client_requests l) /\
  hs_bytes_served (o_state o') = hs_bytes_served (o_state o) + total_sent (client_requests l) /\
  (origin_published sid o -> origin_published sid o').
Proof. intros Hd. destruct (finish_all_ok sid l o Hd) as (_ & _ & H1 & H2 & H3 & _ & H4). by split_and!. Qed.

(** The head of a response is sent before the file is opened: a file
    that can be looked up but not read is answered with a complete head of
    status 200, and the head and page of a status 500 inside its body. *)
Theorem unreadable_file_two_heads guess_type error_page other_size o sid :
  let f := [([$"srv"], Dir true); ([$"srv"; $"key"], File false [7; 7])] in
  exists headers1 headers2 rest o',
    handle_request guess_type error_page other_size sid (fun _ => f) (false, [$"srv"])
      (mkRequest true ($"/key") None false ($"10.0.0.2")) [] o
    = (Ret (SentHead 200 headers1 :: SentHead 500 headers2 :: rest), o').
Proof.
  cbn zeta. unfold handle_request. set (f := [_; _]).
  assert (resolve_within_root f (false, [$"srv"]) ($"/key") = Some (false, [$"srv"; $"key"])) as Hr by (by vm_compute).
  assert (stat f [$"srv"; $"key"] = Ok (File false [7; 7])) as Hs by (by vm_compute).
  unfold handle_guarded, io_try at 1, handle_body, is_file. cbn [rq_path snd]. rewrite Hr. cbn [snd]. rewrite Hs.
  cbn [io_bind io_ret negb]. unfold io_bind at 1, io_ret. cbn [negb rq_range st_size].
  change (parse_range_header None (blen [7; 7])) with (@Ok range_error (option ByteRange) None). cbn iota.
  unfold serve_file, open_file. cbn [snd rq_get]. rewrite Hs.
  unfold io_bind, io_modify, io_try, io_raise, wfile_write. cbn [h_plan h_sent h_status h_outcome h_bytes].
  unfold note, io_modify. cbn [h_plan h_sent h_status h_outcome h_bytes].
  unfold HErrno. cbn iota.
  match goal with |- context [redact ?t ?l] => set (msg := redact t l) end. assert (existsb (fun c => 255 <? c) msg = false) as Hm by (by vm_compute).
  unfold send_error. rewrite Hm. unfold io_bind, wfile_write. cbn [h_plan h_sent h_status h_outcome h_bytes rq_get].
  destruct (true && _); cbn [h_sent app]; by do 4 eexists.
Qed.

(** ** The self-test *)

(** Every name of the tree is one a directory entry can have, and encodes. *)
Definition name_ok (n : text) : Prop := file_name n /\ forallb is_scalar n = true.
Definition names_ok (f : fs) : Prop := Forall (fun x => Forall name_ok (fst x)) f.

Lemma sorted_names_in x l : x ∈ sorted_names l -> x ∈ l.
Proof.
  induction l as [|y l IH]; cbn; [done|]. intros H.
  assert (forall k, x ∈ insert_name y k -> x = y \/ x ∈ k) as Hins.
  { induction k as [|z k IHk]; cbn; [by intros ?%list_elem_of_singleton; left|].
    destruct (text_leb y z); rewrite !elem_of_cons; [done|]. intros [?|?%IHk]; [auto|]. tauto. }
  apply Hins in H as [->|H]; [by left|]. right. by apply IH.
Qed.

Lemma filter_in {A} (P : A -> bool) x l : x ∈ List.filter P l -> x ∈ l /\ P x = true.
Proof. rewrite !list_elem_of_In, filter_In. done. Qed.

Section ProbeLemmas.
Context (f : fs) (Hnames : names_ok f).

Lemma scandir_name_ok d n : n ∈ scandir f d -> name_ok n.
Proof.
  unfold scandir. destruct (node_at f d) as [[[]| | |]|]; try by intros ?%elem_of_nil.
  intros (x & Hx & He)%list_elem_of_omap. unfold entry_of in He.
  destruct (is_prefix d x.1); [|done]. eapply Forall_forall in Hx; [|exact Hnames]. cbn in Hx.
  apply (Forall_drop _ (length d)) in Hx. destruct (drop (length d) x.1) as [|m [|]]; simplify_eq.
  by apply Forall_cons in Hx as [? _].
Qed.

Lemma not_symlink_sound d n : sound f d -> name_ok n -> is_symlink f (d ++ [n]) = false -> sound f (d ++ [n]).
Proof.
  intros Hd [[Hn _] _] Hl. unfold is_symlink in Hl. pose proof (lstat_step f d n Hd Hn) as H.
  by destruct (lstat f (d ++ [n])) as [[]|].
Qed.

(** What the probe search returns: a file reached without any link. *)
Definition probe_post (d p : path) : Prop :=
  sound f p /\ (exists parts, p = d ++ parts /\ Forall name_ok parts) /\ is_file f p = Ok true.

Lemma first_file_post d names p :
  sound f d -> Forall name_ok names -> first_file f d names = Ok (Some p) -> probe_post d p.
Proof.
  intros Hd. induction 1 as [|n names Hn Hns IH]; cbn [first_file]; [done|].
  destruct (is_file f (d ++ [n])) as [b|] eqn:Ef; cbn [rbind]; [|done].
  destruct (b && negb (is_symlink f (d ++ [n]))) eqn:E; [|by apply IH].
  apply andb_true_iff in E as [-> E%negb_true_iff]. intros [= <-]. split_and!; [|exists [n]|done].
  - by apply not_symlink_sound.
  - split; [done|]. by constructor.
Qed.

Lemma sorted_scandir_ok d P : Forall name_ok (sorted_names (List.filter P (scandir f d))).
Proof.
  apply Forall_forall. intros n Hn. apply sorted_names_in, filter_in in Hn as [Hn _]. by eapply scandir_name_ok.
Qed.

Lemma find_probe_post fuel d p : sound f d -> find_probe_in f fuel d = Ok (Some p) -> probe_post d p.
Proof.
  revert d p. induction fuel as [|fuel IH]; intros d p Hd; cbn [find_probe_in]; [done|].
  destruct (first_file f d _) as [[p'|]|] eqn:Ef; cbn [rbind]; [| |done].
  { intros [= <-]. eapply first_file_post; [done|apply sorted_scandir_ok|exact Ef]. }
  pose proof (sorted_scandir_ok d (entry_is_dir f d)) as Hok. clear Ef.
  induction Hok as [|n dirs Hn Hdirs IHd]; [done|].
  destruct (is_symlink f (d ++ [n])) eqn:El; [done|].
  pose proof (not_symlink_sound d n Hd Hn El) as Hdn.
  destruct (find_probe_in f fuel (d ++ [n])) as [[q|]|] eqn:Eq; cbn [rbind]; [|done|done].
  intros [= <-]. destruct (IH _ _ Hdn Eq) as (H1 & (parts & -> & Hparts) & H3).
  split_and!; [done| |done]. exists (n :: parts). split; [by rewrite <- app_assoc|]. by constructor.
Qed.
End ProbeLemmas.

Lemma quote_all_ok parts : Forall name_ok parts -> exists qs, quote_all parts = Some qs /\ quoted_path parts qs.
Proof.
  induction 1 as [|p parts [_ Hp] Hps IH]; [exists []; split; [done|constructor]|].
  destruct IH as (qs & Hqs & Hq).
  assert (exists q, quote p = Some q) as [q Hpq].
  { unfold quote, utf8_encode. rewrite Hp. by eexists. }
  exists (q :: qs). split; [cbn; by rewrite Hpq, Hqs|]. by constructor.
Qed.

Lemma sound_stable f p n : sound f p -> stat f p = Ok n -> stable f p.
Proof.
  intros [_ Hs]. unfold stat, lookup_node. destruct (path_too_long p) eqn:Hl; [done|]. intros _.
  destruct (Hs p []) as [?|?]; [by rewrite app_nil_r|congruence|done].
Qed.

Lemma is_file_stat f p : is_file f p = Ok true -> exists r d, stat f p = Ok (File r d).
Proof. unfold is_file. destruct (stat f p) as [[]|[]]; try done. intros _. by do 2 eexists. Qed.

(** A healthy daemon passes its own self-test: over a served directory
    whose names encode, the file the probe search picks is answered by the
    request handler with status 200 and the very bytes on disk, whatever
    names lie on its path, and the request leaves the client counters
    alone. *)
Theorem self_test_passes guess_type error_page other_size f root sid bind_address port probe data o :
  names_ok f -> sound f root ->
  find_probe_file f root = Ok (Some probe) -> stat f probe = Ok (File true data) ->
  exists detail o',
    run_self_test f (own_server guess_type error_page other_size sid f (false, root)) bind_address port root o
      = (Ret (true, detail), o') /\
    o_state o' = o_state o.
Proof.
  intros Hnames Hroot Hprobe Hst. unfold run_self_test. rewrite Hprobe.
  apply find_probe_post in Hprobe as (Hsound & (parts & -> & Hparts) & _); [|done|done].
  rewrite drop_app_length. destruct (quote_all_ok parts Hparts) as (qs & -> & Hq). rewrite Hst.
  assert (resolve_within_root f (false, root) (ch "/" :: join_slash qs) = Some (false, root ++ parts)) as Hres.
  { apply resolve_quoted; [done|eapply Forall_impl; [exact Hparts|by intros x [? _]]| |by eapply sound_stable]. apply Hroot. }
  set (q := self_test_request (ch "/" :: join_slash qs)).
  destruct (handle_get_exact guess_type error_page other_size f (false, root) q (false, root ++ parts) data o sid
              Hres Hst eq_refl) as (l & Hrun & Hread).
  unfold io_bind, own_server. fold q. rewrite Hrun, Hread. unfold io_ret, judge_probe. cbn [negb].
  rewrite bool_decide_true by done. cbn. do 2 eexists. split; [done|]. done.
Qed.

(** ** The daemon *)

Section DaemonLemmas.
Context (cfg : OriginConfig).

Lemma persist_with_ok g o :
  origin_disk_ok o ->
  let o' := persist_with cfg g o in
  origin_disk_ok o' /\ w_clock (o_world o') = w_clock (o_world o) /\
  o_state o' = hs_touch (w_clock (o_world o)) (g (o_state o)) /\ origin_published (oc_session_id cfg) o'.
Proof.
  intros Hd. unfold persist_with.
  pose proof (origin_persist_ok (oc_session_id cfg) (g (o_state o)) (o_world o) Hd) as H.
  destruct (origin_persist _ _ _) as [s w]. destruct H as (-> & H1 & H2 & _ & H4). by split_and!.
Qed.

Lemma persist_with_state g o : hs_state (o_state (persist_with cfg g o)) = hs_state (g (o_state o)).
Proof. done. Qed.

Lemma wait_ok ms l o : origin_disk_ok o ->
  origin_disk_ok (origin_wait cfg ms l o) /\ w_clock (o_world (origin_wait cfg ms l o)) = w_clock (o_world o) + ms.
Proof.
  intros Hd. set (o1 := mkO (o_state o) (mkWorld (w_files (o_world o)) (w_procs (o_world o)) (w_clock (o_world o) + ms) (w_disk (o_world o)))).
  destruct (finish_all_ok (oc_session_id cfg) l o1 Hd) as (H1 & H2 & _).
  change (origin_wait cfg ms l o) with (finish_all (oc_session_id cfg) l o1). by split.
Qed.

Lemma bounded_join_le timeout ends : 0 <= timeout -> 0 <= bounded_join timeout ends <= timeout.
Proof. unfold bounded_join. destruct ends; lia. Qed.

Lemma teardown_ok shutdown_after thread_after late o : origin_disk_ok o ->
  origin_disk_ok (teardown cfg shutdown_after thread_after late o) /\
  w_clock (o_world o) <= w_clock (o_world (teardown cfg shutdown_after thread_after late o)) <= w_clock (o_world o) + 2 * TEARDOWN_TIMEOUT.
Proof.
  intros Hd. unfold teardown, shutdown_server_bounded.
  destruct (wait_ok (bounded_join TEARDOWN_TIMEOUT shutdown_after) late o Hd) as [H1 H2].
  destruct (wait_ok (bounded_join TEARDOWN_TIMEOUT thread_after) [] _ H1) as [H3 H4]. split; [done|]. rewrite H4, H2.
  pose proof (bounded_join_le TEARDOWN_TIMEOUT shutdown_after ltac:(done)). pose proof (bounded_join_le TEARDOWN_TIMEOUT thread_after ltac:(done)). lia.
Qed.

Lemma control_loop_ok sigterm finished fuel i deadline o :
  origin_disk_ok o -> deadline <= w_clock (o_world o) + CONTROL_POLL_INTERVAL * (Z.of_nat fuel - 1) -> (0 < fuel)%nat ->
  exists reason o',
    control_loop cfg sigterm finished fuel i deadline o = (Ret reason, o') /\ origin_disk_ok o' /\
    hs_state (o_state o') = hs_state (o_state o) /\
    w_clock (o_world o') <= Z.max (w_clock (o_world o)) (deadline + CONTROL_POLL_INTERVAL) /\
    (reason = $"signal" /\ sigterm (w_clock (o_world o')) = true \/
     reason = $"lifetime_expired" /\ deadline <= w_clock (o_world o')).
Proof.
  revert i o. induction fuel as [|fuel IH]; intros i o Hd Hf Hpos; [lia|]. cbn [control_loop].
  destruct (sigterm (w_clock (o_world o))) eqn:Es.
  { do 2 eexists. split_and!; [done|done|done|lia|by left]. }
  destruct (deadline <=? w_clock (o_world o)) eqn:Ed; bool_to_prop.
  { do 2 eexists. split_and!; [done|done|done|lia|by right]. }
  set (o1 := mkO (o_state o) (mkWorld (w_files (o_world o)) (w_procs (o_world o))
                                (w_clock (o_world o) + CONTROL_POLL_INTERVAL) (w_disk (o_world o)))).
  destruct (finish_all_ok (oc_session_id cfg) (finished i) o1 Hd) as (H1 & H2 & _ & _ & _ & H3 & _).
  change (origin_sleep cfg finished i o) with (finish_all (oc_session_id cfg) (finished i) o1).
  cbn [o1 o_world w_clock o_state] in H2, H3. unfold CONTROL_POLL_INTERVAL in *.
  destruct fuel as [|fuel]; [lia|]. edestruct (IH (S i)) as (reason & o' & -> & Hd' & Hs & Hc & Hr); [exact H1|rewrite H2; lia|lia|].
  exists reason, o'. split_and!; [done|done|congruence| |done]. rewrite H2 in Hc. lia.
Qed.
End DaemonLemmas.

(** *** What the report of serving rests on *)

(** The state file says that the daemon is serving. *)
Definition says_serving (sid : text) (w : HWorld) : Prop :=
  exists s, assoc_get (w_files w) (state_file_path sid) = Some (Doc s) /\ hs_state s = OSERVING.
(** Neither the record nor its copy on disk says so. *)
Definition not_serving (sid : text) (o : origin) : Prop := hs_state (o_state o) <> OSERVING /\ ~ says_serving sid (o_world o).

(** The daemon when it comes to its self-test: bound, reported twice. *)
Definition before_self_test (cfg : OriginConfig) (pid port : Z) (w : HWorld) : origin :=
  persist_with cfg (hs_bound port (format_bound_url (oc_bind_address cfg) port))
    (persist_with cfg id (mkO (origin_initial_state (oc_session_id cfg) pid (path_str (oc_root cfg))
                                 (oc_bind_address cfg) (oc_port cfg) (w_clock w)) w)).

(** The round trip of this very run: the root resolved, the port was bound,
    and the request for the probe file, sent by the daemon as it was then,
    brought back status 200 and the bytes of that file (or, in a root
    without any file, the request for a path that is not there a 404). *)
Definition self_test_evidence (cfg : OriginConfig) (pid : Z) (f : fs) (bind : result text Z) (serve : round_trip) (w : HWorld) : Prop :=
  exists root port, path_resolve f true (oc_root cfg) = Ok root /\ bind = Ok port /\
  exists url status body o2,
    serve url (before_self_test cfg pid port w) = (Ret (Ok (status, body)), o2) /\
    ((exists probe qs, find_probe_file f (snd root) = Ok (Some probe) /\ quote_all (drop (length (snd root)) probe) = Some qs /\
        url = ch "/" :: join_slash qs /\ status = 200 /\ stat f probe = Ok (File true body)) \/
     (find_probe_file f (snd root) = Ok None /\ url = SELF_TEST_EMPTY_ROOT_PROBE_PATH /\ status = 404)).

Section Evidence.
Context (cfg : OriginConfig) (pid : Z) (f : fs) (bind : result text Z) (serve : round_trip).
Local Abbreviation sid := (oc_session_id cfg).
(** The round trip itself reports nothing of the kind. *)
Hypothesis honest : forall url o, not_serving sid o -> not_serving sid (serve url o).2.

(** A report, written or not, leaves the old record or its own. *)
Lemma persist_not_serving g o :
  not_serving sid o -> hs_state (g (o_state o)) <> OSERVING -> not_serving sid (persist_with cfg g o).
Proof.
  intros [H1 H2] Hg. unfold persist_with, origin_persist, write_state_atomic, io_bind, disk_step, io_modify.
  destruct (w_disk (o_world o)) as [|[e|] q]; cbn; (split; [exact Hg|]); [|exact H2|];
    intros (s & Hs & Hst); cbn in Hs; rewrite assoc_get_set_eq in Hs; injection Hs as <-; exact (Hg Hst).
Qed.

Lemma self_test_not_serving port root o : not_serving sid o -> not_serving sid (run_self_test f serve (oc_bind_address cfg) port root o).2.
Proof using honest.
  intros Ho. unfold run_self_test. destruct (find_probe_file f root) as [[probe|]|]; [| |done].
  - destruct (quote_all _) as [qs|]; [|done]. destruct (stat f probe) as [[|[] d| |]|]; try done.
    unfold io_bind. pose proof (honest (ch "/" :: join_slash qs) o Ho). by destruct (serve _ o) as [[] o1].
  - unfold io_bind. pose proof (honest SELF_TEST_EMPTY_ROOT_PROBE_PATH o Ho). by destruct (serve _ o) as [[] o1].
Qed.

Lemma self_test_saw port root o detail o' :
  run_self_test f serve (oc_bind_address cfg) port root o = (Ret (true, detail), o') ->
  exists url status body o2, serve url o = (Ret (Ok (status, body)), o2) /\
    ((exists probe qs, find_probe_file f root = Ok (Some probe) /\ quote_all (drop (length root) probe) = Some qs /\
        url = ch "/" :: join_slash qs /\ status = 200 /\ stat f probe = Ok (File true body)) \/
     (find_probe_file f root = Ok None /\ url = SELF_TEST_EMPTY_ROOT_PROBE_PATH /\ status = 404)).
Proof.
  unfold run_self_test. destruct (find_probe_file f root) as [[probe|]|] eqn:Ep; [| |done].
  - destruct (quote_all _) as [qs|] eqn:Eq; [|done]. destruct (stat f probe) as [[|[] d| |]|] eqn:Es; try done.
    intros (r & o1 & Hs & Hr)%io_bind_inv. unfold judge_probe, io_ret in Hr.
    destruct r as [[status body]|]; [|done]. destruct (status =? 200) eqn:E1; [|done].
    destruct (bool_decide (body = d)) eqn:E2; [|done]. apply bool_decide_eq_true in E2 as ->. bool_to_prop.
    do 4 eexists. split; [exact Hs|]. left. by exists probe, qs.
  - intros (r & o1 & Hs & Hr)%io_bind_inv. unfold judge_empty, io_ret in Hr.
    destruct r as [[status body]|]; [|done]. destruct (status =? 404) eqn:E1; [|done]. bool_to_prop.
    do 4 eexists. split; [exact Hs|]. by right.
Qed.

Lemma start_origin_evidence w out o : ~ says_serving sid w -> start_origin cfg pid f bind serve w = (out, o) ->
  match out with
  | Ret true => hs_state (o_state o) = OSERVING /\ self_test_evidence cfg pid f bind serve w
  | Ret false => not_serving sid o /\ hs_state (o_state o) = OERROR /\ hs_error_class (o_state o) <> None
  | Raise _ | Blocked => not_serving sid o
  end.
Proof using honest.
  intros Hw. unfold start_origin. set (o1 := persist_with cfg id _).
  assert (not_serving sid o1) as N1 by (by apply persist_not_serving).
  assert (forall msg c o, not_serving sid o -> not_serving sid (fail_origin cfg msg c o)) as Hfail
    by (intros msg c o2 H; by apply persist_not_serving).
  destruct (path_resolve f true (oc_root cfg)) as [root|[e q|]] eqn:Er; [| |by intros [= <- <-]].
  2: { intros [= <- <-]. split; [by apply Hfail|done]. }
  destruct bind as [port|e] eqn:Eb; [|intros [= <- <-]; split; [by apply Hfail|done]].
  set (o2 := persist_with cfg (hs_bound _ _) o1).
  assert (not_serving sid o2) as N2 by (apply persist_not_serving; [done|apply N1]).
  pose proof (self_test_not_serving port (snd root) o2 N2) as N3.
  destruct (run_self_test f serve _ _ _ o2) as [[[[] detail]|e|] o3] eqn:Et; cbn [snd] in N3; intros [= <- <-]; try done.
  - split; [done|]. apply self_test_saw in Et. exists root, port. by split_and!.
  - split; [by apply Hfail|done].
Qed.
End Evidence.

(** The handler's own answer to a self-test request reports nothing. *)
Lemma own_server_honest guess_type error_page other_size sid f root url o :
  not_serving sid o -> not_serving sid (own_server guess_type error_page other_size sid f root url o).2.
Proof.
  intros [H1 H2].
  assert (forall h, not_serving sid (finish_request sid (self_test_request url) h o)) as Hf.
  { intros h. unfold finish_request. cbn [rq_self_test self_test_request]. split; [done|]. intros (s & Hs & Hst). apply H2. exists s. split; [|done].
    rewrite <- Hs. cbn [o_world]. unfold append_access_log, io_bind, disk_step, io_modify.
    destruct (w_disk (o_world o)) as [|[x|] q]; cbn; [|done|]; symmetry; by rewrite assoc_get_set_ne by apply access_log_not_state. }
  unfold own_server, handle_request. by destruct (handle_guarded _ _ _ _ _ _ _) as [[] h]; cbn; try apply Hf.
Qed.


(** From [serving] to the end. *)
Lemma serving_ends cfg pid f bind serve sigterm finished shutdown_after thread_after late w o :
  start_origin cfg pid f bind serve w = (Ret true, o) -> origin_disk_ok o -> 0 <= oc_lifetime cfg ->
  exists reason t o',
    run_origin cfg pid f bind serve sigterm finished shutdown_after thread_after late w = (Ret tt, o') /\
    origin_published (oc_session_id cfg) o' /\ hs_state (o_state o') = OSTOPPED /\ hs_stop_reason (o_state o') = Some reason /\
    t <= w_clock (o_world o) + oc_lifetime cfg + CONTROL_POLL_INTERVAL /\
    t <= w_clock (o_world o') <= t + 2 * TEARDOWN_TIMEOUT /\
    (reason = $"signal" /\ sigterm t = true \/
     reason = $"lifetime_expired" /\ w_clock (o_world o) + oc_lifetime cfg <= t).
Proof.
  intros Hstart Hd Hl. unfold run_origin. rewrite Hstart.
  set (fuel := wait_fuel _ _). set (deadline := w_clock (o_world o) + oc_lifetime cfg).
  destruct (control_loop_ok cfg sigterm finished fuel 0 deadline o Hd) as (reason & o1 & -> & Hd1 & _ & Hc & Hr).
  - pose proof (wait_fuel_steps (oc_lifetime cfg) CONTROL_POLL_INTERVAL fuel ltac:(done) ltac:(done)). lia.
  - unfold fuel, wait_fuel. lia.
  - destruct (teardown_ok cfg shutdown_after thread_after late o1 Hd1) as [Hd2 Ht].
    eexists reason, (w_clock (o_world o1)), _. split; [done|].
    set (g := fun s => hs_status OSTOPPED (hs_error s) (hs_error_class s) (Some reason) s).
    destruct (persist_with_ok cfg g _ Hd2) as (H1 & H2 & H3 & H4). rewrite H2, H3.
    unfold CONTROL_POLL_INTERVAL in *. split_and!; [done|done|done|lia|lia|lia|done].
Qed.

(** C19: The lifetime cap.  A daemon that got to [serving] always ends: it
    leaves its loop by SIGTERM or by its deadline and never later than one
    poll interval past it, whatever its clients do; the teardown after that
    takes at most ten seconds, even when the server thread never reacts to
    [shutdown]; and the last published record says [stopped] and why, when
    no handler is still recording a request (see [HttpThreads]). *)
Theorem lifetime_cap cfg pid f bind serve sigterm finished shutdown_after thread_after late w o :
  start_origin cfg pid f bind serve w = (Ret true, o) -> origin_disk_ok o -> 0 <= oc_lifetime cfg ->
  exists reason t o',
    run_origin cfg pid f bind serve sigterm finished shutdown_after thread_after late w = (Ret tt, o') /\
    origin_published (oc_session_id cfg) o' /\ hs_state (o_state o') = OSTOPPED /\ hs_stop_reason (o_state o') = Some reason /\
    t <= w_clock (o_world o) + oc_lifetime cfg + CONTROL_POLL_INTERVAL /\
    t <= w_clock (o_world o') <= t + 2 * TEARDOWN_TIMEOUT /\
    (reason = $"signal" /\ sigterm t = true \/
     reason = $"lifetime_expired" /\ w_clock (o_world o) + oc_lifetime cfg <= t).
Proof. apply serving_ends. Qed.

(** ** The properties at a concrete daemon *)

Definition demo_cfg : OriginConfig := mkOrigin ($"s1") [$"srv"] ($"127.0.0.1") 0 1000.
Definition demo_world : HWorld := mkWorld [] [] 50 [].
Definition demo_origin : origin :=
  mkO (origin_initial_state ($"s1") 7 ($"/srv") ($"127.0.0.1") 0 50) demo_world.
Definition no_guess (_ : text) : option text := None.
Definition no_page (_ : Z) (_ : text) : bytes := [].
Definition demo_server : round_trip := own_server no_guess no_page 0 ($"s1") looping_fs (false, [$"srv"]).

Lemma get_serves_exact_bytes_witness :
  exists l o',
    handle_request no_guess no_page 0 ($"s1") (fun _ => looping_fs) srv
      (mkRequest true ($"/current") (Some ($"bytes=1-1")) false ($"10.0.0.2")) [] demo_origin = (Ret l, o') /\
    client_read l = Ok (206, [2]) /\ hs_bytes_served (o_state o') = 1.
Proof.
  destruct (get_serves_exact_bytes no_guess no_page 0 looping_fs srv
              (mkRequest true ($"/current") (Some ($"bytes=1-1")) false ($"10.0.0.2")) (false, [$"srv"; $"boot.img"]) [1; 2; 3]
              (OneRange (FromTo 1 1)) demo_origin ($"s1"))
    as (l & o' & H1 & H2 & H3); [by vm_compute|by vm_compute|reflexivity|by vm_compute|cbn; lia|reflexivity|].
  exists l, o'. split; [exact H1|]. split; [exact H2|]. rewrite (ac_bytes _ _ _ _ _ _ _ H3). by vm_compute.
Defined.

Lemma handler_always_accounts_witness :
  exists l o' status outcome n,
    handle_request no_guess no_page 0 ($"s1") (fun n => if (n <? 3)%nat then looping_fs else []) srv
      (mkRequest true ($"/boot.img") None false ($"10.0.0.2")) [WOk; WReset] demo_origin = (Ret l, o') /\
    accounted ($"s1") (mkRequest true ($"/boot.img") None false ($"10.0.0.2")) status outcome n demo_origin o' /\
    status ∈ [200; 206; 404; 416; 500] /\ 0 <= n <= blen (sent_bytes l).
Proof.
  apply (handler_always_accounts no_guess no_page 0 (fun n => if (n <? 3)%nat then looping_fs else [])); [|reflexivity].
  intros [|x p]; by vm_compute.
Defined.

Lemma requests_counted_witness :
  let q b := mkRequest true ($"/boot.img") None b ($"10.0.0.2") in
  let h n := mkH [] [] 200 ($"ok") n in
  hs_request_count (o_state (finish_all ($"s1") [(q true, h 3); (q false, h 3); (q false, h 2)] demo_origin)) = 2 /\
  hs_bytes_served (o_state (finish_all ($"s1") [(q true, h 3); (q false, h 3); (q false, h 2)] demo_origin)) = 5.
Proof.
  cbn zeta. set (l := [_; _; _]).
  destruct (requests_counted ($"s1") l demo_origin eq_refl) as (_ & H1 & H2 & _).
  split; [exact H1|exact H2].
Defined.

Lemma looping_names_ok : names_ok looping_fs.
Proof.
  repeat (apply Forall_cons; split; [repeat (apply Forall_cons; split);
    [..|apply Forall_nil; done]; (split; [split_and!; [by vm_compute|..]; by apply (bool_decide_unpack _); vm_compute|by vm_compute])|]).
  by apply Forall_nil.
Qed.

Lemma srv_sound : sound looping_fs [$"srv"].
Proof. by apply (validate_root_ok looping_fs [$"srv"] srv); vm_compute. Qed.

Lemma self_test_passes_witness :
  exists detail o',
    run_self_test looping_fs demo_server ($"127.0.0.1") 8080 [$"srv"] demo_origin = (Ret (true, detail), o') /\
    o_state o' = o_state demo_origin.
Proof.
  apply (self_test_passes no_guess no_page 0 looping_fs [$"srv"] ($"s1") ($"127.0.0.1") 8080 [$"srv"; $"boot.img"] [1; 2; 3]).
  - apply looping_names_ok.
  - apply srv_sound.
  - by vm_compute.
  - by vm_compute.
Defined.

(** The daemon started on that tree. *)
Definition demo_started : origin := (start_origin demo_cfg 7 looping_fs (Ok 8080) demo_server demo_world).2.


Lemma lifetime_cap_witness :
  exists reason o',
    run_origin demo_cfg 7 looping_fs (Ok 8080) demo_server (fun t => 600 <=? t) (fun _ => []) None (Some 3) [] demo_world = (Ret tt, o') /\
    hs_stop_reason (o_state o') = Some reason.
Proof.
  destruct (lifetime_cap demo_cfg 7 looping_fs (Ok 8080) demo_server (fun t => 600 <=? t) (fun _ => []) None (Some 3) [] demo_world demo_started)
    as (reason & t & o' & H1 & _ & _ & H2 & _).
  - by vm_compute.
  - by vm_compute.
  - by vm_compute.
  - exists reason, o'. split; [exact H1|exact H2].
Defined.
