(* ===== verification/HttpThreads.v ===== *)
(** * http_origin: the threads that write one state file

    Every request of the HTTP daemon runs on a thread of its own.  At its end
    a handler takes [state_lock], counts itself in the shared dictionary, and
    persists it; the daemon's main thread sets the state and persists the same
    dictionary without the lock.  The temporary file behind
    [_write_state_atomic] is named after the process, so it is one file for
    all threads.  Here the threads are interleaved at their system calls:
    opening (which truncates a temporary file that is there), writing in
    pieces at the thread's own offset, renaming whatever the name stands for
    by then.  The handlers among themselves are safe ([counters_exact]); the
    main thread is not safe against a handler, as two runs show. *)
From Stdlib Require Import ZArith Lia Ascii String.
From stdpp Require Import prelude relations.
From S2P Require Import Prelude PyBytes PyText Errors HttpOrigin.

(** Where a handler is in the [finally] of [_handle]. *)
Inductive handler_pc : Type :=
  | HWaiting                              (* at [with state_lock] *)
  | HCounting                             (* holds the lock *)
  | HPersisting                           (* has counted; at [persist()] *)
  | HOpening (r : HttpState)              (* has copied the dictionary *)
  | HWriting (i : nat) (r : HttpState) (k : nat)   (* [k] bytes of [r] written to inode [i] *)
  | HReleasing
  | HDone.

(** The main thread's last report: [state["state"] = STATE_STOPPED], the
    reason, [_persist()]. *)
Inductive main_pc : Type :=
  | MLoop
  | MPersisting
  | MOpening (r : HttpState)
  | MWriting (i : nat) (r : HttpState) (k : nat)
  | MDone.

Record threads : Type := mkThreads {
  t_state : HttpState;                    (* the dictionary *)
  t_lock : option nat;                    (* the handler that holds [state_lock] *)
  t_path : option nat;                    (* the inode of the state file *)
  t_tmp : option nat;                     (* that of the temporary file *)
  t_data : list bytes;                    (* the contents of the inodes *)
  t_handlers : list handler_pc;
  t_main : main_pc;
}.

(** [write] at an offset; a gap is filled with zeros *)
Definition pwrite (off : nat) (chunk old : bytes) : bytes := resize off 0 old ++ chunk ++ drop (off + length chunk) old.

(** [os.open(tmp, O_CREAT | O_TRUNC)]: the inode, and the files *)
Definition open_tmp (s : threads) : nat * list bytes :=
  match t_tmp s with
  | Some i => (i, <[i := []]> (t_data s))
  | None => (length (t_data s), t_data s ++ [[]])
  end.
(** [os.replace(tmp, path)]; when the name is gone the error is suppressed *)
Definition replace_path (s : threads) : option nat := match t_tmp s with Some i => Some i | None => t_path s end.

Section Threads.
(** [json.dump], and the bytes each request has sent. *)
Context (dump : HttpState -> bytes) (sent : list Z).

Definition set_handler (s : threads) (j : nat) (pc : handler_pc) : list handler_pc := <[j := pc]> (t_handlers s).

Inductive handler_step : threads -> threads -> Prop :=
  | h_acquire s j : t_handlers s !! j = Some HWaiting -> t_lock s = None ->
      handler_step s (mkThreads (t_state s) (Some j) (t_path s) (t_tmp s) (t_data s) (set_handler s j HCounting) (t_main s))
  | h_count s j n now : t_handlers s !! j = Some HCounting -> sent !! j = Some n ->
      handler_step s (mkThreads (hs_count n now (t_state s)) (t_lock s) (t_path s) (t_tmp s) (t_data s) (set_handler s j HPersisting) (t_main s))
  | h_copy s j now : t_handlers s !! j = Some HPersisting ->
      let r := hs_touch now (t_state s) in
      handler_step s (mkThreads r (t_lock s) (t_path s) (t_tmp s) (t_data s) (set_handler s j (HOpening r)) (t_main s))
  | h_open s j r i data : t_handlers s !! j = Some (HOpening r) -> open_tmp s = (i, data) ->
      handler_step s (mkThreads (t_state s) (t_lock s) (t_path s) (Some i) data (set_handler s j (HWriting i r 0)) (t_main s))
  | h_write s j i r k n old : t_handlers s !! j = Some (HWriting i r k) -> (0 < n <= length (dump r) - k)%nat -> t_data s !! i = Some old ->
      handler_step s (mkThreads (t_state s) (t_lock s) (t_path s) (t_tmp s)
        (<[i := pwrite k (take n (drop k (dump r))) old]> (t_data s)) (set_handler s j (HWriting i r (k + n))) (t_main s))
  | h_replace s j i r : t_handlers s !! j = Some (HWriting i r (length (dump r))) ->
      handler_step s (mkThreads (t_state s) (t_lock s) (replace_path s) None (t_data s) (set_handler s j HReleasing) (t_main s))
  | h_release s j : t_handlers s !! j = Some HReleasing ->
      handler_step s (mkThreads (t_state s) None (t_path s) (t_tmp s) (t_data s) (set_handler s j HDone) (t_main s)).

Inductive main_step : threads -> threads -> Prop :=
  | m_stop s reason : t_main s = MLoop ->
      main_step s (mkThreads (hs_status OSTOPPED (hs_error (t_state s)) (hs_error_class (t_state s)) (Some reason) (t_state s))
        (t_lock s) (t_path s) (t_tmp s) (t_data s) (t_handlers s) MPersisting)
  | m_copy s now : t_main s = MPersisting ->
      let r := hs_touch now (t_state s) in
      main_step s (mkThreads r (t_lock s) (t_path s) (t_tmp s) (t_data s) (t_handlers s) (MOpening r))
  | m_open s r i data : t_main s = MOpening r -> open_tmp s = (i, data) ->
      main_step s (mkThreads (t_state s) (t_lock s) (t_path s) (Some i) data (t_handlers s) (MWriting i r 0))
  | m_write s i r k n old : t_main s = MWriting i r k -> (0 < n <= length (dump r) - k)%nat -> t_data s !! i = Some old ->
      main_step s (mkThreads (t_state s) (t_lock s) (t_path s) (t_tmp s)
        (<[i := pwrite k (take n (drop k (dump r))) old]> (t_data s)) (t_handlers s) (MWriting i r (k + n)))
  | m_replace s i r : t_main s = MWriting i r (length (dump r)) ->
      main_step s (mkThreads (t_state s) (t_lock s) (replace_path s) None (t_data s) (t_handlers s) MDone).

(** The daemon as it serves: its record is published, the requests of [sent]
    are about to finish. *)
Definition serving (s0 : HttpState) : threads := mkThreads s0 None (Some 0%nat) None [dump s0] (map (fun _ => HWaiting) sent) MLoop.

(** What the state file holds. *)
Definition published (s : threads) : option bytes := t_path s ≫= fun i => t_data s !! i.

(** ** The handlers among themselves *)

Definition holds (pc : handler_pc) : bool := match pc with HWaiting | HDone => false | _ => true end.
Definition counted (pc : handler_pc) : bool := match pc with HWaiting | HCounting => false | _ => true end.

(** What the counted handlers add up to. *)
Fixpoint tally (l : list handler_pc) (ns : list Z) : Z :=
  match l, ns with
  | pc :: l, n :: ns => (if counted pc then n else 0) + tally l ns
  | _, _ => 0
  end.
Definition ones : list Z := map (fun _ => 1) sent.

Lemma tally_set l ns j pc pc' n : l !! j = Some pc -> ns !! j = Some n ->
  tally (<[j := pc']> l) ns = tally l ns + (if counted pc' then n else 0) - (if counted pc then n else 0).
Proof.
  revert ns j. induction l as [|q l IH]; intros [|m ns] [|j] Hj Hn; try done.
  - injection Hj as ->. injection Hn as ->. simpl. lia.
  - specialize (IH ns j Hj Hn). simpl. lia.
Qed.
Lemma tally_same l ns j pc pc' : l !! j = Some pc -> counted pc' = counted pc -> tally (<[j := pc']> l) ns = tally l ns.
Proof.
  revert ns j. induction l as [|q l IH]; intros [|m ns] [|j] Hj Hc; try done.
  - injection Hj as ->. simpl. by rewrite Hc.
  - specialize (IH ns j Hj Hc). simpl. by rewrite IH.
Qed.
Lemma tally_start ns : tally (map (fun _ => HWaiting) sent) ns = 0.
Proof. revert ns. induction sent as [|n l IH]; intros [|m ns]; cbn; [done..|]. by rewrite IH. Qed.

(** The holder of the lock, and what the files are while it works: [r] is
    the published record, at inode [p]. *)
Definition current (s : threads) : handler_pc := match t_lock s with Some j => default HDone (t_handlers s !! j) | None => HWaiting end.
Definition phase (pc : handler_pc) (s : threads) (p : nat) (r : HttpState) : Prop :=
  let one_more := hs_request_count (t_state s) = hs_request_count r + 1 in
  match pc with
  | HWaiting | HCounting | HReleasing => r = t_state s /\ t_tmp s = None
  | HPersisting => one_more /\ t_tmp s = None
  | HOpening r' => one_more /\ r' = t_state s /\ t_tmp s = None
  | HWriting i r' k =>
      one_more /\ r' = t_state s /\ t_tmp s = Some i /\ i <> p /\ t_data s !! i = Some (take k (dump r')) /\ (k <= length (dump r'))%nat
  | HDone => False
  end.

Record inv (s0 : HttpState) (s : threads) : Prop := {
  inv_len : length (t_handlers s) = length sent;
  inv_holder : forall j, t_lock s = Some j <-> exists pc, t_handlers s !! j = Some pc /\ holds pc = true;
  inv_count : hs_request_count (t_state s) = hs_request_count s0 + tally (t_handlers s) ones;
  inv_bytes : hs_bytes_served (t_state s) = hs_bytes_served s0 + tally (t_handlers s) sent;
  inv_state : hs_state (t_state s) = hs_state s0;
  inv_file : exists p r, t_path s = Some p /\ t_data s !! p = Some (dump r) /\ phase (current s) s p r;
}.

Lemma inv_serving s0 : inv s0 (serving s0).
Proof.
  split; cbn.
  - apply length_map.
  - intros j. split; [done|]. intros (pc & Hj & Hh). apply list_lookup_fmap_Some in Hj as (n & -> & _). done.
  - rewrite tally_start. lia.
  - rewrite tally_start. lia.
  - done.
  - by exists 0%nat, s0.
Qed.

(** A handler that moves inside its critical section, or into or out of it. *)
Lemma holder_move s j pc pc' :
  t_handlers s !! j = Some pc ->
  (forall i, t_lock s = Some i <-> exists q, t_handlers s !! i = Some q /\ holds q = true) ->
  (holds pc = false -> t_lock s = None) ->
  forall i, (if holds pc' then Some j else None) = Some i <-> exists q, set_handler s j pc' !! i = Some q /\ holds q = true.
Proof.
  intros Hj Hl Hn i. assert (length (t_handlers s) > j)%nat as Hlt by (by eapply lookup_lt_Some).
  assert (forall q, t_handlers s !! i = Some q -> holds q = true -> i = j) as Honly.
  { intros q Hq Hh. assert (t_lock s = Some i) as E by (apply Hl; by exists q). destruct (holds pc) eqn:Ep; [|by rewrite Hn in E].
    assert (t_lock s = Some j) as E' by (apply Hl; by exists pc). congruence. }
  unfold set_handler. split.
  - destruct (holds pc') eqn:E; [|done]. intros [= <-]. exists pc'. split; [by apply list_lookup_insert_eq|done].
  - intros (q & Hq & Hh). destruct (decide (i = j)) as [->|Hne].
    + rewrite list_lookup_insert_eq in Hq by done. injection Hq as ->. by rewrite Hh.
    + rewrite list_lookup_insert_ne in Hq by done. by apply Honly in Hq.
Qed.

Lemma pwrite_next k n d : (0 < n <= length d - k)%nat -> pwrite k (take n (drop k d)) (take k d) = take (k + n) d.
Proof.
  intros Hn. unfold pwrite. rewrite resize_all_alt by (rewrite length_take; lia).
  rewrite (drop_ge (take k d)) by (rewrite length_take, length_take, length_drop; lia). by rewrite app_nil_r, take_take_drop.
Qed.

Lemma lock_current s0 s j pc : inv s0 s -> t_handlers s !! j = Some pc -> holds pc = true -> t_lock s = Some j /\ current s = pc.
Proof.
  intros Hi Hj Hh. assert (t_lock s = Some j) as E by (apply (inv_holder _ _ Hi); by exists pc).
  split; [done|]. unfold current. by rewrite E, Hj.
Qed.
Lemma current_set s j pc' st path tmp data m : (j < length (t_handlers s))%nat ->
  current (mkThreads st (if holds pc' then Some j else None) path tmp data (set_handler s j pc') m) = if holds pc' then pc' else HWaiting.
Proof. intros Hj. unfold current, set_handler. cbn. destruct (holds pc'); [|done]. by rewrite list_lookup_insert_eq. Qed.

(** A move that neither counts nor changes the state. *)
Lemma inv_quiet s0 s j pc pc' st path tmp data m :
  inv s0 s -> t_handlers s !! j = Some pc -> (holds pc = false -> t_lock s = None) -> counted pc' = counted pc ->
  hs_request_count st = hs_request_count (t_state s) -> hs_bytes_served st = hs_bytes_served (t_state s) -> hs_state st = hs_state (t_state s) ->
  let s' := mkThreads st (if holds pc' then Some j else None) path tmp data (set_handler s j pc') m in
  (exists p r, path = Some p /\ data !! p = Some (dump r) /\ phase (if holds pc' then pc' else HWaiting) s' p r) ->
  inv s0 s'.
Proof.
  intros [H1 H2 H3 H4 H5 _] Hj Hn Hc E1 E2 E3 s' (p & r & F1 & F2 & F3). split; cbn.
  - unfold set_handler. by rewrite length_insert.
  - by apply holder_move with pc.
  - unfold set_handler. by rewrite (tally_same _ _ _ _ _ Hj Hc), E1.
  - unfold set_handler. by rewrite (tally_same _ _ _ _ _ Hj Hc), E2.
  - by rewrite E3.
  - exists p, r. split_and!; [done..|]. unfold s'. rewrite current_set; [done|by eapply lookup_lt_Some].
Qed.

Lemma open_tmp_fresh s p : t_tmp s = None -> t_data s !! p <> None ->
  open_tmp s = (length (t_data s), t_data s ++ [[]]) /\ length (t_data s) <> p.
Proof. intros Ht Hp. unfold open_tmp. rewrite Ht. split; [done|]. intros <-. apply Hp. by apply lookup_ge_None. Qed.

Lemma handlers_inv_step s0 s s' : inv s0 s -> handler_step s s' -> inv s0 s'.
Proof.
  intros Hi Hst. pose proof (inv_file _ _ Hi) as (p & r & F1 & F2 & F3).
  destruct Hst as [s j Hj Hl|s j n now Hj Hn|s j now Hj q|s j q i data Hj Ho|s j i q k n old Hj Hn Hd|s j i q Hj|s j Hj].
  - refine (inv_quiet s0 s j HWaiting HCounting _ _ _ _ _ Hi Hj _ _ _ _ _ _); try done.
    exists p, r. split_and!; [done..|]. unfold current in F3. by rewrite Hl in F3.
  - destruct (lock_current _ _ _ _ Hi Hj eq_refl) as [Hl Hc]. rewrite Hl. rewrite Hc in F3. destruct F3 as [-> Ht]. destruct Hi as [H1 H2 H3 H4 H5 _].
    assert (ones !! j = Some 1) as H1s by (unfold ones; apply list_lookup_fmap_Some; by exists n).
    split; cbn.
    + unfold set_handler. by rewrite length_insert.
    + by apply (holder_move s j HCounting HPersisting).
    + unfold set_handler. rewrite (tally_set _ _ _ _ _ _ Hj H1s). cbn. lia.
    + unfold set_handler. rewrite (tally_set _ _ _ _ _ _ Hj Hn). cbn. lia.
    + done.
    + exists p, (t_state s). split_and!; [done..|]. unfold current, set_handler. cbn.
      rewrite list_lookup_insert_eq by (by eapply lookup_lt_Some). done.
  - destruct (lock_current _ _ _ _ Hi Hj eq_refl) as [Hl Hc]. rewrite Hl. rewrite Hc in F3. destruct F3 as [E Ht].
    refine (inv_quiet s0 s j HPersisting (HOpening q) _ _ _ _ _ Hi Hj _ _ _ _ _ _); try done. by exists p, r.
  - destruct (lock_current _ _ _ _ Hi Hj eq_refl) as [Hl Hc]. rewrite Hl. rewrite Hc in F3. destruct F3 as (E & -> & Ht).
    destruct (open_tmp_fresh s p Ht) as [Ho' Hne]; [by rewrite F2|]. rewrite Ho in Ho'. injection Ho' as -> ->.
    refine (inv_quiet s0 s j (HOpening _) (HWriting _ _ 0) _ _ _ _ _ Hi Hj _ _ _ _ _ _); try done.
    exists p, r. split; [done|]. split; [by apply lookup_app_l_Some|]. cbn [holds phase t_state t_tmp t_data]. split_and!; [done..| |lia].
    rewrite lookup_app_r by lia. by rewrite Nat.sub_diag.
  - destruct (lock_current _ _ _ _ Hi Hj eq_refl) as [Hl Hc]. rewrite Hl. rewrite Hc in F3. destruct F3 as (E & -> & Ht & Hne & Hd' & Hk).
    rewrite Hd in Hd'. injection Hd' as ->. rewrite pwrite_next by done.
    refine (inv_quiet s0 s j (HWriting i _ k) (HWriting i _ (k + n)) _ _ _ _ _ Hi Hj _ _ _ _ _ _); try done.
    exists p, r. split; [done|]. split; [by rewrite list_lookup_insert_ne|]. cbn [holds phase t_state t_tmp t_data]. split_and!; [done..| |lia].
    apply list_lookup_insert_eq. by eapply lookup_lt_Some.
  - destruct (lock_current _ _ _ _ Hi Hj eq_refl) as [Hl Hc]. rewrite Hl. rewrite Hc in F3. destruct F3 as (E & -> & Ht & Hne & Hd & Hk).
    unfold replace_path. rewrite Ht.
    refine (inv_quiet s0 s j (HWriting i _ _) HReleasing _ _ _ _ _ Hi Hj _ _ _ _ _ _); try done.
    exists i, (t_state s). split; [done|]. split; [by rewrite take_ge in Hd by lia|done].
  - destruct (lock_current _ _ _ _ Hi Hj eq_refl) as [Hl Hc]. rewrite Hc in F3. destruct F3 as [-> Ht].
    refine (inv_quiet s0 s j HReleasing HDone _ _ _ _ _ Hi Hj _ _ _ _ _ _); try done. by exists p, (t_state s).
Qed.

Lemma handlers_reachable_inv s0 s : rtc handler_step (serving s0) s -> inv s0 s.
Proof.
  intros H. eapply rtc_ind_r; [apply inv_serving| |exact H]. intros a b _ Hab Ha. by eapply handlers_inv_step.
Qed.

(** ** Progress *)

Definition stage (pc : handler_pc) : nat :=
  match pc with
  | HWaiting => 6 | HCounting => 5 | HPersisting => 4 | HOpening _ => 3 | HWriting _ _ _ => 2 | HReleasing => 1 | HDone => 0
  end.
Definition unwritten (pc : handler_pc) : nat := match pc with HWriting _ r k => length (dump r) - k | _ => 0 end.

Lemma step_advances s s' : handler_step s s' ->
  let total f (s : threads) := sum_list_with f (t_handlers s) in
  (total stage s' < total stage s)%nat \/ total stage s' = total stage s /\ (total unwritten s' < total unwritten s)%nat.
Proof.
  intros Hst. destruct Hst as [s j Hj Hl|s j n now Hj Hn|s j now Hj q|s j q i data Hj Ho|s j i q k n old Hj Hn Hd|s j i q Hj|s j Hj]; cbn [t_handlers];
    unfold set_handler; match goal with |- context [<[j := ?u]> _] =>
      pose proof (sum_with_insert stage _ j _ u Hj) as H1; pose proof (sum_with_insert unwritten _ j _ u Hj) as H2 end;
    cbn [stage unwritten] in H1, H2; lia.
Qed.
Lemma handlers_stop s : sn handler_step s.
Proof.
  remember (sum_list_with stage (t_handlers s)) as a eqn:Ea. remember (sum_list_with unwritten (t_handlers s)) as b eqn:Eb.
  revert b s Ea Eb. induction a as [a IHa] using lt_wf_ind. intros b. induction b as [b IHb] using lt_wf_ind. intros s -> ->.
  constructor. intros s' Hst. destruct (step_advances s s' Hst) as [H|[H1 H2]]; [by eapply IHa|]. eapply IHb; [exact H2|by symmetry|done].
Qed.

Lemma handlers_move s0 s : inv s0 s -> (exists pc, pc ∈ t_handlers s /\ pc <> HDone) -> exists s', handler_step s s'.
Proof.
  intros Hi (pc & Hin & Hne). destruct (t_lock s) as [j|] eqn:Hl.
  - apply (inv_holder _ _ Hi) in Hl as (q & Hj & Hh). destruct (lock_current _ _ _ _ Hi Hj Hh) as [Hl Hc].
    destruct (inv_file _ _ Hi) as (p & r & _ & _ & F). rewrite Hc in F. destruct q as [| | |r'|i r' k| |]; try done.
    + destruct (lookup_lt_is_Some_2 sent j) as [n Hn]; [rewrite <- (inv_len _ _ Hi); by eapply lookup_lt_Some|]. eexists. by apply (h_count s j n 0).
    + eexists. by apply (h_copy s j 0).
    + destruct (open_tmp s) as [i data] eqn:E. eexists. by eapply h_open.
    + destruct F as (_ & _ & _ & _ & Hd & Hk). destruct (decide (k = length (dump r'))) as [->|Hlt]; eexists; [by eapply h_replace|].
      eapply (h_write s j i r' k 1); [done|lia|exact Hd].
    + eexists. by apply h_release.
  - apply list_elem_of_lookup in Hin as [j Hj]. destruct (holds pc) eqn:Hh.
    + exfalso. assert (t_lock s = Some j) as E by (apply (inv_holder _ _ Hi); by exists pc). congruence.
    + destruct pc; try done. eexists. by apply h_acquire.
Qed.

Lemma tally_done l ns : length l = length ns -> Forall (fun pc => pc = HDone) l -> tally l ns = foldr Z.add 0 ns.
Proof.
  intros Hl Hd. revert ns Hl. induction Hd as [|pc l -> _ IH]; intros [|n ns] Hl; try done. cbn. by rewrite (IH ns) by (by injection Hl).
Qed.
End Threads.

(** ** The property *)

(** C20: The handlers lose no request and tear no record.  However the
    handler threads of a serving daemon are interleaved, down to the single
    pieces of their writes: the dictionary counts exactly the requests that
    have counted themselves, with their bytes; the state file always holds a
    complete record, the dictionary itself while nobody holds the lock and
    one that lacks at most the request being recorded while somebody does;
    no thread is left waiting, and none writes for ever.  When all are done,
    the state file counts them all and still says that the daemon serves. *)
Theorem counters_exact (dump : HttpState -> bytes) (sent : list Z) (s0 : HttpState) (s : threads) :
  rtc (handler_step dump sent) (serving dump sent s0) s ->
  hs_request_count (t_state s) = hs_request_count s0 + tally (t_handlers s) (ones sent) /\
  hs_bytes_served (t_state s) = hs_bytes_served s0 + tally (t_handlers s) sent /\
  (exists r, published s = Some (dump r) /\
     (r = t_state s \/ t_lock s <> None /\ hs_request_count (t_state s) = hs_request_count r + 1)) /\
  ((exists pc, pc ∈ t_handlers s /\ pc <> HDone) -> exists s', handler_step dump sent s s') /\
  sn (handler_step dump sent) s /\
  (Forall (fun pc => pc = HDone) (t_handlers s) ->
     exists r, published s = Some (dump r) /\ hs_state r = hs_state s0 /\
       hs_request_count r = hs_request_count s0 + blen sent /\ hs_bytes_served r = hs_bytes_served s0 + foldr Z.add 0 sent).
Proof.
  intros Hr. pose proof (handlers_reachable_inv dump sent s0 s Hr) as Hi. pose proof (inv_file _ _ _ _ Hi) as (p & r & F1 & F2 & F3).
  assert (published s = Some (dump r)) as Hp by (unfold published; by rewrite F1).
  assert (r = t_state s \/ t_lock s <> None /\ hs_request_count (t_state s) = hs_request_count r + 1) as Hrec.
  { unfold current in F3. destruct (t_lock s) as [j|]; [|left; apply F3].
    destruct (default HDone _); cbn in F3; try (left; apply F3); try (right; split; [done|apply F3]). done. }
  split_and!.
  - apply (inv_count _ _ _ _ Hi).
  - apply (inv_bytes _ _ _ _ Hi).
  - by exists r.
  - by apply handlers_move with s0.
  - apply handlers_stop.
  - intros Hd. exists r. split; [done|]. assert (t_lock s = None) as Hl.
    { destruct (t_lock s) as [j|] eqn:E; [|done]. apply (inv_holder _ _ _ _ Hi) in E as (pc & Hj & Hh).
      rewrite Forall_lookup in Hd. by rewrite (Hd j pc Hj) in Hh. }
    destruct Hrec as [->|[Hn _]]; [|done]. rewrite (inv_count _ _ _ _ Hi), (inv_bytes _ _ _ _ Hi), (inv_state _ _ _ _ Hi).
    pose proof (inv_len _ _ _ _ Hi) as Hlen. rewrite !tally_done by (done || (unfold ones; by rewrite length_map)). split_and!; [done| |done].
    f_equal. unfold ones, blen. clear. induction sent as [|n l IH]; cbn; [done|]. rewrite IH. lia.
Qed.

(** ** The main thread against a handler *)

Definition demo_dump (r : HttpState) : bytes := [hs_request_count r; match hs_state r with OSERVING => 1 | OSTOPPED => 2 | _ => 0 end].
Definition demo_serving : HttpState :=
  mkHttpState ($"s") 7 OSERVING None None ($"/srv") ($"127.0.0.1") 8000 (Some ($"http://127.0.0.1:8000/")) 0 0 None 0 0 None.
Definition daemon_step (dump : HttpState -> bytes) (sent : list Z) (s s' : threads) : Prop := handler_step dump sent s s' \/ main_step dump s s'.

Tactic Notation "handler_moves" uconstr(c) := eapply rtc_l; [left; eapply c; first [reflexivity|cbn; lia]|cbn].
Tactic Notation "main_moves" uconstr(c) := eapply rtc_l; [right; eapply c; first [reflexivity|cbn; lia]|cbn].
Tactic Notation "moves" uconstr(c) := eapply rtc_l; [eapply c; first [reflexivity|cbn; lia]|cbn].

(** A handler that has copied the dictionary before the main thread's last
    report, and renames after it, puts its copy in the place of that report:
    the daemon has stopped, and its state file says that it serves. *)
Example stopped_report_overwritten :
  exists s, rtc (daemon_step demo_dump [10]) (serving demo_dump [10] demo_serving) s /\
    t_main s = MDone /\ hs_state (t_state s) = OSTOPPED /\ published s = Some [1; 1].
Proof.
  eexists. split.
  { handler_moves (h_acquire demo_dump [10] _ 0). handler_moves (h_count demo_dump [10] _ 0 10 0). handler_moves (h_copy demo_dump [10] _ 0 0).
    main_moves (m_stop demo_dump _ ($"signal")). main_moves (m_copy demo_dump _ 0). main_moves m_open.
    main_moves (m_write demo_dump _ _ _ _ 2). main_moves m_replace.
    handler_moves (h_open demo_dump [10] _ 0).
    handler_moves (h_write demo_dump [10] _ 0 _ _ _ 2). handler_moves (h_replace demo_dump [10] _ 0).
    apply rtc_refl. }
  split_and!; reflexivity.
Qed.

(** The main thread opens, and so empties, the temporary file a handler has
    written; the handler's rename then publishes an empty file, which a
    reader takes for no record. *)
Example empty_record_published :
  exists s, rtc (daemon_step demo_dump [10]) (serving demo_dump [10] demo_serving) s /\ published s = Some [].
Proof.
  eexists. split.
  { handler_moves (h_acquire demo_dump [10] _ 0). handler_moves (h_count demo_dump [10] _ 0 10 0). handler_moves (h_copy demo_dump [10] _ 0 0).
    handler_moves (h_open demo_dump [10] _ 0).
    handler_moves (h_write demo_dump [10] _ 0 _ _ _ 2).
    main_moves (m_stop demo_dump _ ($"signal")). main_moves (m_copy demo_dump _ 0). main_moves m_open.
    handler_moves (h_replace demo_dump [10] _ 0). apply rtc_refl. }
  reflexivity.
Qed.

(** Two requests, one after the other. *)
Lemma counters_exact_witness :
  exists s r, rtc (handler_step demo_dump [10; 32]) (serving demo_dump [10; 32] demo_serving) s /\
    published s = Some (demo_dump r) /\ hs_request_count r = 0 + 2 /\ hs_bytes_served r = 0 + 42.
Proof.
  eassert (rtc (handler_step demo_dump [10; 32]) (serving demo_dump [10; 32] demo_serving) _) as Hr.
  { moves (h_acquire demo_dump [10; 32] _ 1). moves (h_count demo_dump [10; 32] _ 1 32 0). moves (h_copy demo_dump [10; 32] _ 1 0).
    moves (h_open demo_dump [10; 32] _ 1). moves (h_write demo_dump [10; 32] _ 1 _ _ _ 2). moves (h_replace demo_dump [10; 32] _ 1).
    moves (h_release demo_dump [10; 32] _ 1).
    moves (h_acquire demo_dump [10; 32] _ 0). moves (h_count demo_dump [10; 32] _ 0 10 0). moves (h_copy demo_dump [10; 32] _ 0 0).
    moves (h_open demo_dump [10; 32] _ 0). moves (h_write demo_dump [10; 32] _ 0 _ _ _ 2). moves (h_replace demo_dump [10; 32] _ 0).
    moves (h_release demo_dump [10; 32] _ 0).
    apply rtc_refl. }
  destruct (proj2 (proj2 (proj2 (proj2 (proj2 (counters_exact _ _ _ _ Hr)))))) as (r & H1 & _ & H2 & H3); [repeat constructor|].
  eexists _, r. split; [exact Hr|]. split; [exact H1|]. split; [exact H2|exact H3].
Defined.
