(* ===== verification/AsmbHttpOrigin.v ===== *)
(** * modules/asmb8_http_origin.py: starting and stopping the HTTP origin

    The module's two operations over the runtime directory: [_start] (live
    session, stale session, check mode, spawning the server, waiting for its
    verdict) and [_stop].  [fork] is what forking the server does: the pid
    reported over the pipe, if any, and the world afterwards; [fresh_id] is
    the generated session id; [fs] are the files the root is looked up in.
    A call of [fail_json] ends the module, so it is a result. *)
From Stdlib Require Import ZArith Lia Ascii String.
From stdpp Require Import prelude.
From S2P Require Import Prelude PyBytes PyText Regex Errors DaemonRuntime HttpPath HttpOrigin Models PyValue Webvar Asp Ansible.

Module OriginModule.
#[export] Instance origin_state_eq_dec : EqDecision OriginState.
Proof. solve_decision. Defined.

Definition argument_spec : argspec :=
  [($"state", arg_choice [$"started"; $"stopped"]); ($"path", arg_opt TPath); ($"session_id", arg_opt TStr);
   ($"runtime_dir", arg_def TPath (PStr ($"~/.ansible/asmb8_ikvm/http-origins"))); ($"bind_address", arg_def TStr (PStr ($"127.0.0.1")));
   ($"port", arg_def TInt (PInt 0)); ($"lifetime_seconds", arg_def TInt (PInt (4 * 60 * 60)));
   ($"start_timeout", arg_def TInt (PInt 10)); ($"stop_timeout", arg_def TInt (PInt 15))].

Inductive desired_state : Type := Started | Stopped.

Record Params : Type := {
  p_state : desired_state;
  p_path : option path;            (* [None]: not given, or empty *)
  p_session_id : option text;
  p_runtime_dir : text;
  p_bind_address : text;
  p_port : Z;
  p_lifetime_seconds : Z;
  p_start_timeout : Z;             (* in seconds *)
  p_stop_timeout : Z;
  p_check_mode : bool;
}.

Definition build_session_config (params : Params) (session_id : text) (root : path) : OriginConfig :=
  mkOrigin session_id root (p_bind_address params) (p_port params) (1000 * p_lifetime_seconds params).

(** [_status_fields]; [sf_state] is [None] for "unknown". *)
Record StatusFields : Type := mkFields {
  sf_state : option OriginState;
  sf_pid : option Z;
  sf_url : option text;
  sf_port : option Z;
  sf_root : option text;
  sf_request_count : Z;
  sf_bytes_served : Z;
  sf_last_request_at : option Z;
  sf_started_at : option Z;
  sf_stop_reason : option text;
  sf_error : option text;
}.
Definition status_fields (state : option HttpState) : StatusFields :=
  match state with
  | None => mkFields None None None None None 0 0 None None None None
  | Some s =>
      mkFields (Some (hs_state s)) (Some (hs_pid s)) (hs_url s) (Some (hs_port s)) (Some (hs_root s)) (hs_request_count s)
        (hs_bytes_served s) (hs_last_request_at s) (Some (hs_started_at s)) (hs_stop_reason s) (hs_error s)
  end.

Definition error_class_of (state : option HttpState) : ErrorClass :=
  default PROTOCOL (match state with Some s => hs_error_class s | None => None end).

Definition endpoint_of (params : Params) : text := host_port (p_bind_address params) (p_port params).

(** The receipt with the fields it is reported beside ([_finalize]). *)
Record OriginResult : Type := {
  r_action : text;
  r_endpoint : text;
  r_changed : bool;
  r_previous : option HttpState;
  r_desired : option text;
  r_observed : option HttpState;
  r_session_id : text;
  r_fields : StatusFields;
  r_recovered_stale : option bool;
  r_access_log : option text;
  r_exited_cleanly : option bool;
}.

Inductive module_exit : Type :=
  | Exit (r : OriginResult)
  | Fail (msg : text) (cls : ErrorClass) (indeterminate : bool) (session_id : text) (fields : StatusFields).

Definition state_name (s : option OriginState) : text := match s with Some s => origin_state_str s | None => $"unknown" end.
Definition opt_dec (o : option Z) : text := match o with Some z => dec z | None => $"None" end.
(** [e] when it is set and not empty *)
Definition nonempty_opt (e : option text) : option text := match e with Some (c :: t) => Some (c :: t) | _ => None end.

Section Module.
Context (env : HWorld -> HWorld) (fs : fs) (has_fork : bool) (fork : OriginConfig -> HWorld -> option Z * HWorld).
Context (now : Z) (fresh_id : text).

Definition access_log_of (params : Params) (sid : text) : text := p_runtime_dir params ++ $"/" ++ access_log_file_path sid.

Definition is_live (s : HttpState) (w : HWorld) : bool := is_pid_alive (Some (hs_pid s)) w && negb (TERMINAL (hs_state s)).

(** The states that end the wait of a start. *)
Definition settled (s : HttpState) : bool := match hs_state s with OSERVING | OERROR | OSTOPPED => true | OSTARTING => false end.

Definition lift_root {A} (r : result root_error A) : io HWorld exn A :=
  match r with
  | Ok x => io_ret x
  | Err (InvalidRoot e) => io_raise (Ikvm e)
  | Err RootLoop => io_raise (RuntimeError ($"Symlink loop"))
  end.

Definition start_result (params : Params) (sid : text) (endpoint : text) (changed : bool) (previous : option HttpState)
    (desired : option text) (observed : option HttpState) (fields : StatusFields) (recovered : option bool) : module_exit :=
  Exit {| r_action := $"asmb8_http_origin.start"; r_endpoint := endpoint; r_changed := changed; r_previous := previous;
          r_desired := desired; r_observed := observed; r_session_id := sid; r_fields := fields; r_recovered_stale := recovered;
          r_access_log := Some (access_log_of params sid); r_exited_cleanly := None |}.

(** From the spawned server's verdict to the module's result. *)
Definition start_verdict (params : Params) (sid : text) (existing observed : option HttpState) : io HWorld exn module_exit :=
  let fields := status_fields observed in
  let failed := $"asmb8_http_origin start failed: " in
  if bool_decide (sf_state fields = Some OERROR) then
    io_ret (Fail (failed ++ default ($"None") (sf_error fields)) (error_class_of observed) false sid fields)
  else if negb (bool_decide (sf_state fields = Some OSERVING)) then
    do w <- io_get;
    if negb (is_pid_alive (hs_pid <$> observed) w) then
      do again <- read_state sid;
      let final := match again with Some s => Some s | None => observed end in
      let final_fields := status_fields final in
      let msg := match nonempty_opt (sf_error final_fields), nonempty_opt (sf_error fields) with
                 | Some e, _ | None, Some e => failed ++ e
                 | None, None =>
                     failed ++ $"the background process exited without reporting 'serving' (last observed state "
                     ++ repr (state_name (sf_state final_fields)) ++ $")."
                 end in
      io_ret (Fail msg (error_class_of final) false sid final_fields)
    else if match sf_state fields with Some s => TERMINAL s | None => false end then
      io_ret (Fail (failed ++ $"the session reached terminal state " ++ repr (state_name (sf_state fields))
                    ++ $" without ever reporting 'serving'"
                    ++ match nonempty_opt (sf_error fields) with Some e => $": " ++ e | None => [] end)
                (error_class_of observed) false sid fields)
    else
      io_ret (Fail ($"asmb8_http_origin start did not confirm within start_timeout=" ++ dec (p_start_timeout params)
                    ++ $"s: the background process (pid " ++ opt_dec (sf_pid fields)
                    ++ $") is still running but its last reported state is " ++ repr (state_name (sf_state fields))
                    ++ $", not 'serving'. The process was not stopped and is still running as session_id " ++ repr sid
                    ++ $". Re-probe it with another state=started call for that same session_id rather than retrying -- this is idempotent -- and raise start_timeout if slow starts are normal here.")
                TIMEOUT true sid fields)
  else
    io_ret (start_result params sid (p_bind_address params ++ $":" ++ opt_dec (sf_port fields)) true existing (Some ($"serving"))
              observed fields (Some (bool_decide (is_Some existing)))).

Definition start_sid (params : Params) : text := match p_session_id params with Some (c :: t) => c :: t | _ => fresh_id end.

(** [_start] *)
Definition start (params : Params) : io HWorld exn module_exit :=
  let sid := start_sid params in
  do existing <- read_state sid;
  do w <- io_get;
  if match existing with Some s => is_live s w | None => false end then
    let endpoint := match existing with
                    | Some s => host_port (hs_bind_address s) (if hs_port s =? 0 then p_port params else hs_port s)
                    | None => []
                    end in
    io_ret (start_result params sid endpoint false existing None existing (status_fields existing) None)
  else
    run (match existing with Some _ => io_modify (origin_remove_state sid) | None => io_ret tt end);
    match p_path params with
    | None => io_raise (Ikvm (ProtocolError ($"asmb8_http_origin state=started requires path to be set") None ($"asmb8_http_origin.start")))
    | Some given_path =>
        do root <- lift_root (validate_root fs given_path);
        if p_check_mode params then
          io_ret (start_result params sid (endpoint_of params) true existing (Some ($"serving")) None
                    (mkFields (Some OSTARTING) None None None (Some (path_str (snd root))) 0 0 None None None None)
                    (Some (bool_decide (is_Some existing))))
        else
          run origin_spawn_session has_fork fork now (build_session_config params sid (snd root));
          do observed <- wait_for_state env sid settled (1000 * p_start_timeout params);
          start_verdict params sid existing observed
    end.

Definition stop_result (sid endpoint : text) (changed : bool) (previous observed : option HttpState) (fields : StatusFields)
    (recovered : option bool) (exited : option bool) : module_exit :=
  Exit {| r_action := $"asmb8_http_origin.stop"; r_endpoint := endpoint; r_changed := changed; r_previous := previous;
          r_desired := Some ($"stopped"); r_observed := observed; r_session_id := sid; r_fields := fields;
          r_recovered_stale := recovered; r_access_log := None; r_exited_cleanly := exited |}.

(** [_stop]; its warning about a server that is still there is the value of
    [r_exited_cleanly] *)
Definition stop (params : Params) (sid : text) : io HWorld exn module_exit :=
  do existing <- read_state sid;
  match existing with
  | None => io_ret (stop_result sid ($"unknown") false None None (status_fields None) None None)
  | Some s =>
      let endpoint := hs_bind_address s ++ $":" ++ (if hs_port s =? 0 then $"unknown" else dec (hs_port s)) in
      do w <- io_get;
      let live := is_pid_alive (Some (hs_pid s)) w in
      if p_check_mode params then io_ret (stop_result sid endpoint live existing existing (status_fields existing) None None)
      else if negb live then
        run io_modify (origin_remove_state sid);
        io_ret (stop_result sid endpoint false existing existing (status_fields existing) (Some true) None)
      else
        run request_stop (Some (hs_pid s));
        do exited <- wait_for_exit env (Some (hs_pid s)) (1000 * p_stop_timeout params);
        do final <- read_state sid;
        let final_state := match final with Some f => Some f | None => existing end in
        run io_modify (origin_remove_state sid);
        io_ret (stop_result sid endpoint true existing final_state (status_fields final_state) None (Some exited))
  end.

(** [main] between parameter validation and exit. *)
Definition main (params : Params) : io HWorld exn (module_exit + module_result) :=
  io_try
    (do r <- match p_state params with
             | Started => start params
             | Stopped => stop params (default [] (p_session_id params))
             end;
     io_ret (inl r))
    (fun e => match e with
              | Ikvm err => io_ret (inr (fail_ikvm err))
              | e => io_raise e
              end).
End Module.

(** ** Lemmas *)

Definition state_at (w : HWorld) (sid : text) : option (content HttpState AccessRecord) := assoc_get (w_files w) (state_file_path sid).

(** Reading the record neither fails nor changes anything. *)
Definition readable (sid : text) (w : HWorld) : Prop :=
  match state_at w sid with Some NotUtf8 | Some (Denied _) => False | _ => True end.

Lemma origin_read_pure sid (w : HWorld) : (read_state sid w).2 = w.
Proof. unfold read_state. by destruct (assoc_get _ _) as [[]|]. Qed.
Lemma origin_read_returns sid w : readable sid w -> exists o, read_state sid w = (Ret o, w).
Proof. unfold readable, state_at, read_state. destruct (assoc_get _ _) as [[]|]; intros H; try done; by eexists. Qed.
Lemma origin_read_doc sid (w w' : HWorld) s : read_state sid w = (Ret (Some s), w') -> w' = w /\ state_at w sid = Some (Doc s).
Proof. unfold read_state, state_at. destruct (assoc_get _ _) as [[]|]; try done. by intros [= -> ->]. Qed.

Lemma removed_gone sid (w : HWorld) name :
  name ∈ [state_file_path sid; log_file_path sid; access_log_file_path sid] -> assoc_get (w_files (origin_remove_state sid w)) name = None.
Proof. intros H. unfold origin_remove_state. rewrite remove_paths_get. by rewrite decide_True. Qed.

(** What a session may lose without any process being touched. *)
Definition only_forgets (sid : text) (w w' : HWorld) : Prop :=
  w_procs w' = w_procs w /\ w_clock w' = w_clock w /\ w_disk w' = w_disk w /\
  forall name, assoc_get (w_files w') name = assoc_get (w_files w) name \/
    (name ∈ [state_file_path sid; log_file_path sid; access_log_file_path sid] /\ assoc_get (w_files w') name = None).
Lemma origin_forgets_refl sid w : only_forgets sid w w.
Proof. split_and!; [done..|]. by left. Qed.
Lemma origin_forgets_remove sid w : only_forgets sid w (origin_remove_state sid w).
Proof.
  split_and!; [done..|]. intros name. unfold origin_remove_state. rewrite remove_paths_get. case_decide; [by right|by left].
Qed.

Lemma lift_root_pure {A} (r : result root_error A) w : (lift_root r w).2 = w.
Proof. by destruct r as [x|[]]. Qed.

Lemma wait_keeps env (P : HWorld -> Prop) fuel pid deadline poll w :
  (forall w ms, P w -> P (sleep env ms w)) -> P w -> P (wait_for_exit_loop env fuel pid deadline poll w).2.
Proof.
  intros Hs. revert w. induction fuel as [|fuel IH]; intros w Hw; cbn [wait_for_exit_loop]; [done|].
  unfold io_bind, io_get, io_modify. destruct (negb _); [done|]. destruct (_ <=? _); [done|]. by apply IH, Hs.
Qed.

(** The verdict of a start succeeds only on a serving record. *)
Lemma start_verdict_exit params sid existing observed w r w' :
  start_verdict params sid existing observed w = (Ret (Exit r), w') ->
  w' = w /\ r_changed r = true /\ exists s, observed = Some s /\ r_observed r = Some s /\ hs_state s = OSERVING.
Proof.
  unfold start_verdict. case_bool_decide as H1; [done|]. case_bool_decide as H2; cbn [negb].
  - intros [= <- <-]. split_and!; [done..|]. destruct observed as [s|]; [|done]. exists s. split_and!; [done..|]. by injection H2.
  - unfold io_bind at 1, io_get. destruct (negb _).
    + unfold io_bind. destruct (read_state sid w) as [[o|e|] w1]; done.
    + destruct (match sf_state _ with Some _ => _ | None => _ end); done.
Qed.

Lemma wait_for_state_returns env sid until timeout w o w' :
  (forall w, w_clock w <= w_clock (env w)) -> wait_for_state env sid until timeout w = (Ret (Some o), w') -> state_at w' sid = Some (Doc o).
Proof.
  intros He H. unfold wait_for_state, io_bind, io_get in H.
  pose proof (wait_fuel_steps timeout STATE_POLL_INTERVAL _ ltac:(unfold STATE_POLL_INTERVAL; lia) (le_n (wait_fuel timeout STATE_POLL_INTERVAL))) as Hf.
  destruct (wait_for_state_loop_ok env He (wait_fuel timeout STATE_POLL_INTERVAL) sid until (w_clock w + timeout) STATE_POLL_INTERVAL w)
    as (w5 & [Hw1 Hw2] & _); [unfold STATE_POLL_INTERVAL; lia|lia|unfold wait_fuel; lia|].
  rewrite H in Hw1, Hw2. cbn [fst snd] in Hw1, Hw2. subst w5.
  destruct (read_state sid w') as [o1 w2] eqn:Er. cbn in Hw2. subst o1. by apply origin_read_doc in Er as [_ ?].
Qed.

(** ** Properties *)

Section Properties.
Context (env : HWorld -> HWorld) (fs : fs) (has_fork : bool) (fork : OriginConfig -> HWorld -> option Z * HWorld).
Context (now : Z) (fresh_id : text).

(** C40: A reported start is a serving origin.  Outside check mode, when a
    start exits successfully, either the session was live before and nothing
    was changed, or the session's record on disk is, at that moment, the one
    reported, in the state "serving".  Every other verdict of the server is
    a failure. *)
Theorem start_success_sound params w w' r :
  (forall w, w_clock w <= w_clock (env w)) -> p_check_mode params = false ->
  start env fs has_fork fork now fresh_id params w = (Ret (Exit r), w') ->
  (r_changed r = false /\ w' = w /\ exists s, state_at w (start_sid fresh_id params) = Some (Doc s) /\ is_live s w = true) \/
  (r_changed r = true /\ exists s, r_observed r = Some s /\ hs_state s = OSERVING /\
     state_at w' (start_sid fresh_id params) = Some (Doc s)).
Proof.
  intros He Hc H. unfold start in H. set (sid := start_sid fresh_id params) in *.
  apply io_bind_inv in H as (existing & w1 & Hr & H).
  assert (w1 = w) as -> by (pose proof (origin_read_pure sid w) as Hp; by rewrite Hr in Hp).
  apply io_bind_inv in H as (w1 & w2 & [= <- <-] & H).
  destruct (match existing with Some s => is_live s w | None => false end) eqn:El.
  - left. injection H as <- <-. split_and!; [done..|]. destruct existing as [s|]; [|done].
    apply origin_read_doc in Hr as [_ ?]. by exists s.
  - right. apply io_bind_inv in H as ([] & w1 & _ & H). destruct (p_path params) as [q|]; [|done].
    apply io_bind_inv in H as (root & w2 & _ & H). rewrite Hc in H.
    apply io_bind_inv in H as (pid & w3 & _ & H). apply io_bind_inv in H as (observed & w4 & Hw & H).
    apply start_verdict_exit in H as (-> & Hch & s & -> & Ho & Hs). split; [done|]. exists s. split_and!; [done..|].
    by eapply wait_for_state_returns.
Qed.

(** In check mode no process is touched.  A check-mode start, however it
    ends, starts, signals and waits for nobody and writes nothing; it can at
    most delete files of its own session.  A check-mode stop leaves the
    world as it was. *)
Theorem origin_check_mode_frame params sid w :
  p_check_mode params = true ->
  only_forgets (start_sid fresh_id params) w (start env fs has_fork fork now fresh_id params w).2 /\
  (stop env params sid w).2 = w.
Proof.
  intros Hc. split.
  - unfold start. set (k := start_sid fresh_id params). unfold io_bind at 1. pose proof (origin_read_pure k w) as Hr.
    destruct (read_state k w) as [[existing|e|] w1]; cbn [snd] in Hr; subst w1; [|apply origin_forgets_refl..].
    unfold io_bind at 1, io_get. cbn [fst snd].
    destruct (match existing with Some s => is_live s w | None => false end); [apply origin_forgets_refl|].
    unfold io_bind at 1. set (w1 := match existing with Some _ => origin_remove_state k w | None => w end).
    assert (only_forgets k w w1) as H1 by (unfold w1; destruct existing; [apply origin_forgets_remove|apply origin_forgets_refl]).
    assert (match existing with Some _ => io_modify (origin_remove_state k) | None => io_ret tt end w = (@Ret exn unit tt, w1)) as ->
      by (unfold w1; by destruct existing).
    destruct (p_path params) as [q|]; [|exact H1]. unfold io_bind at 1. pose proof (lift_root_pure (validate_root fs q) w1) as Hl.
    destruct (lift_root (validate_root fs q) w1) as [[root|e|] w2]; cbn [snd] in Hl; subst w2; [|exact H1..]. by rewrite Hc.
  - unfold stop, io_bind. pose proof (origin_read_pure sid w) as Hr.
    destruct (read_state sid w) as [[[s|]|e|] w1]; cbn [snd] in Hr; subst w1; [|done..]. unfold io_get. cbn [fst snd]. by rewrite Hc.
Qed.

(** Stopping always ends and forgets the session.  For a session with a
    record, whose process (if any) this user may signal, in a directory that
    stays readable, a stop outside check mode returns; the session has no
    files left; [changed] says whether its process was alive, and when it
    was, the exit is reported clean exactly when the process is gone. *)
Theorem stop_forgets_session params sid w s :
  (forall w, w_clock w <= w_clock (env w)) -> (forall w, readable sid w -> readable sid (env w)) ->
  p_check_mode params = false -> state_at w sid = Some (Doc s) ->
  (forall p, assoc_get (w_procs w) (hs_pid s) = Some p -> p_mine p = true) ->
  exists r w', stop env params sid w = (Ret (Exit r), w') /\
    (forall name, name ∈ [state_file_path sid; log_file_path sid; access_log_file_path sid] -> assoc_get (w_files w') name = None) /\
    r_changed r = is_pid_alive (Some (hs_pid s)) w /\
    (is_pid_alive (Some (hs_pid s)) w = true -> r_exited_cleanly r = Some (negb (is_pid_alive (Some (hs_pid s)) w'))).
Proof.
  intros He Hk Hc Hs Hm. unfold stop, io_bind.
  assert (read_state sid w = (Ret (Some s), w)) as -> by (unfold read_state; unfold state_at in Hs; by rewrite Hs).
  unfold io_get. cbn [fst snd]. rewrite Hc. destruct (is_pid_alive (Some (hs_pid s)) w) eqn:Ha; cbn [negb].
  2: { eexists _, (origin_remove_state sid w). split; [done|]. split_and!; [apply removed_gone|done|done]. }
  assert (exists w1, request_stop (Some (hs_pid s)) w = (Ret tt, w1) /\ w_files w1 = w_files w) as (w1 & -> & Hf).
  { unfold request_stop. cbn [is_pid_alive] in Ha. destruct (hs_pid s <=? 0); [done|]. unfold probe in Ha.
    destruct (assoc_get (w_procs w) (hs_pid s)) as [q|]; [|done]. rewrite (Hm q eq_refl). by eexists. }
  assert (readable sid w1) as Hr1 by (unfold readable, state_at in *; by rewrite Hf, Hs).
  set (timeout := 1000 * p_stop_timeout params).
  pose proof (wait_fuel_steps timeout STATE_POLL_INTERVAL _ ltac:(unfold STATE_POLL_INTERVAL; lia) (le_n (wait_fuel timeout STATE_POLL_INTERVAL))) as Hfuel.
  unfold wait_for_exit, io_bind, io_get.
  destruct (wait_for_exit_loop_ok env He (wait_fuel timeout STATE_POLL_INTERVAL) (Some (hs_pid s)) (w_clock w1 + timeout) STATE_POLL_INTERVAL w1)
    as (b & w2 & Hw & Hb & _); [unfold STATE_POLL_INTERVAL; lia|lia|unfold wait_fuel; lia|].
  pose proof (wait_keeps env (readable sid) (wait_fuel timeout STATE_POLL_INTERVAL) (Some (hs_pid s)) (w_clock w1 + timeout)
                STATE_POLL_INTERVAL w1 (fun w ms H => Hk (mkWorld _ _ _ _) H) Hr1) as Hr2.
  rewrite Hw in Hr2 |- *. cbn [snd] in Hr2. destruct (origin_read_returns sid w2 Hr2) as [o ->].
  eexists _, (origin_remove_state sid w2). split; [done|]. split_and!; [apply removed_gone|done|].
  intros _. cbn [r_exited_cleanly stop_result].
  change (is_pid_alive (Some (hs_pid s)) (origin_remove_state sid w2)) with (is_pid_alive (Some (hs_pid s)) w2).
  by rewrite Hb, negb_involutive.
Qed.
End Properties.

(** ** The properties at concrete sessions *)

Definition demo_params (check : bool) : Params :=
  {| p_state := Started; p_path := Some [$"srv"]; p_session_id := Some ($"s1"); p_runtime_dir := $"/run"; p_bind_address := $"127.0.0.1";
     p_port := 0; p_lifetime_seconds := 60; p_start_timeout := 10; p_stop_timeout := 15; p_check_mode := check |}.
Definition demo_state (st : OriginState) : HttpState :=
  hs_status st None None None (origin_initial_state ($"s1") 41 ($"/srv") ($"127.0.0.1") 8080 0).
(** A server that comes up at once. *)
Definition demo_fork (cfg : OriginConfig) (w : HWorld) : option Z * HWorld :=
  (Some 41, mkWorld (assoc_set (w_files w) (state_file_path (oc_session_id cfg)) (Doc (demo_state OSERVING)))
              ((41, {| p_mine := true; p_sigterm := 0 |}) :: w_procs w) (w_clock w) (w_disk w)).
Definition demo_stale : HWorld := mkWorld [(state_file_path ($"s1"), Doc (demo_state OERROR))] [] 0 [].

Lemma start_success_sound_witness :
  exists r w' s, start (fun w => w) looping_fs true demo_fork 0 ($"f") (demo_params false) demo_stale = (Ret (Exit r), w') /\
    r_changed r = true /\ r_observed r = Some s /\ hs_state s = OSERVING.
Proof.
  destruct (start (fun w => w) looping_fs true demo_fork 0 ($"f") (demo_params false) demo_stale) as [[[r|m c i sid f]|e|] w'] eqn:E;
    [|vm_compute in E; discriminate E..].
  destruct (start_success_sound (fun w => w) looping_fs true demo_fork 0 ($"f") (demo_params false) demo_stale w' r (fun w => Z.le_refl _) eq_refl E)
    as [(_ & _ & s & [= <-] & Hl)|(H & s & H1 & H2 & _)]; [vm_compute in Hl; discriminate Hl|].
  by exists r, w', s.
Defined.

Lemma origin_check_mode_frame_witness :
  (stop (fun w => w) (demo_params true) ($"s1") demo_stale).2 = demo_stale.
Proof.
  destruct (origin_check_mode_frame (fun w => w) looping_fs true demo_fork 0 ($"f") (demo_params true) ($"s1") demo_stale eq_refl) as [_ H].
  exact H.
Defined.

Lemma stop_forgets_session_witness :
  exists r w', stop (fun w => w) (demo_params false) ($"s1") demo_stale = (Ret (Exit r), w') /\ r_changed r = false.
Proof.
  destruct (stop_forgets_session (fun w => w) (demo_params false) ($"s1") demo_stale (demo_state OERROR) (fun w => Z.le_refl _) (fun w H => H)
              eq_refl eq_refl) as (r & w' & H & _ & Hc & _).
  - by intros p.
  - exists r, w'. split; [done|]. by rewrite Hc.
Defined.

(** A check-mode start for a session whose server is gone deletes its
    record. *)
Theorem origin_check_mode_deletes_record :
  state_at demo_stale ($"s1") <> None /\
  (exists r, (start (fun w => w) looping_fs true demo_fork 0 ($"f") (demo_params true) demo_stale).1 = Ret (Exit r)) /\
  state_at (start (fun w => w) looping_fs true demo_fork 0 ($"f") (demo_params true) demo_stale).2 ($"s1") = None.
Proof. split; [done|]. split; [eexists; vm_compute; reflexivity|by vm_compute]. Qed.
End OriginModule.
