(* ===== verification/OriginStart.v ===== *)
(** * state=started, the module and its server together

    [AsmbHttpOrigin] is the module, [HttpOrigin] the server process it
    forks.  They share the runtime directory, in which the module polls the
    state file, and the files that are served.  Here a run of the module is
    put together with the run of the server, whose self-test goes to its own
    request handler. *)
From Stdlib Require Import ZArith Lia Ascii String.
From stdpp Require Import prelude.
From S2P Require Import Prelude PyBytes PyText Regex Errors DaemonRuntime Url HttpRange HttpPath HttpOrigin Models PyValue Webvar Asp Ansible AsmbHttpOrigin.
Import OriginModule.

Section Start.
Context (env : HWorld -> HWorld) (f : fs) (fork : OriginConfig -> HWorld -> option Z * HWorld) (now : Z) (fresh_id : text) (params : Params).
Hypothesis env_clock : forall w, w_clock w <= w_clock (env w).
Local Abbreviation sid := (start_sid fresh_id params).

(** The configuration the module hands to the server. *)
Definition origin_config (root : path) : OriginConfig := build_session_config params sid root.

(** The directory after [spawn_session], given what the fork left. *)
Definition origin_after_spawn (root : path) (pid : Z) (w : HWorld) : HWorld :=
  (write_state_if_absent sid (origin_initial_state sid pid (path_str root) (p_bind_address params) (p_port params) now) w).2.

Lemma origin_spawn_reports root pid w w' :
  fork (origin_config root) w = (Some pid, w') -> w_disk w' = [] ->
  origin_spawn_session true fork now (origin_config root) w = (Ret pid, origin_after_spawn root pid w').
Proof.
  intros Hf Hd. unfold origin_spawn_session. cbn [negb]. unfold io_bind at 1. rewrite Hf. unfold origin_after_spawn, origin_config, io_bind.
  cbn [build_session_config oc_session_id oc_root oc_bind_address oc_port]. unfold write_state_if_absent.
  destruct (assoc_get _ _); [done|]. unfold io_bind, disk_step. by rewrite Hd.
Qed.

Definition origin_without_stale (existing : option HttpState) (w : HWorld) : HWorld :=
  match existing with Some _ => origin_remove_state sid w | None => w end.

(** What the rest of the system does for a start to get as far as its
    verdict: no live session answers to the id, the path is a directory, the
    server is forked and reports its pid, and [observed] is the first settled
    record the module finds in time. *)
Record start_settles (existing : option HttpState) (given : path) (root : path) (pid : Z) (k : nat) (observed : HttpState)
    (w w2 : HWorld) : Prop := {
  st_existing : read_state sid w = (Ret existing, w);
  st_not_live : match existing with Some s => is_live s w | None => false end = false;
  st_mode : p_check_mode params = false;
  st_path : p_path params = Some given;
  st_root : validate_root f given = Ok (false, root);
  st_fork : fork (origin_config root) (origin_without_stale existing w) = (Some pid, w2);
  st_disk : w_disk w2 = [];
  st_settles : settles_at env sid settled (w_clock (origin_after_spawn root pid w2) + 1000 * p_start_timeout params) k
                 (origin_after_spawn root pid w2) observed;
}.

(** Up to the verdict, [_start] does what its parts do. *)
Lemma start_reaches_verdict existing given root pid k observed w w2 :
  start_settles existing given root pid k observed w w2 ->
  start env f true fork now fresh_id params w
  = start_verdict params sid existing (Some observed) (polls env k (origin_after_spawn root pid w2)).
Proof.
  intros [Hex Hnl Hcm Hp Hr Hfo Hd Hse]. unfold start. cbv zeta. unfold io_bind at 1. rewrite Hex. unfold io_bind at 1, io_get. rewrite Hnl.
  assert (forall (c : unit -> io HWorld exn module_exit),
    io_bind (match existing with Some _ => io_modify (origin_remove_state sid) | None => io_ret tt end) c w
    = c tt (origin_without_stale existing w)) as -> by (intros; by destruct existing).
  rewrite Hp. unfold io_bind at 1. rewrite Hr. cbn [lift_root]. unfold io_ret at 1. rewrite Hcm. cbn [snd].
  unfold io_bind at 1. fold (origin_config root). rewrite (origin_spawn_reports _ _ _ _ Hfo Hd). unfold io_bind at 1.
  by rewrite (wait_finds env env_clock _ _ _ _ _ _ Hse).
Qed.

(** A serving record is reported as it is. *)
Lemma serving_reported existing observed w :
  hs_state observed = OSERVING ->
  exists r, start_verdict params sid existing (Some observed) w = (Ret (Exit r), w) /\
    r_changed r = true /\ r_session_id r = sid /\ r_observed r = Some observed /\ r_previous r = existing /\
    r_fields r = status_fields (Some observed) /\ r_endpoint r = p_bind_address params ++ $":" ++ dec (hs_port observed).
Proof.
  intros Hs. unfold start_verdict. cbn [status_fields sf_state sf_port]. rewrite Hs.
  rewrite bool_decide_eq_false_2 by done. rewrite bool_decide_eq_true_2 by done. eexists. split; [reflexivity|]. by split_and!.
Qed.
End Start.

(** ** The server *)

Section Server.
Context (guess_type : text -> option text) (error_page : Z -> text -> bytes) (other_size : Z).
Context (cfg : OriginConfig) (pid : Z) (f : fs) (port : Z).
Local Abbreviation server := (own_server guess_type error_page other_size (oc_session_id cfg) f (false, oc_root cfg)).

(** The self-test goes through the handler, which only writes its log. *)
Lemma own_request_disk url o : origin_disk_ok o ->
  match server url o with (_, o') => origin_disk_ok o' end.
Proof.
  intros Hd. unfold own_server, handle_request.
  destruct (handle_guarded _ _ _ _ _ _ _) as [[[]|e|] h]; cbn [fst snd]; try done;
    by destruct (finish_request_ok (oc_session_id cfg) (self_test_request url) h o Hd) as (? & _).
Qed.

(** A server over a directory with a file to ask for comes up. *)
Lemma server_comes_up probe data w :
  names_ok f -> sound f (oc_root cfg) -> path_resolve f true (oc_root cfg) = Ok (false, oc_root cfg) ->
  find_probe_file f (oc_root cfg) = Ok (Some probe) -> stat f probe = Ok (File true data) -> w_disk w = [] ->
  exists o, start_origin cfg pid f (Ok port) server w = (Ret true, o) /\ origin_disk_ok o /\ origin_published (oc_session_id cfg) o /\
    hs_state (o_state o) = OSERVING /\ hs_pid (o_state o) = pid /\ hs_port (o_state o) = port /\
    hs_url (o_state o) = Some (format_bound_url (oc_bind_address cfg) port) /\ hs_root (o_state o) = path_str (oc_root cfg) /\
    hs_error (o_state o) = None /\ hs_request_count (o_state o) = 0.
Proof.
  intros Hn Hs Hr Hp Hst Hd. unfold start_origin. rewrite Hr. set (o1 := persist_with cfg id _).
  destruct (persist_with_ok cfg id (mkO (origin_initial_state (oc_session_id cfg) pid (path_str (oc_root cfg)) (oc_bind_address cfg)
              (oc_port cfg) (w_clock w)) w) Hd) as (D1 & _ & S1 & _). fold o1 in D1, S1.
  set (o2 := persist_with cfg (hs_bound _ _) o1).
  destruct (persist_with_ok cfg (hs_bound port (format_bound_url (oc_bind_address cfg) port)) o1 D1) as (D2 & _ & S2 & _). fold o2 in D2, S2.
  cbn [snd].
  destruct (self_test_passes guess_type error_page other_size f (oc_root cfg) (oc_session_id cfg) (oc_bind_address cfg) port probe data o2
              Hn Hs Hp Hst) as (detail & o3 & T1 & T2).
  rewrite T1.
  assert (origin_disk_ok o3) as D3.
  { revert T1. unfold run_self_test. rewrite Hp. destruct (quote_all _) as [qs|]; [|by intros [= _ _ <-]]. rewrite Hst.
    unfold io_bind. pose proof (own_request_disk (ch "/" :: join_slash qs) o2 D2) as H.
    destruct (server _ o2) as [[x|e|] o']; [|done|done]. by intros [= _ <-]. }
  set (g := fun s => hs_status OSERVING _ _ _ s). destruct (persist_with_ok cfg g o3 D3) as (D4 & _ & S4 & P4).
  exists (persist_with cfg g o3). split; [done|]. rewrite S4. unfold g. rewrite T2, S2, S1. by split_and!.
Qed.
End Server.

(** ** The property *)


(** ** The property at a concrete run *)

Definition start_params : Params := demo_params false.
Definition start_cfg : OriginConfig := origin_config ($"f") start_params [$"srv"].
Definition start_server : round_trip := own_server no_guess no_page 0 ($"s1") looping_fs (false, [$"srv"]).
Definition start_record : HttpState := Eval vm_compute in
  o_state (start_origin start_cfg 41 looping_fs (Ok 8080) start_server (mkWorld [] [] 0 [])).2.
Definition start_fork (_ : OriginConfig) (w : HWorld) : option Z * HWorld :=
  (Some 41, set_procs w (assoc_set (w_procs w) 41 {| p_mine := true; p_sigterm := 0 |})).
(** The server's record appears while the module sleeps. *)
Definition start_env (w : HWorld) : HWorld :=
  if w_clock w =? 400 then set_files w (assoc_set (w_files w) (state_file_path ($"s1")) (Doc start_record)) else w.

Lemma start_env_clock w : w_clock w <= w_clock (start_env w).
Proof. unfold start_env. destruct (_ =? _); cbn; lia. Qed.

Lemma start_run_settles s :
  s = start_record ->
  start_settles start_env looping_fs start_fork 0 ($"f") start_params (Some (demo_state OERROR)) [$"srv"] [$"srv"] 41 2 s demo_stale
    (start_fork start_cfg (origin_remove_state ($"s1") demo_stale)).2.
Proof.
  intros ->. split; try (vm_compute; reflexivity). split; [|vm_compute; reflexivity|vm_compute; reflexivity].
  intros [|[|i]] Hi; [..|lia]; (eexists; split; [vm_compute; reflexivity|]; split; vm_compute; reflexivity).
Qed.

