(* ===== verification/AsmbReadOnly.v ===== *)
(** * The reporting modules only read

    The frame that the read-only modules share, across the modules: whatever
    the controller answers and however a run ends, nothing is sent but page
    reads and the login, and, over IPMI, nothing but queries.  And the
    defaults of every module's arguments. *)
From Stdlib Require Import ZArith Lia Ascii String.
From stdpp Require Import prelude.
From S2P Require Import AsmbMedia.
From S2P Require Import Prelude PyBytes PyText Regex Errors Models PyValue Webvar Asp Ansible Ipmi IpmiModules.
From S2P Require Import AsmbNtp AsmbReports AsmbSel AsmbSessions AsmbSensors AsmbInventory AsmbPostcode AsmbRedirection AsmbInfo.
From S2P Require Import PyPath Transport Ivtp AsmbConsole Url BootstrapImage DaemonRuntime HttpPath HttpOrigin AsmbHttpOrigin.

(** What a run sent over the web. *)
Definition web_reads (p : Connection) (a a' : asp) : Prop :=
  exists l, a_sent a' = a_sent a ++ l /\ Forall (is_read (asp_config p)) l.

Section Reads.
Context (le : text -> option pyval) (p : Connection) (N : list http_outcome) (s0 : list http_request).
Local Abbreviation cfg := (asp_config p).
Local Abbreviation reads := (preserves (client_inv N s0 (is_read cfg))).

Lemma reads_built {A} (k : AspConfig -> io asp exn A) : reads (k cfg) -> reads (do client <- build_asp_client p; k client).
Proof.
  intros Hk. apply preserves_bind; [apply inv_build|]. intros client (a & a' & _ & H). by apply build_returns in H as (-> & _).
Qed.
Lemma reads_login : reads (login cfg).
Proof. by apply inv_login. Qed.
Lemma reads_page endpoint op : reads (read_records le cfg endpoint op).
Proof. by apply inv_get. Qed.
Lemma reads_posted endpoint data :
  webvar_path endpoint ∈ [$"/rpc/getselentries.asp"; $"/rpc/getsessioninfo.asp"] -> reads (post_records le cfg endpoint data).
Proof. by apply inv_post. Qed.
Lemma reads_host_status : reads (get_host_status cfg).
Proof.
  apply preserves_seq.
  - eapply preserves_frame; [intros a; apply request_frame|intros a; apply retry_net|]. intros a. by left.
  - intros body. apply preserves_seq; [|intros _; apply preserves_ret].
    intros a Ha. unfold raise_if_session_expired. by destruct (negb _).
Qed.
Lemma reads_degraded field endpoint transform : reads (read_endpoint le cfg field endpoint transform).
Proof.
  intros a Ha. unfold read_endpoint. pose proof (reads_page endpoint None a Ha) as H.
  by destruct (read_records le cfg endpoint None a) as [[rs|[]|] a'].
Qed.
Lemma reads_pages pages : reads (gather_pages le cfg pages).
Proof.
  induction pages as [|[[field endpoint] transform] pages IH]; cbn [gather_pages]; [apply preserves_ret|].
  apply preserves_seq; [apply reads_degraded|]. intros v. apply preserves_seq; [done|]. intros. apply preserves_ret.
Qed.

(** A computation is a sequence of reads. *)
Ltac read_steps :=
  repeat first
    [ apply preserves_ret | apply preserves_raise | apply preserves_lift | apply preserves_library
    | apply reads_built | apply reads_login | apply reads_page | apply reads_pages | apply reads_host_status
    | apply reads_posted; set_solver
    | apply preserves_guard; [|intros]
    | apply preserves_try; [|intros]
    | apply preserves_seq; [|intros]
    | match goal with |- preserves _ (match ?x with _ => _ end) => destruct x end ].

Lemma reads_users lib check : reads (users_main le p lib check).
Proof. unfold users_main, Users.gather_report. read_steps. Qed.
Lemma reads_network lib check : reads (network_main le p lib check).
Proof. unfold network_main, Network.gather_report. read_steps. Qed.
Lemma reads_alerts lib : reads (alerts_main le p lib).
Proof. unfold alerts_main, pages_main. read_steps. Qed.
Lemma reads_auditlog lib : reads (auditlog_main le p lib).
Proof. unfold auditlog_main, pages_main. read_steps. Qed.
Lemma reads_sel lib limit after : reads (Sel.main le p lib limit after).
Proof.
  unfold Sel.main, Sel.read_paged_entries, Sel.read_entries, Sel.read_max_entries, Sel.read_sel_policy, Sel.read_number. read_steps.
Qed.
Lemma reads_sensors lib names types : reads (Sensors.main le p lib names types).
Proof. unfold Sensors.main. read_steps. Qed.
Lemma reads_inventory lib sections : reads (Inventory.main le p lib sections).
Proof.
  unfold Inventory.main. read_steps. generalize (map (fun s => (s, PNone)) Inventory.ALL_SECTIONS).
  induction sections as [|s sections IH]; intros found; cbn [Inventory.read_sections]; read_steps. apply IH.
Qed.
Lemma reads_sessions lib check requested : reads (Sessions.main le p lib check requested).
Proof.
  assert (forall names ids, reads (Sessions.fetch_active_sessions le cfg names ids)) as Hf.
  { intros names ids. induction names as [|n names IH]; cbn [Sessions.fetch_active_sessions]; read_steps. exact IH. }
  unfold Sessions.main, Sessions.gather_report, Sessions.fetch_remote_session_config. read_steps; try apply Hf.
Qed.
Lemma reads_postcode_once : reads (Postcode.read_post_code le cfg).
Proof. unfold Postcode.read_post_code. read_steps. Qed.
Lemma reads_web media : reads (Info.gather_web le p media).
Proof.
  unfold Info.gather_web, Info.gather_web_management_facts, Info.gather_media_preconditions, Info.fetch_remote_session_preconditions,
    Info.fetch_vmediacfg_preconditions. read_steps.
Qed.
End Reads.

(** The sampler and the two-client world keep what their clients keep. *)
Section Lifts.
Context (le : text -> option pyval) (p : Connection) (N : list http_outcome) (s0 : list http_request).
Local Abbreviation cfg := (asp_config p).
Local Abbreviation inv := (client_inv N s0 (is_read cfg)).

Section Sampler.
Context (lag : nat -> Z) (wall_clock : Z -> text).
Local Abbreviation sampler_inv := (fun s => inv (Postcode.sp_asp s)).

Lemma reads_on_client {A} (c : io asp exn A) : preserves inv c -> preserves sampler_inv (Postcode.on_client lag c).
Proof. intros Hc s Hs. unfold Postcode.on_client. specialize (Hc _ Hs). by destruct (c (Postcode.sp_asp s)). Qed.

Lemma reads_loop fuel i d start l : preserves sampler_inv (Postcode.sample_loop le lag wall_clock fuel cfg i d start l).
Proof.
  revert l. induction fuel as [|fuel IH]; intros l; cbn [Postcode.sample_loop]; [by intros s|].
  apply preserves_seq; [by intros s|]. intros now. apply preserves_seq; [apply reads_on_client, reads_postcode_once|]. intros reading.
  apply preserves_seq; [by intros s|]. intros now'. destruct (_ <? _); [apply preserves_ret|].
  apply preserves_seq; [by intros s|]. intros _. apply IH.
Qed.

Lemma reads_postcode lib sample i d : preserves sampler_inv (Postcode.main le p lag wall_clock lib sample i d).
Proof.
  apply preserves_library. destruct (if sample then _ else None); [apply preserves_ret|].
  apply preserves_bind; [apply reads_on_client, inv_build|]. intros client (s & s' & _ & H).
  assert (client = cfg) as ->.
  { unfold Postcode.on_client in H. destruct (build_asp_client p (Postcode.sp_asp s)) as [o a] eqn:E. injection H as -> _.
    by apply build_returns in E as (-> & _). }
  apply preserves_guard; [|intros [[code n] r]; apply preserves_ret].
  apply preserves_seq; [by apply reads_on_client, inv_login|]. intros _. unfold Postcode.read_mode. destruct sample.
  - apply preserves_seq.
    + apply preserves_seq; [by intros s0'|]. intros start. apply reads_loop.
    + intros l. destruct (List.last _ _); [apply preserves_ret|apply preserves_raise].
  - apply preserves_seq; [apply reads_on_client, reads_postcode_once|]. intros r. apply preserves_ret.
Qed.
End Sampler.
End Lifts.

(** What a run asked over IPMI. *)
Definition is_query (c : ipmi_call) : Prop :=
  match c with Connect _ _ _ _ | GetPower | GetBootdev | GetMci => True | _ => False end.
Definition ipmi_queries (i i' : ipmi) : Prop := exists l, i_calls i' = i_calls i ++ l /\ Forall is_query l.

Lemma field_queries field getter : only_calls is_query getter -> only_calls is_query (Info.read_ipmi_field field getter).
Proof. intros Hg i. unfold Info.read_ipmi_field. specialize (Hg i). by destruct (getter i) as [[v|[]|] i']. Qed.
Lemma facts_query client : only_calls is_query (Info.gather_ipmi_facts client).
Proof.
  repeat (apply calls_bind; [apply field_queries|intros]); try apply calls_ret.
  - apply calls_bind; [by apply calls_get_power|intros; apply calls_ret].
  - apply calls_bind; [by apply calls_get_bootdev|intros; apply calls_ret].
  - by apply calls_get_mci.
Qed.
Lemma connect_queries p : only_calls is_query (build_ipmi_client p).
Proof. apply calls_bind; [by apply calls_connect|]. intros. apply calls_ret. Qed.

(** The facts module's worlds: queries over IPMI; over the web reads, and
    nothing at all unless a web session was asked for. *)
Definition info_frame (p : Connection) (web : bool) (w w' : Info.world) : Prop :=
  ipmi_queries (Info.w_ipmi w) (Info.w_ipmi w') /\ web_reads p (Info.w_asp w) (Info.w_asp w') /\
  (web = false -> Info.w_asp w' = Info.w_asp w).

Section World.
Context (le : text -> option pyval) (p : Connection) (w0 : Info.world).
(** What has happened since [w0], with [Q] of the web client's state. *)
Definition since (Q : asp -> Prop) (w : Info.world) : Prop := ipmi_queries (Info.w_ipmi w0) (Info.w_ipmi w) /\ Q (Info.w_asp w).

Lemma since_ipmi {A} Q (c : io ipmi exn A) : only_calls is_query c -> preserves (since Q) (Info.on_ipmi c).
Proof.
  intros Hc w [(l & Hl & HP) HQ]. unfold Info.on_ipmi. destruct (Hc (Info.w_ipmi w)) as (l2 & Hl2 & HP2).
  destruct (c (Info.w_ipmi w)) as [o i]. split; [|done]. exists (l ++ l2). cbn in Hl2 |- *.
  rewrite Hl2, Hl, app_assoc. split; [done|]. by apply Forall_app.
Qed.
Lemma since_asp {A} Q (c : io asp exn A) : preserves Q c -> preserves (since Q) (Info.on_asp c).
Proof. intros Hc w [Hi HQ]. unfold Info.on_asp. specialize (Hc _ HQ). by destruct (c (Info.w_asp w)). Qed.

Lemma since_main Q pyghmi requests web media :
  (web = true -> forall media, preserves Q (Info.gather_web le p media)) ->
  preserves (since Q) (Info.main le p pyghmi requests web media).
Proof.
  intros Hq. apply preserves_library, preserves_library. destruct (media && negb web); [apply preserves_ret|].
  apply preserves_guard; [|intros [[client [facts reads]] [v m]]; apply preserves_ret].
  apply preserves_seq; [apply since_ipmi, connect_queries|]. intros client.
  apply preserves_seq; [apply since_ipmi, facts_query|]. intros facts.
  apply preserves_seq; [|intros; apply preserves_ret]. destruct web; [|apply preserves_ret].
  apply preserves_seq; [by apply since_asp, Hq|intros; apply preserves_ret].
Qed.
End World.

(** A run that preserves the client's invariant has only read. *)
Lemma only_reads p (c : asp -> asp) a :
  (forall N s0, client_inv N s0 (is_read (asp_config p)) a -> client_inv N s0 (is_read (asp_config p)) (c a)) -> web_reads p a (c a).
Proof. intros H. destruct (H (a_net a) (a_sent a)) as [_ Hl]; [|exact Hl]. split; [done|]. exists []. by rewrite app_nil_r. Qed.

(** ** Properties *)

(** C21: The reporting modules never write.  Whatever the controller and the
    network do, and however the run ends, every request that the users,
    network, alerts, audit log, event log, sessions, sensors, inventory and
    POST code modules send is a GET, the login, or one of the two reads that
    take a posted selector. *)
Theorem reports_never_write le p lib check limit after requested names types sections a :
  web_reads p a (users_main le p lib check a).2 /\ web_reads p a (network_main le p lib check a).2 /\
  web_reads p a (alerts_main le p lib a).2 /\ web_reads p a (auditlog_main le p lib a).2 /\
  web_reads p a (Sel.main le p lib limit after a).2 /\ web_reads p a (Sessions.main le p lib check requested a).2 /\
  web_reads p a (Sensors.main le p lib names types a).2 /\ web_reads p a (Inventory.main le p lib sections a).2 /\
  forall lag wall_clock sample i d s,
    web_reads p (Postcode.sp_asp s) (Postcode.sp_asp (Postcode.main le p lag wall_clock lib sample i d s).2).
Proof.
  split_and!.
  1: apply (only_reads p (fun a => (users_main le p lib check a).2)); intros; by apply reads_users.
  1: apply (only_reads p (fun a => (network_main le p lib check a).2)); intros; by apply reads_network.
  1: apply (only_reads p (fun a => (alerts_main le p lib a).2)); intros; by apply reads_alerts.
  1: apply (only_reads p (fun a => (auditlog_main le p lib a).2)); intros; by apply reads_auditlog.
  1: apply (only_reads p (fun a => (Sel.main le p lib limit after a).2)); intros; by apply reads_sel.
  1: apply (only_reads p (fun a => (Sessions.main le p lib check requested a).2)); intros; by apply reads_sessions.
  1: apply (only_reads p (fun a => (Sensors.main le p lib names types a).2)); intros; by apply reads_sensors.
  1: apply (only_reads p (fun a => (Inventory.main le p lib sections a).2)); intros; by apply reads_inventory.
  intros lag wall_clock sample i d s.
  destruct (reads_postcode le p (a_net (Postcode.sp_asp s)) (a_sent (Postcode.sp_asp s)) lag wall_clock lib sample i d s) as [_ H]; [|exact H].
  split; [done|]. exists []. by rewrite app_nil_r.
Qed.

(** Gathering facts changes nothing.  However a run of the facts module
    ends, it called nothing of the IPMI library but the session, the power
    state, the boot device and the controller's identity; over the web it
    only read, and unless a web session was asked for it did not touch the
    web at all.  Asking for media settings without a web session is refused
    before anything is contacted. *)
Theorem info_only_queries le p pyghmi requests web media w :
  info_frame p web w (Info.main le p pyghmi requests web media w).2 /\
  (media = true -> web = false -> exists f, Info.main le p pyghmi requests web media w = (Ret (FailJson f), w)).
Proof.
  assert (ipmi_queries (Info.w_ipmi w) (Info.w_ipmi w)) as Hi by (exists []; by rewrite app_nil_r).
  split.
  - destruct (since_main le p w (client_inv (a_net (Info.w_asp w)) (a_sent (Info.w_asp w)) (is_read (asp_config p))) pyghmi requests web media)
      with (s := w) as [H1 [_ H2]].
    + intros _ m. apply reads_web.
    + split; [done|]. split; [done|]. exists []. by rewrite app_nil_r.
    + split_and!; [done|done|]. intros ->.
      by destruct (since_main le p w (fun a => a = Info.w_asp w) pyghmi requests false media ltac:(done) w (conj Hi eq_refl)) as [_ H].
  - intros -> ->. unfold Info.main, with_library. destruct pyghmi as [[m e]|]; by eexists.
Qed.

(** ** Argument specifications *)

(** The value a default may be. *)
Fixpoint typed (t : arg_type) (v : pyval) : bool :=
  match t, v with
  | _, PNone | TStr, PStr _ | TPath, PStr _ | TInt, PInt _ | TBool, PBool _ | TFloat, POpaque _ => true
  | TList t, PList l => forallb (typed t) l
  | _, _ => false
  end.
Definition chosen (choices : list text) (v : pyval) : bool :=
  match choices, v with
  | [], _ | _, PNone => true
  | _, PList l => forallb (fun x => existsb (fun c => py_eq x (PStr c)) choices) l
  | _, x => existsb (fun c => py_eq x (PStr c)) choices
  end.
Definition arg_ok (a : arg_spec) : bool :=
  typed (as_type a) (as_default a) && chosen (as_choices a) (as_default a)
  && (negb (as_required a) || match as_default a with PNone => true | _ => false end).

Definition SECRET_OPTIONS : list text := [$"password"; $"token"].
Definition spec_ok (spec : argspec) : bool :=
  bool_decide (NoDup (map fst spec)) && forallb (fun p => arg_ok (snd p)) spec
  && forallb (fun p => bool_decide (as_no_log (snd p) = bool_decide (fst p ∈ SECRET_OPTIONS))) spec.

(** The specifications of the modules that take a connection, and of those
    that do not. *)
Definition CONNECTION_SPECS : list argspec :=
  [Power.argument_spec; Boot.argument_spec; Identify.argument_spec; Reset.argument_spec; Ntp.argument_spec; Users.argument_spec;
   Network.argument_spec; Alerts.argument_spec; AuditLog.argument_spec; Sel.argument_spec; Sessions.argument_spec;
   Sensors.argument_spec; Inventory.argument_spec; Postcode.argument_spec; Redirection.argument_spec; Info.argument_spec;
   Console.argument_spec; MediaSpec.argument_spec].
Definition LOCAL_SPECS : list argspec := [Bootstrap.argument_spec; OriginModule.argument_spec].

(** The modules' options are well typed and safe by default.  In every
    specification the names are distinct, each default is of its option's
    type and among its choices, and no required option has one; the password
    and the token, and nothing else, are kept out of logs.  Where there is a
    connection, the password must be given, certificates are validated, TLS
    is used and plain transport is refused unless the caller says otherwise. *)
Theorem specs_typed_and_safe :
  Forall (fun spec => spec_ok spec = true) (CONNECTION_SPECS ++ LOCAL_SPECS) /\
  Forall (fun spec =>
    (exists a, assoc_get spec ($"password") = Some a /\ as_required a = true /\ as_no_log a = true) /\
    as_default <$> assoc_get spec ($"use_tls") = Some (PBool true) /\
    as_default <$> assoc_get spec ($"validate_certs") = Some (PBool true) /\
    as_default <$> assoc_get spec ($"allow_insecure_transport") = Some (PBool false)) CONNECTION_SPECS.
Proof.
  split.
  - apply List.Forall_forall, forallb_forall. by vm_compute.
  - repeat (apply List.Forall_cons; [split_and!; [eexists; split; [vm_compute; reflexivity|by split]|by vm_compute..]|]). apply List.Forall_nil.
Qed.
