(* ===== verification/AsmbAnswers.v ===== *)
(** * The web modules always answer

    What a run needs to come to an end: an outcome for every attempt it may
    make, and an HTTP library that raises only the failures the client
    names.  The modules of this file then end in a result, successful or
    not, whatever the controller sends: nothing hangs and nothing escapes as
    a traceback, but for the exceptions of a decoder where a module does not
    catch them, which are named.  Where a module makes its client outside the
    guarded part, the connection parameters have to be acceptable too. *)
From Stdlib Require Import ZArith Lia Ascii String.
From stdpp Require Import prelude.
From S2P Require Import Prelude PyBytes PyText Regex Errors Models PyValue Webvar Asp Ansible AsmbNtp AsmbReports.
From S2P Require Import AsmbSel AsmbSessions AsmbInventory AsmbPostcode.

(** ** Computations that settle

    The state has a web client in it; [Q] holds of the exceptions that may
    escape beside the classified ones. *)
Section Settling.
Context {W : Type} (web : W -> asp) (Q : exn -> Prop).

Definition settles {A} (n : nat) (c : io W exn A) : Prop := forall m s,
  (n + m <= length (a_net (web s)))%nat -> net_classified (web s) ->
  match c s with
  | (Ret _, s') => (m <= length (a_net (web s')))%nat /\ net_classified (web s')
  | (Raise e, _) => classified e \/ Q e
  | (Blocked, _) => False
  end.

Lemma settles_ret {A} n (x : A) : settles n (io_ret x).
Proof. intros m s Hn Hs. cbn. split; [lia|done]. Qed.
Lemma settles_raise {A} n e : classified e \/ Q e -> settles n (io_raise (A := A) e).
Proof. by intros H m s _ _. Qed.
Lemma settles_lift {A} n (r : result exn A) : (forall e, r = Err e -> classified e \/ Q e) -> settles n (io_lift r).
Proof. intros H. destruct r as [x|e]; [apply settles_ret|by apply settles_raise, H]. Qed.
Lemma settles_bind {A B} n1 n2 (c : io W exn A) (k : A -> io W exn B) :
  settles n1 c -> (forall x, settles n2 (k x)) -> settles (n1 + n2) (io_bind c k).
Proof.
  intros H1 Hk m s Hn Hs. specialize (H1 (n2 + m)%nat s ltac:(lia) Hs). unfold io_bind.
  destruct (c s) as [[x|e|] s1]; [|done|done]. destruct H1 as [Hl Hc]. by apply Hk.
Qed.
Lemma settles_then {A B} n (c : io W exn A) (k : A -> io W exn B) :
  settles n c -> (forall x, settles 0 (k x)) -> settles n (io_bind c k).
Proof. intros H1 Hk. replace n with (n + 0)%nat by lia. by apply settles_bind. Qed.
Lemma settles_lifted {A B} n (r : result exn A) (k : A -> io W exn B) :
  (forall e, r = Err e -> classified e \/ Q e) -> (forall x, r = Ok x -> settles n (k x)) -> settles n (io_bind (io_lift r) k).
Proof. intros He Hk. destruct r as [x|e]; [by apply Hk|by apply settles_raise, He]. Qed.
Lemma settles_more {A} n m (c : io W exn A) : (n <= m)%nat -> settles n c -> settles m c.
Proof. intros Hle H x s Hx. apply H. lia. Qed.

(** A module that comes to a result, or ends with one of [Q]. *)
Definition answers (n : nat) (c : io W exn module_result) : Prop := forall s,
  (n <= length (a_net (web s)))%nat -> net_classified (web s) ->
  (exists r s', c s = (Ret r, s')) \/ exists e s', c s = (Raise e, s') /\ Q e.

Lemma answer_ret n r : answers n (io_ret r).
Proof. intros s _ _. left. by eexists _, _. Qed.
Lemma answers_library n lib c : answers n c -> answers n (with_library lib c).
Proof. intros H. destruct lib as [[m e]|]; [apply answer_ret|exact H]. Qed.
Lemma answers_guard {A} n (c : io W exn A) k : settles n c -> (forall x, answers 0 (k x)) -> answers n (try_ikvm c k).
Proof.
  intros H1 Hk s Hn Hs. specialize (H1 0%nat s ltac:(lia) Hs). unfold try_ikvm.
  destruct (c s) as [[x|e|] s1]; [apply Hk; [lia|apply H1]| |done].
  destruct H1 as [[err ->]|He]; [left; by eexists _, _|]. destruct e; first [left; by eexists _, _|right; by eexists _, _].
Qed.
End Settling.

(** With nothing to escape there is a result. *)
Lemma answered {W} (web : W -> asp) n c : answers web (fun _ => False) n c ->
  forall s, (n <= length (a_net (web s)))%nat -> net_classified (web s) -> exists r s', c s = (Ret r, s').
Proof. intros H s Hn Hs. by destruct (H s Hn Hs) as [Hr|(e & s' & _ & [])]. Qed.

(** ** The operations of the client *)
Section Client.
Context (le : text -> option pyval) (p : Connection) (Q : exn -> Prop).
Local Abbreviation cfg := (asp_config p).
Local Abbreviation settles := (settles (fun a : asp => a) Q).
Local Abbreviation answers := (answers (fun a : asp => a) Q).

Lemma settles_of {A} n (c : io asp exn A) : replies n c -> client_ok c -> settles n c.
Proof.
  intros H1 H2 m a Hn Ha. destruct (H1 m a Hn) as [Hb Hl]. specialize (H2 a Ha).
  destruct (c a) as [[x|e|] a']; [by split|by left|done].
Qed.

Lemma settles_build : settles 0 (build_asp_client p).
Proof.
  apply settles_of; [apply replies_build|]. intros a Ha. unfold build_asp_client, AspClient_init.
  assert (forall tls allow, match enforce_transport_policy tls allow with Ok _ => True | Err e => classified e end) as Henf.
  { intros [] []; cbn; try done; by eexists. }
  specialize (Henf (ac_use_tls cfg) (c_allow_insecure p)). destruct (enforce_transport_policy _ _) as [[]|e]; cbn [rbind]; [|exact Henf].
  destruct (TlsTrustPolicy_create _ _ _); [exact Ha|by eexists].
Qed.
Lemma settles_login : settles (attempts cfg) (login cfg).
Proof.
  apply settles_of; [apply replies_login|]. unfold login. apply client_bind; [apply client_retry|]. intros body.
  destruct (field SESSION_COOKIE_RE body) as [c|]; [|intros a Ha; eexists; reflexivity].
  destruct (_ || _); [intros a Ha; eexists; reflexivity|]. apply client_bind; [by apply client_modify|]. intros _. apply client_ret.
Qed.
Lemma settles_fetch method endpoint op data : settles (attempts cfg) (fetch_webvar cfg le method endpoint op data).
Proof. apply settles_of; [apply replies_fetch|apply client_fetch]. Qed.
Lemma settles_page endpoint op : settles (attempts cfg) (read_records le cfg endpoint op).
Proof. apply settles_then; [apply settles_fetch|]. intros r. apply settles_ret. Qed.
Lemma settles_post endpoint data : settles (attempts cfg) (post_records le cfg endpoint data).
Proof. apply settles_then; [apply settles_fetch|]. intros r. apply settles_ret. Qed.
Lemma settles_write endpoint data op : settles (attempts cfg) (set_webvar cfg le endpoint data op).
Proof.
  apply settles_then; [apply settles_fetch|].
  intros r. destruct (negb _); [apply settles_raise; left; by eexists|apply settles_ret].
Qed.
Lemma settles_degraded fld endpoint transform : settles (attempts cfg) (read_endpoint le cfg fld endpoint transform).
Proof.
  intros m a Hn Ha. pose proof (preserves_net le cfg endpoint a Ha) as Hc. destruct (replies_read cfg le endpoint None m a Hn) as [_ Hl].
  pose proof (settles_page endpoint None m a Hn Ha) as H. unfold read_endpoint.
  destruct (read_records le cfg endpoint None a) as [[rs|[]|] a']; cbn [fst snd] in *; done.
Qed.
Lemma settles_pages pages : settles (length pages * attempts cfg) (gather_pages le cfg pages).
Proof.
  induction pages as [|[[f e] t] pages IH]; cbn [gather_pages length Nat.mul]; [apply settles_ret|].
  apply settles_bind; [apply settles_degraded|]. intros v. apply settles_then; [exact IH|]. intros rest. apply settles_ret.
Qed.

(** The client is made, and then it is the one of these parameters. *)
Lemma settles_built {A} n (k : AspConfig -> io asp exn A) : settles n (k cfg) -> settles n (do client <- build_asp_client p; k client).
Proof.
  intros Hk m a Hn Ha. pose proof (settles_build (n + m)%nat a Hn Ha) as Hb. unfold io_bind.
  destruct (build_asp_client p a) as [[client|e|] a1] eqn:E; [|done|done]. destruct Hb as [Hl Hc].
  apply build_returns in E as (-> & _). by apply Hk.
Qed.

(** The parameters are ones a client is made of. *)
Definition acceptable : Prop := forall net, exists pol,
  AspClient_init cfg (c_allow_insecure p) (c_validate_certs p) (c_ca_path p) (c_tls_fingerprint p) net = Ok pol.

Lemma answers_built n (k : AspConfig -> io asp exn module_result) :
  acceptable -> answers n (k cfg) -> answers n (do client <- build_asp_client p; k client).
Proof.
  intros Hp Hk a Hn Ha. unfold io_bind, build_asp_client. destruct (Hp (a_net a)) as [[[pol pool] fresh] ->]. by apply Hk.
Qed.
End Client.

(** ** The modules *)
Section Modules.
Context (le : text -> option pyval) (p : Connection) (lib : library).
Local Abbreviation cfg := (asp_config p).
Local Abbreviation n := (attempts cfg).
Local Abbreviation nothing := (fun _ : exn => False).

(** asmb8_users and asmb8_network *)
Lemma report_answers {A} (check : bool) (gather : AspConfig -> io asp exn A) unread reported m :
  settles (fun a : asp => a) nothing (m * n) (gather cfg) ->
  answers (fun a : asp => a) nothing (m * n)
    (with_library lib
       (if check then io_ret unread
        else try_ikvm (do client <- build_asp_client p; do report <- gather client; io_ret (client, report))
               (fun '(client, report) => io_ret (reported client report)))).
Proof.
  intros Hg. apply answers_library. destruct check; [apply answer_ret|]. apply answers_guard; [|intros [c r]; apply answer_ret].
  apply settles_built. apply settles_then; [exact Hg|]. intros r. apply settles_ret.
Qed.
Lemma users_answers check : answers (fun a : asp => a) nothing (4 * n) (users_main le p lib check).
Proof.
  apply report_answers, (settles_more _ _ (n + (n + (n + (n + 0))))); [lia|].
  repeat (apply settles_bind; [first [apply settles_login|apply settles_page]|intros ?]). destruct (Users.build_users_report _). apply settles_ret.
Qed.
Lemma network_answers check : answers (fun a : asp => a) nothing (6 * n) (network_main le p lib check).
Proof.
  apply report_answers, (settles_more _ _ (n + (n + (n + (n + (n + (n + 0))))))); [lia|].
  repeat (apply settles_bind; [first [apply settles_login|apply settles_page]|intros ?]). apply settles_ret.
Qed.

(** asmb8_alerts and asmb8_auditlog *)
Lemma pages_answer action pages fields :
  acceptable p -> answers (fun a : asp => a) nothing ((1 + length pages) * n) (pages_main le p lib action pages fields).
Proof.
  intros Hp. apply answers_library, answers_built; [exact Hp|]. apply answers_guard; [|intros [v r]; apply answer_ret].
  apply settles_bind; [apply settles_login|]. intros _. apply settles_pages.
Qed.

(** asmb8_ntp: read, write, read back *)
Lemma ntp_answers check params : answers (fun a : asp => a) nothing (4 * n) (Ntp.main le p lib check params).
Proof.
  apply answers_library, answers_guard; [|intros r; apply answer_ret].
  apply settles_built, (settles_more _ _ (n + (n + (n + (n + 0))))); [lia|].
  apply settles_bind; [apply settles_login|intros _]. apply settles_bind; [apply settles_then; [apply settles_page|intros rs; apply settles_ret]|].
  intros current. destruct (Ntp.plan _ _) as [desired changed]. destruct (_ || _); [apply settles_ret|].
  destruct (Ntp.enabled desired); [|apply settles_raise; left; by eexists]. apply settles_bind; [apply settles_write|intros _].
  apply settles_bind; [apply settles_then; [apply settles_page|intros rs; apply settles_ret]|]. intros observed. apply settles_ret.
Qed.

(** asmb8_sel: [int] of the two counters *)
Definition not_a_number (e : exn) : Prop := exists v, int_of v = Err e.
Lemma settles_number endpoint name :
  settles (fun a : asp => a) not_a_number n (Sel.read_number le cfg endpoint name).
Proof.
  apply settles_then; [apply settles_page|]. intros rs.
  destruct (match rs with r :: _ => dict_find r name | [] => None end) as [v|];
    [apply settles_lift; intros e He; right; by exists v|apply settles_raise; left; by eexists].
Qed.
Lemma sel_answers limit after_event_id : acceptable p -> answers (fun a : asp => a) not_a_number (4 * n) (Sel.main le p lib limit after_event_id).
Proof.
  intros Hp. apply answers_library. destruct (Sel.is_negative limit); [apply answer_ret|].
  destruct (Sel.is_negative after_event_id); [apply answer_ret|]. apply answers_built; [exact Hp|].
  apply answers_guard; [|intros [[[? ?] ?] ?]; apply answer_ret]. apply (settles_more _ _ (n + (n + (n + (n + 0))))); [lia|].
  apply settles_bind; [apply settles_login|intros _]. apply settles_bind.
  { destruct after_event_id; (apply settles_then; [first [apply settles_post|apply settles_page]|intros rs; apply settles_ret]). }
  intros [es k]. repeat (apply settles_bind; [apply settles_number|intros ?]). apply settles_ret.
Qed.

(** asmb8_inventory: the parsers of the sections *)
Definition not_parsed (e : exn) : Prop := exists s rs, Inventory.section_parser s rs = Err e.
Lemma inventory_answers requested : answers (fun a : asp => a) not_parsed ((1 + length requested) * n) (Inventory.main le p lib requested).
Proof.
  assert (forall found, settles (fun a : asp => a) not_parsed (length requested * n) (Inventory.read_sections le cfg requested found)) as Hs.
  { induction requested as [|s requested IH]; intros found; cbn [Inventory.read_sections length Nat.mul]; [apply settles_ret|].
    apply settles_bind; [apply settles_page|]. intros rs.
    apply settles_lifted; [intros e He; right; by exists s, rs|intros v _; apply IH]. }
  apply answers_library, answers_guard; [|intros [c found]; apply answer_ret]. apply settles_built.
  apply settles_bind; [apply settles_login|intros _]. apply settles_then; [apply Hs|]. intros found. apply settles_ret.
Qed.

(** asmb8_sessions: the table of services; a [ValueError] is caught *)
Definition not_decoded (e : exn) : Prop :=
  Sessions.value_error e = None /\
  ((exists rs, Sessions.known_service_ids rs = Err e \/ Sessions.build_services_report rs = Err e) \/
   exists requested ids, Sessions.resolve_requested_session_services requested ids = Err e).
Local Abbreviation gathering := (fun e => Sessions.value_error e <> None \/ not_decoded e).

Lemma gathering_decoded e :
  (exists rs, Sessions.known_service_ids rs = Err e \/ Sessions.build_services_report rs = Err e) \/
  (exists requested ids, Sessions.resolve_requested_session_services requested ids = Err e) ->
  classified e \/ gathering e.
Proof. intros H. right. destruct (Sessions.value_error e) eqn:E; [by left|by right]. Qed.
Lemma first_seen_length names seen : (length (first_seen seen names) <= length names)%nat.
Proof.
  revert seen. induction names as [|x names IH]; intros seen; cbn; [done|].
  destruct (existsb _ _); cbn; [pose proof (IH seen)|pose proof (IH (x :: seen))]; lia.
Qed.

Lemma settles_active names ids :
  (forall q, q ∈ names -> exists id, Sessions.id_of ids q = Ok id) ->
  settles (fun a : asp => a) gathering (length names * n) (Sessions.fetch_active_sessions le cfg names ids).
Proof.
  induction names as [|q names IH]; intros Hq; cbn [Sessions.fetch_active_sessions length Nat.mul]; [apply settles_ret|].
  apply settles_lifted; [destruct (Hq q) as [id ->]; [left|done]|intros id _]. apply settles_bind; [apply settles_post|].
  intros rs. apply settles_then; [apply IH; intros x Hx; apply Hq; by right|]. intros rest. apply settles_ret.
Qed.
Lemma settles_remote : settles (fun a : asp => a) gathering n (Sessions.fetch_remote_session_config le cfg).
Proof.
  intros m a Hn Ha. pose proof (preserves_net le cfg ($"getremotesession") a Ha) as Hc.
  destruct (replies_read cfg le ($"getremotesession") None m a Hn) as [Hb Hl].
  pose proof (settles_page le p gathering ($"getremotesession") None m a Hn Ha) as H.
  unfold Sessions.fetch_remote_session_config, io_try, io_bind.
  destruct (read_records le cfg ($"getremotesession") None a) as [[rs|e|] a']; cbn [fst snd] in *; [by split|by destruct (Sessions.is_protocol e)|done].
Qed.

Lemma queried_few requested ids queried :
  Sessions.ALL_SERVICES_SENTINEL ∉ default [] requested ->
  Sessions.resolve_requested_session_services requested ids = Ok queried ->
  (length queried <= length (default [] requested))%nat /\ forall q, q ∈ queried -> exists id, Sessions.id_of ids q = Ok id.
Proof.
  intros Hall E. pose proof (Sessions.session_services_resolved requested ids) as Hr. rewrite E in Hr. destruct Hr as [Hq Hr]. split; [|done].
  destruct Hr as [[_ ->]|[[Hin _]|(l & -> & -> & _)]]; [cbn; lia|done|]. rewrite length_map. apply first_seen_length.
Qed.
Lemma settles_report requested :
  Sessions.ALL_SERVICES_SENTINEL ∉ default [] requested ->
  settles (fun a : asp => a) gathering ((3 + length (default [] requested)) * n) (Sessions.gather_report le cfg requested).
Proof.
  intros Hall. set (k := length (default [] requested)).
  apply (settles_more _ _ (n + (n + (n + (k * n + 0))))%nat); [lia|].
  apply settles_bind; [apply settles_login|intros _]. apply settles_bind; [apply settles_page|intros rs].
  apply settles_lifted; [intros e He; apply gathering_decoded; left; exists rs; by left|intros ids _].
  apply settles_bind; [apply settles_remote|intros remote].
  apply settles_lifted; [intros e He; apply gathering_decoded; right; by exists requested, ids|intros queried Hq].
  apply queried_few in Hq as [Hlen Hid]; [|done]. apply settles_bind.
  - destruct queried as [|q queried]; [apply settles_ret|]. apply (settles_more _ _ (length (q :: queried) * n)); [unfold k; nia|].
    apply settles_then; [by apply settles_active|intros l; apply settles_ret].
  - intros active. apply settles_lifted; [intros e He; apply gathering_decoded; left; exists rs; by right|intros report _]. apply settles_ret.
Qed.
Lemma sessions_answers check requested :
  Sessions.ALL_SERVICES_SENTINEL ∉ default [] requested ->
  answers (fun a : asp => a) not_decoded ((3 + length (default [] requested)) * n) (Sessions.main le p lib check requested).
Proof.
  intros Hall. apply answers_library. destruct check; [apply answer_ret|].
  assert (settles (fun a : asp => a) gathering ((3 + length (default [] requested)) * n)
    (do client <- build_asp_client p; do report <- Sessions.gather_report le client requested; io_ret (Sessions.success client report))) as H.
  { apply settles_built. apply settles_then; [by apply settles_report|intros r; apply settles_ret]. }
  intros a Hn Ha. specialize (H 0%nat a ltac:(lia) Ha). unfold try_ikvm, io_try.
  destruct (io_bind _ _ a) as [[r|e|] a']; [left; by eexists _, _| |done]. destruct (Sessions.value_error e) as [msg|] eqn:E; [left; by eexists _, _|].
  destruct H as [[err ->]|[He|He]]; [left; by eexists _, _|done|]. destruct e; try discriminate E; try (right; by eexists _, _). left. by eexists _, _.
Qed.
End Modules.

(** ** The POST codes: a client under a clock *)
Section PostCodes.
Context (le : text -> option pyval) (p : Connection) (lib : library) (lag : nat -> Z) (wall_clock : Z -> text) (L : Z).
Hypothesis lag_bounds : forall n, 0 <= lag n <= L.
Local Abbreviation cfg := (asp_config p).
Local Abbreviation nothing := (fun _ : exn => False).
Local Abbreviation settles_under_clock := (settles Postcode.sp_asp nothing).

Lemma settles_on_client {A} n (c : io asp exn A) :
  settles (fun a : asp => a) nothing n c -> settles_under_clock n (Postcode.on_client lag c).
Proof.
  intros H m s Hn Hs. specialize (H m (Postcode.sp_asp s) Hn Hs). unfold Postcode.on_client. by destruct (c _) as [[x|e|] a'].
Qed.
Lemma settles_code : settles_under_clock (attempts cfg) (Postcode.on_client lag (Postcode.read_post_code le cfg)).
Proof.
  apply settles_on_client, settles_then; [apply settles_page|]. intros [|r rs]; [apply settles_raise; left; by eexists|].
  destruct (dict_find r _); [apply settles_ret|apply settles_raise; left; by eexists].
Qed.

(** The loop does what its reads do; that it does not run out of polls is
    [sample_loop_spec]. *)
Lemma sample_loop_reads fuel i d start observations m s :
  (fuel * attempts cfg + m <= length (a_net (Postcode.sp_asp s)))%nat -> net_classified (Postcode.sp_asp s) ->
  match Postcode.sample_loop le lag wall_clock fuel cfg i d start observations s with
  | (Ret _, s') => (m <= length (a_net (Postcode.sp_asp s')))%nat /\ net_classified (Postcode.sp_asp s')
  | (Raise e, _) => classified e
  | (Blocked, _) => True
  end.
Proof.
  revert observations s. induction fuel as [|fuel IH]; intros observations s Hn Hs; [done|].
  cbn [Postcode.sample_loop]. unfold io_bind, Postcode.monotonic. cbn beta iota. cbn [Nat.mul] in Hn.
  pose proof (settles_code (fuel * attempts cfg + m)%nat s ltac:(lia) Hs) as Hr.
  destruct (Postcode.on_client lag (Postcode.read_post_code le cfg) s) as [[r|e|] s1]; [|by destruct Hr|done].
  destruct Hr as [H1 H2]. cbv zeta. destruct (_ <? _); [cbn; split; [lia|done]|]. unfold Postcode.sleep. by apply IH.
Qed.
Lemma settles_sample i d : Postcode.validate_sampling_bounds i d = None ->
  settles_under_clock (Postcode.sample_fuel i d * attempts cfg) (Postcode.sample_post_codes le lag wall_clock cfg i d) /\
  forall s l s', Postcode.sample_post_codes le lag wall_clock cfg i d s = (Ret l, s') -> l <> [].
Proof using lag_bounds.
  intros Hb. apply Postcode.bounds_valid in Hb as [Hi Hd]. pose proof (lag_bounds 0%nat).
  assert (forall s, _) as Hspec by (intros s; refine (Postcode.sample_loop_spec le lag wall_clock cfg i d (Postcode.sp_clock s) L lag_bounds
    ltac:(lia) (Postcode.sample_fuel i d) 0 [] s _ eq_refl _ _);
    [split; lia|intros j o Hj; by rewrite lookup_nil in Hj|unfold Postcode.sample_fuel; assert (0 <= d / i) by (apply Z.div_pos; lia); lia]).
  unfold Postcode.sample_post_codes, io_bind, Postcode.monotonic. split.
  - intros m s Hn Hs. destruct (Hspec s) as (_ & Hb & _). specialize (Hb ltac:(lia)).
    pose proof (sample_loop_reads _ i d (Postcode.sp_clock s) [] m s Hn Hs) as Hr.
    destruct (Postcode.sample_loop _ _ _ _ _ _ _ _ _ s) as [[l|e|] s']; [exact Hr|by left|by apply Hb].
  - intros s l s' E. destruct (Hspec s) as (_ & _ & Hy). rewrite E in Hy. destruct Hy as (Hl & _). intros ->. cbn in Hl. lia.
Qed.

Lemma answers_clock_built n (k : AspConfig -> io Postcode.sampler exn module_result) :
  acceptable p -> answers Postcode.sp_asp nothing n (k cfg) ->
  answers Postcode.sp_asp nothing n (do client <- Postcode.on_client lag (build_asp_client p); k client).
Proof.
  intros Hp Hk s Hn Hs. unfold io_bind, Postcode.on_client, build_asp_client.
  destruct (Hp (a_net (Postcode.sp_asp s))) as [[[pol pool] fresh] ->]. by apply Hk.
Qed.

Lemma post_code_answers (sample : bool) i d :
  acceptable p ->
  answers Postcode.sp_asp nothing ((1 + (if sample then Postcode.sample_fuel i d else 1)) * attempts cfg)%nat
    (Postcode.main le p lag wall_clock lib sample i d).
Proof using lag_bounds.
  intros Hp. apply answers_library. destruct (if sample then Postcode.validate_sampling_bounds i d else None) as [err|] eqn:Ev; [apply answer_ret|].
  apply answers_clock_built; [exact Hp|]. apply answers_guard; [|intros [[c k] r]; apply answer_ret].
  apply settles_bind; [apply settles_on_client, settles_login|intros _]. unfold Postcode.read_mode. destruct sample.
  - destruct (settles_sample i d Ev) as [H1 H2]. intros m s' Hm Hc. specialize (H1 m s' Hm Hc). unfold io_bind.
    destruct (Postcode.sample_post_codes _ _ _ _ _ _ s') as [[l|e|] s2] eqn:E; [|done|done]. apply H2 in E.
    destruct (exists_last E) as (l' & o & ->). rewrite map_app. cbn [map]. rewrite List.last_last. exact H1.
  - apply (settles_more _ _ (attempts cfg)); [lia|]. apply settles_then; [apply settles_code|]. intros r. apply settles_ret.
Qed.
End PostCodes.

(** ** The property *)

(** C22: The web modules always answer.  As long as the HTTP library raises
    only the failures the client names and gives every attempt an outcome
    (at most the allowed attempts for the login and for each page), a run of
    the users, the network or the time module ends in a result, whatever
    the controller sends and whatever the parameters; so does one of the
    alerts, of the audit log and of the POST code module, sampling included,
    when its parameters make a client.  A run of the event log, the inventory
    or the sessions module does too, or it ends with the exception its own
    decoder raised: a counter that is no number, a section that does not
    parse, a service table that is not one (but never a [ValueError], which
    the sessions module reports).  Nothing else leaves a module hanging or
    ends it with a traceback. *)
Theorem web_modules_answer le p lib a :
  net_classified a ->
  let enough k := (k * attempts (asp_config p) <= length (a_net a))%nat in
  let ends (c : io asp exn module_result) := exists r a', c a = (Ret r, a') in
  let ends_or_raises (Q : exn -> Prop) (c : io asp exn module_result) := ends c \/ exists e a', c a = (Raise e, a') /\ Q e in
  (forall check, enough 4%nat -> ends (users_main le p lib check)) /\
  (forall check, enough 6%nat -> ends (network_main le p lib check)) /\
  (forall check params, enough 4%nat -> ends (Ntp.main le p lib check params)) /\
  (acceptable p -> enough (1 + length Alerts.pages)%nat -> ends (alerts_main le p lib)) /\
  (acceptable p -> enough (1 + length AuditLog.pages)%nat -> ends (auditlog_main le p lib)) /\
  (forall limit after, acceptable p -> enough 4%nat -> ends_or_raises not_a_number (Sel.main le p lib limit after)) /\
  (forall requested, enough (1 + length requested)%nat -> ends_or_raises not_parsed (Inventory.main le p lib requested)) /\
  (forall check requested, Sessions.ALL_SERVICES_SENTINEL ∉ default [] requested -> enough (3 + length (default [] requested))%nat ->
     ends_or_raises not_decoded (Sessions.main le p lib check requested)) /\
  (forall lag wall_clock L (sample : bool) i d s, (forall n, 0 <= lag n <= L) -> acceptable p -> Postcode.sp_asp s = a ->
     enough (1 + (if sample then Postcode.sample_fuel i d else 1))%nat ->
     exists r s', Postcode.main le p lag wall_clock lib sample i d s = (Ret r, s')).
Proof.
  intros Ha enough ends ends_or_raises. split_and!.
  - intros check Hn. apply (answered _ _ _ (users_answers le p lib check) a Hn Ha).
  - intros check Hn. apply (answered _ _ _ (network_answers le p lib check) a Hn Ha).
  - intros check params Hn. apply (answered _ _ _ (ntp_answers le p lib check params) a Hn Ha).
  - intros Hp Hn. apply (answered _ _ _ (pages_answer le p lib _ _ _ Hp) a Hn Ha).
  - intros Hp Hn. apply (answered _ _ _ (pages_answer le p lib _ _ _ Hp) a Hn Ha).
  - intros limit after Hp Hn. apply (sel_answers le p lib limit after Hp a Hn Ha).
  - intros requested Hn. apply (inventory_answers le p lib requested a Hn Ha).
  - intros check requested Hall Hn. apply (sessions_answers le p lib check requested Hall a Hn Ha).
  - intros lag wall_clock L sample i d s Hlag Hp <- Hn.
    apply (answered _ _ _ (post_code_answers le p lib lag wall_clock L Hlag sample i d Hp) s Hn Ha).
Qed.

Lemma web_modules_answer_witness :
  exists r a', users_main (fun _ => None) demo_connection None false (demo_run (replicate 11 HReadTimeout)) = (Ret r, a').
Proof.
  refine (proj1 (web_modules_answer (fun _ => None) demo_connection None (demo_run (replicate 11 HReadTimeout)) _) false _).
  - intros e He. apply (elem_of_cons _ _ _) in He as [He|He]; [discriminate He|]. apply elem_of_replicate in He as [He _]. discriminate He.
  - vm_compute. lia.
Defined.

(** The exceptions are real: a counter that is no number ends the event log
    module with a [ValueError]. *)
Example sel_counter_escapes :
  exists m, (Sel.read_number (fun _ => Some (PList [PDict [(PStr ($"COUNT"), PStr ($"n/a"))]; PDict []])) demo_asp_cfg ($"getmaxselentries") ($"COUNT")
              (demo_client [HResponse demo_body])).1 = Raise (ValueError m).
Proof. eexists. by vm_compute. Qed.
